(* ===== verification/_CoqProject ===== *)
-Q . S2P
Prelude.v
Bytes.v
Text.v
BlockDev.v
Gpt.v
GptFacts.v
GptIo.v
GptManager.v
NtfsTypes.v
NtfsBoot.v
NtfsRuns.v
NtfsAttr.v
NtfsFixups.v
NtfsRecord.v
NtfsRecordFacts.v
NtfsIndex.v
NtfsIndexFacts.v
NtfsStatFacts.v
NtfsDriver.v
NtfsDriverFacts.v
NtfsWriteFacts.v
NtfsCreateFacts.v
NtfsDemo.v
HalFs.v
VfsPath.v
Vfs.v
VfsFacts.v
NtfsVfs.v
NtfsVfsFacts.v
VfsDemo.v
Frames.v
FramesFacts.v
Heap.v
HeapFacts.v
HeapBump.v
HeapLinked.v
HeapBlocks.v
HeapInit.v
PageTables.v
Mmio.v
Pci.v
PciFacts.v
PciWalk.v
Devices.v
PciBus.v
PciBusFacts.v
Drivers.v
DriversFacts.v
PciDemo.v
Async.v
Executor.v
ExecutorFacts.v
SleepFacts.v
KeyReader.v
AsyncDemo.v
Shell.v
ShellTask.v
ShellFacts.v
ShellTaskFacts.v
ShellDemo.v
Dma.v
Ahci.v
AhciHba.v
AhciFacts.v
AhciDemo.v
Virtio.v
VirtioDev.v
VirtioFacts.v
VirtioDemo.v
KernelDma.v
BlockDrivers.v
Installer.v
Display.v
Screen.v
ScreenFacts.v
Console.v
Cpu.v
Startup.v
StartupFacts.v
BuildTool.v
