(* ===== verification/Prelude.v ===== *)
(** * small-os: a verification library

    small-os is an x86-64 operating system in Rust: a kernel with its memory
    management, executor, shell and text screen, libraries for devices, drivers,
    partitions and file systems, an installer, and a build tool. This library
    models its Rust code, translated by hand into executable definitions, and
    proves what the parts promise and how they work together.

    ** How the code is modelled

    A Rust function is a Rocq function with the name it has in the source, with
    a prefix where two functions share one. An outcome is a value ([Ok]), an error
    ([Err]) or a panic ([Panic]); the kernel is built in release mode, so that
    arithmetic wraps ([+w], [-w], [*w], [wrap]) and panics come from indexing,
    slicing, [unwrap], [expect] and assertions. Integers are [Z], bytes are [Z] in
    [0, 256), buffers are lists, maps are [gmap]s. Mutable state is passed by the
    monad [st]: a device, a registry or the hardware is the state an operation
    threads. Shared mutable objects (drivers behind [Arc<Mutex<..>>], the device
    registry, the queues of the executor) live in an explicit store.

    A loop that is not bounded by the data takes fuel and yields [Diverge] when it
    runs out; the theorem about the function shows that this does not happen.
    Fuel is the length of the buffer for the walks over attributes, runs and
    directory entries (each step moves forward), the number of records or
    table entries where the source has that bound, 6 for the base address
    registers, 48 for capability lists (the source's own bound), the depth of the
    source tree for the build tool. Polls of a
    register count down the source's own bound as a binary number ([until]), and
    are reasoned about as [until_nat]. The wait of the virtio driver alone is not
    bounded in the source: its fuel is the number of looks at the used ring, and
    the theorem says how many are enough.

    ** The parts

    - Foundations: [Prelude] (outcomes, the state monad, wrapping arithmetic,
      lists, automation), [Bytes] (slices with their panics, little-endian codecs),
      [Text] (strings and [BTreeMap] order).
    - Block devices ([lib/hal/src/block]): [BlockDev], the trait as the class
      [BlockDevice], and the contracts [ByteDisk] and [SectorDisk] of a device
      addressed in bytes and in sectors, with disks in memory for both.
    - Partitions ([lib/vfs/src/partition/gpt]): [Gpt] and [GptFacts] (structures,
      CRC-32, codecs), [GptIo] ([read_gpt] with its backup, [write_gpt]),
      [GptManager] (formatting and looking up). Theorems: round trips, recovery
      from the backup header, totality of reading, the layout of a formatted disk.
    - NTFS ([lib/vfs/src/fs/ntfs]): [NtfsTypes], [NtfsBoot], [NtfsRuns], [NtfsAttr],
      [NtfsRecord], [NtfsIndex] are the formats on buffers, [NtfsDriver] the driver on
      a device; [NtfsFixups], [NtfsRecordFacts], [NtfsIndexFacts], [NtfsStatFacts] the
      facts about the formats; [NtfsDriverFacts], [NtfsWriteFacts], [NtfsCreateFacts]
      those about the driver; [NtfsDemo] volumes in memory. Theorems: run lists,
      records, fixups and directory entries encode and decode; searching agrees
      with listing; reading ends and writes nothing; overwriting and creating a
      file are read back.
    - File systems ([lib/hal/src/io], [lib/hal/src/fs], [lib/vfs/src]): [HalFs] (the
      traits as classes and the abstract cursor), [VfsPath] (paths, mounts),
      [Vfs] and [VfsFacts] (descriptors, refined by an abstract table), [NtfsVfs] and
      [NtfsVfsFacts] (NTFS behind the traits, refined by a cursor), [VfsDemo].
    - Memory ([kernel/src/memory]): [Frames] and [FramesFacts] (frames out of the
      firmware's map, each once), [Heap] (bump, linked list and fixed-size block
      allocators), [HeapFacts] (the contract [AllocatorSpec] and what follows from it
      for every run of a client), [HeapBump], [HeapLinked], [HeapBlocks] (the
      allocators keep it), [HeapInit] (bringing the heap up), [PageTables] (walking
      the page tables: [translate_addr]).
    - PCI and devices ([lib/hal/src/pci], [lib/bus], [lib/device], [lib/driver]): [Mmio]
      (registers), [Pci], [PciFacts], [PciWalk] (configuration space, base address
      registers, the walk over the bus), [Devices] (the registry of devices),
      [PciBus] and [PciBusFacts] (capabilities, enumeration into the registry),
      [Drivers] and [DriversFacts] (matching and binding), [PciDemo].
    - Block drivers ([lib/driver/src/block]): [Dma] (memory shared with a device,
      polling, recorded accesses), [Ahci] and [Virtio] (the drivers), [AhciHba] and
      [VirtioDev] (the hardware as contracts), [AhciFacts] and [VirtioFacts] (the
      footprint of every operation on any hardware; on hardware that keeps the
      contract, an AHCI port refines a disk of sectors and the first virtio
      request is carried out), [AhciDemo] and [VirtioDemo] (executable hardware that
      keeps them), [KernelDma] (the drivers on the kernel's allocator),
      [BlockDrivers] (both behind the interfaces of the registry).
    - The processor ([kernel/src/interrupts]): [Cpu], the descriptor tables, the
      stack of double faults, the interrupt controllers, the exception handlers.
      Theorems: the start of the processor opens no gap, and after it every
      interrupt reaches its handler and is acknowledged, which is what the
      transition system of [Executor] takes for granted.
    - Start-up and installer ([kernel/src/lib.rs], [kernel/src/main.rs], [installer/src],
      [lib/hal/src/acpi]): [Installer] (the pass over the disks), [Startup] (both
      [init] functions as compositions of the parts, the entry points, what the ACPI
      parser calls back), [StartupFacts] (the memory a start sets aside stays apart;
      the whole of the kernel's [init] does what its part on memory and devices does).
    - Tasks ([kernel/src/task], [kernel/src/interrupts/mod.rs]): [Async] (queues, wakers,
      handlers), [Executor] and [ExecutorFacts] (the kernel as a transition system with
      interrupts between its steps, its invariant), [SleepFacts] (sleeping tasks),
      [KeyReader] (no key is lost wherever interrupts fall), [AsyncDemo].
    - Shell ([kernel/src/task/shell], [lib/macros]): [Shell] and [ShellFacts] (tokenizer,
      pipelines, history), [ShellTask] and [ShellTaskFacts] (the attribute of the
      commands and the statements it writes, the commands, the line editor),
      [ShellDemo].
    - Screen and printing ([kernel/src/screen], [kernel/src/macros.rs],
      [lib/hal/src/display]): [Screen], [ScreenFacts], [Display] (colours and the
      display traits), [Console] (printing from tasks and handlers, the serial
      port, and their interleavings).
    - Build tool ([xtask]): [BuildTool], on a host behind a class. Theorems: the search
      for sources is complete, the cache of the boot loader is never used,
      formatting is idempotent, the image patches two bytes.

    The parts meet in the following places. The file systems and the partition
    code run on any [BlockDevice]; [NtfsVfsFacts] takes a file through
    creation, [Vfs] and descriptor. The registry of [Drivers] runs on any driver,
    [BlockDrivers] supplies the real ones. The drivers run on any allocator and
    hardware; [KernelDma] supplies the kernel's and discharges what their theorems
    ask. [Startup.init] runs screen, processor, messages, memory, heap, allocator
    and enumeration in the order of the source. [Cpu] runs the handlers of [Async]
    behind the interrupt table, [Console] prints on [Screen].

    ** Parameters

    Code that is not in the repository is an argument: the [x86_64] crate
    ([frame_of], [map_to], [virt_new]), the queues and waker slots of [crossbeam] and
    [futures_util] ([ArrayQueue], [AtomicWaker] and their laws), [heapless]
    ([Heapless]), [linked_list_allocator] ([FirstFit]), the keyboard decoder
    ([Decoder]), the font ([BASIC_FONTS]), the [acpi] crate, the tables of the [x86_64]
    crate and the controllers behind [pic8259] ([DescriptorTable], [IdtLayout],
    [ChainedPics]), the host of the build tool with the programs it starts ([Host]),
    SHA-256 and JSON, and the hardware: [Mmio], [Ram], [Ports], [ConfigSpace],
    [AhciHba], [VirtioBlkDev], whose laws are those of the PCI, AHCI, ATA and virtio
    specifications. Each class of laws has an instance, at
    which the theorems that use it are applied.

    ** Limits of the model

    A disk is addressed in bytes by the partition and file system code
    ([ByteDisk]), as that code does; the drivers take sector numbers, which
    [GptIo.write_gpt_sector_addressed_fails] shows to be an incompatibility of the
    code and not of the model. Memory shared with a device is sequentially
    consistent, and the compiler is taken to keep the loads of [notify_and_wait],
    which are not volatile. Interrupts fall between atomic accesses.

    ** Not modelled

    Writing page tables and the formats of the descriptor tables, which belong to
    the [x86_64] crate; bringing up the serial port, a call of its crate; the serial
    messages of the installer (those of the kernel are modelled); pasting the
    output of the command attribute together ([quote] and [syn]); [io::Write] and
    [FramebufferDisplay], which have no implementation; the placeholder crate
    [lib/sync]; the commented-out bodies of [ls], [mkdir] and [touch]; and the boot
    loader, which is assembly and C. *)

From stdpp Require Export base tactics option list numbers strings gmap sorting.
From Stdlib Require Import Ascii.
#[global] Open Scope Z_scope.

(** ** Outcomes

    A Rust function either returns normally ([Ok]), returns an error value of
    its [Result] type ([Err]), panics ([Panic]: index or slice out of bounds,
    [unwrap], [assert!]), or, in a model whose loop is bounded by fuel, has
    used that fuel up ([Diverge]; each loop comes with a theorem that this
    does not happen). *)

Inductive outcome (E A : Type) : Type :=
| Ok (a : A)
| Err (e : E)
| Panic
| Diverge.
Arguments Ok {E A} a.
Arguments Err {E A} e.
Arguments Panic {E A}.
Arguments Diverge {E A}.

#[global] Instance outcome_eq_dec {E A} `{EqDecision E, EqDecision A} :
  EqDecision (outcome E A).
Proof. solve_decision. Defined.

#[global] Instance outcome_ret {E} : MRet (outcome E) := λ A a, Ok a.
#[global] Instance outcome_bind {E} : MBind (outcome E) := λ A B f m,
  match m with
  | Ok a => f a
  | Err e => Err e
  | Panic => Panic
  | Diverge => Diverge
  end.
#[global] Instance outcome_fmap {E} : FMap (outcome E) := λ A B f m,
  match m with
  | Ok a => Ok (f a)
  | Err e => Err e
  | Panic => Panic
  | Diverge => Diverge
  end.

(** [Result::map_err]. *)
Definition map_err {E F A} (f : E → F) (m : outcome E A) : outcome F A :=
  match m with
  | Ok a => Ok a
  | Err e => Err (f e)
  | Panic => Panic
  | Diverge => Diverge
  end.

(** [Result::ok]: an error becomes [None], a panic stays one. *)
Definition ok_opt {E F A} (m : outcome E A) : outcome F (option A) :=
  match m with
  | Ok a => Ok (Some a)
  | Err _ => Ok None
  | Panic => Panic
  | Diverge => Diverge
  end.

(** [Option::ok_or]. *)
Definition ok_or {E A} (o : option A) (e : E) : outcome E A :=
  match o with Some a => Ok a | None => Err e end.

(** [Option::unwrap], [Option::expect]. *)
Definition unwrap {E A} (o : option A) : outcome E A :=
  match o with Some a => Ok a | None => Panic end.

(** [assert!]. *)
Definition assert_ {E} (b : bool) : outcome E () := if b then Ok () else Panic.

(** The computation returns or fails with an error value: it neither panics
    nor runs out of fuel. *)
Definition safe {E A} (m : outcome E A) : Prop :=
  match m with Ok _ | Err _ => True | Panic | Diverge => False end.

(** The computation ends: its loops do not run out of fuel. *)
Definition ends {E A} (m : outcome E A) : Prop := m ≠ Diverge.

Definition is_ok {E A} (m : outcome E A) : bool :=
  match m with Ok _ => true | _ => false end.

Lemma bind_Ok {E A B} (a : A) (k : A → outcome E B) : (Ok a ≫= k) = k a.
Proof. reflexivity. Qed.
Lemma bind_mret {E A B} (a : A) (k : A → outcome E B) : (mret a ≫= k) = k a.
Proof. reflexivity. Qed.
Lemma bind_Err {E A B} e (k : A → outcome E B) : (Err e ≫= k) = Err e.
Proof. reflexivity. Qed.
Lemma bind_Panic {E A B} (k : A → outcome E B) : (Panic ≫= k) = Panic.
Proof. reflexivity. Qed.
Lemma bind_Ok_inv {E A B} (m : outcome E A) (k : A → outcome E B) b :
  (m ≫= k) = Ok b → ∃ a, m = Ok a ∧ k a = Ok b.
Proof. destruct m; cbn; naive_solver. Qed.
Lemma Ok_inj {E A} (a b : A) : Ok (E:=E) a = Ok b → a = b.
Proof. congruence. Qed.
Lemma bind_assoc {E A B C} (m : outcome E A) (f : A → outcome E B) (g : B → outcome E C) :
  ((m ≫= f) ≫= g) = (m ≫= λ a, f a ≫= g).
Proof. by destruct m. Qed.
Lemma safe_bind {E A B} (m : outcome E A) (k : A → outcome E B) :
  safe m → (∀ a, m = Ok a → safe (k a)) → safe (m ≫= k).
Proof. destruct m; cbn; auto. Qed.
Lemma safe_ends {E A} (m : outcome E A) : safe m → ends m.
Proof. by destruct m. Qed.
Lemma ends_bind {E A B} (m : outcome E A) (k : A → outcome E B) :
  ends m → (∀ a, m = Ok a → ends (k a)) → ends (m ≫= k).
Proof. unfold ends. destruct m; cbn; intros Hm Hk; [by apply Hk|done..]. Qed.
(** A result of the computation satisfies [Q]. *)
Definition yields {E A} (m : outcome E A) (Q : A → Prop) : Prop := ∀ a, m = Ok a → Q a.
Lemma yields_bind {E A B} (m : outcome E A) (k : A → outcome E B) Q :
  (∀ a, m = Ok a → yields (k a) Q) → yields (m ≫= k) Q.
Proof. intros Hk b (a&Hm&H)%bind_Ok_inv. by apply (Hk a). Qed.
Lemma yields_mret {E A} (a : A) (Q : A → Prop) : Q a → yields (E:=E) (mret a) Q.
Proof. intros H b [= <-]. done. Qed.
Lemma yields_Err {E A} (e : E) (Q : A → Prop) : yields (Err e) Q.
Proof. done. Qed.
Lemma safe_map_err {E F A} (f : E → F) (m : outcome E A) :
  safe (map_err f m) ↔ safe m.
Proof. by destruct m. Qed.
Lemma map_err_Ok_inv {E F A} (f : E → F) (m : outcome E A) a :
  map_err f m = Ok a → m = Ok a.
Proof. destruct m; cbn; congruence. Qed.
Lemma ok_or_Ok_inv {E A} (o : option A) (e : E) a : ok_or o e = Ok a → o = Some a.
Proof. destruct o; cbn; congruence. Qed.
Lemma safe_ok_or {E A} (o : option A) (e : E) : safe (ok_or o e).
Proof. by destruct o. Qed.

(** ** State and outcome

    A method on [&mut self] (or on a device) returns the new state whatever
    its result is. *)

Definition st (S E A : Type) : Type := S → S * outcome E A.

#[global] Instance st_ret {S E} : MRet (st S E) := λ A a s, (s, Ok a).
#[global] Instance st_bind {S E} : MBind (st S E) := λ A B f m s,
  match m s with
  | (s', Ok a) => f a s'
  | (s', Err e) => (s', Err e)
  | (s', Panic) => (s', Panic)
  | (s', Diverge) => (s', Diverge)
  end.

(** A pure outcome inside a stateful function. *)
Definition lift {S E A} (m : outcome E A) : st S E A := λ s, (s, m).
Definition get_st {S E} : st S E S := λ s, (s, Ok s).
Definition modify {S E} (f : S → S) : st S E () := λ s, (f s, Ok ()).
Definition fail {S E A} (e : E) : st S E A := λ s, (s, Err e).
Definition st_map_err {S E F A} (f : E → F) (m : st S E A) : st S F A :=
  λ s, let '(s', r) := m s in (s', map_err f r).
(** [m.ok()] and [match m { Ok(..) => .., Err(..) => .. }]: the error is a
    value, a panic stays one. *)
Definition st_ok {S E F A} (m : st S E A) : st S F (option A) :=
  λ s, let '(s', r) := m s in (s', ok_opt r).
Definition try_ {E F A} (m : outcome E A) : outcome F (A + E) :=
  match m with
  | Ok a => Ok (inl a)
  | Err e => Ok (inr e)
  | Panic => Panic
  | Diverge => Diverge
  end.
Definition st_try {S E F A} (m : st S E A) : st S F (A + E) :=
  λ s, let '(s', r) := m s in (s', try_ r).
(** A computation on the second component of the state. *)
Definition on_snd {C S E A} (m : st S E A) : st (C * S) E A :=
  λ s, let '(s', r) := m s.2 in ((s.1, s'), r).

(** [for x in l { body(x)?; }]. *)
Fixpoint for_ {S E A} (l : list A) (body : A → st S E ()) : st S E () :=
  match l with
  | [] => mret ()
  | x :: l => body x;; for_ l body
  end.

Lemma st_bind_unfold {S E A B} (m : st S E A) (k : A → st S E B) s :
  (m ≫= k) s = match m s with
               | (s', Ok a) => k a s'
               | (s', Err e) => (s', Err e)
               | (s', Panic) => (s', Panic)
               | (s', Diverge) => (s', Diverge)
               end.
Proof. reflexivity. Qed.

Lemma st_bind_Ok {S E A B} (m : st S E A) (k : A → st S E B) s s' a :
  m s = (s', Ok a) → (m ≫= k) s = k a s'.
Proof. intros H. unfold mbind, st_bind. by rewrite H. Qed.

Lemma st_bind_Err {S E A B} (m : st S E A) (k : A → st S E B) s s' e :
  m s = (s', Err e) → (m ≫= k) s = (s', Err e).
Proof. intros H. unfold mbind, st_bind. by rewrite H. Qed.

Lemma st_bind_Ok_inv {S E A B} (m : st S E A) (k : A → st S E B) s s' b :
  (m ≫= k) s = (s', Ok b) → ∃ s1 a, m s = (s1, Ok a) ∧ k a s1 = (s', Ok b).
Proof. rewrite st_bind_unfold. destruct (m s) as [? []]; naive_solver. Qed.

Lemma st_bind_Err_inv {S E A B} (m : st S E A) (k : A → st S E B) s s' e :
  (m ≫= k) s = (s', Err e) → m s = (s', Err e) ∨ ∃ s1 a, m s = (s1, Ok a) ∧ k a s1 = (s', Err e).
Proof. rewrite st_bind_unfold. destruct (m s) as [? []]; naive_solver. Qed.

Lemma st_bind_assoc {S E A B C} (m : st S E A) (f : A → st S E B) (g : B → st S E C) s :
  ((m ≫= f) ≫= g) s = (m ≫= λ a, f a ≫= g) s.
Proof. rewrite !st_bind_unfold. by destruct (m s) as [? []]. Qed.
Lemma bind_get_st {S E B} (k : S → st S E B) s : (get_st ≫= k) s = k s s.
Proof. reflexivity. Qed.
Lemma bind_modify {S E B} (f : S → S) (k : () → st S E B) s : (modify f ≫= k) s = k () (f s).
Proof. done. Qed.
Lemma bind_lift_Panic {S E A B} (k : A → st S E B) s : (lift Panic ≫= k) s = (s, Panic).
Proof. done. Qed.
Lemma bind_lift_Ok {S E A B} (a : A) (k : A → st S E B) s : (lift (Ok a) ≫= k) s = k a s.
Proof. reflexivity. Qed.
Lemma bind_lift_Err {S E A B} (e : E) (k : A → st S E B) s : (lift (Err e) ≫= k) s = (s, Err e).
Proof. reflexivity. Qed.
Lemma bind_mret_st {S E A B} (a : A) (k : A → st S E B) s : (mret a ≫= k) s = k a s.
Proof. reflexivity. Qed.
Lemma bind_fail {S E A B} (e : E) (k : A → st S E B) s : (fail e ≫= k) s = (s, Err e).
Proof. reflexivity. Qed.
Lemma st_map_err_Ok {S E F A} (f : E → F) (m : st S E A) s s' a :
  m s = (s', Ok a) → st_map_err f m s = (s', Ok a).
Proof. intros H. unfold st_map_err. by rewrite H. Qed.
Lemma st_map_err_run {S E F A} (f : E → F) (m : st S E A) s s' r :
  m s = (s', r) → st_map_err f m s = (s', map_err f r).
Proof. intros H. unfold st_map_err. by rewrite H. Qed.
Lemma on_snd_run {C S E A} (m : st S E A) (c : C) s s' r :
  m s = (s', r) → on_snd m (c, s) = ((c, s'), r).
Proof. intros H. unfold on_snd. cbn. by rewrite H. Qed.
Lemma st_ok_run {S E F A} (m : st S E A) s s' r :
  m s = (s', r) → st_ok (F:=F) m s = (s', ok_opt r).
Proof. intros H. unfold st_ok. by rewrite H. Qed.
Lemma st_try_run {S E F A} (m : st S E A) s s' r :
  m s = (s', r) → st_try (F:=F) m s = (s', try_ r).
Proof. intros H. unfold st_try. by rewrite H. Qed.

Lemma for_app {S E A} (l k : list A) (body : A → st S E ()) s :
  for_ (l ++ k) body s = (for_ l body;; for_ k body) s.
Proof.
  revert s. induction l as [|x l IH]; intros s; cbn [app for_]; [done|].
  rewrite st_bind_assoc, !st_bind_unfold. destruct (body x s) as [s' [[]| | |]]; [|done..]. apply IH.
Qed.

(** A loop whose passes all succeed, with an invariant over the part done. *)
Lemma for_inv {S E A} (l : list A) (body : A → st S E ()) (I : list A → S → Prop) s :
  (∀ done x rest s, l = done ++ x :: rest → I done s → ∃ s', body x s = (s', Ok ()) ∧ I (done ++ [x]) s') →
  I [] s → ∃ s', for_ l body s = (s', Ok ()) ∧ I l s'.
Proof.
  intros Hstep H0. enough (∀ k todo s, l = k ++ todo → I k s → ∃ s', for_ todo body s = (s', Ok ()) ∧ I l s')
    as H by by apply (H [] l s).
  intros k todo. revert k. induction todo as [|x todo IH]; intros k s1 Hl HI; cbn [for_].
  - exists s1. split; [done|]. by rewrite Hl, app_nil_r.
  - destruct (Hstep k x todo s1 Hl HI) as (s2&Hb&HI2). rewrite st_bind_unfold, Hb.
    apply (IH (k ++ [x])); [by rewrite <- app_assoc|done].
Qed.

(** Computations that keep a property of the state, whatever they return. *)
Definition preserves {S E A} (I : S → Prop) (m : st S E A) : Prop := ∀ s, I s → I (m s).1.

Lemma preserves_bind {S E A B} (I : S → Prop) (m : st S E A) (k : A → st S E B) :
  preserves I m → (∀ a, preserves I (k a)) → preserves I (m ≫= k).
Proof.
  intros Hm Hk s Hs. rewrite st_bind_unfold. specialize (Hm s Hs). destruct (m s) as [s' [a|e| |]]; try done. by apply Hk.
Qed.
Lemma preserves_quiet {S E A} (I : S → Prop) (m : st S E A) : (∀ s, (m s).1 = s) → preserves I m.
Proof. intros Hm s Hs. by rewrite Hm. Qed.
Lemma preserves_mret {S E A} (I : S → Prop) (a : A) : preserves (E:=E) I (mret a).
Proof. by apply preserves_quiet. Qed.
Lemma preserves_for {S E A} (I : S → Prop) (xs : list A) (body : A → st S E ()) :
  (∀ x, preserves I (body x)) → preserves I (for_ xs body).
Proof.
  intros Hb. induction xs as [|x xs IH]; cbn [for_]; [apply preserves_mret|]. apply preserves_bind; [done|by intros []].
Qed.
Lemma preserves_on_snd {C S E A} (I : S → Prop) (m : st S E A) :
  preserves I m → preserves (λ s : C * S, I s.2) (on_snd m).
Proof. intros Hm s Hs. unfold on_snd. specialize (Hm s.2 Hs). by destruct (m s.2). Qed.
Lemma preserves_try {S E F A} (I : S → Prop) (m : st S E A) : preserves I m → preserves I (st_try (F:=F) m).
Proof. intros Hm s Hs. unfold st_try. specialize (Hm s Hs). by destruct (m s). Qed.
Lemma preserves_map_err {S E F A} (I : S → Prop) (g : E → F) (m : st S E A) :
  preserves I m → preserves I (st_map_err g m).
Proof. intros Hm s Hs. unfold st_map_err. specialize (Hm s Hs). by destruct (m s). Qed.

(** One step of a proof of [preserves]. *)
Ltac preserves_base :=
  lazymatch goal with
  | |- preserves _ (mret _) => apply preserves_mret
  | |- preserves _ (for_ _ _) => apply preserves_for; intros ?
  | |- preserves _ (st_try _) => apply preserves_try
  | |- preserves _ (st_map_err _ _) => apply preserves_map_err
  | |- preserves _ (mbind _ _) => apply preserves_bind; [|intros ?]
  | |- preserves _ (if ?b then _ else _) => destruct b
  | |- preserves _ (match ?x with _ => _ end) => destruct x
  | |- preserves _ _ => by apply preserves_quiet
  end.

(** [srun]: run the first step of a stateful computation when it is pure or
    reads the state. *)
Ltac srun :=
  repeat first
  [ rewrite st_bind_assoc | rewrite bind_get_st | rewrite bind_modify | rewrite bind_lift_Ok | rewrite bind_lift_Err
  | rewrite bind_mret_st | rewrite bind_fail ].

(** ** Lists indexed by [Z]

    Buffers are lists; positions are [Z], as the code computes them. *)

Abbreviation len l := (Z.of_nat (length l)) (only parsing).

(** [n] elements from position [a]. *)
Definition sub {A} (a n : Z) (l : list A) : list A :=
  take (Z.to_nat n) (drop (Z.to_nat a) l).

(** [l] with the elements from position [a] on overwritten by [src]. *)
Definition upd {A} (a : Z) (src l : list A) : list A :=
  take (Z.to_nat a) l ++ src ++ drop (Z.to_nat a + length src) l.

Section lists.
Context {A : Type}.
Implicit Types (l src : list A).

Lemma lookup_sub l a n i :
  sub a n l !! i = if decide (i < Z.to_nat n)%nat then l !! (Z.to_nat a + i)%nat else None.
Proof.
  unfold sub. case_decide.
  - by rewrite lookup_take_lt, lookup_drop by lia.
  - by rewrite lookup_take_ge by lia.
Qed.

Lemma lookup_upd l a src i :
  0 ≤ a → a + len src ≤ len l →
  upd a src l !! i =
    if decide (Z.to_nat a ≤ i < Z.to_nat a + length src)%nat
    then src !! (i - Z.to_nat a)%nat else l !! i.
Proof.
  intros Ha Hl. unfold upd.
  assert (Ht : length (take (Z.to_nat a) l) = Z.to_nat a) by (rewrite length_take; lia).
  case_decide as Hi; [|destruct (decide (i < Z.to_nat a)%nat)].
  - rewrite lookup_app_r by lia. rewrite Ht, lookup_app_l by lia. done.
  - rewrite lookup_app_l, lookup_take_lt by lia. done.
  - rewrite lookup_app_r, Ht, lookup_app_r, lookup_drop by lia. f_equal. lia.
Qed.

Lemma len_sub l a n :
  0 ≤ a → 0 ≤ n → a + n ≤ len l → length (sub a n l) = Z.to_nat n.
Proof. intros. unfold sub. rewrite length_take, length_drop. lia. Qed.

Lemma len_upd l a src :
  0 ≤ a → a + len src ≤ len l → length (upd a src l) = length l.
Proof.
  intros. unfold upd. rewrite !length_app, length_take, length_drop. lia.
Qed.

Lemma sub_upd_in l a src b n :
  0 ≤ a → a + len src ≤ len l → a ≤ b → 0 ≤ n → b + n ≤ a + len src →
  sub b n (upd a src l) = sub (b - a) n src.
Proof.
  intros. apply list_eq. intros i. rewrite !lookup_sub. case_decide; [|done].
  rewrite lookup_upd by lia. rewrite decide_True by lia. f_equal. lia.
Qed.

Lemma sub_upd_out l a src b n :
  0 ≤ a → a + len src ≤ len l → 0 ≤ b → b + n ≤ a ∨ a + len src ≤ b →
  sub b n (upd a src l) = sub b n l.
Proof.
  intros. apply list_eq. intros i. rewrite !lookup_sub. case_decide; [|done].
  rewrite lookup_upd by lia. rewrite decide_False by lia. done.
Qed.

Lemma sub_upd_inner l a n src b :
  0 ≤ a → a ≤ b → b + len src ≤ a + n → a + n ≤ len l →
  sub a n (upd b src l) = upd (b - a) src (sub a n l).
Proof.
  intros. apply list_eq. intros i. rewrite lookup_sub.
  rewrite !lookup_upd by (rewrite ?len_sub by lia; lia). rewrite lookup_sub.
  repeat case_decide; try lia; try done; f_equal; lia.
Qed.

Lemma sub_all l : sub 0 (len l) l = l.
Proof. unfold sub. cbn [drop Z.to_nat]. rewrite Nat2Z.id. apply take_ge. lia. Qed.

Lemma sub_all' l n : len l = n → sub 0 n l = l.
Proof. intros <-. apply sub_all. Qed.

Lemma sub_whole a n l : a = 0 → len l = n → sub a n l = l.
Proof. intros ->. apply sub_all'. Qed.

Lemma sub_0 l a : sub a 0 l = [].
Proof. done. Qed.

Lemma sub_sub l a n b m :
  0 ≤ a → 0 ≤ b → b + m ≤ n → sub b m (sub a n l) = sub (a + b) m l.
Proof.
  intros. apply list_eq. intros i. rewrite !lookup_sub. case_decide; [|done].
  rewrite decide_True by lia. f_equal. lia.
Qed.

Lemma sub_split l a n m :
  0 ≤ a → 0 ≤ n ≤ m → sub a m l = sub a n l ++ sub (a + n) (m - n) l.
Proof.
  intros. unfold sub.
  replace (Z.to_nat (a + n)) with (Z.to_nat a + Z.to_nat n)%nat by lia.
  rewrite <- drop_drop.
  replace (Z.to_nat (m - n)) with (Z.to_nat m - Z.to_nat n)%nat by lia.
  generalize (drop (Z.to_nat a) l); intros l'.
  rewrite <- (take_drop (Z.to_nat n) (take (Z.to_nat m) l')) at 1.
  rewrite take_take, skipn_firstn_comm. f_equal. f_equal. lia.
Qed.

Lemma sub_app_l l1 l2 a n :
  0 ≤ a → a + n ≤ len l1 → sub a n (l1 ++ l2) = sub a n l1.
Proof.
  intros. apply list_eq. intros i. rewrite !lookup_sub. case_decide; [|done].
  rewrite lookup_app_l by lia. done.
Qed.

Lemma sub_app_r l1 l2 a n :
  len l1 ≤ a → sub a n (l1 ++ l2) = sub (a - len l1) n l2.
Proof.
  intros. apply list_eq. intros i. rewrite !lookup_sub. case_decide; [|done].
  rewrite lookup_app_r by lia. f_equal. lia.
Qed.

Lemma upd_eq l l' a src :
  0 ≤ a → a + len src ≤ len l → length l' = length l →
  sub 0 a l' = sub 0 a l → sub a (len src) l' = src →
  sub (a + len src) (len l - (a + len src)) l' =
  sub (a + len src) (len l - (a + len src)) l →
  l' = upd a src l.
Proof.
  intros Ha Hl Hlen H1 H2 H3. apply list_eq. intros i.
  rewrite lookup_upd by lia. case_decide as Hi.
  - apply (f_equal (.!! (i - Z.to_nat a)%nat)) in H2.
    rewrite lookup_sub, decide_True in H2 by lia. rewrite <- H2. f_equal. lia.
  - destruct (decide (i < Z.to_nat a)%nat).
    + apply (f_equal (.!! i)) in H1. rewrite !lookup_sub, !decide_True in H1 by lia. done.
    + destruct (decide (i < length l)%nat).
      * apply (f_equal (.!! (i - Z.to_nat (a + len src))%nat)) in H3.
        rewrite !lookup_sub, !decide_True in H3 by lia.
        replace (Z.to_nat (a + len src) + (i - Z.to_nat (a + len src)))%nat with i in H3 by lia.
        done.
      * rewrite !lookup_ge_None_2 by lia. done.
Qed.

Lemma upd_same l a n :
  0 ≤ a → 0 ≤ n → a + n ≤ len l → upd a (sub a n l) l = l.
Proof.
  intros. symmetry. apply upd_eq; rewrite ?len_sub by lia; try lia; try done.
  f_equal. lia.
Qed.

Lemma upd_upd_same l a s1 s2 :
  0 ≤ a → a + len s1 ≤ len l → length s1 = length s2 →
  upd a s2 (upd a s1 l) = upd a s2 l.
Proof.
  intros ? ? Hs. apply list_eq. intros i.
  rewrite !lookup_upd by (rewrite ?len_upd by lia; lia).
  rewrite <- Hs. by case_decide.
Qed.

Lemma upd_comm l a s b t :
  0 ≤ a → a + len s ≤ len l → 0 ≤ b → b + len t ≤ len l →
  a + len s ≤ b ∨ b + len t ≤ a →
  upd a s (upd b t l) = upd b t (upd a s l).
Proof.
  intros. apply list_eq. intros i.
  rewrite !lookup_upd by (rewrite ?len_upd by lia; lia).
  repeat case_decide; try lia; done.
Qed.
End lists.

(** ** Machine integers

    [usize] is 64 bits wide (target [x86_64]). The kernel is built with the
    release profile, whose arithmetic wraps. *)

Definition wrap (w z : Z) : Z := z mod 2 ^ w.
Abbreviation u64 := (wrap 64) (only parsing).
Abbreviation u32 := (wrap 32) (only parsing).
Abbreviation u16 := (wrap 16) (only parsing).
Abbreviation u8 := (wrap 8) (only parsing).

(** Wrapping 64-bit operations. *)
Notation "a +w b" := (wrap 64 (a + b)) (at level 50, left associativity) : Z_scope.
Notation "a -w b" := (wrap 64 (a - b)) (at level 50, left associativity) : Z_scope.
Notation "a *w b" := (wrap 64 (a * b)) (at level 40, left associativity) : Z_scope.

(** Two's complement reading of a [w]-bit value. *)
Definition signed (w z : Z) : Z :=
  let m := z mod 2 ^ w in if m <? 2 ^ (w - 1) then m else m - 2 ^ w.

(** [saturating_sub] on unsigned values, [saturating_add] at 64 bits. *)
Definition sat_sub (a b : Z) : Z := Z.max 0 (a - b).
Definition sat_add64 (a b : Z) : Z := Z.min (2 ^ 64 - 1) (a + b).

(** [checked_sub], [checked_mul], [checked_add] at 64 bits. *)
Definition checked_sub (a b : Z) : option Z := if b <=? a then Some (a - b) else None.
Definition checked_mul64 (a b : Z) : option Z :=
  if a * b <? 2 ^ 64 then Some (a * b) else None.
Definition checked_add64 (a b : Z) : option Z :=
  if a + b <? 2 ^ 64 then Some (a + b) else None.

Definition is_u (w z : Z) : Prop := 0 ≤ z < 2 ^ w.
Abbreviation is_u8 := (is_u 8) (only parsing).
Abbreviation is_u16 := (is_u 16) (only parsing).
Abbreviation is_u32 := (is_u 32) (only parsing).
Abbreviation is_u64 := (is_u 64) (only parsing).

Lemma wrap_small w z : 0 ≤ z < 2 ^ w → wrap w z = z.
Proof. apply Z.mod_small. Qed.
Lemma wrap_range w z : 0 ≤ w → is_u w (wrap w z).
Proof. intros. apply Z.mod_pos_bound. lia. Qed.

Lemma lnot_mask k : 0 ≤ k ≤ 64 → wrap 64 (Z.lnot (2 ^ k - 1)) = (2 ^ (64 - k) - 1) * 2 ^ k.
Proof.
  intros Hk. unfold Z.lnot. replace (Z.pred (- (2 ^ k - 1))) with (- 2 ^ k) by lia.
  assert (2 ^ (64 - k) * 2 ^ k = 2 ^ 64) by (rewrite <- Z.pow_add_r by lia; f_equal; lia).
  unfold wrap. symmetry. apply Z.mod_unique with (q := -1); [|lia].
  left. pose proof (Z.pow_pos_nonneg 2 k). pose proof (Z.pow_pos_nonneg 2 (64 - k)). nia.
Qed.

(** Bit operations stay within a width. *)
Lemma is_u_log2 w x : 0 < w → 0 ≤ x → x < 2 ^ w ↔ Z.log2 x < w.
Proof.
  intros Hw Hx. destruct (decide (x = 0)) as [->|]; [|apply Z.log2_lt_pow2; lia].
  change (Z.log2 0) with 0. pose proof (Z.pow_pos_nonneg 2 w). lia.
Qed.

Lemma is_u_lxor w a b : 0 < w → is_u w a → is_u w b → is_u w (Z.lxor a b).
Proof.
  intros Hw [Ha Ha'] [Hb Hb']. assert (0 ≤ Z.lxor a b) by by apply Z.lxor_nonneg.
  split; [done|]. apply is_u_log2; [done..|]. apply is_u_log2 in Ha', Hb'; try done.
  pose proof (Z.log2_lxor a b Ha Hb). lia.
Qed.

Lemma is_u_lor w a b : 0 < w → is_u w a → is_u w b → is_u w (Z.lor a b).
Proof.
  intros Hw [Ha Ha'] [Hb Hb']. assert (0 ≤ Z.lor a b) by by apply Z.lor_nonneg.
  split; [done|]. apply is_u_log2; [done..|]. apply is_u_log2 in Ha', Hb'; try done.
  rewrite Z.log2_lor by done. lia.
Qed.

Lemma is_u_land w a b : 0 < w → 0 ≤ a → is_u w b → is_u w (Z.land a b).
Proof.
  intros Hw Ha [Hb Hb']. assert (0 ≤ Z.land a b) by (apply Z.land_nonneg; by left).
  split; [done|]. apply is_u_log2; [done..|]. apply is_u_log2 in Hb'; try done.
  pose proof (Z.log2_land a b Ha Hb). lia.
Qed.

Lemma is_u_high w a n : 0 < w → is_u w a → w ≤ n → Z.testbit a n = false.
Proof.
  intros Hw [Ha Ha'] Hn. destruct (decide (a = 0)) as [->|]; [apply Z.bits_0|].
  apply Z.bits_above_log2; [lia|]. apply is_u_log2 in Ha'; lia.
Qed.

Lemma is_u_ldiff w a b : 0 < w → is_u w a → is_u w (Z.ldiff a b).
Proof.
  intros Hw Ha. enough (Z.ldiff a b = Z.ldiff a b mod 2 ^ w) as -> by (apply Z.mod_pos_bound; lia).
  apply Z.bits_inj'. intros n Hn. destruct (decide (n < w)).
  - by rewrite Z.mod_pow2_bits_low by lia.
  - by rewrite Z.mod_pow2_bits_high, Z.ldiff_spec, (is_u_high w) by (done || lia).
Qed.

(** Disjoint bits. *)
Lemma lor_shift_add a b k : 0 ≤ k → 0 ≤ a < 2 ^ k → Z.lor a (b * 2 ^ k) = a + b * 2 ^ k.
Proof.
  intros Hk Ha. rewrite <- Z.shiftl_mul_pow2 by lia.
  assert (Hl : Z.land a (Z.shiftl b k) = 0).
  { apply Z.bits_inj'. intros n Hn. rewrite Z.land_spec, Z.bits_0.
    destruct (decide (n < k)).
    - by rewrite Z.shiftl_spec_low, andb_false_r by lia.
    - destruct (decide (k = 0)) as [->|].
      { assert (a = 0) as -> by (change (2 ^ 0) with 1 in Ha; lia). by rewrite Z.bits_0. }
      by rewrite (is_u_high k) by (unfold is_u; lia). }
  symmetry. by apply Z.add_nocarry_lor.
Qed.

(** Every element of a buffer is a byte. *)
Abbreviation bytes_ok l := (Forall (is_u 8) l).

Create Rewrite HintDb wraps.
#[export] Hint Rewrite wrap_small using lia : wraps.

(** Simplify wrapping arithmetic that does not wrap. *)
Ltac unwrap_ints :=
  repeat match goal with
  | |- context [wrap ?w ?z] => rewrite (wrap_small w z) by lia
  | H : context [wrap ?w ?z] |- _ => rewrite (wrap_small w z) in H by lia
  end.

(** [lia] with the defining equations of quotients and remainders. *)
Ltac dlia := Z.to_euclidean_division_equations; lia.
