(* ===== verification/Bytes.v ===== *)
(** * Byte buffers

    The slice operations of Rust ([buf[i]], [&buf[a..b]],
    [buf[a..b].copy_from_slice(..)], [fill], [copy_within], [get(a..b)]) with
    their panics, and the little-endian codecs of the integer types
    ([from_le_bytes], [to_le_bytes]).

    A buffer is a list of bytes, a byte a [Z] in [0, 256). *)

From S2P Require Import Prelude.

(** ** Slice operations *)

(** [&l[a..b]] *)
Definition slice {E A} (l : list A) (a b : Z) : outcome E (list A) :=
  if (0 <=? a) && (a <=? b) && (b <=? len l) then Ok (sub a (b - a) l) else Panic.

(** [&l[a..]] *)
Definition slice_from {E A} (l : list A) (a : Z) : outcome E (list A) := slice l a (len l).

(** [l.get(a..b)] *)
Definition get_range {A} (l : list A) (a b : Z) : option (list A) :=
  if (0 <=? a) && (a <=? b) && (b <=? len l) then Some (sub a (b - a) l) else None.

(** [l.get(a..)] *)
Definition get_from {A} (l : list A) (a : Z) : option (list A) := get_range l a (len l).

(** [l[i]] *)
Definition idx {E A} (l : list A) (i : Z) : outcome E A :=
  if 0 <=? i then unwrap (l !! Z.to_nat i) else Panic.

(** [l[i] = v] *)
Definition set_idx {E A} (l : list A) (i : Z) (v : A) : outcome E (list A) :=
  if (0 <=? i) && (i <? len l) then Ok (upd i [v] l) else Panic.

(** [l[a..b].copy_from_slice(src)] *)
Definition copy_to {E A} (l : list A) (a b : Z) (src : list A) : outcome E (list A) :=
  if (0 <=? a) && (a <=? b) && (b <=? len l) && (len src =? b - a)
  then Ok (upd a src l) else Panic.

(** [l[a..b].fill(v)] *)
Definition fill_to {E A} (l : list A) (a b : Z) (v : A) : outcome E (list A) :=
  if (0 <=? a) && (a <=? b) && (b <=? len l)
  then Ok (upd a (replicate (Z.to_nat (b - a)) v) l) else Panic.

(** [l.copy_within(a..b, dest)] *)
Definition copy_within {E A} (l : list A) (a b dest : Z) : outcome E (list A) :=
  if (0 <=? a) && (a <=? b) && (b <=? len l) && (0 <=? dest) && (dest <=? len l - (b - a))
  then Ok (upd dest (sub a (b - a) l) l) else Panic.

(** [vec![0; n]]: a request for more than [isize::MAX] bytes panics. That the
    heap can be exhausted by a smaller one is not modelled. *)
Definition zeros (n : Z) : list Z := replicate (Z.to_nat n) 0.
Definition vec_zeroed {E} (n : Z) : outcome E (list Z) :=
  if n <? 2 ^ 63 then Ok (zeros n) else Panic.

(** [l.chunks_exact(n)] *)
Definition chunks_exact {A} (n : Z) (l : list A) : list (list A) :=
  (λ i, sub (i * n) n l) <$> seqZ 0 (len l / n).

Section slices.
Context {E A : Type}.
Implicit Types l src : list A.

Lemma slice_ok l a b :
  0 ≤ a ≤ b → b ≤ len l → slice (E:=E) l a b = Ok (sub a (b - a) l).
Proof.
  intros. unfold slice.
  rewrite (proj2 (Z.leb_le 0 a)), (proj2 (Z.leb_le a b)), (proj2 (Z.leb_le b (len l))) by lia.
  done.
Qed.

Lemma slice_Ok_inv l a b s :
  slice (E:=E) l a b = Ok s → 0 ≤ a ≤ b ∧ b ≤ len l ∧ s = sub a (b - a) l.
Proof.
  unfold slice. destruct (Z.leb_spec 0 a), (Z.leb_spec a b), (Z.leb_spec b (len l));
    cbn; intros [=]; subst; auto with lia.
Qed.

Lemma slice_panic l a b :
  ¬ (0 ≤ a ≤ b ∧ b ≤ len l) → slice (E:=E) l a b = Panic.
Proof.
  intros. unfold slice.
  destruct (Z.leb_spec 0 a), (Z.leb_spec a b), (Z.leb_spec b (len l)); cbn; auto; lia.
Qed.

Lemma slice_from_ok l a :
  0 ≤ a ≤ len l → slice_from (E:=E) l a = Ok (sub a (len l - a) l).
Proof. intros. apply slice_ok; lia. Qed.

Lemma get_range_ok l a b :
  0 ≤ a ≤ b → b ≤ len l → get_range l a b = Some (sub a (b - a) l).
Proof.
  intros. unfold get_range.
  rewrite (proj2 (Z.leb_le 0 a)), (proj2 (Z.leb_le a b)), (proj2 (Z.leb_le b (len l))) by lia.
  done.
Qed.

Lemma get_range_Some_inv l a b s :
  get_range l a b = Some s → 0 ≤ a ≤ b ∧ b ≤ len l ∧ s = sub a (b - a) l.
Proof.
  unfold get_range. destruct (Z.leb_spec 0 a), (Z.leb_spec a b), (Z.leb_spec b (len l));
    cbn; intros [=]; subst; auto with lia.
Qed.

Lemma get_from_ok l a :
  0 ≤ a ≤ len l → get_from l a = Some (sub a (len l - a) l).
Proof. intros. apply get_range_ok; lia. Qed.

Lemma idx_ok l i x : 0 ≤ i → l !! Z.to_nat i = Some x → idx (E:=E) l i = Ok x.
Proof. intros. unfold idx. rewrite (proj2 (Z.leb_le 0 i)) by lia. by rewrite H0. Qed.

Lemma idx_in l i : 0 ≤ i < len l → ∃ x, idx (E:=E) l i = Ok x ∧ l !! Z.to_nat i = Some x.
Proof.
  intros. destruct (lookup_lt_is_Some_2 l (Z.to_nat i)) as [x Hx]; [lia|].
  exists x. split; [|done]. apply idx_ok; auto with lia.
Qed.

Lemma idx_out l i : len l ≤ i → idx (E:=E) l i = Panic.
Proof.
  intros. unfold idx. destruct (Z.leb_spec 0 i); [|done].
  by rewrite lookup_ge_None_2 by lia.
Qed.

Lemma idx_Ok_inv l i x :
  idx (E:=E) l i = Ok x → 0 ≤ i < len l ∧ l !! Z.to_nat i = Some x.
Proof.
  unfold idx. destruct (Z.leb_spec 0 i); [|done].
  destruct (l !! Z.to_nat i) eqn:Hi; cbn; [|done]. intros [= ->].
  apply lookup_lt_Some in Hi as ?. auto with lia.
Qed.

Lemma set_idx_ok l i v : 0 ≤ i < len l → set_idx (E:=E) l i v = Ok (upd i [v] l).
Proof.
  intros. unfold set_idx. by rewrite (proj2 (Z.leb_le 0 i)), (proj2 (Z.ltb_lt i (len l))) by lia.
Qed.

Lemma copy_to_ok l a b src :
  0 ≤ a → b ≤ len l → len src = b - a → copy_to (E:=E) l a b src = Ok (upd a src l).
Proof.
  intros. unfold copy_to.
  rewrite (proj2 (Z.leb_le 0 a)), (proj2 (Z.leb_le a b)), (proj2 (Z.leb_le b (len l))),
    (proj2 (Z.eqb_eq _ _)) by lia. done.
Qed.

Lemma copy_to_Ok_inv l a b src l' :
  copy_to (E:=E) l a b src = Ok l' →
  0 ≤ a ∧ b ≤ len l ∧ len src = b - a ∧ l' = upd a src l.
Proof.
  unfold copy_to.
  destruct (Z.leb_spec 0 a), (Z.leb_spec a b), (Z.leb_spec b (len l)), (Z.eqb_spec (len src) (b - a));
    cbn; intros [=]; subst; auto with lia.
Qed.

Lemma fill_to_ok l a b v :
  0 ≤ a ≤ b → b ≤ len l →
  fill_to (E:=E) l a b v = Ok (upd a (replicate (Z.to_nat (b - a)) v) l).
Proof.
  intros. unfold fill_to.
  rewrite (proj2 (Z.leb_le 0 a)), (proj2 (Z.leb_le a b)), (proj2 (Z.leb_le b (len l))) by lia.
  done.
Qed.

Lemma copy_within_ok l a b d :
  0 ≤ a ≤ b → b ≤ len l → 0 ≤ d → d + (b - a) ≤ len l →
  copy_within (E:=E) l a b d = Ok (upd d (sub a (b - a) l) l).
Proof.
  intros. unfold copy_within.
  rewrite (proj2 (Z.leb_le 0 a)), (proj2 (Z.leb_le a b)), (proj2 (Z.leb_le b (len l))),
    (proj2 (Z.leb_le 0 d)), (proj2 (Z.leb_le d _)) by lia. done.
Qed.

Lemma slice_safe l a b : 0 ≤ a ≤ b → b ≤ len l → safe (slice (E:=E) l a b).
Proof. intros. by rewrite slice_ok. Qed.
Lemma idx_safe l i : 0 ≤ i < len l → safe (idx (E:=E) l i).
Proof. intros Hi. by destruct (idx_in l i Hi) as (x & -> & _). Qed.
End slices.

Lemma vec_zeroed_ok {E} n : n < 2 ^ 63 → vec_zeroed (E:=E) n = Ok (zeros n).
Proof. intros. unfold vec_zeroed. by rewrite (proj2 (Z.ltb_lt n _)) by lia. Qed.
Lemma length_zeros n : length (zeros n) = Z.to_nat n.
Proof. apply length_replicate. Qed.

Lemma sub_zeros n a m : 0 ≤ a → 0 ≤ m → a + m ≤ n → sub a m (zeros n) = zeros m.
Proof.
  intros. apply list_eq. intros i. rewrite lookup_sub. unfold zeros. case_decide.
  - rewrite !lookup_replicate_2 by lia. done.
  - rewrite lookup_ge_None_2; [done|]. rewrite length_replicate. lia.
Qed.

(** A buffer operation never loops. *)
Section ends.
Context {E A : Type}.
Implicit Types l : list A.
Lemma idx_ends l i : ends (idx (E:=E) l i).
Proof. unfold ends, idx, unwrap. by repeat case_match. Qed.
Lemma slice_ends l a b : ends (slice (E:=E) l a b).
Proof. unfold ends, slice. by case_match. Qed.
Lemma slice_from_ends l a : ends (slice_from (E:=E) l a).
Proof. apply slice_ends. Qed.
Lemma copy_to_ends l a b s : ends (copy_to (E:=E) l a b s).
Proof. unfold ends, copy_to. by case_match. Qed.
Lemma vec_zeroed_ends n : ends (vec_zeroed (E:=E) n).
Proof. unfold ends, vec_zeroed. by case_match. Qed.
End ends.

(** ** Little-endian integers *)

(** The value of a byte string, least significant byte first. *)
Fixpoint from_le (l : list Z) : Z :=
  match l with
  | [] => 0
  | b :: l => b + 256 * from_le l
  end.

(** [n] bytes of [z], least significant first. *)
Fixpoint to_le (n : nat) (z : Z) : list Z :=
  match n with
  | O => []
  | S n => z mod 256 :: to_le n (z / 256)
  end.

Abbreviation u16_le := (to_le 2) (only parsing).
Abbreviation u32_le := (to_le 4) (only parsing).
Abbreviation u64_le := (to_le 8) (only parsing).

(** [uN::from_le_bytes] of the bytes at an offset, both as
    [from_le_bytes([buf[o], buf[o + 1], ..])] and as
    [from_le_bytes(buf[o..o + n].try_into().unwrap())]. *)
Definition le_at {E} (n : Z) (buf : list Z) (o : Z) : outcome E Z :=
  from_le <$> slice buf o (o + n).
Abbreviation u16_at := (le_at 2) (only parsing).
Abbreviation u32_at := (le_at 4) (only parsing).
Abbreviation u64_at := (le_at 8) (only parsing).

Lemma length_to_le n z : length (to_le n z) = n.
Proof. revert z. induction n; cbn; auto. Qed.

Lemma to_le_bytes n z : bytes_ok (to_le n z).
Proof.
  revert z. induction n; cbn; constructor; auto. apply Z.mod_pos_bound. lia.
Qed.

Lemma from_to_le n z : from_le (to_le n z) = z mod 2 ^ (8 * Z.of_nat n).
Proof.
  revert z. induction n as [|n IH]; intros z; cbn [from_le to_le].
  - rewrite Z.mul_0_r. change (2 ^ 0) with 1. by rewrite Z.mod_1_r.
  - rewrite IH. replace (8 * Z.of_nat (S n)) with (8 + 8 * Z.of_nat n) by lia.
    rewrite Z.pow_add_r by lia. change (2 ^ 8) with 256.
    rewrite Z.rem_mul_r by lia. lia.
Qed.

Lemma from_to_le_small n z : 0 ≤ z < 2 ^ (8 * Z.of_nat n) → from_le (to_le n z) = z.
Proof. intros. rewrite from_to_le. by apply Z.mod_small. Qed.

Lemma from_le_range l : bytes_ok l → 0 ≤ from_le l < 2 ^ (8 * len l).
Proof.
  induction 1 as [|b l [Hb1 Hb2] _ IH]; cbn [from_le length]; [lia|].
  replace (8 * Z.of_nat (S (length l))) with (8 + 8 * len l) by lia.
  rewrite Z.pow_add_r by lia. change (2 ^ 8) with 256 in *. lia.
Qed.

Lemma to_from_le l : bytes_ok l → to_le (length l) (from_le l) = l.
Proof.
  induction 1 as [|b l [Hb1 Hb2] _ IH]; cbn [from_le to_le length]; [done|].
  change (2 ^ 8) with 256 in *.
  rewrite (Z.mul_comm 256), Z_mod_plus_full, Z.mod_small by lia.
  rewrite Z.div_add, Z.div_small, Z.add_0_l, IH by lia. done.
Qed.

Lemma to_from_le' n l : bytes_ok l → length l = n → to_le n (from_le l) = l.
Proof. intros ? <-. by apply to_from_le. Qed.

Lemma from_le_zeros n : from_le (zeros n) = 0.
Proof. unfold zeros. induction (Z.to_nat n) as [|k IH]; cbn; [done|]. by rewrite IH. Qed.

Lemma from_le_inj l1 l2 :
  bytes_ok l1 → bytes_ok l2 → length l1 = length l2 → from_le l1 = from_le l2 → l1 = l2.
Proof.
  intros H1 H2 Hl He. rewrite <- (to_from_le l1), <- (to_from_le l2) by done.
  by rewrite Hl, He.
Qed.

Lemma le_at_ok {E} n buf o :
  0 ≤ n → 0 ≤ o → o + n ≤ len buf → le_at (E:=E) n buf o = Ok (from_le (sub o n buf)).
Proof.
  intros. unfold le_at. rewrite slice_ok by lia. cbn. do 3 f_equal. lia.
Qed.

Lemma le_at_Ok_inv {E} n buf o v :
  le_at (E:=E) n buf o = Ok v → 0 ≤ o ∧ 0 ≤ n ∧ o + n ≤ len buf ∧ v = from_le (sub o n buf).
Proof.
  unfold le_at. destruct (slice _ _ _) eqn:Hs; cbn; [|done..]. intros [= <-].
  apply slice_Ok_inv in Hs as (?&?&->). repeat split; try lia. do 2 f_equal. lia.
Qed.

Lemma le_at_safe {E} n buf o : 0 ≤ n → 0 ≤ o → o + n ≤ len buf → safe (le_at (E:=E) n buf o).
Proof. intros. by rewrite le_at_ok. Qed.

Lemma le_at_ends {E} n buf o : ends (le_at (E:=E) n buf o).
Proof. unfold ends, le_at, slice. by case_match. Qed.

Lemma bytes_ok_sub a n l : bytes_ok l → bytes_ok (sub a n l).
Proof. intros. unfold sub. by apply Forall_take, Forall_drop. Qed.

Lemma bytes_ok_upd a s l : bytes_ok l → bytes_ok s → bytes_ok (upd a s l).
Proof.
  intros. unfold upd. apply Forall_app; split; [by apply Forall_take|].
  apply Forall_app; split; [done|by apply Forall_drop].
Qed.

Lemma bytes_ok_zeros n : bytes_ok (zeros n).
Proof. apply Forall_replicate. by unfold is_u. Qed.

Lemma bytes_ok_check l : forallb (λ b, (0 <=? b) && (b <? 256)) l = true → bytes_ok l.
Proof.
  intros H. apply Forall_forall. intros b Hb. rewrite forallb_forall in H.
  specialize (H b (proj1 (list_elem_of_In _ _) Hb)). apply andb_prop in H as [H1 H2].
  unfold is_u. change (2 ^ 8) with 256. lia.
Qed.

Lemma bytes_ok_byte l i x : bytes_ok l → l !! i = Some x → 0 ≤ x < 256.
Proof. intros Hl Hx. by apply (Forall_lookup_1 _ _ _ _ Hl Hx). Qed.

Lemma nth_byte k l : bytes_ok l → is_u8 (nth k l 0).
Proof.
  intros Hl. destruct (nth_lookup_or_length l k 0) as [Hk|Hk].
  - by apply (bytes_ok_byte l k).
  - rewrite nth_overflow by lia. by unfold is_u.
Qed.

Lemma from_le_sub_range n a l :
  bytes_ok l → 0 ≤ n → 0 ≤ from_le (sub a n l) < 2 ^ (8 * n).
Proof.
  intros Hl Hn. pose proof (from_le_range _ (bytes_ok_sub a n l Hl)) as [? Hlt].
  split; [done|]. eapply Z.lt_le_trans; [done|]. apply Z.pow_le_mono_r; [lia|].
  unfold sub. rewrite length_take. lia.
Qed.

Create HintDb bytes.
#[export] Hint Resolve to_le_bytes bytes_ok_sub bytes_ok_upd bytes_ok_zeros : bytes.
#[export] Hint Resolve idx_ends slice_ends slice_from_ends copy_to_ends vec_zeroed_ends le_at_ends : bytes.
#[export] Hint Resolve slice_safe idx_safe le_at_safe safe_ok_or : bytes.

(** ** Sequential writes

    The code fills a record field after field. Writing the next field behind
    an update extends that update, so a straight-line sequence of writes is
    one update with the concatenation of the fields. *)

Lemma upd_upd_adj {A} (l s t : list A) a b :
  0 ≤ a → b = a + len s → b + len t ≤ len l →
  upd b t (upd a s l) = upd a (s ++ t) l.
Proof.
  intros Ha -> Hl. apply list_eq. intros i.
  rewrite !lookup_upd by (rewrite ?len_upd, ?length_app by lia; lia).
  rewrite length_app. repeat case_decide; try lia; try done.
  - rewrite lookup_app_r by lia. f_equal. lia.
  - rewrite lookup_app_l by lia. done.
Qed.

Lemma upd_nil {A} (l : list A) a : 0 ≤ a ≤ len l → upd a [] l = l.
Proof. intros. unfold upd. cbn. rewrite Nat.add_0_r. apply take_drop. Qed.

(** An update at [b] inside the zone written by an update at [a]. *)
Lemma upd_upd_in {A} (l s t : list A) a b :
  0 ≤ a → a ≤ b → b + len t ≤ a + len s → a + len s ≤ len l →
  upd b t (upd a s l) = upd a (upd (b - a) t s) l.
Proof.
  intros Ha Hb Ht Hl. apply list_eq. intros i.
  rewrite !lookup_upd by (rewrite ?len_upd by lia; lia).
  rewrite len_upd by lia. repeat case_decide; try lia; try done.
  f_equal. lia.
Qed.

(** ** Automation

    [blen] proves a range condition about buffers built by updates; [bstep]
    runs the buffer operation at the head of the goal; [bread] reads through
    updates. *)

Create Rewrite HintDb blen.
#[export] Hint Rewrite @length_to_le @length_replicate length_zeros @length_app
  @length_nil @length_cons @length_fmap @length_seqZ : blen.

Ltac blen :=
  autorewrite with blen; cbn [length];
  repeat first [ rewrite len_upd by blen | rewrite len_sub by blen ];
  autorewrite with blen; cbn [length]; lia.

Ltac bstep :=
  first
  [ rewrite bind_Ok
  | rewrite bind_mret
  | match goal with
    | |- context [copy_to (E:=?E) ?l ?a ?b ?s] => rewrite (copy_to_ok (E:=E) l a b s) by blen
    | |- context [fill_to (E:=?E) ?l ?a ?b ?v] => rewrite (fill_to_ok (E:=E) l a b v) by blen
    | |- context [set_idx (E:=?E) ?l ?i ?v] => rewrite (set_idx_ok (E:=E) l i v) by blen
    | |- context [le_at (E:=?E) ?n ?l ?o] => rewrite (le_at_ok (E:=E) n l o) by blen
    | |- context [vec_zeroed (E:=?E) ?n] => rewrite (vec_zeroed_ok (E:=E) n) by lia
    | |- context [slice (E:=?E) ?l ?a ?b] => rewrite (slice_ok (E:=E) l a b) by blen
    | |- context [slice_from (E:=?E) ?l ?a] => rewrite (slice_from_ok (E:=E) l a) by blen
    | |- context [copy_within (E:=?E) ?l ?a ?b ?d] =>
        rewrite (copy_within_ok (E:=E) l a b d) by blen
    end ].

Ltac bread :=
  repeat match goal with
  | |- context [sub ?b ?n (upd ?a ?s ?l)] =>
      first [ rewrite (sub_upd_out l a s b n) by first [ blen | left; blen | right; blen ]
            | rewrite (sub_upd_in l a s b n) by blen ]
  | |- context [sub ?b ?n (?l1 ++ ?l2)] =>
      first [ rewrite (sub_app_l l1 l2 b n) by blen
            | rewrite (sub_app_r l1 l2 b n) by blen ]
  | |- context [sub ?a ?n ?l] => rewrite (sub_whole a n l) by blen
  end.

(** ** Appends and chunks *)

(** Overwriting a field of a concatenation. *)
Lemma upd_field {A} (l1 old new l2 : list A) a :
  a = len l1 → length old = length new → upd a new (l1 ++ old ++ l2) = l1 ++ new ++ l2.
Proof.
  intros -> Hl. unfold upd. rewrite Nat2Z.id, <- Hl, take_app_length.
  do 2 f_equal. by rewrite <- drop_drop, drop_app_length, drop_app_length.
Qed.


Lemma copy_to_app_l {E A} (l1 l2 src : list A) a b :
  0 ≤ a → b ≤ len l1 → len src = b - a →
  copy_to (E:=E) (l1 ++ l2) a b src = Ok (upd a src l1 ++ l2).
Proof.
  intros. rewrite copy_to_ok by (rewrite ?length_app; lia). f_equal.
  unfold upd. rewrite take_app_le, drop_app_le by lia. by rewrite <- !app_assoc.
Qed.

Lemma copy_to_step {E A} (l1 l2 src : list A) a b n :
  len l1 = n → 0 ≤ a → b ≤ n → len src = b - a →
  copy_to (E:=E) (l1 ++ l2) a b src = Ok (upd a src l1 ++ l2) ∧ len (upd a src l1) = n.
Proof. intros <- ???. rewrite len_upd, copy_to_app_l by lia. done. Qed.

(** Run a [copy_from_slice] into the first part of a buffer; the part keeps
    its length and is named. *)
Ltac bcopy :=
  match goal with
  | H : len ?l1 = ?n |- context [copy_to (E:=?E) (?l1 ++ ?z) ?a ?b ?s] =>
      let C := fresh "C" in let H' := fresh "H" in let l := fresh "l" in
      destruct (copy_to_step (E:=E) l1 z s a b n H) as [C H']; [lia|lia|blen|];
      rewrite C, bind_Ok; clear C; remember (upd a s l1) as l
  end.

Lemma zeros_app n m : 0 ≤ n → 0 ≤ m → zeros (n + m) = zeros n ++ zeros m.
Proof. intros. unfold zeros. rewrite Z2Nat.inj_add by lia. apply replicate_add. Qed.

Lemma chunks_exact_short {A} n (l : list A) : 0 ≤ len l < n → chunks_exact n l = [].
Proof. intros. unfold chunks_exact. by rewrite Z.div_small by lia. Qed.

Lemma chunks_exact_app {A} n (c l : list A) :
  0 < n → len c = n → chunks_exact n (c ++ l) = c :: chunks_exact n l.
Proof.
  intros Hn Hc. unfold chunks_exact.
  replace (len (c ++ l) / n) with (Z.succ (len l / n)).
  2:{ rewrite length_app, Nat2Z.inj_add, Hc.
      replace (n + len l) with (1 * n + len l) by lia. rewrite Z.div_add_l by lia. lia. }
  rewrite seqZ_cons by (pose proof (Z.div_pos (len l) n); lia). cbn [fmap list_fmap]. f_equal.
  - rewrite Z.mul_0_l, sub_app_l by lia. by apply sub_all'.
  - rewrite Z.pred_succ. apply list_eq. intros i. rewrite !list_lookup_fmap.
    destruct (decide (Z.of_nat i < len l / n)).
    + rewrite !lookup_seqZ_lt by lia. cbn. f_equal.
      rewrite sub_app_r by nia. f_equal. nia.
    + by rewrite !lookup_seqZ_ge by lia.
Qed.

Lemma chunks_exact_concat {A B} n (f : A → list B) (l : list A) :
  0 < n → (∀ x, x ∈ l → len (f x) = n) → chunks_exact n (l ≫= f) = f <$> l.
Proof.
  intros Hn. induction l as [|x l IH]; intros Hl.
  - by rewrite chunks_exact_short by (cbn; lia).
  - rewrite bind_cons, chunks_exact_app, IH.
    + done.
    + intros y Hy. apply Hl. by right.
    + done.
    + apply Hl. by left.
Qed.

(** A buffer whose length is a multiple of [n] is the concatenation of its
    chunks. *)
Lemma chunks_exact_join {A} n (l : list A) k :
  0 < n → len l = n * Z.of_nat k → mjoin (chunks_exact n l) = l.
Proof.
  intros Hn. revert l. induction k as [|k IH]; intros l Hl.
  - destruct l; [|cbn in Hl; lia]. by rewrite chunks_exact_short by (cbn; lia).
  - rewrite <- (take_drop (Z.to_nat n) l) at 1.
    rewrite chunks_exact_app by (rewrite ?length_take; lia). cbn [mjoin list_join].
    change (take (Z.to_nat n) l ++ mjoin (chunks_exact n (drop (Z.to_nat n) l)) = l).
    rewrite IH by (rewrite length_drop; lia). apply take_drop.
Qed.

Lemma chunks_exact_length {A} n (l : list A) :
  0 < n → length (chunks_exact n l) = Z.to_nat (len l / n).
Proof. intros. unfold chunks_exact. by rewrite length_fmap, length_seqZ. Qed.

Lemma chunks_exact_elem {A} n (l c : list A) :
  0 < n → c ∈ chunks_exact n l → len c = n ∧ ∃ i, 0 ≤ i ∧ i + n ≤ len l ∧ c = sub i n l.
Proof.
  intros Hn. unfold chunks_exact. rewrite list_elem_of_fmap.
  intros (i & -> & Hi). apply elem_of_seqZ in Hi.
  assert (n * (len l / n) ≤ len l) by (apply Z.mul_div_le; lia).
  assert (i * n + n ≤ len l) by nia.
  split; [rewrite len_sub by nia; lia|]. exists (i * n). split_and!; [nia|lia|done].
Qed.

Lemma bytes_ok_chunk n l c :
  0 < n → bytes_ok l → c ∈ chunks_exact n l → bytes_ok c ∧ len c = n.
Proof.
  intros Hn Hl Hc. apply chunks_exact_elem in Hc as (? & i & ? & ? & ->); [|done].
  eauto with bytes.
Qed.

(** [u16] units as bytes and back. *)
Lemma units_roundtrip us :
  Forall (is_u 16) us → from_le <$> chunks_exact 2 (us ≫= λ u, u16_le u) = us.
Proof.
  intros Hus. rewrite chunks_exact_concat by (intros; rewrite ?length_to_le; lia).
  rewrite <- list_fmap_compose. rewrite <- (list_fmap_id us) at 2.
  apply list_fmap_ext. intros i u Hu. unfold compose. rewrite from_to_le_small; [done|].
  by apply (Forall_lookup_1 _ _ _ _ Hus Hu).
Qed.

Lemma length_units us : length (us ≫= λ u, u16_le u) = (2 * length us)%nat.
Proof. induction us as [|u us IH]; [done|]. rewrite bind_cons, length_app, IH, length_to_le. cbn. lia. Qed.

Lemma bytes_units l k :
  bytes_ok l → len l = 2 * Z.of_nat k → (from_le <$> chunks_exact 2 l) ≫= (λ u, u16_le u) = l.
Proof.
  intros Hl Hk. rewrite <- (chunks_exact_join 2 l k) at 2 by lia.
  assert (Hc : Forall (λ c, bytes_ok c ∧ len c = 2) (chunks_exact 2 l)).
  { apply Forall_forall. intros c Hc. by apply (bytes_ok_chunk 2 l). }
  induction Hc as [|c cs [Hb Hlc] _ IH]; [done|].
  rewrite fmap_cons, bind_cons, IH. cbn [mjoin list_join]. f_equal.
  apply to_from_le'; [done|lia].
Qed.

Lemma units_range l : bytes_ok l → Forall (is_u 16) (from_le <$> chunks_exact 2 l).
Proof.
  intros Hl. apply Forall_fmap, Forall_forall. intros c Hc.
  apply (bytes_ok_chunk 2 l) in Hc as [Hb Hlc]; [|lia|done].
  unfold compose, is_u. pose proof (from_le_range c Hb) as H. by rewrite Hlc in H.
Qed.

Lemma bytes_ok_units us : bytes_ok (us ≫= λ u, u16_le u).
Proof. apply Forall_bind, Forall_true. intros. apply to_le_bytes. Qed.
#[export] Hint Resolve bytes_ok_units : bytes.
#[export] Hint Rewrite length_units : blen.
