(* ===== verification/Text.v ===== *)
(** * Strings and ordered maps

    A Rust [&str] or [String] is the list of its characters (Unicode scalar
    values, as [Z]). [str_len] is its length in bytes (UTF-8), which is what
    [len()] returns. [starts_with], [split], [join] and comparison work on
    characters: UTF-8 is self-synchronising and preserves the order.

    A [BTreeMap] is a finite map; [bt_iter] lists it in key order. *)

From S2P Require Import Prelude.
From S2P Require Import Bytes.
From Stdlib Require Ascii String.

Abbreviation rstring := (list Z) (only parsing).

(** The characters of a literal. *)
Definition lit (s : string) : rstring :=
  (λ c, Z.of_nat (Ascii.nat_of_ascii c)) <$> String.list_ascii_of_string s.

(** Bytes of a character in UTF-8. *)
Definition utf8_len (c : Z) : Z :=
  if c <? 0x80 then 1 else if c <? 0x800 then 2 else if c <? 0x10000 then 3 else 4.

(** [str::len] *)
Definition str_len (s : rstring) : Z := foldr (λ c n, utf8_len c + n) 0 s.

(** [str::encode_utf16] *)
Definition utf16_units (c : Z) : list Z :=
  if c <? 0x10000 then [c]
  else [0xD800 + Z.shiftr (c - 0x10000) 10; 0xDC00 + Z.land (c - 0x10000) 0x3FF].
Definition encode_utf16 (s : rstring) : list Z := mbind utf16_units s.

(** [str::split(c)]: the pieces between the separators, empty ones included. *)
Fixpoint split_on (c : Z) (s : rstring) : list rstring :=
  match s with
  | [] => [[]]
  | x :: s =>
      if x =? c then [] :: split_on c s
      else match split_on c s with
           | p :: ps => (x :: p) :: ps
           | [] => [[x]]
           end
  end.

(** [[String]::join(sep)] *)
Fixpoint join (sep : rstring) (l : list rstring) : rstring :=
  match l with
  | [] => []
  | [p] => p
  | p :: ps => p ++ sep ++ join sep ps
  end.

(** [str::starts_with] *)
Fixpoint starts_with (s pre : rstring) : bool :=
  match pre, s with
  | [], _ => true
  | p :: pre, x :: s => (x =? p) && starts_with s pre
  | _ :: _, [] => false
  end.

Definition is_empty {A} (s : list A) : bool := match s with [] => true | _ => false end.
Definition nonempty {A} (s : list A) : bool := negb (is_empty s).

(** [u8::to_ascii_lowercase] on a character. *)
Definition ascii_lower (c : Z) : Z := if (65 <=? c) && (c <=? 90) then c + 32 else c.
(** [str::eq_ignore_ascii_case] *)
Definition eq_ignore_ascii_case (a b : rstring) : bool :=
  bool_decide (ascii_lower <$> a = ascii_lower <$> b).

(** One hexadecimal digit, and the [n] digits of [{:0nx}] of a value that
    fits in [n] digits. *)
Definition hex_digit (d : Z) : Z := if d <? 10 then 48 + d else 87 + d.
Fixpoint hex (n : nat) (z : Z) : rstring :=
  match n with
  | O => []
  | S n => hex n (z / 16) ++ [hex_digit (z mod 16)]
  end.

(** [{}] of an unsigned integer; twenty digits are enough for 64 bits. *)
Fixpoint dec_digits (fuel : nat) (z : Z) : rstring :=
  match fuel with
  | O => []
  | S fuel => (if z <? 10 then [] else dec_digits fuel (z / 10)) ++ [48 + z mod 10]
  end.
Definition dec (z : Z) : rstring := dec_digits 20 z.

(** ** Lemmas on splitting and joining *)

Lemma split_on_cons_sep c s : split_on c (c :: s) = [] :: split_on c s.
Proof. cbn. by rewrite Z.eqb_refl. Qed.

Lemma split_on_nonnil c s : split_on c s ≠ [].
Proof. destruct s as [|x s]; cbn; [done|]. destruct (x =? c); [done|]. by destruct (split_on c s). Qed.

Lemma split_on_app c p s :
  c ∉ p → split_on c (p ++ c :: s) = p :: split_on c s.
Proof.
  induction p as [|x p IH]; intros Hc; [apply split_on_cons_sep|].
  apply not_elem_of_cons in Hc as [Hx Hc].
  cbn [app split_on]. rewrite (proj2 (Z.eqb_neq x c)) by congruence. by rewrite IH.
Qed.

Lemma split_on_none c p : c ∉ p → split_on c p = [p].
Proof.
  induction p as [|x p IH]; intros Hc; [done|].
  apply not_elem_of_cons in Hc as [Hx Hc].
  cbn [split_on]. rewrite (proj2 (Z.eqb_neq x c)) by congruence. by rewrite IH.
Qed.

Lemma split_join c l :
  l ≠ [] → Forall (λ p, c ∉ p) l → split_on c (join [c] l) = l.
Proof.
  induction l as [|p l IH]; [done|]. intros _ [Hp Hl]%Forall_cons.
  destruct l as [|q l]; [by apply split_on_none|].
  change (join [c] (p :: q :: l)) with (p ++ c :: join [c] (q :: l)).
  rewrite split_on_app by done. by rewrite IH.
Qed.

Lemma join_split c s : join [c] (split_on c s) = s.
Proof.
  induction s as [|x s IH]; [done|]. cbn [split_on].
  destruct (Z.eqb_spec x c) as [->|].
  - pose proof (split_on_nonnil c s). destruct (split_on c s); [done|].
    cbn [join app] in *. by rewrite IH.
  - pose proof (split_on_nonnil c s). destruct (split_on c s) as [|p ps]; [done|].
    destruct ps; cbn [join app] in *; by rewrite <- IH.
Qed.

Lemma split_on_pieces c s : Forall (λ p, c ∉ p) (split_on c s).
Proof.
  induction s as [|x s IH]; cbn [split_on]; [constructor; [apply not_elem_of_nil|done]|].
  destruct (Z.eqb_spec x c); [constructor; [apply not_elem_of_nil|done]|].
  destruct IH as [|p ps Hp Hps].
  - constructor; [|done]. rewrite list_elem_of_singleton. congruence.
  - constructor; [|done]. rewrite not_elem_of_cons. split; [congruence|done].
Qed.

Lemma starts_with_spec s pre : starts_with s pre = true ↔ pre `prefix_of` s.
Proof.
  revert s. induction pre as [|p pre IH]; intros s.
  - split; [intros _; apply prefix_nil|by destruct s].
  - destruct s as [|x s]; cbn.
    + split; [done|]. intros [t Ht]. done.
    + rewrite andb_true_iff, Z.eqb_eq, IH. split.
      * intros [-> H]. by apply prefix_cons.
      * intros H. split; [symmetry; by eapply prefix_cons_inv_1|by eapply prefix_cons_inv_2].
Qed.

Lemma utf8_len_pos c : 1 ≤ utf8_len c ≤ 4.
Proof. unfold utf8_len. repeat case_match; lia. Qed.

Lemma str_len_cons c s : str_len (c :: s) = utf8_len c + str_len s.
Proof. reflexivity. Qed.

Lemma str_len_nonneg s : 0 ≤ str_len s.
Proof.
  induction s as [|c s IH]; [done|]. rewrite str_len_cons. pose proof (utf8_len_pos c). lia.
Qed.

Lemma str_len_app s t : str_len (s ++ t) = str_len s + str_len t.
Proof. induction s as [|c s IH]; [done|]. cbn [app]. rewrite !str_len_cons. lia. Qed.

Lemma str_len_le s : len s ≤ str_len s.
Proof.
  induction s as [|c s IH]; [done|]. rewrite str_len_cons. cbn [length].
  pose proof (utf8_len_pos c). lia.
Qed.

(** Prefixes of one string are ordered by their byte length. *)
Lemma prefix_len_le a b s :
  a `prefix_of` s → b `prefix_of` s → str_len a ≤ str_len b → a `prefix_of` b.
Proof.
  revert b s. induction a as [|x a IH]; intros b s [ta Ha] [tb Hb] Hl; [apply prefix_nil|].
  rewrite str_len_cons in Hl. pose proof (utf8_len_pos x). pose proof (str_len_nonneg a).
  destruct b as [|y b]; [unfold str_len in *; cbn in *; lia|].
  destruct s as [|z s]; [done|]. cbn in Ha, Hb. simplify_eq. apply prefix_cons.
  rewrite str_len_cons in Hl.
  eapply IH; [by eexists|by exists tb|lia].
Qed.

Lemma prefix_len_eq a b s :
  a `prefix_of` s → b `prefix_of` s → str_len a = str_len b → a = b.
Proof.
  intros Ha Hb Hl. apply (anti_symm prefix); eapply prefix_len_le; eauto; lia.
Qed.

Lemma length_hex n z : length (hex n z) = n.
Proof. revert z. induction n; intros; cbn; rewrite ?length_app; cbn; auto. rewrite IHn. lia. Qed.

Lemma hex_digit_inj d e : 0 ≤ d < 16 → 0 ≤ e < 16 → hex_digit d = hex_digit e → d = e.
Proof. unfold hex_digit. repeat case_match; lia. Qed.

Lemma hex_inj n y z :
  0 ≤ y < 16 ^ Z.of_nat n → 0 ≤ z < 16 ^ Z.of_nat n → hex n y = hex n z → y = z.
Proof.
  revert y z. induction n as [|n IH]; intros y z Hy Hz; cbn; [lia|].
  intros [H1 [=H2]]%app_inj_2; [|done].
  apply hex_digit_inj in H2; [|apply Z.mod_pos_bound; lia..].
  rewrite Nat2Z.inj_succ, Z.pow_succ_r in Hy, Hz by lia.
  apply IH in H1; [|split; [apply Z.div_pos; lia|apply Z.div_lt_upper_bound; lia]..].
  rewrite (Z.div_mod y 16), (Z.div_mod z 16) by lia. congruence.
Qed.

Lemma encode_utf16_bmp s :
  Forall (λ c, c < 0x10000) s → encode_utf16 s = s.
Proof.
  induction 1 as [|c s Hc _ IH]; [done|].
  unfold encode_utf16 in *. cbn. rewrite IH. unfold utf16_units.
  by rewrite (proj2 (Z.ltb_lt _ _)) by lia.
Qed.

Lemma encode_utf16_len s : len (encode_utf16 s) ≤ str_len s.
Proof.
  induction s as [|c s IH]; [done|]. rewrite str_len_cons.
  unfold encode_utf16 in *. cbn. rewrite length_app.
  assert (len (utf16_units c) ≤ utf8_len c); [|lia].
  unfold utf16_units, utf8_len. repeat case_match; cbn; lia.
Qed.

Lemma utf16_units_range c : 0 ≤ c < 0x110000 → Forall (is_u 16) (utf16_units c).
Proof.
  intros Hc. unfold utf16_units, is_u. change (2 ^ 16) with 65536.
  change 0x3FF with (Z.ones 10). rewrite Z.land_ones, Z.shiftr_div_pow2 by lia.
  change (2 ^ 10) with 1024. destruct (Z.ltb_spec c 0x10000); rewrite ?Forall_cons, Forall_nil; dlia.
Qed.

Lemma encode_utf16_units s :
  Forall (λ c, 0 ≤ c < 0x110000) s → Forall (is_u 16) (encode_utf16 s).
Proof.
  induction 1 as [|c s Hc _ IH]; [constructor|].
  unfold encode_utf16 in *. cbn. apply Forall_app. split; [|done].
  by apply utf16_units_range.
Qed.

(** ** Ordered maps *)

(** Lexicographic order of strings. *)
Fixpoint str_leb (a b : rstring) : bool :=
  match a, b with
  | [], _ => true
  | _ :: _, [] => false
  | x :: a, y :: b => (x <? y) || ((x =? y) && str_leb a b)
  end.
Definition str_le (a b : rstring) : Prop := str_leb a b = true.

#[global] Instance str_le_dec : RelDecision str_le.
Proof. intros a b. unfold str_le. apply _. Defined.

#[global] Instance str_le_total : Total str_le.
Proof.
  intros a. induction a as [|x a IH]; intros [|y b]; unfold str_le in *; cbn; auto.
  destruct (Z.ltb_spec x y), (Z.ltb_spec y x), (Z.eqb_spec x y), (Z.eqb_spec y x);
    cbn; auto; try lia; destruct (IH b); auto.
Qed.

#[global] Instance str_le_trans : Transitive str_le.
Proof.
  intros a. induction a as [|x a IH]; intros [|y b] [|z c]; unfold str_le in *; cbn; auto; try done.
  destruct (Z.ltb_spec x y), (Z.ltb_spec y z), (Z.ltb_spec x z), (Z.eqb_spec x y),
    (Z.eqb_spec y z), (Z.eqb_spec x z); cbn; auto; try lia; try done; eauto.
Qed.

Section btree.
Context {K V : Type} `{Countable K} (R : relation K) `{!RelDecision R}.

Definition bt_le (a b : K * V) : Prop := R a.1 b.1.
#[global] Instance bt_le_dec : RelDecision bt_le.
Proof. intros a b. unfold bt_le. apply _. Defined.

(** The entries of a [BTreeMap] in key order. *)
Definition bt_iter (m : gmap K V) : list (K * V) := merge_sort bt_le (map_to_list m).
Definition bt_keys (m : gmap K V) : list K := (bt_iter m).*1.

Lemma elem_of_bt_iter m k v : (k, v) ∈ bt_iter m ↔ m !! k = Some v.
Proof. unfold bt_iter. rewrite merge_sort_Permutation. apply elem_of_map_to_list. Qed.

Lemma bt_iter_perm m : bt_iter m ≡ₚ map_to_list m.
Proof. apply merge_sort_Permutation. Qed.

Lemma bt_keys_NoDup m : NoDup (bt_keys m).
Proof. unfold bt_keys. rewrite bt_iter_perm. apply NoDup_fst_map_to_list. Qed.

Lemma elem_of_bt_keys m k : k ∈ bt_keys m ↔ is_Some (m !! k).
Proof.
  unfold bt_keys. rewrite list_elem_of_fmap. split.
  - intros ([k' v] & -> & Hin). apply elem_of_bt_iter in Hin. by eexists.
  - intros [v Hv]. exists (k, v). split; [done|]. by apply elem_of_bt_iter.
Qed.

Lemma bt_iter_sorted `{!Transitive R, !Total R} m : StronglySorted bt_le (bt_iter m).
Proof.
  apply StronglySorted_merge_sort.
  - intros a b c. unfold bt_le. by etrans.
  - intros a b. unfold bt_le. apply (total R).
Qed.

Lemma bt_iter_empty : bt_iter ∅ = [].
Proof. unfold bt_iter. by rewrite map_to_list_empty. Qed.
End btree.
