(* ===== verification/BlockDev.v ===== *)
(** * Block devices

    [hal::block]: the [BlockDevice] trait, its errors, the conversion of a
    block error to an I/O error, and the contract the partition and file
    system code is verified against.

    The trait calls the position [lba]. Every caller under [lib/vfs] passes a
    byte offset ([lba * sector_size], [mft_byte_offset()]). [ByteDisk] states
    the contract under which these callers are right: a position is a byte
    address and a transfer inside the device succeeds. [SectorDisk] states
    what a driver that reads [lba] as a sector number does with a position
    past the last sector. *)

From S2P Require Import Prelude Bytes Text.

(** ** Errors *)

Inductive BlockError :=
| Blk_DeviceNotReady | Blk_DeviceError | Blk_Timeout | Blk_NoMemory
| Blk_OutOfBounds | Blk_BadSector | Blk_ReadError | Blk_WriteError
| Blk_InvalidGeometry | Blk_UnsupportedSectorSize | Blk_Other
| Blk_InvalidRequest | Blk_DeviceBusy | Blk_InvalidBuffer.

Inductive IoError :=
| Io_UnexpectedEof | Io_InvalidInput | Io_InvalidData | Io_TimedOut
| Io_Interrupted | Io_NotFound | Io_PermissionDenied | Io_OutOfMemory
| Io_Unsupported | Io_Other.

#[global] Instance BlockError_eq_dec : EqDecision BlockError.
Proof. solve_decision. Defined.
#[global] Instance IoError_eq_dec : EqDecision IoError.
Proof. solve_decision. Defined.

(** [IoError::as_str] *)
Definition IoError_as_str (e : IoError) : rstring :=
  match e with
  | Io_UnexpectedEof => lit "unexpected EOF"
  | Io_InvalidInput => lit "invalid input"
  | Io_InvalidData => lit "invalid data"
  | Io_TimedOut => lit "timed out"
  | Io_Interrupted => lit "interrupted"
  | Io_NotFound => lit "not found"
  | Io_PermissionDenied => lit "permission denied"
  | Io_OutOfMemory => lit "out of memory"
  | Io_Unsupported => lit "unsupported"
  | Io_Other => lit "other"
  end.

(** [BlockError::as_str] *)
Definition BlockError_as_str (e : BlockError) : rstring :=
  match e with
  | Blk_DeviceNotReady => lit "device not ready"
  | Blk_DeviceError => lit "device error"
  | Blk_DeviceBusy => lit "device busy"
  | Blk_Timeout => lit "timeout"
  | Blk_NoMemory => lit "no memory"
  | Blk_OutOfBounds => lit "out of bounds"
  | Blk_BadSector => lit "bad sector"
  | Blk_ReadError => lit "read error"
  | Blk_WriteError => lit "write error"
  | Blk_InvalidGeometry => lit "invalid geometry"
  | Blk_UnsupportedSectorSize => lit "unsupported sector size"
  | Blk_InvalidRequest => lit "invalid request"
  | Blk_InvalidBuffer => lit "invalid buffer"
  | Blk_Other => lit "other"
  end.

(** [hal::fs::FsError] *)
Inductive HalFsError :=
| Hal_NotFound | Hal_NotAFile | Hal_NotADirectory | Hal_Io (e : IoError)
| Hal_InvalidPath | Hal_Corrupted | Hal_Other.

#[global] Instance HalFsError_eq_dec : EqDecision HalFsError.
Proof. solve_decision. Defined.

(** [impl From<BlockError> for IoError] *)
Definition IoError_from_BlockError (e : BlockError) : IoError :=
  match e with
  | Blk_OutOfBounds => Io_InvalidInput
  | Blk_ReadError => Io_UnexpectedEof
  | Blk_Timeout => Io_TimedOut
  | Blk_NoMemory => Io_OutOfMemory
  | Blk_UnsupportedSectorSize => Io_InvalidInput
  | Blk_InvalidGeometry => Io_InvalidInput
  | Blk_BadSector => Io_InvalidData
  | _ => Io_Other
  end.

(** ** The trait

    [read_blocks lba buf] returns the buffer it has filled; no caller looks
    at the buffer after an error. *)
Class BlockDevice (D : Type) := {
  read_blocks : Z → list Z → st D BlockError (list Z);
  write_blocks : Z → list Z → st D BlockError ();
  block_size : D → Z;
  block_count : D → Z;
}.

(** ** The contract of the callers *)

Section disk.
Context {D : Type} `{!BlockDevice D}.

(** Size of the device in bytes. *)
Definition capacity (d : D) : Z := block_size d * block_count d.

(** Two states of a device of the same geometry. *)
Definition same_geometry (d d' : D) : Prop :=
  block_size d' = block_size d ∧ block_count d' = block_count d.
End disk.

Class ByteDisk (D : Type) `{!BlockDevice D} := {
  disk_ok : D → Prop;
  byte_at : D → Z → Z;
  disk_ok_geometry d : disk_ok d → is_u64 (block_size d) ∧ is_u64 (block_count d);
  byte_at_range d a : disk_ok d → is_u8 (byte_at d a);
  read_blocks_in d a buf :
    disk_ok d → 0 ≤ a → a + len buf ≤ capacity d →
    (read_blocks a buf d).2 = Ok (byte_at d <$> seqZ a (len buf));
  read_blocks_frame d a buf :
    disk_ok d →
    disk_ok (read_blocks a buf d).1 ∧ same_geometry d (read_blocks a buf d).1 ∧
    ∀ x, byte_at (read_blocks a buf d).1 x = byte_at d x;
  read_blocks_safe d a buf : disk_ok d → safe (read_blocks a buf d).2;
  read_blocks_buf d a buf b :
    disk_ok d → (read_blocks a buf d).2 = Ok b → length b = length buf ∧ bytes_ok b;
  write_blocks_in d a data :
    disk_ok d → bytes_ok data → 0 ≤ a → a + len data ≤ capacity d →
    (write_blocks a data d).2 = Ok () ∧
    ∀ x, byte_at (write_blocks a data d).1 x =
      if decide (a ≤ x < a + len data) then data !!! Z.to_nat (x - a) else byte_at d x;
  write_blocks_frame d a data :
    disk_ok d → bytes_ok data →
    disk_ok (write_blocks a data d).1 ∧ same_geometry d (write_blocks a data d).1;
  write_blocks_safe d a data : disk_ok d → bytes_ok data → safe (write_blocks a data d).2;
}.

(** A driver that takes [lba] as a sector number and rejects a request that
    starts past the last sector. *)
Class SectorDisk (D : Type) `{!BlockDevice D} := {
  read_blocks_past d lba buf :
    block_count d ≤ lba → ∃ e, (read_blocks lba buf d).2 = Err e;
  write_blocks_past d lba data :
    block_count d ≤ lba → ∃ e, (write_blocks lba data d).2 = Err e;
  write_blocks_geometry d lba data : same_geometry d (write_blocks lba data d).1;
}.

(** ** Theory of byte-addressed devices *)

Section bytedisk.
Context {D : Type} `{!BlockDevice D, !ByteDisk D}.
Implicit Types d : D.

(** Two states of the device that no caller can tell apart. *)
#[global] Instance disk_equiv : Equiv D := λ d d',
  (disk_ok d ↔ disk_ok d') ∧ same_geometry d d' ∧ ∀ x, byte_at d' x = byte_at d x.

#[global] Instance disk_equiv_equivalence : Equivalence (≡@{D}).
Proof.
  split.
  - intros d. split_and!; done.
  - intros d d' (?&[Hs Hc]&?). split_and!; [done|split; by symmetry|by symmetry].
  - intros d1 d2 d3 (?&[]&?) (?&[]&?). split_and!; [by etrans|split; congruence|congruence].
Qed.

#[global] Instance disk_ok_proper : Proper ((≡) ==> (↔)) (disk_ok (D:=D)).
Proof. intros d d' (?&_). done. Qed.
#[global] Instance capacity_proper : Proper ((≡) ==> (=)) (capacity (D:=D)).
Proof. intros d d' (_&[H1 H2]&_). unfold capacity. congruence. Qed.
#[global] Instance block_size_proper : Proper ((≡) ==> (=)) (block_size (D:=D)).
Proof. intros d d' (_&[H1 H2]&_). done. Qed.
#[global] Instance block_count_proper : Proper ((≡) ==> (=)) (block_count (D:=D)).
Proof. intros d d' (_&[H1 H2]&_). done. Qed.

(** The [n] bytes at address [a]. *)
Definition rd (a n : Z) (d : D) : list Z := byte_at d <$> seqZ a n.

#[global] Instance rd_proper : Proper ((=) ==> (=) ==> (≡) ==> (=)) rd.
Proof. intros a ? <- n ? <- d d' (_&_&H). apply list_fmap_ext. intros ???. symmetry. apply H. Qed.

Lemma length_rd a n d : length (rd a n d) = Z.to_nat n.
Proof. unfold rd. by rewrite length_fmap, length_seqZ. Qed.

Lemma lookup_rd a n d i :
  rd a n d !! i = if decide (i < Z.to_nat n)%nat then Some (byte_at d (a + Z.of_nat i)) else None.
Proof.
  unfold rd. rewrite list_lookup_fmap. case_decide.
  - by rewrite lookup_seqZ_lt by lia.
  - by rewrite lookup_seqZ_ge by lia.
Qed.

Lemma rd_bytes_ok a n d : disk_ok d → bytes_ok (rd a n d).
Proof.
  intros Hd. apply Forall_lookup. intros i x. rewrite lookup_rd. case_decide; [|done].
  intros [= <-]. by apply byte_at_range.
Qed.

Lemma sub_rd a n d b m : 0 ≤ b → 0 ≤ m → b + m ≤ n → sub b m (rd a n d) = rd (a + b) m d.
Proof.
  intros. apply list_eq. intros i. rewrite lookup_sub, !lookup_rd.
  case_decide; [|done]. rewrite decide_True by lia. do 2 f_equal. lia.
Qed.

Lemma rd_eq a n d d' :
  (∀ x, a ≤ x < a + n → byte_at d' x = byte_at d x) → rd a n d' = rd a n d.
Proof.
  intros H. apply list_eq. intros i. rewrite !lookup_rd. case_decide; [|done].
  f_equal. apply H. lia.
Qed.

(** [d'] is [d] after writing [data] at [a]. *)
Definition wrote (a : Z) (data : list Z) (d d' : D) : Prop :=
  disk_ok d' ∧ same_geometry d d' ∧
  ∀ x, byte_at d' x =
    if decide (a ≤ x < a + len data) then data !!! Z.to_nat (x - a) else byte_at d x.

Lemma rd_wrote_in a data d d' b n :
  wrote a data d d' → a ≤ b → 0 ≤ n → b + n ≤ a + len data →
  rd b n d' = sub (b - a) n data.
Proof.
  intros (_&_&Hx) ???. apply list_eq. intros i. rewrite lookup_rd, lookup_sub.
  case_decide; [|done]. rewrite Hx, decide_True by lia.
  destruct (lookup_lt_is_Some_2 data (Z.to_nat (b - a) + i)) as [v Hv]; [lia|].
  rewrite Hv. f_equal. apply list_lookup_total_correct.
  replace (Z.to_nat (b + Z.of_nat i - a)) with (Z.to_nat (b - a) + i)%nat by lia. done.
Qed.

Lemma rd_wrote a data d d' n :
  wrote a data d d' → len data = n → rd a n d' = data.
Proof.
  intros Hw <-. rewrite (rd_wrote_in a data d d') by (done || lia).
  rewrite Z.sub_diag. apply sub_all.
Qed.

Lemma rd_wrote_out a data d d' b n :
  wrote a data d d' → b + n ≤ a ∨ a + len data ≤ b → rd b n d' = rd b n d.
Proof.
  intros (_&_&Hx) ?. apply rd_eq. intros x ?. rewrite Hx, decide_False by lia. done.
Qed.

Lemma wrote_ok a data d d' : wrote a data d d' → disk_ok d'.
Proof. by intros []. Qed.
Lemma wrote_size a data d d' : wrote a data d d' → block_size d' = block_size d.
Proof. by intros (_&[]&_). Qed.
Lemma wrote_count a data d d' : wrote a data d d' → block_count d' = block_count d.
Proof. by intros (_&[]&_). Qed.
Lemma wrote_capacity a data d d' : wrote a data d d' → capacity d' = capacity d.
Proof. intros (_&[H1 H2]&_). unfold capacity. congruence. Qed.

Lemma dev_read a n d :
  disk_ok d → 0 ≤ a → 0 ≤ n → a + n ≤ capacity d →
  ∃ d', read_blocks a (zeros n) d = (d', Ok (rd a n d)) ∧ d ≡ d'.
Proof.
  intros Hd ???.
  pose proof (read_blocks_in d a (zeros n) Hd) as Hr.
  pose proof (read_blocks_frame d a (zeros n) Hd) as (?&?&?).
  rewrite length_zeros in Hr. rewrite Z2Nat.id in Hr by lia. specialize (Hr ltac:(lia) ltac:(lia)).
  destruct (read_blocks a (zeros n) d) as [d' r]. cbn in *. subst r.
  eexists. split; [done|]. split_and!; [by split|done|done].
Qed.

(** Any read: the device is the same, the buffer has its length and holds
    bytes. *)
Lemma dev_read_any a n d :
  disk_ok d → 0 ≤ n → ∃ d' r, read_blocks a (zeros n) d = (d', r) ∧ d ≡ d' ∧ safe r ∧
    ∀ b, r = Ok b → len b = n ∧ bytes_ok b.
Proof.
  intros Hd Hn.
  pose proof (read_blocks_frame d a (zeros n) Hd) as (?&?&?).
  pose proof (read_blocks_safe d a (zeros n) Hd) as Hs.
  pose proof (read_blocks_buf d a (zeros n)) as Hb.
  destruct (read_blocks a (zeros n) d) as [d' r]. cbn in *.
  exists d', r. split; [done|]. split; [split_and!; [by split|done|done]|].
  split; [done|]. intros b ->. destruct (Hb b Hd eq_refl) as [-> ?]. rewrite length_zeros. split; [lia|done].
Qed.

Lemma dev_write a data d :
  disk_ok d → bytes_ok data → 0 ≤ a → a + len data ≤ capacity d →
  ∃ d', write_blocks a data d = (d', Ok ()) ∧ wrote a data d d'.
Proof.
  intros Hd Hb ??.
  pose proof (write_blocks_in d a data Hd Hb) as Hw.
  pose proof (write_blocks_frame d a data Hd Hb) as [??].
  specialize (Hw ltac:(lia) ltac:(lia)) as [??].
  destruct (write_blocks a data d) as [d' r]. cbn in *. subst r.
  eexists. split; [done|]. done.
Qed.

Lemma dev_write_any a data d :
  disk_ok d → bytes_ok data → ∃ d' r, write_blocks a data d = (d', r) ∧
    disk_ok d' ∧ same_geometry d d' ∧ safe r.
Proof.
  intros Hd Hb.
  pose proof (write_blocks_frame d a data Hd Hb) as [??].
  pose proof (write_blocks_safe d a data Hd Hb).
  destruct (write_blocks a data d) as [d' r]. by exists d', r.
Qed.

Lemma equiv_ok d d' : d ≡ d' → disk_ok d → disk_ok d'.
Proof. by intros ->. Qed.

(** ** Computations that only read

    [reads m d Q]: run on [d], [m] neither panics nor diverges, leaves the
    device as it was, and a result satisfies [Q]. *)
Definition reads {E A} (m : st D E A) (d : D) (Q : A → Prop) : Prop :=
  safe (m d).2 ∧ d ≡ (m d).1 ∧ ∀ a, (m d).2 = Ok a → Q a.

Lemma reads_bind {E A B} (m : st D E A) (k : A → st D E B) d R Q :
  reads m d R → (∀ a d', R a → d ≡ d' → reads (k a) d' Q) → reads (m ≫= k) d Q.
Proof.
  intros (Hs&He&Hr) Hk. unfold reads. rewrite st_bind_unfold.
  destruct (m d) as [d' [a|e| |]]; cbn in *; try done.
  destruct (Hk a d') as (?&?&?); [by apply Hr|done|]. split_and!; [done|by etrans|done].
Qed.
Lemma reads_weaken {E A} (m : st D E A) d (R Q : A → Prop) :
  reads m d R → (∀ a, R a → Q a) → reads m d Q.
Proof. intros (?&?&?) ?. split_and!; auto. Qed.
Lemma reads_lift {E A} (m : outcome E A) d (Q : A → Prop) :
  safe m → (∀ a, m = Ok a → Q a) → reads (lift m) d Q.
Proof. intros. split_and!; done. Qed.
Lemma reads_mret {E A} (a : A) d (Q : A → Prop) : Q a → reads (E:=E) (mret a) d Q.
Proof. intros. split_and!; [done..|]. intros ? [= <-]. done. Qed.
Lemma reads_fail {E A} (e : E) d (Q : A → Prop) : reads (fail e) d Q.
Proof. by split_and!. Qed.
Lemma reads_get {E} d (Q : D → Prop) : Q d → reads (E:=E) get_st d Q.
Proof. intros. split_and!; [done..|]. intros ? [= <-]. done. Qed.
Lemma reads_ok {E F A} (m : st D E A) d R :
  reads m d R → reads (E:=F) (st_ok m) d (λ o, ∀ a, o = Some a → R a).
Proof.
  intros (?&?&Hr). unfold reads, st_ok. destruct (m d) as [d' [a|e| |]]; cbn in *; try done;
    split_and!; try done; intros ? [= <-] ? [= <-]; auto.
Qed.
Lemma reads_map_err {E F A} (f : E → F) (m : st D E A) d Q :
  reads m d Q → reads (st_map_err f m) d Q.
Proof.
  intros (?&?&Hr). unfold reads, st_map_err. destruct (m d) as [d' [a|e| |]]; cbn in *; try done;
    split_and!; try done; intros ? [= <-]; auto.
Qed.
(** [looks m d Q]: like [reads], for a computation that may also panic. *)
Definition looks {E A} (m : st D E A) (d : D) (Q : A → Prop) : Prop :=
  ends (m d).2 ∧ d ≡ (m d).1 ∧ ∀ a, (m d).2 = Ok a → Q a.

Lemma reads_looks {E A} (m : st D E A) d Q : reads m d Q → looks m d Q.
Proof. intros (?&?&?). split_and!; [by apply safe_ends|done|done]. Qed.
Lemma looks_bind {E A B} (m : st D E A) (k : A → st D E B) d R Q :
  looks m d R → (∀ a d', R a → d ≡ d' → looks (k a) d' Q) → looks (m ≫= k) d Q.
Proof.
  intros (Hs&He&Hr) Hk. unfold looks. rewrite st_bind_unfold.
  destruct (m d) as [d' [a|e| |]]; cbn in *; try done.
  destruct (Hk a d') as (?&?&?); [by apply Hr|done|]. split_and!; [done|by etrans|done].
Qed.
Lemma looks_weaken {E A} (m : st D E A) d (R Q : A → Prop) :
  looks m d R → (∀ a, R a → Q a) → looks m d Q.
Proof. intros (?&?&?) ?. split_and!; auto. Qed.
Lemma looks_lift {E A} (m : outcome E A) d (Q : A → Prop) :
  ends m → (∀ a, m = Ok a → Q a) → looks (lift m) d Q.
Proof. intros. split_and!; done. Qed.
Lemma looks_mret {E A} (a : A) d (Q : A → Prop) : Q a → looks (E:=E) (mret a) d Q.
Proof. intros. by apply reads_looks, reads_mret. Qed.
Lemma looks_fail {E A} (e : E) d (Q : A → Prop) : looks (fail e) d Q.
Proof. by apply reads_looks, reads_fail. Qed.
Lemma looks_map_err {E F A} (f : E → F) (m : st D E A) d Q :
  looks m d Q → looks (st_map_err f m) d Q.
Proof.
  intros (?&?&Hr). unfold looks, st_map_err. destruct (m d) as [d' [a|e| |]]; cbn in *; try done;
    split_and!; try done; intros ? [= <-]; auto.
Qed.

Lemma reads_blocks a n d :
  disk_ok d → 0 ≤ n → reads (read_blocks a (zeros n)) d (λ b, len b = n ∧ bytes_ok b).
Proof.
  intros Hd Hn. destruct (dev_read_any a n d Hd Hn) as (d'&r&Hr&?&?&?).
  unfold reads. rewrite Hr. by split_and!.
Qed.
End bytedisk.

#[export] Hint Resolve rd_bytes_ok : bytes.
#[export] Hint Rewrite @length_rd : blen.

(** ** Concrete devices

    A sparse disk in memory, addressed by byte. *)

Record RamDisk := { rd_size : Z; rd_count : Z; rd_data : gmap Z Z }.

Definition ram_byte (d : RamDisk) (a : Z) : Z := default 0 (rd_data d !! a) mod 256.

Definition ram_store (a : Z) (data : list Z) (m : gmap Z Z) : gmap Z Z :=
  list_to_map (zip (seqZ a (len data)) data) ∪ m.

#[global] Instance ram_device : BlockDevice RamDisk := {|
  read_blocks a buf d :=
    if (0 <=? a) && (a + len buf <=? rd_size d * rd_count d)
    then (d, Ok (ram_byte d <$> seqZ a (len buf))) else (d, Err Blk_OutOfBounds);
  write_blocks a data d :=
    if (0 <=? a) && (a + len data <=? rd_size d * rd_count d)
    then ({| rd_size := rd_size d; rd_count := rd_count d;
             rd_data := ram_store a data (rd_data d) |}, Ok ())
    else (d, Err Blk_OutOfBounds);
  block_size := rd_size;
  block_count := rd_count;
|}.

Lemma ram_store_lookup a data m x :
  ram_store a data m !! x =
    if decide (a ≤ x < a + len data) then Some (data !!! Z.to_nat (x - a)) else m !! x.
Proof.
  unfold ram_store. rewrite lookup_union. case_decide as Hx.
  - destruct (lookup_lt_is_Some_2 data (Z.to_nat (x - a))) as [v Hv]; [lia|].
    erewrite elem_of_list_to_map_1 with (x := v).
    + rewrite (list_lookup_total_correct _ _ _ Hv). apply union_Some_l.
    + rewrite fst_zip by (rewrite length_seqZ; lia). apply NoDup_seqZ.
    + apply list_elem_of_lookup. exists (Z.to_nat (x - a)).
      rewrite lookup_zip_with. rewrite lookup_seqZ_lt by lia. cbn. rewrite Hv. cbn.
      do 2 f_equal. lia.
  - rewrite not_elem_of_list_to_map_1; [by rewrite option_union_left_id|].
    rewrite fst_zip by (rewrite length_seqZ; lia). rewrite elem_of_seqZ. lia.
Qed.

#[global, refine] Instance ram_byte_disk : ByteDisk RamDisk := {|
  disk_ok d := is_u64 (rd_size d) ∧ is_u64 (rd_count d);
  byte_at := ram_byte;
|}.
Proof.
  - done.
  - intros d a _. apply Z.mod_pos_bound. lia.
  - intros d a buf _ Ha Hl. cbn. unfold capacity in Hl. cbn in Hl.
    by rewrite (proj2 (Z.leb_le 0 a)), (proj2 (Z.leb_le (a + _) _)) by lia.
  - intros d a buf Hd. cbn. by case_match.
  - intros d a buf _. cbn. by case_match.
  - intros d a buf b _. cbn. case_match; [|done]. cbn. intros [= <-].
    split; [rewrite length_fmap, length_seqZ; lia|].
    apply Forall_fmap, Forall_true. intros x. apply Z.mod_pos_bound. lia.
  - intros d a data _ Hb Ha Hl. cbn. unfold capacity in Hl. cbn in Hl.
    rewrite (proj2 (Z.leb_le 0 a)), (proj2 (Z.leb_le (a + _) _)) by lia. cbn.
    split; [done|]. intros x. unfold ram_byte. cbn. rewrite ram_store_lookup.
    case_decide; [|done]. cbn. apply Z.mod_small.
    destruct (lookup_lt_is_Some_2 data (Z.to_nat (x - a))) as [v Hv]; [lia|].
    rewrite (list_lookup_total_correct _ _ _ Hv). by apply (bytes_ok_byte data _ _ Hb Hv).
  - intros d a data Hd _. cbn. by case_match.
  - intros d a data _ _. cbn. by case_match.
Defined.

(** The same disk behind a driver that counts sectors. *)

Record SectorRam := { sr_disk : RamDisk }.

#[global] Instance sector_device : BlockDevice SectorRam := {|
  read_blocks lba buf d :=
    if lba <? rd_count (sr_disk d) then
      let '(r, o) := read_blocks (lba * rd_size (sr_disk d)) buf (sr_disk d) in ({| sr_disk := r |}, o)
    else (d, Err Blk_OutOfBounds);
  write_blocks lba data d :=
    if lba <? rd_count (sr_disk d) then
      let '(r, o) := write_blocks (lba * rd_size (sr_disk d)) data (sr_disk d) in ({| sr_disk := r |}, o)
    else (d, Err Blk_OutOfBounds);
  block_size d := rd_size (sr_disk d);
  block_count d := rd_count (sr_disk d);
|}.

#[global] Instance sector_sector_disk : SectorDisk SectorRam.
Proof.
  split.
  - intros d lba buf H. cbn in *. rewrite (proj2 (Z.ltb_ge _ _)) by lia. by eexists.
  - intros d lba buf H. cbn in *. rewrite (proj2 (Z.ltb_ge _ _)) by lia. by eexists.
  - intros d lba data. cbn. unfold same_geometry. cbn. repeat case_match; simplify_eq; done.
Defined.
