(* ===== verification/Gpt.v ===== *)
(** * GPT structures

    [partition/gpt/mod.rs], [structs.rs], [error.rs] and the pure functions of
    [read.rs] and [write.rs]: the header and entry records, GUID generation,
    the table-driven CRC-32, serialisation and parsing of entries and headers,
    header validation and checksum. *)

From S2P Require Import Prelude Bytes BlockDev.

(** ** Data *)

Inductive GptError :=
| Gpt_InvalidSignature | Gpt_InvalidHeaderCrc | Gpt_InvalidEntriesCrc
| Gpt_InvalidHeaderSize | Gpt_InvalidEntrySize | Gpt_IoError
| Gpt_Overflow | Gpt_NoSpace | Gpt_NotFound.

#[global] Instance GptError_eq_dec : EqDecision GptError.
Proof. solve_decision. Defined.

(** [impl From<BlockError> for GptError] *)
Definition GptError_from_BlockError (_ : BlockError) : GptError := Gpt_IoError.

Record GptHeader := {
  signature : list Z;
  revision : list Z;
  header_size : Z;
  header_crc32 : Z;
  reserved : Z;
  my_lba : Z;
  alternate_lba : Z;
  first_usable_lba : Z;
  last_usable_lba : Z;
  disk_guid : list Z;
  partition_entry_lba : Z;
  num_partition_entries : Z;
  partition_entry_size : Z;
  partition_array_crc32 : Z;
}.

Record GptEntry := {
  type_guid : list Z;
  unique_guid : list Z;
  start_lba : Z;
  end_lba : Z;
  attributes : Z;
  gpt_name : list Z;
}.

#[global] Instance GptEntry_eq_dec : EqDecision GptEntry.
Proof. solve_decision. Defined.

(** [b"EFI PART"] *)
Definition GPT_SIGNATURE : list Z := [0x45; 0x46; 0x49; 0x20; 0x50; 0x41; 0x52; 0x54].
Definition GPT_REVISION : list Z := [0x00; 0x00; 0x01; 0x00].
Definition GPT_HEADER_SIZE : Z := 92.
Definition GPT_ENTRY_SIZE : Z := 128.
Definition GPT_MAX_ENTRIES : Z := 128.
Definition GPT_FIRST_USABLE_LBA : Z := 34.
Definition GPT_RESERVED_LBAS : Z := 33.

(** Field widths. *)
Definition entry_wf (e : GptEntry) : Prop :=
  length (type_guid e) = 16%nat ∧ bytes_ok (type_guid e) ∧
  length (unique_guid e) = 16%nat ∧ bytes_ok (unique_guid e) ∧
  is_u64 (start_lba e) ∧ is_u64 (end_lba e) ∧ is_u64 (attributes e) ∧
  length (gpt_name e) = 36%nat ∧ Forall (is_u 16) (gpt_name e).

(** ** GUIDs *)

(** [generate_guid] with the value of [GUID_COUNTER] as its argument. *)
Definition guid_of (n : Z) : list Z :=
  let g := u64_le n ++ u64_le (n *w 0x9E3779B97F4A7C15) in
  let g := upd 6 [Z.lor (Z.land (nth 6 g 0) 0x0F) 0x40] g in
  upd 8 [Z.lor (Z.land (nth 8 g 0) 0x3F) 0x80] g.

(** [fetch_add] wraps. The state is the counter. *)
Definition generate_guid {S E} : st (Z * S) E (list Z) := λ '(n, s),
  ((n +w 1, s), Ok (guid_of n)).

(** ** CRC-32 *)

(** One round of the [j] loop of the table's initialiser. *)
Definition crc_round (crc : Z) : Z :=
  if Z.testbit crc 0 then Z.lxor (Z.shiftr crc 1) 0xEDB88320 else Z.shiftr crc 1.

Fixpoint crc_rounds (n : nat) (crc : Z) : Z :=
  match n with O => crc | S n => crc_rounds n (crc_round crc) end.

Definition CRC32C_TABLE : list Z := crc_rounds 8 <$> seqZ 0 256.

Definition crc_step (crc byte : Z) : Z :=
  Z.lxor (nth (Z.to_nat (Z.lxor (Z.land crc 0xFF) byte)) CRC32C_TABLE 0) (Z.shiftr crc 8).

(** [!x] at 32 bits is [Z.lxor x 0xFFFFFFFF]. *)
Definition crc32 (data : list Z) : Z :=
  Z.lxor (foldl crc_step 0xFFFFFFFF data) 0xFFFFFFFF.

(** ** Entries *)

Definition serialize_entry (e : GptEntry) : list Z :=
  type_guid e ++ unique_guid e ++ u64_le (start_lba e) ++ u64_le (end_lba e) ++
  u64_le (attributes e) ++ (gpt_name e ≫= λ u, u16_le u).

Definition serialize_entries (entries : list GptEntry) : list Z :=
  entries ≫= serialize_entry.

(** The [take(36)] units of the buffer, in a zeroed array. *)
Definition parse_utf16le (data : list Z) : list Z :=
  let units := take 36 (from_le <$> chunks_exact 2 data) in
  units ++ replicate (36 - length units) 0.

Definition parse_gpt_entry (e : list Z) : outcome GptError GptEntry :=
  if len e <? 128 then Err Gpt_InvalidEntrySize else
  tg ← slice e 0 16;
  ug ← slice e 16 32;
  s ← u64_at e 32;
  n ← u64_at e 40;
  a ← u64_at e 48;
  nm ← slice e 56 128;
  mret {| type_guid := tg; unique_guid := ug; start_lba := s; end_lba := n;
          attributes := a; gpt_name := parse_utf16le nm |}.

Definition verify_entries_crc (entries : list GptEntry) (stored : Z) : outcome GptError () :=
  let raw := serialize_entries entries in
  if crc32 raw =? stored then Ok () else Err Gpt_InvalidEntriesCrc.

(** ** Headers *)

Definition parse_header (raw : list Z) : outcome GptError GptHeader :=
  if len raw <? GPT_HEADER_SIZE then Err Gpt_InvalidHeaderSize else
  sg ← slice raw 0 8;
  rv ← slice raw 8 12;
  hs ← u32_at raw 12;
  hc ← u32_at raw 16;
  rs ← u32_at raw 20;
  ml ← u64_at raw 24;
  al ← u64_at raw 32;
  fu ← u64_at raw 40;
  lu ← u64_at raw 48;
  dg ← slice raw 56 72;
  pl ← u64_at raw 72;
  np ← u32_at raw 80;
  ps ← u32_at raw 84;
  pc ← u32_at raw 88;
  mret {| signature := sg; revision := rv; header_size := hs; header_crc32 := hc;
          reserved := rs; my_lba := ml; alternate_lba := al; first_usable_lba := fu;
          last_usable_lba := lu; disk_guid := dg; partition_entry_lba := pl;
          num_partition_entries := np; partition_entry_size := ps;
          partition_array_crc32 := pc |}.

(** A revision other than [GPT_REVISION] is accepted. *)
Definition validate_header (h : GptHeader) : outcome GptError () :=
  if bool_decide (signature h ≠ GPT_SIGNATURE) then Err Gpt_InvalidSignature else
  if negb (header_size h =? GPT_HEADER_SIZE) then Err Gpt_InvalidHeaderSize else
  if negb (partition_entry_size h =? GPT_ENTRY_SIZE) then Err Gpt_InvalidEntrySize else
  Ok ().

Definition parse_and_verify_header (raw : list Z) : outcome GptError (list Z * GptHeader) :=
  if len raw <? GPT_HEADER_SIZE then Err Gpt_InvalidHeaderSize else
  header ← parse_header raw;
  validate_header header;;
  let stored_crc := header_crc32 header in
  crc_buf ← slice raw 0 (header_size header);
  crc_buf ← copy_to crc_buf 16 20 (zeros 4);
  if negb (crc32 crc_buf =? stored_crc) then Err Gpt_InvalidHeaderCrc else
  mret (raw, header).

Definition build_header (my_lba alternate_lba partition_entry_lba entry_array_crc
    last_lba sector : Z) (disk_guid : list Z) (num_entries : Z) : outcome GptError (list Z) :=
  if sector <? GPT_HEADER_SIZE then Err Gpt_InvalidHeaderSize else
  let first_usable := GPT_FIRST_USABLE_LBA in
  let last_usable := sat_sub last_lba GPT_RESERVED_LBAS in
  h ← vec_zeroed sector;
  h ← copy_to h 0 8 GPT_SIGNATURE;
  h ← copy_to h 8 12 GPT_REVISION;
  h ← copy_to h 12 16 (u32_le GPT_HEADER_SIZE);
  h ← copy_to h 24 32 (u64_le my_lba);
  h ← copy_to h 32 40 (u64_le alternate_lba);
  h ← copy_to h 40 48 (u64_le first_usable);
  h ← copy_to h 48 56 (u64_le last_usable);
  h ← copy_to h 56 72 disk_guid;
  h ← copy_to h 72 80 (u64_le partition_entry_lba);
  h ← copy_to h 80 84 (u32_le num_entries);
  h ← copy_to h 84 88 (u32_le GPT_ENTRY_SIZE);
  h ← copy_to h 88 92 (u32_le entry_array_crc);
  mret h.

Definition finalize_header_crc (header : list Z) : outcome GptError (list Z) :=
  header ← copy_to header 16 20 (zeros 4);
  prefix ← slice header 0 GPT_HEADER_SIZE;
  let crc := crc32 prefix in
  copy_to header 16 20 (u32_le crc).
