(* ===== verification/GptFacts.v ===== *)
(** * Facts about the GPT structures

    The checksum, the entry codec and the header codec of [Gpt]. *)

From S2P Require Import Prelude Bytes BlockDev Gpt.

(** ** CRC-32 *)

(** The bit-serial CRC-32 (reflected, polynomial 0xEDB88320): the reference
    the table is checked against. *)
Definition crc32_ref (data : list Z) : Z :=
  Z.lxor (foldl (λ crc b, crc_rounds 8 (Z.lxor crc b)) 0xFFFFFFFF data) 0xFFFFFFFF.

Lemma crc_round_lxor a b : crc_round (Z.lxor a b) = Z.lxor (crc_round a) (crc_round b).
Proof.
  unfold crc_round. rewrite Z.lxor_spec, Z.shiftr_lxor.
  destruct (Z.testbit a 0), (Z.testbit b 0); cbn [xorb]; apply Z.bits_inj'; intros n _;
    rewrite ?Z.lxor_spec; by repeat (destruct (Z.testbit _ n)).
Qed.

Lemma crc_rounds_lxor n a b : crc_rounds n (Z.lxor a b) = Z.lxor (crc_rounds n a) (crc_rounds n b).
Proof. revert a b. induction n; intros; cbn; [done|]. by rewrite crc_round_lxor. Qed.

Lemma crc_rounds_shiftl n x : crc_rounds n (Z.shiftl x (Z.of_nat n)) = x.
Proof.
  revert x. induction n as [|n IH]; intros x; [apply Z.shiftl_0_r|]. cbn [crc_rounds].
  rewrite Nat2Z.inj_succ, <- Z.add_1_l, Z.add_comm, <- Z.shiftl_shiftl by lia.
  unfold crc_round at 1. rewrite Z.shiftl_spec_low by lia.
  rewrite Z.shiftr_shiftl_l by lia. rewrite Z.sub_diag, Z.shiftl_0_r. apply IH.
Qed.

Lemma crc_split crc b : crc_rounds 8 (Z.lxor crc b) =
  Z.lxor (crc_rounds 8 (Z.lxor (Z.land crc 0xFF) b)) (Z.shiftr crc 8).
Proof.
  replace (Z.lxor crc b) with
    (Z.lxor (Z.lxor (Z.land crc 0xFF) b) (Z.shiftl (Z.shiftr crc 8) (Z.of_nat 8))).
  { by rewrite crc_rounds_lxor, crc_rounds_shiftl. }
  apply Z.bits_inj'. intros n Hn. rewrite !Z.lxor_spec, Z.land_spec.
  change 0xFF with (Z.ones 8). destruct (decide (n < 8)).
  - rewrite Z.ones_spec_low, Z.shiftl_spec_low by lia.
    by destruct (Z.testbit crc n), (Z.testbit b n).
  - rewrite Z.ones_spec_high, Z.shiftl_spec, Z.shiftr_spec by lia.
    replace (n - Z.of_nat 8 + 8) with n by lia.
    by destruct (Z.testbit crc n), (Z.testbit b n).
Qed.

Lemma crc_table_nth k : is_u8 k → nth (Z.to_nat k) CRC32C_TABLE 0 = crc_rounds 8 k.
Proof.
  intros Hk. unfold is_u in Hk. unfold CRC32C_TABLE. apply nth_lookup_Some.
  rewrite list_lookup_fmap, lookup_seqZ_lt by lia. cbn [fmap option_fmap option_map].
  do 2 f_equal. lia.
Qed.

Lemma crc_step_ref crc b : is_u8 b → crc_step crc b = crc_rounds 8 (Z.lxor crc b).
Proof.
  intros Hb. unfold crc_step. rewrite crc_split. f_equal. apply crc_table_nth.
  apply is_u_lxor; [done| |done]. change 0xFF with (Z.ones 8).
  rewrite Z.land_ones by lia. apply Z.mod_pos_bound. lia.
Qed.

Lemma crc_fold_ref data crc :
  bytes_ok data → foldl crc_step crc data = foldl (λ crc b, crc_rounds 8 (Z.lxor crc b)) crc data.
Proof.
  intros Hd. revert crc. induction Hd as [|b l Hb _ IH]; intros crc; [done|]. cbn [foldl].
  by rewrite crc_step_ref, IH.
Qed.

Lemma crc_round_u32 a : is_u32 a → is_u32 (crc_round a).
Proof.
  intros Ha. assert (is_u32 (Z.shiftr a 1)).
  { unfold is_u in *. rewrite Z.shiftr_div_pow2 by lia. change (2 ^ 1) with 2.
    split; [apply Z.div_pos; lia|]. apply Z.div_lt_upper_bound; lia. }
  unfold crc_round. case_match; [|done]. apply is_u_lxor; [done..|]. unfold is_u. lia.
Qed.

(** Bit 31 of the polynomial is set: it records the bit shifted out. *)
Lemma crc_round_bit31 a : is_u32 a → Z.testbit (crc_round a) 31 = Z.testbit a 0.
Proof.
  intros Ha. unfold crc_round. destruct (Z.testbit a 0);
    rewrite ?Z.lxor_spec, Z.shiftr_spec, (is_u_high 32) by (done || lia); done.
Qed.

Lemma crc_round_inj a b : is_u32 a → is_u32 b → crc_round a = crc_round b → a = b.
Proof.
  intros Ha Hb He.
  assert (H0 : Z.testbit a 0 = Z.testbit b 0) by (rewrite <- !crc_round_bit31 by done; by rewrite He).
  assert (Hs : Z.shiftr a 1 = Z.shiftr b 1).
  { unfold crc_round in He. rewrite H0 in He. destruct (Z.testbit b 0); [|done].
    apply (f_equal (λ x, Z.lxor x 0xEDB88320)) in He.
    by rewrite !Z.lxor_assoc, !Z.lxor_nilpotent, !Z.lxor_0_r in He. }
  apply Z.bits_inj'. intros n Hn. destruct (decide (n = 0)) as [->|]; [done|].
  apply (f_equal (λ x, Z.testbit x (n - 1))) in Hs.
  rewrite !Z.shiftr_spec in Hs by lia. by replace (n - 1 + 1) with n in Hs by lia.
Qed.

Lemma crc_rounds_inj n a b : is_u32 a → is_u32 b → crc_rounds n a = crc_rounds n b → a = b.
Proof.
  revert a b. induction n as [|n IH]; intros a b Ha Hb; cbn; [done|].
  intros He%IH; [|by apply crc_round_u32..]. by apply crc_round_inj.
Qed.

Lemma crc_rounds_u32 n a : is_u32 a → is_u32 (crc_rounds n a).
Proof. revert a. induction n; intros a Ha; cbn; [done|]. auto using crc_round_u32. Qed.

Lemma u8_u32 b : is_u8 b → is_u32 b.
Proof. unfold is_u. lia. Qed.

Lemma lxor_inj_r a b c : Z.lxor a c = Z.lxor b c → a = b.
Proof.
  intros H. apply (f_equal (λ x, Z.lxor x c)) in H.
  by rewrite !Z.lxor_assoc, Z.lxor_nilpotent, !Z.lxor_0_r in H.
Qed.

Abbreviation crc_fold := (foldl (λ crc b, crc_rounds 8 (Z.lxor crc b))) (only parsing).

Lemma crc_fold_u32 data c : bytes_ok data → is_u32 c → is_u32 (crc_fold c data).
Proof.
  intros Hd. revert c. induction Hd as [|b l Hb _ IH]; intros c Hc; [done|]. cbn [foldl].
  apply IH, crc_rounds_u32, is_u_lxor; [done..|by apply u8_u32].
Qed.

Lemma crc_fold_inj data c c' :
  bytes_ok data → is_u32 c → is_u32 c' → crc_fold c data = crc_fold c' data → c = c'.
Proof.
  intros Hd. revert c c'. induction Hd as [|b l Hb _ IH]; intros c c' Hc Hc'; [done|]. cbn [foldl].
  apply u8_u32 in Hb.
  intros He%IH; [|apply crc_rounds_u32, is_u_lxor; done..].
  apply crc_rounds_inj in He; [|by apply is_u_lxor..]. by apply lxor_inj_r in He.
Qed.

Lemma crc32_u32 data : bytes_ok data → is_u32 (crc32 data).
Proof.
  intros. unfold crc32. rewrite crc_fold_ref by done.
  apply is_u_lxor; [done|apply crc_fold_u32; [done|]|]; unfold is_u; lia.
Qed.
#[export] Hint Resolve crc32_u32 : bytes.

(** ** GUIDs *)

Lemma length_guid_of n : length (guid_of n) = 16%nat.
Proof. reflexivity. Qed.

Lemma guid_of_bytes n : bytes_ok (guid_of n).
Proof.
  assert (Hl : bytes_ok (u64_le n ++ u64_le (n *w 0x9E3779B97F4A7C15))).
  { apply Forall_app; split; apply to_le_bytes. }
  assert (Hb : ∀ g k a b, bytes_ok g → is_u8 a → is_u8 b →
    bytes_ok [Z.lor (Z.land (nth k g 0) a) b]).
  { intros g k a b Hg Ha Hb. constructor; [|done].
    apply is_u_lor; [done| |done]. apply is_u_land; [done| |done]. by apply nth_byte. }
  unfold guid_of. apply bytes_ok_upd; [apply bytes_ok_upd; [done|]|];
    apply Hb; try apply bytes_ok_upd; try apply Hb; try done; by unfold is_u.
Qed.
#[export] Hint Resolve guid_of_bytes : bytes.

(** ** The entry codec *)

Lemma length_serialize_entry e : entry_wf e → len (serialize_entry e) = 128.
Proof.
  intros (H1&_&H2&_&_&_&_&H3&_). unfold serialize_entry.
  rewrite !length_app, length_units, !length_to_le. lia.
Qed.

Lemma serialize_entry_bytes e : entry_wf e → bytes_ok (serialize_entry e).
Proof.
  intros (_&H1&_&H2&_&_&_&_&H3). unfold serialize_entry.
  rewrite !Forall_app. eauto 10 with bytes.
Qed.

Lemma length_serialize_entries es :
  Forall entry_wf es → len (serialize_entries es) = 128 * len es.
Proof.
  induction 1 as [|e es He _ IH]; [done|]. unfold serialize_entries in *.
  rewrite bind_cons, length_app, Nat2Z.inj_add, IH, (length_serialize_entry e He). cbn [length]. lia.
Qed.

Lemma serialize_entries_bytes es : Forall entry_wf es → bytes_ok (serialize_entries es).
Proof.
  intros Hes. unfold serialize_entries. apply Forall_bind.
  eapply Forall_impl; [done|]. apply serialize_entry_bytes.
Qed.

Lemma parse_utf16le_units us :
  length us = 36%nat → Forall (is_u 16) us → parse_utf16le (us ≫= λ u, u16_le u) = us.
Proof.
  intros Hl Hus. unfold parse_utf16le. rewrite units_roundtrip by done.
  rewrite take_ge, Hl by lia. by rewrite app_nil_r.
Qed.

Lemma parse_serialize_entry e : entry_wf e → parse_gpt_entry (serialize_entry e) = Ok e.
Proof.
  intros He. unfold parse_gpt_entry. rewrite (length_serialize_entry e He).
  change (128 <? 128) with false. cbn [negb].
  destruct He as (H1&_&H2&_&Hs&He&Ha&H3&Hn). unfold serialize_entry.
  pose proof (length_units (gpt_name e)).
  repeat bstep. bread.
  rewrite !from_to_le_small by done. rewrite parse_utf16le_units by done. by destruct e.
Qed.

Lemma serialize_parse_entry b :
  bytes_ok b → len b = 128 → ∃ e, parse_gpt_entry b = Ok e ∧ entry_wf e ∧ serialize_entry e = b.
Proof.
  intros Hb Hl. unfold parse_gpt_entry. rewrite (proj2 (Z.ltb_ge (len b) 128)) by lia.
  repeat bstep. eexists. split; [reflexivity|].
  assert (Hn : ∀ a n, 0 ≤ a → 0 ≤ n → a + n ≤ 128 → length (sub a n b) = Z.to_nat n)
    by (intros; apply len_sub; lia).
  assert (Hu : len (sub 56 (128 - 56) b) = 2 * Z.of_nat 36) by (rewrite Hn by lia; lia).
  assert (Hc : length (from_le <$> chunks_exact 2 (sub 56 (128 - 56) b)) = 36%nat).
  { rewrite length_fmap, chunks_exact_length, Hu by lia. done. }
  assert (Hp : parse_utf16le (sub 56 (128 - 56) b) = from_le <$> chunks_exact 2 (sub 56 (128 - 56) b)).
  { unfold parse_utf16le. rewrite take_ge, Hc by lia. apply app_nil_r. }
  split.
  - unfold entry_wf. cbn. rewrite Hp, !Hn by lia.
    pose proof (λ n a, from_le_sub_range n a b Hb) as Hr.
    split_and!; try done; try apply Hr; auto using units_range with bytes lia.
  - unfold serialize_entry. cbn [type_guid unique_guid start_lba end_lba attributes gpt_name].
    rewrite Hp, (bytes_units _ 36) by auto with bytes.
    rewrite !to_from_le' by (rewrite ?Hn by lia; auto with bytes).
    transitivity (sub 0 128 b); [|by apply sub_all'].
    rewrite (sub_split b 0 16 128), (sub_split b (0 + 16) 16 (128 - 16)),
      (sub_split b (0 + 16 + 16) 8 (128 - 16 - 16)),
      (sub_split b (0 + 16 + 16 + 8) 8 (128 - 16 - 16 - 8)),
      (sub_split b (0 + 16 + 16 + 8 + 8) 8 (128 - 16 - 16 - 8 - 8)) by lia. done.
Qed.

Lemma parse_serialize_entries es :
  Forall entry_wf es →
  mapM parse_gpt_entry (chunks_exact GPT_ENTRY_SIZE (serialize_entries es)) = Ok es.
Proof.
  intros Hes. unfold serialize_entries. rewrite chunks_exact_concat.
  - induction Hes as [|e es He _ IH]; [done|]. cbn [fmap list_fmap mapM].
    rewrite parse_serialize_entry, bind_Ok by done.
    change (list_fmap _ _ serialize_entry es) with (serialize_entry <$> es).
    by rewrite IH.
  - done.
  - intros e He. apply length_serialize_entry. by eapply Forall_forall.
Qed.

(** Reading any table of whole entries and writing it back. *)
Lemma serialize_parse_entries b n :
  bytes_ok b → len b = 128 * Z.of_nat n →
  ∃ es, mapM parse_gpt_entry (chunks_exact GPT_ENTRY_SIZE b) = Ok es ∧
    Forall entry_wf es ∧ serialize_entries es = b ∧ length es = n.
Proof.
  revert b. induction n as [|n IH]; intros b Hb Hl.
  - destruct b; [|cbn in Hl; lia]. exists []. by rewrite chunks_exact_short by (unfold GPT_ENTRY_SIZE; cbn; lia).
  - rewrite <- (take_drop 128 b) in Hb. apply Forall_app in Hb as [Hb1 Hb2].
    destruct (IH (drop 128 b)) as (es & Hes & Hw & Hs & Hlen); [done|rewrite length_drop; lia|].
    destruct (serialize_parse_entry (take 128 b)) as (e & He & Hwe & Hse);
      [done|rewrite length_take; lia|].
    exists (e :: es). rewrite <- (take_drop 128 b) at 1.
    rewrite chunks_exact_app by (rewrite ?length_take; unfold GPT_ENTRY_SIZE; lia).
    cbn [mapM]. rewrite He, bind_Ok, Hes. split; [done|]. split; [by constructor|].
    unfold serialize_entries in *. rewrite bind_cons, Hse, Hs. cbn [length].
    split; [apply take_drop|lia].
Qed.

(** ** The header codec *)

(** Field widths. *)
Definition header_wf (h : GptHeader) : Prop :=
  length (signature h) = 8%nat ∧ length (revision h) = 4%nat ∧ length (disk_guid h) = 16%nat ∧
  is_u32 (header_size h) ∧ is_u32 (header_crc32 h) ∧ is_u32 (reserved h) ∧
  is_u64 (my_lba h) ∧ is_u64 (alternate_lba h) ∧ is_u64 (first_usable_lba h) ∧
  is_u64 (last_usable_lba h) ∧ is_u64 (partition_entry_lba h) ∧
  is_u32 (num_partition_entries h) ∧ is_u32 (partition_entry_size h) ∧
  is_u32 (partition_array_crc32 h).

(** The 92 bytes of a header on disk. *)
Definition header_bytes (h : GptHeader) : list Z :=
  signature h ++ revision h ++ u32_le (header_size h) ++ u32_le (header_crc32 h) ++
  u32_le (reserved h) ++ u64_le (my_lba h) ++ u64_le (alternate_lba h) ++
  u64_le (first_usable_lba h) ++ u64_le (last_usable_lba h) ++ disk_guid h ++
  u64_le (partition_entry_lba h) ++ u32_le (num_partition_entries h) ++
  u32_le (partition_entry_size h) ++ u32_le (partition_array_crc32 h).

Lemma length_header_bytes h : header_wf h → len (header_bytes h) = 92.
Proof.
  intros (H1&H2&H3&_). unfold header_bytes. rewrite !length_app, !length_to_le. lia.
Qed.

Lemma parse_header_bytes h rest :
  header_wf h → parse_header (header_bytes h ++ rest) = Ok h.
Proof.
  intros Hw. pose proof (length_header_bytes h Hw) as Hl. unfold parse_header.
  rewrite (proj2 (Z.ltb_ge _ _)) by (rewrite length_app; unfold GPT_HEADER_SIZE; lia).
  assert (Hlen : len (header_bytes h ++ rest) = 92 + len rest) by (rewrite length_app; lia).
  repeat bstep.
  rewrite !(sub_app_l (header_bytes h)) by lia.
  destruct Hw as (H1&H2&H3&Hr). unfold header_bytes. bread.
  rewrite !from_to_le_small by apply Hr. by destruct h.
Qed.

(** What [write_gpt] means to put on disk: a primary ([my = 1]) or backup
    header of a disk whose last sector is [last]. *)
Definition gpt_header (my alt entries_lba : Z) (es : list GptEntry) (last : Z) (guid : list Z) (crc : Z)
  : GptHeader := {|
  signature := GPT_SIGNATURE; revision := GPT_REVISION; header_size := GPT_HEADER_SIZE;
  header_crc32 := crc; reserved := 0; my_lba := my; alternate_lba := alt;
  first_usable_lba := GPT_FIRST_USABLE_LBA; last_usable_lba := sat_sub last GPT_RESERVED_LBAS;
  disk_guid := guid; partition_entry_lba := entries_lba;
  num_partition_entries := len es; partition_entry_size := GPT_ENTRY_SIZE;
  partition_array_crc32 := crc32 (serialize_entries es) |}.

Definition sealed_header (my alt entries_lba : Z) (es : list GptEntry) (last : Z) (guid : list Z)
  : GptHeader :=
  gpt_header my alt entries_lba es last guid
    (crc32 (header_bytes (gpt_header my alt entries_lba es last guid 0))).

Lemma gpt_header_wf my alt el es last guid crc :
  is_u64 my → is_u64 alt → is_u64 el → is_u64 last → length guid = 16%nat → len es ≤ GPT_MAX_ENTRIES →
  Forall entry_wf es → is_u32 crc → header_wf (gpt_header my alt el es last guid crc).
Proof.
  intros ????? Hes Hw Hc. unfold header_wf, gpt_header; cbn.
  unfold GPT_MAX_ENTRIES, GPT_HEADER_SIZE, GPT_ENTRY_SIZE, GPT_FIRST_USABLE_LBA,
    GPT_RESERVED_LBAS, sat_sub in *.
  pose proof (crc32_u32 (serialize_entries es) (serialize_entries_bytes es Hw)).
  split_and!; try done; unfold is_u in *; lia.
Qed.

Lemma header_bytes_bytes h :
  bytes_ok (signature h) → bytes_ok (revision h) → bytes_ok (disk_guid h) → bytes_ok (header_bytes h).
Proof. intros. unfold header_bytes. rewrite !Forall_app. eauto 20 with bytes. Qed.

Lemma gpt_header_bytes_ok my alt el es last guid crc :
  bytes_ok guid → bytes_ok (header_bytes (gpt_header my alt el es last guid crc)).
Proof.
  intros. apply header_bytes_bytes; [..|done]; unfold is_u; repeat constructor; lia.
Qed.

Lemma guid_16 (g : list Z) : length g = 16%nat →
  ∃ a b c d e f h i j k l m n o p q, g = [a;b;c;d;e;f;h;i;j;k;l;m;n;o;p;q].
Proof.
  intros H. do 16 (destruct g as [|? g]; [done|]). destruct g; [|done]. by repeat eexists.
Qed.

Lemma build_header_ok my alt el es last guid sector :
  92 ≤ sector < 2 ^ 63 → length guid = 16%nat →
  build_header my alt el (crc32 (serialize_entries es)) last sector guid (len es) =
  Ok (header_bytes (gpt_header my alt el es last guid 0) ++ zeros (sector - 92)).
Proof.
  intros Hs (?&?&?&?&?&?&?&?&?&?&?&?&?&?&?&?&->)%guid_16. unfold build_header, GPT_SIGNATURE, GPT_REVISION.
  rewrite (proj2 (Z.ltb_ge _ _)) by (unfold GPT_HEADER_SIZE; lia). cbv zeta.
  rewrite vec_zeroed_ok, bind_Ok by lia. replace sector with (92 + (sector - 92)) at 1 by lia. rewrite zeros_app by lia.
  assert (Hz : len (zeros 92) = 92) by done.
  repeat bcopy. subst. reflexivity.
Qed.

Lemma finalize_header_crc_ok h rest :
  header_wf h → header_crc32 h = 0 →
  finalize_header_crc (header_bytes h ++ rest) =
  Ok (header_bytes {| signature := signature h; revision := revision h; header_size := header_size h;
       header_crc32 := crc32 (header_bytes h); reserved := reserved h; my_lba := my_lba h;
       alternate_lba := alternate_lba h; first_usable_lba := first_usable_lba h;
       last_usable_lba := last_usable_lba h; disk_guid := disk_guid h;
       partition_entry_lba := partition_entry_lba h; num_partition_entries := num_partition_entries h;
       partition_entry_size := partition_entry_size h;
       partition_array_crc32 := partition_array_crc32 h |} ++ rest).
Proof.
  intros Hw H0. pose proof (length_header_bytes h Hw) as Hl.
  assert (Hcrc : ∀ s, length s = 4%nat → upd 16 s (header_bytes h) =
    signature h ++ revision h ++ u32_le (header_size h) ++ s ++
    u32_le (reserved h) ++ u64_le (my_lba h) ++ u64_le (alternate_lba h) ++
    u64_le (first_usable_lba h) ++ u64_le (last_usable_lba h) ++ disk_guid h ++
    u64_le (partition_entry_lba h) ++ u32_le (num_partition_entries h) ++
    u32_le (partition_entry_size h) ++ u32_le (partition_array_crc32 h)).
  { intros s Hs. destruct Hw as (H1&H2&H3&_). unfold header_bytes.
    rewrite !(app_assoc (revision h)), !(app_assoc (signature h)).
    apply upd_field; blen. }
  unfold finalize_header_crc. rewrite copy_to_app_l by blen. rewrite bind_Ok.
  assert (upd 16 (zeros 4) (header_bytes h) = header_bytes h) as ->.
  { rewrite Hcrc by done. unfold header_bytes. by rewrite H0. }
  rewrite slice_ok by (rewrite ?length_app; unfold GPT_HEADER_SIZE; lia).
  rewrite bind_Ok, sub_app_l, sub_all' by (unfold GPT_HEADER_SIZE; lia).
  rewrite copy_to_app_l by blen. rewrite Hcrc by done. reflexivity.
Qed.

Lemma parse_and_verify_ok h rest :
  header_wf h → signature h = GPT_SIGNATURE → header_size h = GPT_HEADER_SIZE →
  partition_entry_size h = GPT_ENTRY_SIZE →
  header_crc32 h = crc32 (upd 16 (zeros 4) (header_bytes h)) →
  parse_and_verify_header (header_bytes h ++ rest) = Ok (header_bytes h ++ rest, h).
Proof.
  intros Hw H1 H2 H3 Hc. pose proof (length_header_bytes h Hw) as Hl.
  unfold parse_and_verify_header. rewrite parse_header_bytes by done.
  rewrite (proj2 (Z.ltb_ge _ _)) by (rewrite length_app; unfold GPT_HEADER_SIZE; lia).
  rewrite bind_Ok. unfold validate_header.
  rewrite bool_decide_false, (proj2 (Z.eqb_eq _ _) H2), (proj2 (Z.eqb_eq _ _) H3) by naive_solver.
  cbn [negb]. rewrite bind_Ok, H2.
  rewrite slice_ok by (rewrite ?length_app; unfold GPT_HEADER_SIZE; lia).
  rewrite bind_Ok, sub_app_l, sub_whole by (unfold GPT_HEADER_SIZE; lia).
  rewrite copy_to_ok by (rewrite ?length_zeros; lia). rewrite bind_Ok.
  by rewrite <- Hc, Z.eqb_refl.
Qed.

(** ** Properties *)

(** The table-driven [crc32] computes the bit-serial CRC-32 (reflected
    polynomial 0xEDB88320) of every byte string. *)
Theorem crc32_table_correct (data : list Z) : bytes_ok data → crc32 data = crc32_ref data.
Proof. intros. unfold crc32, crc32_ref. by rewrite crc_fold_ref. Qed.

(** [crc32] detects every corruption confined to one byte: two byte
    strings that differ in exactly one position have different checksums. *)
Theorem crc32_detects_one_byte (a b : list Z) (x y : Z) :
  bytes_ok a → bytes_ok b → is_u8 x → is_u8 y → x ≠ y →
  crc32 (a ++ x :: b) ≠ crc32 (a ++ y :: b).
Proof.
  intros Ha Hb Hx Hy Hne He. unfold crc32 in He. apply lxor_inj_r in He.
  rewrite !crc_fold_ref in He by (apply Forall_app; split; [done|by constructor]).
  rewrite !foldl_app in He. cbn [foldl] in He. apply u8_u32 in Hx, Hy.
  set (c := crc_fold 0xFFFFFFFF a) in *.
  assert (Hc : is_u32 c) by (apply crc_fold_u32; [done|]; unfold is_u; lia).
  apply crc_fold_inj in He; [|done|apply crc_rounds_u32, is_u_lxor; done..].
  apply crc_rounds_inj in He; [|by apply is_u_lxor..].
  rewrite !(Z.lxor_comm c) in He. by apply lxor_inj_r in He.
Qed.

(** [serialize_entries] and the chunked parser of [read_entries] are
    inverse: a table of well-formed entries is read back unchanged, and any
    buffer of whole 128-byte entries parses to a table that serialises to the
    same bytes. *)
Theorem gpt_entries_codec (es : list GptEntry) (b : list Z) (n : nat) :
  Forall entry_wf es → bytes_ok b → len b = 128 * Z.of_nat n →
  mapM parse_gpt_entry (chunks_exact GPT_ENTRY_SIZE (serialize_entries es)) = Ok es ∧
  ∃ es', mapM parse_gpt_entry (chunks_exact GPT_ENTRY_SIZE b) = Ok es' ∧
    Forall entry_wf es' ∧ serialize_entries es' = b.
Proof.
  intros. split; [by apply parse_serialize_entries|].
  destruct (serialize_parse_entries b n) as (es'&?&?&?&_); [done..|]. by exists es'.
Qed.

(** A concrete entry. *)
Definition demo_entry : GptEntry := {|
  type_guid := replicate 16 7; unique_guid := replicate 16 9; start_lba := 40; end_lba := 60;
  attributes := 0; gpt_name := replicate 36 65 |}.
Lemma demo_entry_wf : entry_wf demo_entry.
Proof.
  unfold entry_wf, demo_entry. cbn [type_guid unique_guid start_lba end_lba attributes gpt_name].
  split_and!; try done; try (apply Forall_replicate; unfold is_u; lia); unfold is_u; lia.
Qed.

Lemma crc32_table_correct_witness :
  bytes_ok [0x31; 0x32; 0x33] ∧ crc32 [0x31; 0x32; 0x33] = crc32_ref [0x31; 0x32; 0x33].
Proof.
  assert (H : bytes_ok [0x31; 0x32; 0x33]) by by repeat constructor.
  split; [exact H|]. exact (crc32_table_correct _ H).
Defined.

(** The check value of CRC-32 (IEEE): the checksum of "123456789". *)
Example crc32_check : crc32 [49; 50; 51; 52; 53; 54; 55; 56; 57] = 0xCBF43926.
Proof. vm_compute. reflexivity. Qed.

Lemma crc32_detects_one_byte_witness : crc32 ([1; 2] ++ 3 :: [4]) ≠ crc32 ([1; 2] ++ 5 :: [4]).
Proof. refine (crc32_detects_one_byte [1; 2] [4] 3 5 _ _ _ _ _); by repeat constructor. Defined.

Lemma gpt_entries_codec_witness :
  mapM parse_gpt_entry (chunks_exact GPT_ENTRY_SIZE (serialize_entries [demo_entry])) = Ok [demo_entry] ∧
  ∃ es', mapM parse_gpt_entry (chunks_exact GPT_ENTRY_SIZE (zeros 256)) = Ok es' ∧
    Forall entry_wf es' ∧ serialize_entries es' = zeros 256.
Proof.
  refine (gpt_entries_codec [demo_entry] (zeros 256) 2 _ _ _).
  - apply Forall_singleton, demo_entry_wf.
  - apply bytes_ok_zeros.
  - reflexivity.
Defined.
