(* ===== verification/GptIo.v ===== *)
(** * Reading and writing the partition table

    The device half of [partition/gpt/read.rs] and [write.rs], on any
    [BlockDevice]. A function that calls [generate_guid] runs on the pair of
    the global counter and the device. *)

From S2P Require Import Prelude Bytes BlockDev Gpt GptFacts.

Section io.
Context {D : Type} `{!BlockDevice D}.

(** ** read.rs *)

Definition read_header_raw {E} (lba sector : Z) : st D E (option (list Z)) :=
  if 4096 <? sector then mret None else
  let buf := zeros sector in
  match checked_mul64 lba sector with
  | None => mret None
  | Some off =>
      o ← st_ok (read_blocks off buf);
      match o with
      | None => mret None
      | Some buf =>
          mret (if bool_decide (get_range buf 0 8 = Some GPT_SIGNATURE) then Some buf else None)
      end
  end.

Definition read_entries (sector : Z) (h : GptHeader) : st D GptError (list GptEntry) :=
  if negb (partition_entry_size h =? GPT_ENTRY_SIZE) then fail Gpt_InvalidEntrySize else
  if GPT_MAX_ENTRIES * 4 <? num_partition_entries h then fail Gpt_InvalidHeaderSize else
  total_bytes ← lift (ok_or (checked_mul64 (num_partition_entries h) (partition_entry_size h))
                        Gpt_Overflow);
  let buf := zeros total_bytes in
  offset ← lift (ok_or (checked_mul64 (partition_entry_lba h) sector) Gpt_Overflow);
  buf ← st_map_err GptError_from_BlockError (read_blocks offset buf);
  lift (mapM parse_gpt_entry (chunks_exact GPT_ENTRY_SIZE buf)).

Definition read_gpt : st D GptError (GptHeader * list GptEntry) :=
  dev ← get_st;
  let sector := block_size dev in
  o ← read_header_raw 1 sector;
  result ← match o with
           | Some raw => lift (ok_opt (parse_and_verify_header raw))
           | None => mret None
           end;
  header_raw ← match result with
    | Some (raw, _) => mret raw
    | None =>
        dev ← get_st;
        last_lba ← lift (ok_or (checked_sub (block_count dev) 1) Gpt_InvalidSignature);
        o ← read_header_raw last_lba sector;
        raw ← lift (ok_or o Gpt_InvalidSignature);
        p ← lift (parse_and_verify_header raw);
        mret p.1
    end;
  header ← lift (parse_header header_raw);
  lift (validate_header header);;
  entries ← read_entries sector header;
  lift (verify_entries_crc entries (partition_array_crc32 header));;
  mret (header, entries).

(** ** write.rs *)

(** The sector [write_protective_mbr] writes. *)
Definition protective_mbr (sector last_lba : Z) : outcome GptError (list Z) :=
  mbr ← vec_zeroed sector;
  mbr ← set_idx mbr 446 0x00;
  mbr ← set_idx mbr 447 0x00;
  mbr ← set_idx mbr 448 0x02;
  mbr ← set_idx mbr 449 0x00;
  mbr ← set_idx mbr 450 0xEE;
  mbr ← set_idx mbr 451 0xFF;
  mbr ← set_idx mbr 452 0xFF;
  mbr ← set_idx mbr 453 0xFF;
  mbr ← copy_to mbr 454 458 (u32_le 1);
  let size := Z.min last_lba 0xFFFFFFFF in
  mbr ← copy_to mbr 458 462 (u32_le size);
  mbr ← set_idx mbr 510 0x55;
  set_idx mbr 511 0xAA.

Definition write_protective_mbr (last_lba : Z) : st D GptError () :=
  dev ← get_st;
  mbr ← lift (protective_mbr (block_size dev) last_lba);
  st_map_err GptError_from_BlockError (write_blocks 0 mbr).

Definition write_gpt (entries : list GptEntry) : st (Z * D) GptError () :=
  if GPT_MAX_ENTRIES <? len entries then fail Gpt_NoSpace else
  s ← get_st;
  let dev := s.2 in
  let sector := block_size dev in
  last_lba ← lift (ok_or (checked_sub (block_count dev) 1) Gpt_NoSpace);
  on_snd (write_protective_mbr last_lba);;
  (* a sector size of zero is a division by zero *)
  entries_end_lba ← lift (if sector =? 0 then Panic else
    Ok (2 +w ((len entries *w GPT_ENTRY_SIZE) +w sector -w 1) / sector));
  if sat_sub last_lba GPT_RESERVED_LBAS <=? entries_end_lba then fail Gpt_NoSpace else
  let entry_array := serialize_entries entries in
  let entry_array_crc := crc32 entry_array in
  guid ← generate_guid;
  let backup_entries_lba := last_lba -w GPT_RESERVED_LBAS +w 1 in
  primary ← lift (build_header 1 last_lba 2 entry_array_crc last_lba sector guid (len entries));
  backup ← lift (build_header last_lba 1 backup_entries_lba entry_array_crc last_lba sector guid
                   (len entries));
  primary ← lift (finalize_header_crc primary);
  backup ← lift (finalize_header_crc backup);
  on_snd (st_map_err GptError_from_BlockError (write_blocks (2 *w sector) entry_array));;
  on_snd (st_map_err GptError_from_BlockError
    (write_blocks (backup_entries_lba *w sector) entry_array));;
  on_snd (st_map_err GptError_from_BlockError (write_blocks (1 *w sector) primary));;
  on_snd (st_map_err GptError_from_BlockError (write_blocks (last_lba *w sector) backup)).
End io.

(** ** What is on a partitioned disk *)

Section spec.
Context {D : Type} `{!BlockDevice D, !ByteDisk D}.
Implicit Types (d : D) (es : list GptEntry).

Definition last_lba_of d : Z := block_count d - 1.

Definition primary_header es guid d : GptHeader :=
  sealed_header 1 (last_lba_of d) 2 es (last_lba_of d) guid.
Definition backup_header es guid d : GptHeader :=
  sealed_header (last_lba_of d) 1 (last_lba_of d - 32) es (last_lba_of d) guid.

(** The two copies of the partition table. *)
Definition primary_on_disk es guid d : Prop :=
  let s := block_size d in
  rd s s d = header_bytes (primary_header es guid d) ++ zeros (s - 92) ∧
  rd (2 * s) (128 * len es) d = serialize_entries es.
Definition backup_on_disk es guid d : Prop :=
  let s := block_size d in
  let last := last_lba_of d in
  rd (last * s) s d = header_bytes (backup_header es guid d) ++ zeros (s - 92) ∧
  rd ((last - 32) * s) (128 * len es) d = serialize_entries es.

(** A table that [write_gpt] accepts on a disk it can partition. *)
Definition gpt_fits es d : Prop :=
  disk_ok d ∧ 512 ≤ block_size d ≤ 4096 ∧ capacity d < 2 ^ 64 ∧
  Forall entry_wf es ∧ len es ≤ 128 ∧
  2 + (128 * len es + block_size d - 1) / block_size d < block_count d - 34.

Lemma protective_mbr_ok sector last_lba :
  512 ≤ sector < 2 ^ 63 → ∃ m, protective_mbr sector last_lba = Ok m ∧ len m = sector ∧ bytes_ok m.
Proof.
  intros Hs. unfold protective_mbr. cbv zeta. rewrite vec_zeroed_ok, bind_Ok by lia.
  set (P := λ m : outcome GptError (list Z), ∃ l, m = Ok l ∧ len l = sector ∧ bytes_ok l).
  assert (Hi : ∀ l i v (k : list Z → outcome GptError (list Z)),
    len l = sector ∧ bytes_ok l → 0 ≤ i < 512 → is_u8 v →
    (∀ l', len l' = sector ∧ bytes_ok l' → P (k l')) → P (set_idx l i v ≫= k)).
  { intros l i v k [Hl Hb] ?? Hk. rewrite set_idx_ok, bind_Ok by lia. apply Hk.
    rewrite len_upd by (cbn; lia). split; [done|].
    apply bytes_ok_upd; [done|by constructor]. }
  assert (Hc : ∀ l a b v (k : list Z → outcome GptError (list Z)),
    len l = sector ∧ bytes_ok l → 0 ≤ a → b = a + 4 → b ≤ 512 →
    (∀ l', len l' = sector ∧ bytes_ok l' → P (k l')) → P (copy_to l a b (u32_le v) ≫= k)).
  { intros l a b v k [Hl Hb] ??? Hk. rewrite copy_to_ok, bind_Ok by blen. apply Hk.
    rewrite len_upd by blen. auto with bytes. }
  repeat (apply Hi; [try done|lia|by unfold is_u|intros ? ?]).
  { rewrite length_zeros. split; [lia|auto with bytes]. }
  do 2 (apply Hc; [done|lia..|intros ? ?]).
  apply Hi; [done|lia|by unfold is_u|intros l [Hl Hb]].
  rewrite set_idx_ok by lia. eexists. split; [done|].
  rewrite len_upd by (cbn; lia). split; [done|]. apply bytes_ok_upd; [done|by constructor].
Qed.

(** The arithmetic of a table that fits: with [last] the last sector, [s] the
    sector size and [e] the size of the entry array, the five regions that are
    written lie on the disk and apart. *)
Lemma gpt_fits_layout es d :
  gpt_fits es d →
  let s := block_size d in let last := last_lba_of d in let e := 128 * len es in
  capacity d = last * s + s ∧ 36 ≤ last ∧ 2 * s + e ≤ (last - 32) * s - s ∧
  (last - 32) * s = last * s - 32 * s ∧ 0 ≤ e ≤ 32 * s ∧ last * s + s < 2 ^ 64 ∧ is_u64 last.
Proof.
  intros (Hd&Hs&Hcap&_&Hes&Hfit). unfold capacity, last_lba_of in *. cbv zeta.
  destruct (disk_ok_geometry d Hd) as [Hbs Hbc]. unfold is_u in *.
  set (s := block_size d) in *. set (bc := block_count d) in *.
  set (q := (128 * len es + s - 1) / s) in *.
  assert (128 * len es ≤ q * s).
  { pose proof (Z.div_mod (128 * len es + s - 1) s). pose proof (Z.mod_pos_bound (128 * len es + s - 1) s).
    fold q in H. nia. }
  assert (0 ≤ q) by (apply Z.div_pos; lia).
  split_and!; nia.
Qed.

Lemma sealed_header_wf my alt el es last guid :
  is_u64 my → is_u64 alt → is_u64 el → is_u64 last → length guid = 16%nat → bytes_ok guid →
  len es ≤ 128 → Forall entry_wf es → header_wf (sealed_header my alt el es last guid).
Proof.
  intros. apply gpt_header_wf; try done. apply crc32_u32. by apply gpt_header_bytes_ok.
Qed.

Lemma header_sector_ok my alt el es last guid s :
  is_u64 my → is_u64 alt → is_u64 el → is_u64 last → length guid = 16%nat → bytes_ok guid →
  len es ≤ 128 → Forall entry_wf es → 92 ≤ s < 2 ^ 63 →
  let h := header_bytes (sealed_header my alt el es last guid) ++ zeros (s - 92) in
  (h0 ← build_header my alt el (crc32 (serialize_entries es)) last s guid (len es);
   finalize_header_crc h0) = Ok h ∧ len h = s ∧ bytes_ok h.
Proof.
  intros. split_and!.
  - rewrite build_header_ok, bind_Ok by done. rewrite finalize_header_crc_ok; [done| |done].
    by apply gpt_header_wf.
  - unfold h. rewrite length_app, length_zeros, Nat2Z.inj_add, length_header_bytes; [lia|].
    by apply sealed_header_wf.
  - apply Forall_app. split; [by apply gpt_header_bytes_ok|auto with bytes].
Qed.

(** One step of [write_gpt]. *)
Lemma dev_write_step a data d (n : Z) :
  disk_ok d → bytes_ok data → 0 ≤ a → a + len data ≤ capacity d →
  ∃ d', wrote a data d d' ∧
    on_snd (st_map_err GptError_from_BlockError (write_blocks a data)) (n, d) = ((n, d'), Ok ()).
Proof.
  intros. destruct (dev_write a data d) as (d' & Hw & ?); [done..|].
  exists d'. split; [done|]. apply on_snd_run. by apply st_map_err_Ok.
Qed.

Lemma write_protective_mbr_ok d (n : Z) last :
  disk_ok d → 512 ≤ block_size d < 2 ^ 63 → block_size d ≤ capacity d →
  ∃ m d', protective_mbr (block_size d) last = Ok m ∧ len m = block_size d ∧ wrote 0 m d d' ∧
    on_snd (write_protective_mbr last) (n, d) = ((n, d'), Ok ()).
Proof.
  intros Hd Hs Hc. destruct (protective_mbr_ok (block_size d) last Hs) as (m & Hm & Hl & Hb).
  destruct (dev_write 0 m d) as (d' & Hw & Hw'); [done..|lia|].
  exists m, d'. split_and!; [done|done|done|].
  apply on_snd_run. unfold write_protective_mbr.
  srun. rewrite Hm. srun. by apply st_map_err_Ok.
Qed.

(** [write_gpt] runs to the end and writes the five regions in the order the
    comment in the source gives. *)
Lemma write_gpt_run es n d :
  gpt_fits es d →
  let s := block_size d in let last := last_lba_of d in
  ∃ m d1 d2 d3 d4 d5,
    write_gpt es (n, d) = ((n +w 1, d5), Ok ()) ∧
    protective_mbr s last = Ok m ∧ len m = s ∧
    wrote 0 m d d1 ∧
    wrote (2 * s) (serialize_entries es) d1 d2 ∧
    wrote ((last - 32) * s) (serialize_entries es) d2 d3 ∧
    wrote s (header_bytes (primary_header es (guid_of n) d) ++ zeros (s - 92)) d3 d4 ∧
    wrote (last * s) (header_bytes (backup_header es (guid_of n) d) ++ zeros (s - 92)) d4 d5.
Proof.
  intros Hfit s last. pose proof (gpt_fits_layout es d Hfit) as Hlay.
  fold s last in Hlay. cbv zeta in Hlay. destruct Hlay as (Hcap&Hlast&H1&H2&H3&H4&H5).
  destruct Hfit as (Hd&Hs&_&Hw&Hes&Hfit). fold s in Hs, Hfit.
  pose proof (length_serialize_entries es Hw) as Hlen.
  pose proof (serialize_entries_bytes es Hw) as Hby.
  unfold is_u in H5.
  destruct (header_sector_ok 1 last 2 es last (guid_of n) s) as ((p0&Hb1&Hf1)%bind_Ok_inv&Hl1&Hp1);
    auto using length_guid_of with bytes; try (unfold is_u; lia); [].
  destruct (header_sector_ok last 1 (last - 32) es last (guid_of n) s) as ((b0&Hb2&Hf2)%bind_Ok_inv&Hl2&Hp2);
    auto using length_guid_of with bytes; try (unfold is_u; lia); [].
  change (sealed_header 1 last 2 es last (guid_of n)) with (primary_header es (guid_of n) d) in *.
  change (sealed_header last 1 (last - 32) es last (guid_of n))
    with (backup_header es (guid_of n) d) in *.
  unfold write_gpt. rewrite (proj2 (Z.ltb_ge _ _)) by (unfold GPT_MAX_ENTRIES; lia). srun. cbn [snd].
  fold s. unfold checked_sub. unfold last_lba_of in last.
  rewrite (proj2 (Z.leb_le 1 (block_count d))) by lia. cbn [ok_or]. srun. fold last.
  edestruct (write_protective_mbr_ok d n) as (m & d1 & Hm & Hml & Hw1 & Hr); [done|lia..|].
  rewrite (st_bind_Ok _ _ _ _ _ Hr). clear Hr.
  rewrite (proj2 (Z.eqb_neq s 0)) by lia. srun.
  assert (Hq : 0 ≤ (128 * len es + s - 1) / s ≤ 16384).
  { split; [apply Z.div_pos; lia|]. apply Z.div_le_upper_bound; lia. }
  unfold GPT_ENTRY_SIZE, GPT_RESERVED_LBAS, sat_sub.
  rewrite (Z.mul_comm (len es) 128). unwrap_ints.
  rewrite (proj2 (Z.leb_gt _ _)) by lia.
  erewrite st_bind_Ok by done.
  replace (last - 33 + 1) with (last - 32) by lia.
  rewrite Hb1. srun. rewrite Hb2. srun. rewrite Hf1. srun. rewrite Hf2. srun.
  rewrite Z.mul_1_l. unwrap_ints.
  edestruct (dev_write_step (2 * s) (serialize_entries es) d1) as (d2 & Hw2 & Hr);
    [by eapply wrote_ok|done|lia|erewrite wrote_capacity by done; lia|].
  rewrite (st_bind_Ok _ _ _ _ _ Hr). clear Hr.
  edestruct (dev_write_step ((last - 32) * s) (serialize_entries es) d2) as (d3 & Hw3 & Hr);
    [by eapply wrote_ok|done|lia|erewrite !wrote_capacity by done; lia|].
  rewrite (st_bind_Ok _ _ _ _ _ Hr). clear Hr.
  edestruct (dev_write_step s (header_bytes (primary_header es (guid_of n) d) ++ zeros (s - 92)) d3)
    as (d4 & Hw4 & Hr); [by eapply wrote_ok|done|lia|erewrite !wrote_capacity by done; lia|].
  rewrite (st_bind_Ok _ _ _ _ _ Hr). clear Hr.
  destruct (dev_write (last * s) (header_bytes (backup_header es (guid_of n) d) ++ zeros (s - 92)) d4)
    as (d5 & Hr5 & Hw5); [by eapply wrote_ok|done|lia|erewrite !wrote_capacity by done; lia|].
  exists m, d1, d2, d3, d4, d5. split_and!; try done.
  apply on_snd_run, st_map_err_Ok. done.
Qed.
Lemma write_gpt_layout es n d :
  gpt_fits es d →
  ∃ d', write_gpt es (n, d) = ((n +w 1, d'), Ok ()) ∧
    disk_ok d' ∧ same_geometry d d' ∧
    primary_on_disk es (guid_of n) d' ∧ backup_on_disk es (guid_of n) d' ∧
    protective_mbr (block_size d) (last_lba_of d) = Ok (rd 0 (block_size d) d') ∧
    ∀ x, 34 * block_size d ≤ x < (last_lba_of d - 32) * block_size d → byte_at d' x = byte_at d x.
Proof.
  intros Hfit. pose proof (gpt_fits_layout es d Hfit) as Hlay. cbv zeta in Hlay.
  destruct Hlay as (Hcap&Hlast&H1&H2&H3&H4&_).
  destruct (write_gpt_run es n d Hfit) as (m&d1&d2&d3&d4&d5&Hr&Hm&Hml&W1&W2&W3&W4&W5).
  destruct Hfit as (Hd&Hs&_&Hw&Hes&_).
  pose proof (length_serialize_entries es Hw) as Hlen.
  assert (Hh : ∀ my alt el, is_u64 my → is_u64 alt → is_u64 el → is_u64 (last_lba_of d) →
    len (header_bytes (sealed_header my alt el es (last_lba_of d) (guid_of n)) ++
         zeros (block_size d - 92)) = block_size d).
  { intros. rewrite length_app, Nat2Z.inj_add, length_header_bytes, length_zeros; [lia|].
    apply sealed_header_wf; auto using length_guid_of with bytes. }
  assert (HL : is_u64 (last_lba_of d) ∧ is_u64 (last_lba_of d - 32)).
  { destruct (disk_ok_geometry d Hd). unfold last_lba_of, is_u in *. lia. }
  assert (Hp : len (header_bytes (primary_header es (guid_of n) d) ++ zeros (block_size d - 92))
               = block_size d) by (unfold primary_header, backup_header; apply Hh; unfold is_u in *; lia).
  assert (Hb : len (header_bytes (backup_header es (guid_of n) d) ++ zeros (block_size d - 92))
               = block_size d) by (unfold primary_header, backup_header; apply Hh; unfold is_u in *; lia).
  assert (Hg : same_geometry d d5).
  { split; [by rewrite (wrote_size _ _ _ _ W5), (wrote_size _ _ _ _ W4), (wrote_size _ _ _ _ W3),
      (wrote_size _ _ _ _ W2), (wrote_size _ _ _ _ W1)|
      by rewrite (wrote_count _ _ _ _ W5), (wrote_count _ _ _ _ W4), (wrote_count _ _ _ _ W3),
      (wrote_count _ _ _ _ W2), (wrote_count _ _ _ _ W1)]. }
  exists d5. split; [done|]. split; [by eapply wrote_ok|]. split; [done|].
  unfold primary_on_disk, backup_on_disk, primary_header, backup_header, last_lba_of in *.
  destruct Hg as [-> ->]. set (s := block_size d) in *. set (last := block_count d - 1) in *.
  split_and!.
  - rewrite (rd_wrote_out _ _ _ _ _ _ W5) by lia. by apply (rd_wrote _ _ _ _ _ W4).
  - rewrite (rd_wrote_out _ _ _ _ _ _ W5), (rd_wrote_out _ _ _ _ _ _ W4),
      (rd_wrote_out _ _ _ _ _ _ W3) by lia. by apply (rd_wrote _ _ _ _ _ W2).
  - by apply (rd_wrote _ _ _ _ _ W5).
  - rewrite (rd_wrote_out _ _ _ _ _ _ W5), (rd_wrote_out _ _ _ _ _ _ W4) by lia.
    by apply (rd_wrote _ _ _ _ _ W3).
  - rewrite (rd_wrote_out _ _ _ _ _ _ W5), (rd_wrote_out _ _ _ _ _ _ W4),
      (rd_wrote_out _ _ _ _ _ _ W3), (rd_wrote_out _ _ _ _ _ _ W2) by lia.
    by rewrite (rd_wrote _ _ _ _ _ W1).
  - intros x Hx. destruct W1 as (_&_&W1), W2 as (_&_&W2), W3 as (_&_&W3), W4 as (_&_&W4),
      W5 as (_&_&W5).
    rewrite W5, W4, W3, W2, W1, !decide_False by lia. done.
Qed.

(** ** Reading back *)

Lemma read_header_raw_ok {E} lba s d :
  disk_ok d → 0 ≤ lba → 0 ≤ s ≤ 4096 → lba * s < 2 ^ 64 → lba * s + s ≤ capacity d →
  ∃ d', read_header_raw (E:=E) lba s d =
    (d', Ok (if bool_decide (get_range (rd (lba * s) s d) 0 8 = Some GPT_SIGNATURE)
             then Some (rd (lba * s) s d) else None)) ∧ d ≡ d'.
Proof.
  intros Hd ????. unfold read_header_raw.
  rewrite (proj2 (Z.ltb_ge _ _)) by lia. unfold checked_mul64.
  rewrite (proj2 (Z.ltb_lt _ _)) by lia.
  destruct (dev_read (lba * s) s d) as (d' & Hr & He); [done|nia|lia|lia|].
  exists d'. split; [|done]. by rewrite (st_bind_Ok _ _ _ _ _ (st_ok_run _ _ _ _ Hr)).
Qed.

Lemma read_entries_ok es h s d :
  disk_ok d → Forall entry_wf es → len es ≤ 128 →
  partition_entry_size h = GPT_ENTRY_SIZE → num_partition_entries h = len es →
  0 ≤ partition_entry_lba h * s < 2 ^ 64 →
  partition_entry_lba h * s + 128 * len es ≤ capacity d →
  rd (partition_entry_lba h * s) (128 * len es) d = serialize_entries es →
  ∃ d', read_entries s h d = (d', Ok es) ∧ d ≡ d'.
Proof.
  intros Hd Hw Hes Hsz Hn Hlo Hcap Hrd. unfold read_entries.
  rewrite Hsz, Z.eqb_refl, Hn. cbn [negb].
  rewrite (proj2 (Z.ltb_ge _ _)) by (unfold GPT_MAX_ENTRIES; lia).
  unfold checked_mul64, GPT_ENTRY_SIZE.
  rewrite (proj2 (Z.ltb_lt (len es * 128) _)), (proj2 (Z.ltb_lt (_ * s) _)) by lia.
  cbn [ok_or]. srun.
  destruct (dev_read (partition_entry_lba h * s) (len es * 128) d) as (d' & Hr & He);
    [done|lia..|].
  exists d'. split; [|done]. erewrite st_bind_Ok by by apply st_map_err_Ok.
  rewrite (Z.mul_comm (len es)), Hrd. unfold lift. f_equal. by apply parse_serialize_entries.
Qed.

Lemma get_range_sig h rest :
  signature h = GPT_SIGNATURE → header_wf h →
  get_range (header_bytes h ++ rest) 0 8 = Some GPT_SIGNATURE.
Proof.
  intros H1 Hw. pose proof (length_header_bytes h Hw).
  rewrite get_range_ok by (rewrite ?length_app; lia).
  destruct Hw as (Hl&_). unfold header_bytes. rewrite <- !app_assoc.
  rewrite sub_app_l, sub_whole by (rewrite ?length_app; lia). by rewrite H1.
Qed.

(** A sealed header passes its own checks. *)
Lemma sealed_header_verifies my alt el es last guid rest :
  is_u64 my → is_u64 alt → is_u64 el → is_u64 last → length guid = 16%nat → bytes_ok guid →
  len es ≤ 128 → Forall entry_wf es →
  let h := sealed_header my alt el es last guid in
  parse_and_verify_header (header_bytes h ++ rest) = Ok (header_bytes h ++ rest, h).
Proof.
  intros. apply parse_and_verify_ok; [by apply sealed_header_wf|done..].
Qed.

(** The second half of [read_gpt], from a header that has been chosen. *)
Lemma read_gpt_tail my alt el es last guid d :
  disk_ok d → is_u64 my → is_u64 alt → is_u64 el → is_u64 last →
  length guid = 16%nat → bytes_ok guid → len es ≤ 128 → Forall entry_wf es →
  0 ≤ el * block_size d < 2 ^ 64 → el * block_size d + 128 * len es ≤ capacity d →
  rd (el * block_size d) (128 * len es) d = serialize_entries es →
  let h := sealed_header my alt el es last guid in
  ∃ d', (header ← lift (parse_header (header_bytes h ++ zeros (block_size d - 92)));
    lift (validate_header header);;
    entries ← read_entries (block_size d) header;
    lift (verify_entries_crc entries (partition_array_crc32 header));;
    mret (header, entries)) d = (d', Ok (h, es)) ∧ d ≡ d'.
Proof.
  intros Hd ???????????. cbv zeta.
  rewrite parse_header_bytes by by apply sealed_header_wf. srun.
  unfold validate_header. rewrite bool_decide_false by (intros HH; by apply HH). cbn [negb sealed_header
    gpt_header header_size partition_entry_size]. rewrite !Z.eqb_refl. cbn [negb]. srun.
  destruct (read_entries_ok es (sealed_header my alt el es last guid) (block_size d) d)
    as (d' & Hr & He); [done..|].
  exists d'. split; [|done]. erewrite st_bind_Ok by done.
  unfold verify_entries_crc. cbn [sealed_header gpt_header partition_array_crc32].
  rewrite Z.eqb_refl. by srun.
Qed.
Lemma parse_header_safe raw : safe (parse_header raw).
Proof.
  unfold parse_header. destruct (Z.ltb_spec (len raw) GPT_HEADER_SIZE); [done|].
  unfold GPT_HEADER_SIZE in *. by repeat bstep.
Qed.

Lemma validate_header_safe h : safe (validate_header h).
Proof. unfold validate_header. by repeat case_match. Qed.

Lemma validate_header_Ok h :
  validate_header h = Ok () →
  signature h = GPT_SIGNATURE ∧ header_size h = 92 ∧ partition_entry_size h = 128.
Proof.
  unfold validate_header. case_bool_decide as Hs; [done|].
  destruct (Z.eqb_spec (header_size h) GPT_HEADER_SIZE); [|done]. cbn.
  destruct (Z.eqb_spec (partition_entry_size h) GPT_ENTRY_SIZE); [|done].
  intros _. split_and!; [done..].
Qed.

Lemma parse_and_verify_safe raw : safe (parse_and_verify_header raw).
Proof.
  unfold parse_and_verify_header. destruct (Z.ltb_spec (len raw) GPT_HEADER_SIZE); [done|].
  unfold GPT_HEADER_SIZE in *.
  apply safe_bind; [apply parse_header_safe|]. intros h _.
  apply safe_bind; [apply validate_header_safe|]. intros [] (_&->&_)%validate_header_Ok.
  repeat bstep. by case_match.
Qed.

Lemma parse_and_verify_Ok raw p :
  parse_and_verify_header raw = Ok p → p.1 = raw ∧ 92 ≤ len raw ∧ parse_header raw = Ok p.2 ∧
    validate_header p.2 = Ok ().
Proof.
  unfold parse_and_verify_header. destruct (Z.ltb_spec (len raw) GPT_HEADER_SIZE); [done|].
  intros (h&Hh&([]&Hv&(c&_&(c'&_&Hc)%bind_Ok_inv)%bind_Ok_inv)%bind_Ok_inv)%bind_Ok_inv.
  case_match; [done|]. injection Hc as <-. done.
Qed.

(** The primary header is one [read_gpt] does not take. *)
Definition primary_damaged d : Prop :=
  let raw := rd (block_size d) (block_size d) d in
  get_range raw 0 8 ≠ Some GPT_SIGNATURE ∨ ∀ p, parse_and_verify_header raw ≠ Ok p.

Lemma read_primary_damaged d d1 :
  primary_damaged d →
  (match (if bool_decide (get_range (rd (block_size d) (block_size d) d) 0 8 = Some GPT_SIGNATURE)
          then Some (rd (block_size d) (block_size d) d) else None) with
   | Some raw => lift (E:=GptError) (ok_opt (parse_and_verify_header raw))
   | None => mret None
   end) d1 = (d1, Ok None).
Proof.
  intros Hdam. case_bool_decide as Hsig; [|done].
  pose proof (parse_and_verify_safe (rd (block_size d) (block_size d) d)).
  unfold lift. destruct Hdam as [Hdam|Hdam]; [done|].
  destruct (parse_and_verify_header _) as [p| | |] eqn:Hp; [|done..]. by destruct (Hdam p).
Qed.

(** The geometry [read_gpt] needs. *)
Definition readable d : Prop :=
  disk_ok d ∧ 92 ≤ block_size d ≤ 4096 ∧ 34 ≤ block_count d ∧ capacity d < 2 ^ 64.

Lemma read_gpt_primary_run es guid d :
  readable d → Forall entry_wf es → len es ≤ 128 → length guid = 16%nat → bytes_ok guid →
  2 * block_size d + 128 * len es ≤ capacity d →
  primary_on_disk es guid d →
  ∃ d', read_gpt d = (d', Ok (primary_header es guid d, es)) ∧ d ≡ d'.
Proof.
  intros (Hd&Hs&Hc&Hcap) Hw Hes Hg Hgb Hfit [Hh Hent].
  destruct (disk_ok_geometry d Hd) as [? Hbc].
  assert (is_u64 (last_lba_of d)) by (unfold last_lba_of, is_u in *; lia).
  assert (Hwf : header_wf (primary_header es guid d)) by (unfold primary_header, backup_header; by apply sealed_header_wf).
  unfold read_gpt. srun.
  destruct (read_header_raw_ok (E:=GptError) 1 (block_size d) d) as (d1 & Hr1 & E1);
    [done|lia|lia|unfold capacity in *; nia|unfold capacity in *; nia|].
  rewrite (st_bind_Ok _ _ _ _ _ Hr1), Z.mul_1_l, Hh, bool_decide_true
    by by apply get_range_sig.
  unfold primary_header at 1. rewrite sealed_header_verifies by done. cbn [ok_opt]. srun.
  destruct (read_gpt_tail 1 (last_lba_of d) 2 es (last_lba_of d) guid d1) as (d2 & Hr2 & E2);
    try rewrite <- E1; try done; try (unfold is_u in *; unfold capacity in *; nia).
  assert (Hbs : block_size d1 = block_size d) by by rewrite E1.
  rewrite Hbs in Hr2. exists d2. split; [|by etrans]. exact Hr2.
Qed.

Lemma read_gpt_backup_run es guid d :
  readable d → Forall entry_wf es → len es ≤ 128 → length guid = 16%nat → bytes_ok guid →
  (last_lba_of d - 32) * block_size d + 128 * len es ≤ capacity d →
  primary_damaged d → backup_on_disk es guid d →
  ∃ d', read_gpt d = (d', Ok (backup_header es guid d, es)) ∧ d ≡ d'.
Proof.
  intros (Hd&Hs&Hc&Hcap) Hw Hes Hg Hgb Hfit Hdam [Hh Hent].
  destruct (disk_ok_geometry d Hd) as [? Hbc].
  assert (Hl : is_u64 (last_lba_of d) ∧ is_u64 (last_lba_of d - 32))
    by (unfold last_lba_of, is_u in *; lia). destruct Hl as [Hl Hl'].
  assert (Hwf : header_wf (backup_header es guid d)) by (unfold primary_header, backup_header; by apply sealed_header_wf).
  assert (Hlast : last_lba_of d * block_size d + block_size d = capacity d)
    by (unfold capacity, last_lba_of; lia).
  unfold read_gpt. srun.
  destruct (read_header_raw_ok (E:=GptError) 1 (block_size d) d) as (d1 & Hr1 & E1);
    [done|lia|lia|unfold capacity in *; nia|unfold capacity in *; nia|].
  rewrite (st_bind_Ok _ _ _ _ _ Hr1), Z.mul_1_l.
  rewrite (st_bind_Ok _ _ _ _ _ (read_primary_damaged d d1 Hdam)).
  cbv beta iota. srun.
  assert (Hbc1 : block_count d1 = block_count d) by by rewrite E1.
  unfold checked_sub. rewrite Hbc1, (proj2 (Z.leb_le 1 (block_count d))) by lia.
  cbn [ok_or]. srun. fold (last_lba_of d).
  assert (Hd1 : disk_ok d1) by by rewrite <- E1.
  destruct (read_header_raw_ok (E:=GptError) (last_lba_of d) (block_size d) d1) as (d2 & Hr2 & E2);
    [done|unfold is_u in *; lia|lia|lia|rewrite <- E1; lia|].
  assert (Hh1 : rd (last_lba_of d * block_size d) (block_size d) d1 =
    header_bytes (backup_header es guid d) ++ zeros (block_size d - 92)) by by rewrite <- E1.
  rewrite Hh1, bool_decide_true in Hr2 by by apply get_range_sig.
  rewrite (st_bind_Ok _ _ _ _ _ Hr2). cbn [ok_or]. srun.
  unfold backup_header at 1. rewrite sealed_header_verifies by done. srun.
  destruct (read_gpt_tail (last_lba_of d) 1 (last_lba_of d - 32) es (last_lba_of d) guid d2)
    as (d3 & Hr3 & E3); try rewrite <- E2, <- E1; try done; try (unfold is_u in *; nia).
  assert (Hbs : block_size d2 = block_size d) by by rewrite <- E2, <- E1.
  rewrite Hbs in Hr3. exists d3. split; [exact Hr3|]. by rewrite E1, E2.
Qed.
End spec.

(** ** Safety and soundness of reading *)

Section safety.
Context {D : Type} `{!BlockDevice D, !ByteDisk D}.
Implicit Types (d : D).

Lemma read_header_raw_reads {E} lba s d :
  disk_ok d → 0 ≤ s →
  reads (read_header_raw (E:=E) lba s) d (λ o, ∀ raw, o = Some raw → bytes_ok raw).
Proof.
  intros Hd Hs. unfold read_header_raw. case_match; [by apply reads_mret|].
  case_match; [|by apply reads_mret].
  eapply reads_bind; [by apply reads_ok, reads_blocks|].
  intros [raw|] d' Ho He; apply reads_mret; [|done].
  intros raw' Hr. case_bool_decide; [|done]. injection Hr as <-. by apply (Ho raw).
Qed.

Lemma parse_header_bytes_range raw h :
  bytes_ok raw → parse_header raw = Ok h → is_u32 (num_partition_entries h).
Proof.
  intros Hb. unfold parse_header. destruct (Z.ltb_spec (len raw) GPT_HEADER_SIZE); [done|].
  unfold GPT_HEADER_SIZE in *. repeat bstep. intros [= <-]. cbn. by apply from_le_sub_range.
Qed.

Lemma read_entries_reads s h d :
  disk_ok d → 0 ≤ num_partition_entries h →
  reads (read_entries s h) d (λ es, Forall entry_wf es ∧ len es = num_partition_entries h ∧
    len es ≤ 512).
Proof.
  intros Hd Hn. unfold read_entries.
  destruct (Z.eqb_spec (partition_entry_size h) GPT_ENTRY_SIZE) as [->|]; [|apply reads_fail].
  cbn [negb]. case_match eqn:Hm; [apply reads_fail|].
  apply Z.ltb_ge in Hm. unfold GPT_MAX_ENTRIES, GPT_ENTRY_SIZE in *.
  assert (checked_mul64 (num_partition_entries h) 128 = Some (num_partition_entries h * 128)) as ->.
  { unfold checked_mul64. by rewrite (proj2 (Z.ltb_lt _ _)) by lia. }
  cbn [ok_or].
  eapply reads_bind; [by apply (reads_lift _ _ (λ t, t = num_partition_entries h * 128));
    [|intros ? [= <-]]|]. intros t d1 -> E1.
  eapply reads_bind; [by apply (reads_lift _ _ (λ _, True)); [apply safe_ok_or|]|]. intros o d2 _ E2.
  eapply reads_bind; [apply reads_map_err, reads_blocks; [by rewrite <- E2, <- E1|lia]|].
  intros b d3 [Hl Hb] E3.
  destruct (serialize_parse_entries b (Z.to_nat (num_partition_entries h))) as (es&Hes&Hw&_&Hlen);
    [done|lia|].
  apply reads_lift; unfold GPT_ENTRY_SIZE in *; rewrite Hes; [done|].
  intros ? [= <-]. split_and!; [done|lia|lia].
Qed.

(** What [read_gpt] guarantees of a table it returns. *)
Definition gpt_sound (p : GptHeader * list GptEntry) : Prop :=
  signature p.1 = GPT_SIGNATURE ∧ header_size p.1 = 92 ∧ partition_entry_size p.1 = 128 ∧
  Forall entry_wf p.2 ∧ len p.2 = num_partition_entries p.1 ∧ len p.2 ≤ 512 ∧
  crc32 (serialize_entries p.2) = partition_array_crc32 p.1.

Lemma read_gpt_reads d : disk_ok d → reads read_gpt d gpt_sound.
Proof.
  intros Hd. destruct (disk_ok_geometry d Hd) as [Hbs _].
  assert (Hs : 0 ≤ block_size d) by apply Hbs.
  set (R := λ o : option (list Z * GptHeader), ∀ p, o = Some p → bytes_ok p.1).
  assert (Hpv : ∀ raw p, bytes_ok raw → parse_and_verify_header raw = Ok p → bytes_ok p.1).
  { intros raw p Hb Hp. apply parse_and_verify_Ok in Hp as (->&_). done. }
  unfold read_gpt. eapply (reads_bind _ _ _ (λ x, x = d)); [by apply reads_get|]. intros ? d0 -> E0.
  assert (Hd0 : disk_ok d0) by by rewrite <- E0.
  eapply reads_bind; [by apply read_header_raw_reads|]. intros o d1 Ho E1.
  eapply (reads_bind _ _ _ R).
  { destruct o as [raw|]; [|by apply reads_mret].
    pose proof (parse_and_verify_safe raw).
    apply reads_lift; destruct (parse_and_verify_header raw) eqn:Hp; try done.
    - intros ? [= <-] ? [= <-]. eauto.
    - by intros ? [= <-]. }
  intros res d2 Hres E2. assert (Hd2 : disk_ok d2) by by rewrite <- E2, <- E1.
  eapply (reads_bind _ _ _ (λ raw, bytes_ok raw)).
  { destruct res as [[raw h]|]; [apply reads_mret; by apply (Hres (raw, h))|].
    eapply (reads_bind _ _ _ (λ _, True)); [by apply reads_get|]. intros dev d3 _ E3.
    eapply (reads_bind _ _ _ (λ _, True)); [by apply reads_lift; [apply safe_ok_or|]|].
    intros last d4 _ E4.
    eapply reads_bind; [apply read_header_raw_reads; [by rewrite <- E4, <- E3|done]|].
    intros o' d5 Ho' E5.
    eapply (reads_bind _ _ _ (λ raw, bytes_ok raw)).
    { apply reads_lift; [apply safe_ok_or|]. intros raw ->%ok_or_Ok_inv. auto. }
    intros raw d6 Hraw E6.
    eapply (reads_bind _ _ _ (λ p, bytes_ok p.1)).
    { apply reads_lift; [apply parse_and_verify_safe|]. eauto. }
    intros p d7 Hp E7. by apply reads_mret. }
  intros raw d3 Hraw E3.
  eapply (reads_bind _ _ _ (λ h, 0 ≤ num_partition_entries h)).
  { apply reads_lift; [apply parse_header_safe|]. intros h Hh.
    by destruct (parse_header_bytes_range raw h Hraw Hh). }
  intros h d4 Hh E4.
  eapply (reads_bind _ _ _ (λ _, validate_header h = Ok ())).
  { apply reads_lift; [apply validate_header_safe|]. by intros []. }
  intros [] d5 Hv E5.
  eapply reads_bind; [apply read_entries_reads; [by rewrite <- E5, <- E4, <- E3|done]|].
  intros es d6 (Hw&Hn&Hle) E6.
  eapply (reads_bind _ _ _ (λ _, crc32 (serialize_entries es) = partition_array_crc32 h)).
  { apply reads_lift; unfold verify_entries_crc; destruct (Z.eqb_spec (crc32 (serialize_entries es))
      (partition_array_crc32 h)); done. }
  intros [] d7 Hc E7. apply reads_mret.
  apply validate_header_Ok in Hv as (?&?&?). by split_and!.
Qed.
End safety.

(** ** Error paths of writing *)

Lemma on_snd_geometry {D} `{!BlockDevice D, !SectorDisk D} a data (n : Z) d n' d' r :
  on_snd (st_map_err GptError_from_BlockError (write_blocks a data)) (n, d) = ((n', d'), r) →
  same_geometry d d'.
Proof.
  unfold on_snd, st_map_err. cbn. pose proof (write_blocks_geometry d a data) as Hg.
  destruct (write_blocks a data d) as [d1 r1]. intros [= _ <- _]. done.
Qed.

Lemma on_snd_mbr_geometry {D} `{!BlockDevice D, !SectorDisk D} last (n : Z) d n' d' r :
  on_snd (write_protective_mbr last) (n, d) = ((n', d'), r) → same_geometry d d'.
Proof.
  unfold on_snd, write_protective_mbr. cbn [snd fst]. rewrite bind_get_st. unfold lift.
  rewrite st_bind_unfold.
  destruct (protective_mbr (block_size d) last) as [m|e| |]; try by intros [= _ <- _].
  unfold st_map_err. pose proof (write_blocks_geometry d 0 m) as Hg.
  destruct (write_blocks 0 m d) as [d1 r1]. intros [= _ <- _]. done.
Qed.

Lemma same_geometry_trans {D} `{!BlockDevice D} (d1 d2 d3 : D) :
  same_geometry d1 d2 → same_geometry d2 d3 → same_geometry d1 d3.
Proof. unfold same_geometry. intros [-> ->] [-> ->]. done. Qed.

Lemma write_gpt_sector_addressed {D} `{!BlockDevice D, !SectorDisk D} es n (d : D) s' :
  2 ≤ block_size d → 2 ≤ block_count d → block_size d * block_count d < 2 ^ 64 →
  write_gpt es (n, d) ≠ (s', Ok ()).
Proof.
  intros Hs Hc Hcap. unfold write_gpt. case_match; [done|]. srun. cbn [snd].
  unfold checked_sub. rewrite (proj2 (Z.leb_le 1 (block_count d))) by lia. cbn [ok_or]. srun.
  set (last := block_count d - 1).
  intros ([n1 d1] & [] & G1%on_snd_mbr_geometry & H1)%st_bind_Ok_inv.
  rewrite (proj2 (Z.eqb_neq _ _)) in H1 by lia. rewrite bind_lift_Ok in H1.
  case_match; [done|].
  apply st_bind_Ok_inv in H1 as ([n2 d2] & guid & [= <- <- _] & H2).
  apply st_bind_Ok_inv in H2 as (? & p0 & [= <- _] & H3).
  apply st_bind_Ok_inv in H3 as (? & b0 & [= <- _] & H4).
  apply st_bind_Ok_inv in H4 as (? & p1 & [= <- _] & H5).
  apply st_bind_Ok_inv in H5 as (? & b1 & [= <- _] & H6).
  apply st_bind_Ok_inv in H6 as ([n7 d7] & [] & G7%on_snd_geometry & H7).
  apply st_bind_Ok_inv in H7 as ([n8 d8] & [] & G8%on_snd_geometry & H8).
  apply st_bind_Ok_inv in H8 as ([n9 d9] & [] & G9%on_snd_geometry & H9).
  assert (G : same_geometry d d9) by eauto using same_geometry_trans. destruct G as [_ Gc].
  rewrite wrap_small in H9 by (unfold last; nia).
  destruct (write_blocks_past d9 (last * block_size d) b1) as [e He].
  { rewrite Gc. unfold last. nia. }
  revert H9. unfold on_snd, st_map_err. cbn.
  destruct (write_blocks (last * block_size d) b1 d9) as [d10 r10]. cbn in He. by subst r10.
Qed.

Lemma write_gpt_no_space {D} `{!BlockDevice D, !ByteDisk D} es n (d : D) :
  disk_ok d → 512 ≤ block_size d ≤ 4096 → len es ≤ 128 → 1 ≤ block_count d →
  block_count d - 34 ≤ 2 + (128 * len es + block_size d - 1) / block_size d →
  ∃ m d', write_gpt es (n, d) = ((n, d'), Err Gpt_NoSpace) ∧
    protective_mbr (block_size d) (block_count d - 1) = Ok m ∧ len m = block_size d ∧
    wrote 0 m d d'.
Proof.
  intros Hd Hs Hes Hc Hfit.
  unfold write_gpt. rewrite (proj2 (Z.ltb_ge _ _)) by (unfold GPT_MAX_ENTRIES; lia). srun. cbn [snd].
  unfold checked_sub. rewrite (proj2 (Z.leb_le _ _)) by lia. cbn [ok_or]. srun.
  destruct (write_protective_mbr_ok d n (block_count d - 1)) as (m & d1 & Hm & Hml & Hw1 & Hr);
    [done|lia|unfold capacity; nia|].
  rewrite (st_bind_Ok _ _ _ _ _ Hr). rewrite (proj2 (Z.eqb_neq _ _)) by lia. srun.
  assert (Hq : 0 ≤ (128 * len es + block_size d - 1) / block_size d ≤ 16384).
  { split; [apply Z.div_pos; lia|]. apply Z.div_le_upper_bound; lia. }
  unfold GPT_ENTRY_SIZE, GPT_RESERVED_LBAS, sat_sub.
  rewrite (Z.mul_comm (len es) 128). unwrap_ints.
  rewrite (proj2 (Z.leb_le _ _)) by lia. by exists m, d1.
Qed.

(** ** Properties *)

Section properties.
Context {D : Type} `{!BlockDevice D, !ByteDisk D}.

(** C9: on a byte-addressed device, a partition table that fits is written
    completely: [write_gpt] returns [Ok], and [read_gpt] on the resulting
    device returns exactly the written entries with the primary header,
    leaving the device as it is. *)
Theorem write_gpt_read_gpt (es : list GptEntry) (n : Z) (d : D) :
  gpt_fits es d →
  ∃ d1 d2, write_gpt es (n, d) = ((n +w 1, d1), Ok ()) ∧
    read_gpt d1 = (d2, Ok (primary_header es (guid_of n) d, es)) ∧ d1 ≡ d2.
Proof.
  intros Hfit. pose proof (gpt_fits_layout es d Hfit) as Hlay. cbv zeta in Hlay.
  destruct (write_gpt_layout es n d Hfit) as (d1&Hw&Hok&Hg&Hp&_).
  destruct Hfit as (_&Hs&Hcap&Hes&Hle&_), Hg as [Hg1 Hg2].
  destruct (read_gpt_primary_run es (guid_of n) d1) as (d2&Hr&He);
    auto using length_guid_of, guid_of_bytes.
  - unfold readable, capacity, last_lba_of in *. rewrite Hg1, Hg2. split_and!; lia || done.
  - unfold capacity in *. rewrite Hg1, Hg2. lia.
  - exists d1, d2. split_and!; [done| |done].
    rewrite Hr. unfold primary_header, last_lba_of. by rewrite Hg2.
Qed.

(** C10: after [write_gpt], if the primary header is lost (whatever happened to
    its sector, as long as it no longer verifies) and the rest of the disk is
    intact, [read_gpt] recovers the same entries from the backup. *)
Theorem read_gpt_recovers (es : list GptEntry) (n : Z) (d d1 d2 : D) :
  gpt_fits es d →
  (write_gpt es (n, d)).1.2 = d1 →
  disk_ok d2 → same_geometry d1 d2 → primary_damaged d2 →
  (∀ x, 2 * block_size d ≤ x → byte_at d2 x = byte_at d1 x) →
  ∃ d3, read_gpt d2 = (d3, Ok (backup_header es (guid_of n) d, es)) ∧ d2 ≡ d3.
Proof.
  intros Hfit Hw1 Hok2 [Hg3 Hg4] Hdam Hsame.
  pose proof (gpt_fits_layout es d Hfit) as (HL1&HL2&HL3&HL4&HL5&HL6&HL7).
  destruct (write_gpt_layout es n d Hfit) as (d1'&Hw&Hok&Hg&_&Hb&_).
  rewrite Hw in Hw1. cbn in Hw1. subst d1'.
  destruct Hfit as (_&Hs&Hcap&Hes&Hle&_), Hg as [Hg1 Hg2].
  assert (HB : block_size d2 = block_size d ∧ block_count d2 = block_count d)
    by (split; congruence). destruct HB as [HB1 HB2].
  destruct (read_gpt_backup_run es (guid_of n) d2) as (d3&Hr&He);
    auto using length_guid_of, guid_of_bytes.
  - unfold readable, capacity, last_lba_of in *. rewrite HB1, HB2. split_and!; lia || done.
  - unfold capacity, last_lba_of in *. rewrite HB1, HB2. lia.
  - unfold backup_on_disk, backup_header, last_lba_of in *.
    rewrite HB1, HB2, <- Hg2, <- Hg1. destruct Hb as [Hb1 Hb2].
    rewrite <- Hb1, <- Hb2. rewrite !Hg1, !Hg2.
    split; apply rd_eq; intros x Hx; apply Hsame; lia.
  - exists d3. split; [|done]. rewrite Hr. unfold backup_header, last_lba_of. by rewrite HB2.
Qed.

(** [write_gpt] puts the protective MBR, both headers and both entry
    arrays where the GPT layout has them, and changes no byte of the partition
    area (from LBA 34 to the backup entries). *)
Theorem write_gpt_places (es : list GptEntry) (n : Z) (d : D) :
  gpt_fits es d →
  ∃ d', write_gpt es (n, d) = ((n +w 1, d'), Ok ()) ∧
    protective_mbr (block_size d) (last_lba_of d) = Ok (rd 0 (block_size d) d') ∧
    primary_on_disk es (guid_of n) d' ∧ backup_on_disk es (guid_of n) d' ∧
    ∀ x, 34 * block_size d ≤ x < (last_lba_of d - 32) * block_size d →
      byte_at d' x = byte_at d x.
Proof.
  intros Hfit. destruct (write_gpt_layout es n d Hfit) as (d1&Hw&Hok&Hg&Hp&Hb&Hm&Hf).
  exists d1. by split_and!.
Qed.

(** C11: [read_gpt] is total on any device content: it returns or fails with an
    error, never panics and never changes the device; and a table it returns
    has a valid header, well-formed entries in the number the header gives (at
    most 512), and the checksum of the header. *)
Theorem read_gpt_total (d : D) :
  disk_ok d →
  safe (read_gpt d).2 ∧ d ≡ (read_gpt d).1 ∧
  ∀ h es, (read_gpt d).2 = Ok (h, es) →
    signature h = GPT_SIGNATURE ∧ Forall entry_wf es ∧ len es = num_partition_entries h ∧
    len es ≤ 512 ∧ crc32 (serialize_entries es) = partition_array_crc32 h.
Proof.
  intros Hd. destruct (read_gpt_reads d Hd) as (Hs&He&Hq). split_and!; [done..|].
  intros h es Hr. destruct (Hq _ Hr) as (?&?&?&?&?&?&?). by split_and!.
Qed.

(** When the table does not fit, [write_gpt] fails with [NoSpace], but
    only after it has overwritten sector 0 with the protective MBR. *)
Theorem write_gpt_no_space_destroys_mbr (es : list GptEntry) (n : Z) (d : D) :
  disk_ok d → 512 ≤ block_size d ≤ 4096 → len es ≤ 128 → 1 ≤ block_count d →
  block_count d - 34 ≤ 2 + (128 * len es + block_size d - 1) / block_size d →
  ∃ d', write_gpt es (n, d) = ((n, d'), Err Gpt_NoSpace) ∧
    protective_mbr (block_size d) (block_count d - 1) = Ok (rd 0 (block_size d) d').
Proof.
  intros. destruct (write_gpt_no_space es n d) as (m&d'&Hw&Hm&Hl&Hwr); [done..|].
  exists d'. split; [done|]. by rewrite (rd_wrote _ _ _ _ _ Hwr Hl).
Qed.
End properties.

(** Behind a driver that takes [lba] as a sector number (as the virtio and
    AHCI drivers do) [write_gpt] never succeeds: it passes byte offsets, and
    the backup header's lies past the last sector. *)
Theorem write_gpt_sector_addressed_fails {D} `{!BlockDevice D, !SectorDisk D}
    (es : list GptEntry) (n : Z) (d : D) :
  2 ≤ block_size d → 2 ≤ block_count d → block_size d * block_count d < 2 ^ 64 →
  is_ok (write_gpt es (n, d)).2 = false.
Proof.
  intros Hb Hc Ho. pose proof (λ s, write_gpt_sector_addressed es n d s Hb Hc Ho) as H.
  destruct (write_gpt es (n, d)) as [s' [[]| | |]]; try done. by destruct (H s').
Qed.

(** ** Witnesses *)

Definition demo_disk : RamDisk := {| rd_size := 512; rd_count := 128; rd_data := ∅ |}.
Definition tiny_disk : RamDisk := {| rd_size := 512; rd_count := 36; rd_data := ∅ |}.

Lemma demo_fits : gpt_fits [demo_entry; demo_entry] demo_disk.
Proof.
  pose proof demo_entry_wf.
  split; [by vm_compute|]. split; [by vm_compute|]. split; [by vm_compute|].
  split; [by repeat constructor|]. by vm_compute.
Qed.

(** The demo table, with the primary header's first byte overwritten. *)
Definition demo_written : RamDisk := (write_gpt [demo_entry; demo_entry] (5, demo_disk)).1.2.
Definition demo_damaged : RamDisk := (write_blocks 512 [0] demo_written).1.

Lemma write_gpt_read_gpt_witness :
  gpt_fits [demo_entry; demo_entry] demo_disk ∧
  ∃ d1 d2, write_gpt [demo_entry; demo_entry] (5, demo_disk) = ((5 +w 1, d1), Ok ()) ∧
    read_gpt d1 = (d2, Ok (primary_header [demo_entry; demo_entry] (guid_of 5) demo_disk,
                           [demo_entry; demo_entry])) ∧ d1 ≡ d2.
Proof. split; [exact demo_fits|]. apply (write_gpt_read_gpt _ 5 _ demo_fits). Defined.

Lemma demo_damaged_ok :
  disk_ok demo_damaged ∧ same_geometry demo_written demo_damaged ∧
  primary_damaged demo_damaged ∧
  ∀ x, 2 * 512 ≤ x → byte_at demo_damaged x = byte_at demo_written x.
Proof.
  split; [by vm_compute|]. split; [by vm_compute|]. split.
  - left. by vm_compute.
  - intros x Hx. unfold demo_damaged. 
    destruct (write_blocks_in demo_written 512 [0]) as [_ Hb]; [by vm_compute|by repeat constructor|done|by vm_compute|].
    rewrite Hb, decide_False; [done|cbn; lia].
Qed.

Lemma read_gpt_recovers_witness :
  ∃ d3, read_gpt demo_damaged =
    (d3, Ok (backup_header [demo_entry; demo_entry] (guid_of 5) demo_disk,
             [demo_entry; demo_entry])) ∧ demo_damaged ≡ d3.
Proof.
  destruct demo_damaged_ok as (H1&H2&H3&H4).
  apply (read_gpt_recovers [demo_entry; demo_entry] 5 demo_disk demo_written demo_damaged
    demo_fits eq_refl H1 H2 H3 H4).
Defined.

Lemma write_gpt_places_witness :
  ∃ d', write_gpt [demo_entry; demo_entry] (5, demo_disk) = ((5 +w 1, d'), Ok ()) ∧
    byte_at d' 20000 = byte_at demo_disk 20000.
Proof.
  destruct (write_gpt_places _ 5 _ demo_fits) as (d'&H1&_&_&_&H2).
  exists d'. split; [exact H1|]. apply H2. vm_compute. split; congruence.
Defined.

Lemma read_gpt_total_witness :
  disk_ok demo_written ∧ safe (read_gpt demo_written).2.
Proof.
  assert (H : disk_ok demo_written) by by vm_compute.
  split; [exact H|]. exact (proj1 (read_gpt_total demo_written H)).
Defined.

Lemma write_gpt_no_space_destroys_mbr_witness :
  ∃ d', write_gpt [demo_entry] (5, tiny_disk) = ((5, d'), Err Gpt_NoSpace) ∧
    protective_mbr (block_size tiny_disk) (block_count tiny_disk - 1) =
      Ok (rd 0 (block_size tiny_disk) d').
Proof.
  refine (write_gpt_no_space_destroys_mbr [demo_entry] 5 tiny_disk _ _ _ _ _); by vm_compute.
Defined.

Lemma write_gpt_sector_addressed_fails_witness :
  is_ok (write_gpt [demo_entry] (5, {| sr_disk := demo_disk |})).2 = false.
Proof.
  refine (write_gpt_sector_addressed_fails [demo_entry] 5 {| sr_disk := demo_disk |} _ _ _);
    by vm_compute.
Defined.
