(* ===== verification/GptManager.v ===== *)
(** * The partition manager

    [partition/gpt/manager.rs]: formatting a disk with an ESP and an NTFS
    partition, reading the partition list, finding a partition's byte offset,
    the NTFS boot sector, and the string helpers. *)

From S2P Require Import Prelude Bytes Text BlockDev Gpt GptFacts GptIo.

Definition ESP_GUID : list Z := [
  0x28; 0x73; 0x2A; 0xC1; 0x1F; 0xF8; 0xD2; 0x11;
  0xBA; 0x4B; 0x00; 0xA0; 0xC9; 0x3E; 0xC9; 0x3B].
Definition NTFS_GUID : list Z := [
  0xA2; 0xA0; 0xD0; 0xEB; 0xE5; 0xB9; 0x33; 0x44;
  0x87; 0xC0; 0x68; 0xB6; 0xB7; 0x26; 0x99; 0xC7].
Definition ESP_SIZE_SECTORS : Z := 1048576.

(** ** Public types *)

Inductive PartitionKind := Esp | Ntfs | Unknown.

Record PartitionInfo := {
  pi_kind : PartitionKind;
  pi_type_guid : rstring;
  pi_unique_guid : rstring;
  pi_start_lba : Z;
  pi_end_lba : Z;
  pi_size_bytes : Z;
  pi_attributes : Z;
  pi_name : rstring;
}.

Record GptInfo := {
  gi_disk_guid : rstring;
  gi_sector_size : Z;
  gi_total_sectors : Z;
  gi_first_usable_lba : Z;
  gi_last_usable_lba : Z;
  gi_partitions : list PartitionInfo;
}.

(** ** Helpers *)

Definition str_to_utf16le (s : rstring) : list Z :=
  let units := take 36 (encode_utf16 s) in
  units ++ replicate (36 - length units) 0.

(** The bytes below 128 up to the first zero are ASCII, on which
    [from_utf8_lossy] is the identity. *)
Definition utf16le_to_str (name : list Z) : rstring :=
  let n := match list_find (λ c, c = 0) name with Some (i, _) => i | None => 36%nat end in
  filter (λ c, c < 128) (take n name).

(** [guid[i]] of a 16-byte array. *)
Definition guid_byte (g : list Z) (i : nat) : Z := nth i g 0.
Definition format_guid (g : list Z) : rstring :=
  let b := guid_byte g in
  hex 8 (from_le [b 0%nat; b 1%nat; b 2%nat; b 3%nat]) ++ lit "-" ++
  hex 4 (from_le [b 4%nat; b 5%nat]) ++ lit "-" ++
  hex 4 (from_le [b 6%nat; b 7%nat]) ++ lit "-" ++
  hex 2 (b 8%nat) ++ hex 2 (b 9%nat) ++ lit "-" ++
  hex 2 (b 10%nat) ++ hex 2 (b 11%nat) ++ hex 2 (b 12%nat) ++ hex 2 (b 13%nat) ++
  hex 2 (b 14%nat) ++ hex 2 (b 15%nat).

Definition is_zero_guid (g : list Z) : bool := forallb (λ b, b =? 0) g.

Definition partition_kind (g : list Z) : PartitionKind :=
  if bool_decide (g = ESP_GUID) then Esp
  else if bool_decide (g = NTFS_GUID) then Ntfs else Unknown.

Definition partition_info (sector_size : Z) (e : GptEntry) : PartitionInfo := {|
  pi_kind := partition_kind (type_guid e);
  pi_type_guid := format_guid (type_guid e);
  pi_unique_guid := format_guid (unique_guid e);
  pi_start_lba := start_lba e;
  pi_end_lba := end_lba e;
  pi_size_bytes := (end_lba e -w start_lba e +w 1) *w sector_size;
  pi_attributes := attributes e;
  pi_name := utf16le_to_str (gpt_name e);
|}.

(** ** Operations *)

Section manager.
Context {D : Type} `{!BlockDevice D}.

Definition format_disk (ntfs_size_sectors : Z) : st (Z * D) GptError (Z * Z * Z * Z) :=
  s ← get_st;
  let total_sectors := block_count s.2 in
  if total_sectors <? ESP_SIZE_SECTORS + 128 then fail Gpt_NoSpace else
  let first_usable := GPT_FIRST_USABLE_LBA in
  let last_usable := sat_sub total_sectors (GPT_RESERVED_LBAS + 1) in
  let usable_total := last_usable -w first_usable in
  if usable_total <? ESP_SIZE_SECTORS + 1 then fail Gpt_NoSpace else
  let esp_start := first_usable in
  let esp_end := esp_start +w ESP_SIZE_SECTORS -w 1 in
  let ntfs_start := esp_end +w 1 in
  let available := last_usable -w ntfs_start in
  let ntfs_size :=
    if (ntfs_size_sectors =? 0) || (available <? ntfs_size_sectors)
    then available else ntfs_size_sectors in
  let ntfs_end := ntfs_start +w ntfs_size -w 1 in
  g1 ← generate_guid;
  g2 ← generate_guid;
  let entries := [
    {| type_guid := ESP_GUID; unique_guid := g1; start_lba := esp_start; end_lba := esp_end;
       attributes := 0; gpt_name := str_to_utf16le (lit "EFI System") |};
    {| type_guid := NTFS_GUID; unique_guid := g2; start_lba := ntfs_start; end_lba := ntfs_end;
       attributes := 0; gpt_name := str_to_utf16le (lit "Userspace") |}] in
  write_gpt entries;;
  mret (esp_start, ESP_SIZE_SECTORS, ntfs_start, ntfs_size).

Definition read_disk : st D GptError GptInfo :=
  p ← read_gpt;
  dev ← get_st;
  let sector_size := block_size dev in
  let partitions := partition_info sector_size <$>
    filter (λ e, is_zero_guid (type_guid e) = false) p.2 in
  mret {| gi_disk_guid := format_guid (disk_guid p.1); gi_sector_size := sector_size;
          gi_total_sectors := block_count dev; gi_first_usable_lba := first_usable_lba p.1;
          gi_last_usable_lba := last_usable_lba p.1; gi_partitions := partitions |}.

(** The loop of the two [find_*_offset] functions. *)
Fixpoint find_entry (guid : list Z) (entries : list GptEntry) : option GptEntry :=
  match entries with
  | [] => None
  | e :: entries => if bool_decide (type_guid e = guid) then Some e else find_entry guid entries
  end.

Definition find_offset (guid : list Z) : st D GptError Z :=
  p ← read_gpt;
  dev ← get_st;
  match find_entry guid p.2 with
  | Some e => mret (start_lba e *w block_size dev)
  | None => fail Gpt_NotFound
  end.
Definition find_esp_offset : st D GptError Z := find_offset ESP_GUID.
Definition find_ntfs_offset : st D GptError Z := find_offset NTFS_GUID.
End manager.

Definition create_ntfs_boot_sector (total_sectors sector_size : Z) : outcome GptError (list Z) :=
  if sector_size <? 512 then Err Gpt_InvalidHeaderSize else
  boot ← vec_zeroed sector_size;
  boot ← copy_to boot 0 3 [0xEB; 0x52; 0x90];
  boot ← copy_to boot 3 11 (lit "NTFS    ");
  boot ← copy_to boot 11 13 (u16_le sector_size);
  boot ← set_idx boot 13 8;
  boot ← copy_to boot 40 48 (u64_le total_sectors);
  boot ← copy_to boot 48 56 (u64_le 2);
  boot ← copy_to boot 72 80 (u64_le 0x123456789ABCDEF0);
  boot ← set_idx boot 510 0x55;
  set_idx boot 511 0xAA.

(** ** Facts *)

Section facts.
Context {D : Type} `{!BlockDevice D, !ByteDisk D}.
Implicit Types d : D.

(** A disk large enough for the layout of [format_disk]. *)
Definition formattable d : Prop :=
  disk_ok d ∧ 512 ≤ block_size d ≤ 4096 ∧ capacity d < 2 ^ 64 ∧ ESP_SIZE_SECTORS + 128 ≤ block_count d.

(** The size the NTFS partition gets. *)
Definition ntfs_size_of (req : Z) d : Z :=
  let available := block_count d - 68 - ESP_SIZE_SECTORS in
  if (req =? 0) || (available <? req) then available else req.

Definition layout_entries (n req : Z) d : list GptEntry := [
  {| type_guid := ESP_GUID; unique_guid := guid_of n; start_lba := 34;
     end_lba := 34 + ESP_SIZE_SECTORS - 1;
     attributes := 0; gpt_name := str_to_utf16le (lit "EFI System") |};
  {| type_guid := NTFS_GUID; unique_guid := guid_of (n +w 1); start_lba := 34 + ESP_SIZE_SECTORS;
     end_lba := 34 + ESP_SIZE_SECTORS + ntfs_size_of req d - 1;
     attributes := 0; gpt_name := str_to_utf16le (lit "Userspace") |}].

Lemma ntfs_size_range req d :
  formattable d → 0 ≤ req → 0 < ntfs_size_of req d ≤ block_count d - 68 - ESP_SIZE_SECTORS.
Proof.
  intros (_&_&_&H) Hr. unfold ntfs_size_of, ESP_SIZE_SECTORS in *.
  destruct (Z.eqb_spec req 0); cbn; [lia|]. case_match; lia.
Qed.

Lemma layout_fits n req d :
  formattable d → 0 ≤ req → gpt_fits (layout_entries n req d) d.
Proof.
  intros Hf Hr. pose proof (ntfs_size_range req d Hf Hr) as Hn.
  destruct Hf as (Hd&Hs&Hc&Hb). destruct (disk_ok_geometry d Hd) as [_ Hbc].
  unfold gpt_fits. split_and!; try done; try lia; unfold ESP_SIZE_SECTORS, is_u in *.
  - assert (He : ∀ tg m s e nm, length tg = 16%nat → bytes_ok tg → is_u64 s → is_u64 e →
      length nm = 36%nat → Forall (is_u 16) nm →
      entry_wf {| type_guid := tg; unique_guid := guid_of m; start_lba := s; end_lba := e;
                  attributes := 0; gpt_name := nm |}).
    { intros. unfold entry_wf. cbn [type_guid unique_guid start_lba end_lba attributes gpt_name].
      split_and!; try done. apply guid_of_bytes. }
    repeat apply Forall_cons_2; try apply Forall_nil_2; apply He; try done;
      first [by repeat constructor | unfold is_u, ESP_SIZE_SECTORS in *; lia].
  - assert ((256 + block_size d - 1) / block_size d < 2) by (apply Z.div_lt_upper_bound; lia).
    change (128 * len (layout_entries n req d)) with 256. lia.
Qed.
Lemma format_disk_run n n' req d d' :
  formattable d → is_u64 req →
  write_gpt (layout_entries n req d) (n +w 1 +w 1, d) = ((n', d'), Ok ()) →
  format_disk req (n, d) =
    ((n', d'), Ok (34, ESP_SIZE_SECTORS, 34 + ESP_SIZE_SECTORS, ntfs_size_of req d)).
Proof.
  intros Hf Hr Hw. assert (Hr' : 0 ≤ req) by apply Hr.
  pose proof (ntfs_size_range req d Hf Hr') as Hn.
  destruct Hf as (Hd&_&_&Hb). destruct (disk_ok_geometry d Hd) as [_ Hbc].
  unfold is_u, ESP_SIZE_SECTORS in Hbc, Hr, Hb, Hn.
  unfold format_disk. srun. cbn [snd]. rewrite (proj2 (Z.ltb_ge _ _)) by (unfold ESP_SIZE_SECTORS; lia).
  unfold sat_sub, GPT_RESERVED_LBAS, GPT_FIRST_USABLE_LBA. rewrite Z.max_r by lia.
  unwrap_ints. rewrite (proj2 (Z.ltb_ge _ _)) by (unfold ESP_SIZE_SECTORS; lia).
  replace (block_count d - (33 + 1) -w (34 +w ESP_SIZE_SECTORS -w 1 +w 1))
    with (block_count d - 68 - ESP_SIZE_SECTORS)
    by (unfold ESP_SIZE_SECTORS; unwrap_ints; lia).
  fold (ntfs_size_of req d). cbv zeta.
  erewrite st_bind_Ok by reflexivity. erewrite st_bind_Ok by reflexivity.
  assert (E1 : 34 +w ESP_SIZE_SECTORS -w 1 = 34 + ESP_SIZE_SECTORS - 1) by reflexivity.
  assert (E2 : 34 +w ESP_SIZE_SECTORS -w 1 +w 1 = 34 + ESP_SIZE_SECTORS) by reflexivity.
  rewrite E2, E1.
  assert (E3 : 34 + ESP_SIZE_SECTORS +w ntfs_size_of req d -w 1 =
    34 + ESP_SIZE_SECTORS + ntfs_size_of req d - 1) by (unfold ESP_SIZE_SECTORS; unwrap_ints; lia).
  rewrite E3. rewrite (st_bind_Ok _ _ _ _ _ Hw). done.
Qed.

(** The two partitions [format_disk] creates, as [read_disk] lists them. *)
Definition layout_info (n req : Z) d : list PartitionInfo :=
  partition_info (block_size d) <$> layout_entries n req d.

Lemma format_disk_read n req d :
  formattable d → is_u64 req →
  ∃ n' d', format_disk req (n, d) =
      ((n', d'), Ok (34, ESP_SIZE_SECTORS, 34 + ESP_SIZE_SECTORS, ntfs_size_of req d)) ∧
    disk_ok d' ∧ same_geometry d d' ∧
    ∃ h, h = primary_header (layout_entries n req d) (guid_of (n +w 1 +w 1)) d ∧
    ∃ d2, read_gpt d' = (d2, Ok (h, layout_entries n req d)) ∧ d' ≡ d2.
Proof.
  intros Hf Hr. assert (Hr' : 0 ≤ req) by apply Hr.
  pose proof (layout_fits n req d Hf Hr') as Hfit.
  destruct (write_gpt_layout _ (n +w 1 +w 1) d Hfit) as (d1&Hw&Hok&[Hg1 Hg2]&Hp&_).
  pose proof (format_disk_run n _ req d d1 Hf Hr Hw) as Hfmt.
  eexists _, d1. split; [exact Hfmt|]. split; [done|]. split; [done|].
  destruct Hfit as (_&Hs&Hcap&Hes&Hle&_). destruct Hf as (_&_&_&Hb).
  destruct (read_gpt_primary_run (layout_entries n req d) (guid_of (n +w 1 +w 1)) d1) as (d2&Hrd&He);
    try done; auto using length_guid_of, guid_of_bytes.
  - unfold readable, capacity, ESP_SIZE_SECTORS in *. rewrite Hg1, Hg2. split_and!; lia || done.
  - unfold capacity, ESP_SIZE_SECTORS in *. rewrite Hg1, Hg2.
    change (len (layout_entries n req d)) with 2. nia.
  - eexists. split; [done|]. exists d2. split; [|done]. rewrite Hrd.
    unfold primary_header, last_lba_of. by rewrite Hg2.
Qed.
End facts.

Lemma utf16_name_roundtrip s :
  Forall (λ c, 0 < c < 128) s → len s ≤ 36 → utf16le_to_str (str_to_utf16le s) = s.
Proof.
  intros Hs Hl. unfold str_to_utf16le. rewrite encode_utf16_bmp by
    (eapply Forall_impl; [exact Hs|cbn; lia]).
  rewrite take_ge by lia. unfold utf16le_to_str.
  assert (Hf : match list_find (λ c, c = 0) (s ++ replicate (36 - length s) 0) with
               | Some (i, _) => i | None => 36%nat end = length s).
  { destruct (decide (length s = 36%nat)) as [He|He].
    - rewrite He, Nat.sub_diag, app_nil_r.
      destruct (list_find _ s) as [[i x]|] eqn:Hi; [|done].
      apply list_find_Some in Hi as (Hx&->&_). eapply Forall_lookup_1 in Hs; [|done]. cbn in Hs. lia.
    - assert (Hi : list_find (λ c, c = 0) (s ++ replicate (36 - length s) 0) = Some (length s, 0)).
      { apply list_find_Some. split_and!; [|done|].
        - rewrite lookup_app_r, Nat.sub_diag by lia. by apply lookup_replicate_2; lia.
        - intros j y Hy Hj. rewrite lookup_app_l in Hy by lia.
          eapply Forall_lookup_1 in Hs; [|done]. cbn in Hs. lia. }
      by rewrite Hi. }
  rewrite Hf, take_app_length. clear Hf Hl.
  induction Hs as [|c s Hc _ IH]; [done|]. rewrite filter_cons_True, IH by lia. done.
Qed.

(** ** Properties *)

Section properties.
Context {D : Type} `{!BlockDevice D, !ByteDisk D}.

(** C32: [format_disk] on a large enough byte-addressed device returns an ESP at
    LBA 34 and an NTFS partition right behind it that is not empty and ends
    inside the usable area; afterwards [read_disk] lists exactly these two
    partitions with their kinds, sizes and names, and the two [find_*_offset]
    functions return their byte offsets. *)
Theorem format_disk_correct (n req : Z) (d : D) :
  formattable d → is_u64 req →
  let size := ntfs_size_of req d in
  ∃ s' info,
    format_disk req (n, d) = (s', Ok (34, ESP_SIZE_SECTORS, 34 + ESP_SIZE_SECTORS, size)) ∧
    0 < size ∧ 34 + ESP_SIZE_SECTORS + size ≤ block_count d - 34 ∧
    (read_disk s'.2).2 = Ok info ∧
    gi_partitions info = [
      {| pi_kind := Esp; pi_type_guid := lit "c12a7328-f81f-11d2-ba4b-00a0c93ec93b";
         pi_unique_guid := format_guid (guid_of n); pi_start_lba := 34;
         pi_end_lba := 34 + ESP_SIZE_SECTORS - 1; pi_size_bytes := ESP_SIZE_SECTORS * block_size d;
         pi_attributes := 0; pi_name := lit "EFI System" |};
      {| pi_kind := Ntfs; pi_type_guid := lit "ebd0a0a2-b9e5-4433-87c0-68b6b72699c7";
         pi_unique_guid := format_guid (guid_of (n +w 1)); pi_start_lba := 34 + ESP_SIZE_SECTORS;
         pi_end_lba := 34 + ESP_SIZE_SECTORS + size - 1; pi_size_bytes := size * block_size d;
         pi_attributes := 0; pi_name := lit "Userspace" |}] ∧
    (find_esp_offset s'.2).2 = Ok (34 * block_size d) ∧
    (find_ntfs_offset s'.2).2 = Ok ((34 + ESP_SIZE_SECTORS) * block_size d).
Proof.
  intros Hf Hr size. assert (Hr' : 0 ≤ req) by apply Hr.
  pose proof (ntfs_size_range req d Hf Hr') as Hn. fold size in Hn.
  destruct (format_disk_read n req d Hf Hr) as (n'&d'&Hfmt&Hok&[Hg1 Hg2]&h&Hh&d2&Hrd&He).
  destruct Hf as (Hd&Hs&Hcap&Hb). destruct (disk_ok_geometry d Hd) as [_ Hbc].
  unfold capacity, is_u, ESP_SIZE_SECTORS in Hcap, Hbc, Hb, Hn.
  assert (Hb2 : block_size d2 = block_size d) by by rewrite <- He.
  eexists (n', d'), _. split; [exact Hfmt|]. split; [lia|]. split; [unfold ESP_SIZE_SECTORS; lia|].
  cbn [snd]. split; [|split; [|split]].
  - unfold read_disk. rewrite (st_bind_Ok _ _ _ _ _ Hrd). srun. reflexivity.
  - cbn [gi_partitions snd]. rewrite Hb2.
    cbv [layout_entries filter list_filter]. cbn [type_guid decide_rel].
    rewrite !decide_True by reflexivity. cbn [fmap list_fmap].
    f_equal; [|f_equal]; unfold partition_info; cbn [start_lba end_lba type_guid unique_guid
      attributes gpt_name]; f_equal; try reflexivity; unfold ESP_SIZE_SECTORS; unwrap_ints.
    + lia.
    + fold size.
      replace (34 + 1048576 + size - 1 - (34 + 1048576) + 1) with size by lia.
      apply wrap_small. nia.
  - unfold find_esp_offset, find_offset. rewrite (st_bind_Ok _ _ _ _ _ Hrd). srun.
    cbn [snd layout_entries find_entry type_guid]. rewrite bool_decide_true by done.
    cbn. rewrite Hb2. rewrite wrap_small by nia. done.
  - unfold find_ntfs_offset, find_offset. rewrite (st_bind_Ok _ _ _ _ _ Hrd). srun.
    cbn [snd layout_entries find_entry type_guid]. rewrite bool_decide_false by done.
    rewrite bool_decide_true by done.
    cbn. rewrite Hb2. unfold ESP_SIZE_SECTORS. rewrite wrap_small by nia. done.
Qed.

(** On a disk that is too small [format_disk] fails with [NoSpace] and
    touches neither the device nor the GUID counter. *)
Theorem format_disk_too_small (n req : Z) (d : D) :
  block_count d < ESP_SIZE_SECTORS + 128 →
  format_disk req (n, d) = ((n, d), Err Gpt_NoSpace).
Proof. intros. unfold format_disk. srun. by rewrite (proj2 (Z.ltb_lt _ _)) by done. Qed.
End properties.

(** A 600 MB disk. *)
Definition big_disk : RamDisk := {| rd_size := 512; rd_count := 1200000; rd_data := ∅ |}.

Lemma format_disk_correct_witness :
  formattable big_disk ∧ ∃ s' info,
    format_disk 0 (1, big_disk) =
      (s', Ok (34, ESP_SIZE_SECTORS, 34 + ESP_SIZE_SECTORS, ntfs_size_of 0 big_disk)) ∧
    (read_disk s'.2).2 = Ok info ∧ length (gi_partitions info) = 2%nat.
Proof.
  assert (H : formattable big_disk) by (split; [by vm_compute|split; [by vm_compute|by vm_compute]]).
  split; [exact H|].
  destruct (format_disk_correct 1 0 big_disk H) as (s'&info&H1&_&_&H2&H3&_); [by vm_compute|].
  exists s', info. split; [exact H1|]. split; [exact H2|]. rewrite H3. reflexivity.
Defined.

Lemma format_disk_too_small_witness :
  format_disk 0 (1, demo_disk) = ((1, demo_disk), Err Gpt_NoSpace).
Proof. refine (format_disk_too_small 1 0 demo_disk _). by vm_compute. Defined.
