(* ===== verification/NtfsTypes.v ===== *)
(** * NTFS data types

    [fs/ntfs/error.rs] and [fs/ntfs/types.rs]: errors and their conversions,
    file metadata, and the parsers of the resident attribute values. *)

From S2P Require Import Prelude Bytes Text BlockDev GptManager.

(** ** Errors *)

Inductive NtfsError :=
| Ntfs_InvalidBootSector | Ntfs_InvalidMftRecord | Ntfs_InvalidAttribute
| Ntfs_FileNotFound | Ntfs_InvalidPath | Ntfs_IoError | Ntfs_NotADirectory
| Ntfs_NotAFile | Ntfs_CorruptedFilesystem | Ntfs_NoSpace | Ntfs_AlreadyExists
| Ntfs_InvalidInput | Ntfs_NotSupported | Ntfs_NameTooLong.

#[global] Instance NtfsError_eq_dec : EqDecision NtfsError.
Proof. solve_decision. Defined.

(** [Display for NtfsError] *)
Definition NtfsError_fmt (e : NtfsError) : rstring :=
  match e with
  | Ntfs_InvalidBootSector => lit "invalid boot sector"
  | Ntfs_InvalidMftRecord => lit "invalid MFT record"
  | Ntfs_InvalidAttribute => lit "invalid attribute"
  | Ntfs_FileNotFound => lit "file not found"
  | Ntfs_InvalidPath => lit "invalid path"
  | Ntfs_IoError => lit "I/O error"
  | Ntfs_NotADirectory => lit "not a directory"
  | Ntfs_NotAFile => lit "not a file"
  | Ntfs_CorruptedFilesystem => lit "corrupted filesystem"
  | Ntfs_NoSpace => lit "no space left on device"
  | Ntfs_AlreadyExists => lit "file already exists"
  | Ntfs_InvalidInput => lit "Invalid Input given"
  | Ntfs_NotSupported => lit "not supported"
  | Ntfs_NameTooLong => lit "name too long"
  end.

(** [impl From<NtfsError> for FsError], [impl From<NtfsError> for IoError] *)
Definition HalFsError_from_NtfsError (e : NtfsError) : HalFsError :=
  match e with
  | Ntfs_FileNotFound => Hal_NotFound
  | Ntfs_NotADirectory => Hal_NotADirectory
  | Ntfs_NotAFile => Hal_NotAFile
  | Ntfs_InvalidPath => Hal_InvalidPath
  | Ntfs_CorruptedFilesystem => Hal_Corrupted
  | _ => Hal_Other
  end.
Definition IoError_from_NtfsError (_ : NtfsError) : IoError := Io_Other.

(** ** Attribute values *)

(** A file is its MFT record number. *)
Record NtfsFile := { record_number : Z }.

Inductive DataRun :=
| Resident (data : list Z)
| NonResident (runs : list (Z * Z)).  (* (start_cluster, length_in_clusters) *)

#[global] Instance DataRun_eq_dec : EqDecision DataRun.
Proof. solve_decision. Defined.

(** Union of the flags declared by [bitflags!]: what [from_bits_truncate]
    keeps. *)
Definition FileAttributes_all : Z := 0x30007FE7.
Definition FileAttributes_truncate (bits : Z) : Z := Z.land bits FileAttributes_all.
Definition SecurityDescriptorControl_all : Z := 0xFC3F.
Definition SecurityDescriptorControl_truncate (bits : Z) : Z :=
  Z.land bits SecurityDescriptorControl_all.

Record StandardInformation := {
  si_created : Z;
  si_modified : Z;
  si_mft_modified : Z;
  si_accessed : Z;
  si_file_attributes : Z;
  si_owner_id : option Z;
  si_security_id : option Z;
  si_quota_charged : option Z;
  si_usn : option Z;
}.

Definition StandardInformation_parse {E} (attr_data : list Z)
  : outcome E (option StandardInformation) :=
  match get_from attr_data 24 with
  | None => mret None
  | Some data =>
      if len data <? 48 then mret None else
      created ← u64_at data 0;
      modified ← u64_at data 8;
      mft_modified ← u64_at data 16;
      accessed ← u64_at data 24;
      attrs ← u32_at data 32;
      ext ← (if 72 <=? len data then
               o ← u32_at data 48;
               s ← u32_at data 52;
               q ← u64_at data 56;
               u ← u64_at data 64;
               mret (Some o, Some s, Some q, Some u)
             else mret (None, None, None, None));
      let '(owner_id, security_id, quota_charged, usn) := ext in
      mret (Some {| si_created := created; si_modified := modified;
        si_mft_modified := mft_modified; si_accessed := accessed;
        si_file_attributes := FileAttributes_truncate attrs; si_owner_id := owner_id;
        si_security_id := security_id; si_quota_charged := quota_charged; si_usn := usn |})
  end.

(** [filetime_to_unix]: the seconds fit in an [i64], the cast keeps them. *)
Definition filetime_to_unix (filetime : Z) : Z :=
  signed 64 (sat_sub (filetime / 10000000) 11644473600).

Record ObjectId := {
  oi_object_id : list Z;
  oi_birth_volume_id : option (list Z);
  oi_birth_object_id : option (list Z);
  oi_domain_id : option (list Z);
}.

Definition ObjectId_parse {E} (attr_data : list Z) : outcome E (option ObjectId) :=
  match get_from attr_data 24 with
  | None => mret None
  | Some data =>
      if len data <? 16 then mret None else
      object_id ← slice data 0 16;
      birth_volume_id ← (if 32 <=? len data then v ← slice data 16 32; mret (Some v) else mret None);
      birth_object_id ← (if 48 <=? len data then v ← slice data 32 48; mret (Some v) else mret None);
      domain_id ← (if 64 <=? len data then v ← slice data 48 64; mret (Some v) else mret None);
      mret (Some {| oi_object_id := object_id; oi_birth_volume_id := birth_volume_id;
        oi_birth_object_id := birth_object_id; oi_domain_id := domain_id |})
  end.

(** [ObjectId::format_guid] is the same formatting as the partition
    manager's. *)
Definition ObjectId_format_guid (guid : list Z) : rstring := format_guid guid.

Record SecurityDescriptor := {
  sd_raw : list Z;
  sd_revision : Z;
  sd_control : Z;
  sd_owner_offset : option Z;
  sd_group_offset : option Z;
  sd_dacl_offset : option Z;
  sd_sacl_offset : option Z;
}.

Definition nonzero (z : Z) : option Z := if z =? 0 then None else Some z.

Definition SecurityDescriptor_parse {E} (attr_data : list Z) (is_resident : bool)
  : outcome E (option SecurityDescriptor) :=
  if negb is_resident then mret None else
  match get_range attr_data 20 22 with
  | None => mret None
  | Some vo =>
  match get_from attr_data (from_le vo) with
  | None => mret None
  | Some data =>
      if len data <? 20 then mret None else
      revision ← idx data 0;
      control ← u16_at data 2;
      owner_offset ← u32_at data 4;
      group_offset ← u32_at data 8;
      sacl_offset ← u32_at data 12;
      dacl_offset ← u32_at data 16;
      mret (Some {| sd_raw := data; sd_revision := revision;
        sd_control := SecurityDescriptorControl_truncate control;
        sd_owner_offset := nonzero owner_offset; sd_group_offset := nonzero group_offset;
        sd_dacl_offset := nonzero dacl_offset; sd_sacl_offset := nonzero sacl_offset |})
  end end.

Inductive ReparseTag := SymbolicLink | MountPointTag | OtherTag (tag : Z).

#[global] Instance ReparseTag_eq_dec : EqDecision ReparseTag.
Proof. solve_decision. Defined.

Record ReparsePoint := {
  rp_reparse_tag : ReparseTag;
  rp_reparse_data : list Z;
  rp_substitute_name : option rstring;
  rp_print_name : option rstring;
}.

Definition TAG_SYMLINK : Z := 0xA000000C.
Definition TAG_MOUNT_POINT : Z := 0xA0000003.

(** A UTF-16 unit as a character: ['?'] outside ASCII. *)
Definition unit_char (u : Z) : Z := if u <? 128 then u else 63.

(** [decode_utf16] and the same loop of [parse_attr_name]. *)
Definition decode_utf16 (raw : list Z) : rstring :=
  unit_char <$> (from_le <$> chunks_exact 2 raw).

Definition parse_name_buffer {E} (data : list Z) (tag : ReparseTag)
  : outcome E (option (option rstring * option rstring)) :=
  if len data <? 8 then mret None else
  sub_off ← u16_at data 0;
  sub_len ← u16_at data 2;
  prt_off ← u16_at data 4;
  prt_len ← u16_at data 6;
  let buf_start := match tag with SymbolicLink => 12 | _ => 8 end in
  match get_range data (buf_start + sub_off) (buf_start + sub_off + sub_len) with
  | None => mret None
  | Some s =>
      match get_range data (buf_start + prt_off) (buf_start + prt_off + prt_len) with
      | None => mret None
      | Some p => mret (Some (Some (decode_utf16 s), Some (decode_utf16 p)))
      end
  end.

Definition ReparsePoint_parse {E} (attr_data : list Z) : outcome E (option ReparsePoint) :=
  match get_from attr_data 24 with
  | None => mret None
  | Some data =>
      if len data <? 8 then mret None else
      tag ← u32_at data 0;
      data_length ← u16_at data 4;
      match get_range data 8 (sat_add64 8 data_length) with
      | None => mret None
      | Some reparse_data =>
          let reparse_tag :=
            if tag =? TAG_SYMLINK then SymbolicLink
            else if tag =? TAG_MOUNT_POINT then MountPointTag else OtherTag tag in
          names ← match reparse_tag with
            | SymbolicLink | MountPointTag =>
                o ← parse_name_buffer reparse_data reparse_tag;
                mret (default (None, None) o)
            | OtherTag _ => mret (None, None)
            end;
          mret (Some {| rp_reparse_tag := reparse_tag; rp_reparse_data := reparse_data;
                        rp_substitute_name := names.1; rp_print_name := names.2 |})
      end
  end.

Record AlternateDataStream := { ads_name : rstring; ads_size : Z; ads_data : DataRun }.

Record VolumeInfo := {
  vi_sector_size : Z;
  vi_cluster_size : Z;
  vi_file_record_size : Z;
  vi_mft_position : Z;
  vi_serial_number : Z;
}.

Record CreateOptions := { co_is_directory : bool; co_data : list Z }.

Record NtfsStat := {
  st_is_directory : bool;
  st_size : Z;
  st_name : option rstring;
  st_data_runs : list DataRun;
  st_index_root : option (list Z);
  st_standard_info : option StandardInformation;
  st_security_descriptor : option SecurityDescriptor;
  st_object_id : option ObjectId;
  st_reparse_point : option ReparsePoint;
  st_alternate_data_streams : list AlternateDataStream;
}.

(** [NtfsStat::default()] *)
Definition NtfsStat_default : NtfsStat := {|
  st_is_directory := false; st_size := 0; st_name := None; st_data_runs := [];
  st_index_root := None; st_standard_info := None; st_security_descriptor := None;
  st_object_id := None; st_reparse_point := None; st_alternate_data_streams := [] |}.

Inductive AttributeType :=
| AT_StandardInformation | AT_AttributeList | AT_FileName | AT_ObjectId
| AT_SecurityDescriptor | AT_VolumeName | AT_VolumeInformation | AT_Data
| AT_IndexRoot | AT_IndexAllocation | AT_Bitmap | AT_ReparsePoint
| AT_EaInformation | AT_Ea | AT_LoggedUtilityStream | AT_End.

#[global] Instance AttributeType_eq_dec : EqDecision AttributeType.
Proof. solve_decision. Defined.

(** ** The value parsers never panic *)

Lemma get_from_len {A} (l : list A) a s : get_from l a = Some s → len s = len l - a ∧ 0 ≤ a.
Proof.
  intros (?&?&->)%get_range_Some_inv. rewrite len_sub by lia. lia.
Qed.

Ltac safe_steps :=
  repeat first
  [ progress cbn [mret outcome_ret]
  | bstep
  | match goal with |- safe (Ok _) => exact I | |- safe (Err _) => exact I end ].

Lemma StandardInformation_parse_safe {E} a : safe (StandardInformation_parse (E:=E) a).
Proof.
  unfold StandardInformation_parse. destruct (get_from a 24) as [d|] eqn:Hd; [|done].
  apply get_from_len in Hd as [Hd _].
  destruct (Z.ltb_spec (len d) 48); [done|]. safe_steps.
  destruct (Z.leb_spec 72 (len d)); by safe_steps.
Qed.

Lemma ObjectId_parse_safe {E} a : safe (ObjectId_parse (E:=E) a).
Proof.
  unfold ObjectId_parse. destruct (get_from a 24) as [d|] eqn:Hd; [|done].
  destruct (Z.ltb_spec (len d) 16); [done|]. safe_steps.
  destruct (Z.leb_spec 32 (len d)), (Z.leb_spec 48 (len d)), (Z.leb_spec 64 (len d));
    try lia; by safe_steps.
Qed.

Lemma SecurityDescriptor_parse_safe {E} a r : safe (SecurityDescriptor_parse (E:=E) a r).
Proof.
  unfold SecurityDescriptor_parse. destruct r; [|done]. cbn [negb].
  destruct (get_range a 20 22) as [v|]; [|done].
  destruct (get_from a (from_le v)) as [d|]; [|done].
  destruct (Z.ltb_spec (len d) 20); [done|].
  destruct (idx_in (E:=E) d 0) as (x&->&_); [lia|]. by safe_steps.
Qed.

Lemma parse_name_buffer_safe {E} d t : safe (parse_name_buffer (E:=E) d t).
Proof.
  unfold parse_name_buffer. destruct (Z.ltb_spec (len d) 8); [done|]. safe_steps.
  by repeat case_match.
Qed.

Lemma ReparsePoint_parse_safe {E} a : safe (ReparsePoint_parse (E:=E) a).
Proof.
  unfold ReparsePoint_parse. destruct (get_from a 24) as [d|]; [|done].
  destruct (Z.ltb_spec (len d) 8); [done|]. safe_steps.
  case_match; [|done]. apply safe_bind; [|done].
  repeat case_match; try done; (apply safe_bind; [apply parse_name_buffer_safe|done]).
Qed.
#[export] Hint Resolve StandardInformation_parse_safe ObjectId_parse_safe
  SecurityDescriptor_parse_safe ReparsePoint_parse_safe : bytes.
