(* ===== verification/NtfsBoot.v ===== *)
(** * The NTFS boot sector

    [fs/ntfs/boot.rs]: parsing the BPB and the geometry derived from it. *)

From S2P Require Import Prelude Bytes Text BlockDev Gpt GptManager NtfsTypes.

(** The two [i8] fields are kept as signed values. *)
Record BootSector := {
  bytes_per_sector : Z;
  sectors_per_cluster : Z;
  media_type : Z;
  total_sectors : Z;
  mft_start_cluster : Z;
  mft_mirror_start_cluster : Z;
  clusters_per_mft_record : Z;
  clusters_per_index_buffer : Z;
  serial_number : Z;
  partition_byte_offset : Z;
}.

Definition from_bytes (buf : list Z) (partition_byte_offset : Z) : outcome NtfsError BootSector :=
  oem ← slice buf 0x03 0x0B;
  if bool_decide (oem ≠ lit "NTFS    ") then Err Ntfs_InvalidBootSector else
  s1 ← idx buf 0x1FE;
  s2 ← idx buf 0x1FF;
  if negb (s1 =? 0x55) || negb (s2 =? 0xAA) then Err Ntfs_InvalidBootSector else
  bps ← u16_at buf 0x0B;
  spc ← idx buf 0x0D;
  media ← idx buf 0x15;
  total ← u64_at buf 0x28;
  mft ← u64_at buf 0x30;
  mirror ← u64_at buf 0x38;
  cpm ← idx buf 0x40;
  cpi ← idx buf 0x44;
  serial ← u64_at buf 0x48;
  mret {| bytes_per_sector := bps; sectors_per_cluster := spc; media_type := media;
          total_sectors := total; mft_start_cluster := mft; mft_mirror_start_cluster := mirror;
          clusters_per_mft_record := signed 8 cpm; clusters_per_index_buffer := signed 8 cpi;
          serial_number := serial; partition_byte_offset := partition_byte_offset |}.

Section boot.
Implicit Types b : BootSector.

Definition bytes_per_cluster b : Z := bytes_per_sector b *w sectors_per_cluster b.

(** The [assert!] of the second branch panics. *)
Definition mft_record_size_of b : outcome NtfsError Z :=
  if 0 <? clusters_per_mft_record b
  then mret (clusters_per_mft_record b *w bytes_per_cluster b)
  else
    let exp := - clusters_per_mft_record b in
    assert_ (exp <? 64);;
    mret (Z.shiftl 1 exp).

Definition mft_byte_offset b : Z :=
  partition_byte_offset b +w mft_start_cluster b *w bytes_per_cluster b.
Definition mft_mirror_byte_offset b : Z :=
  partition_byte_offset b +w mft_mirror_start_cluster b *w bytes_per_cluster b.
Definition cluster_to_disk_offset b (lcn : Z) : Z :=
  partition_byte_offset b +w lcn *w bytes_per_cluster b.

(** Field widths. *)
Definition boot_wf b : Prop :=
  is_u16 (bytes_per_sector b) ∧ is_u8 (sectors_per_cluster b) ∧ is_u8 (media_type b) ∧
  is_u64 (total_sectors b) ∧ is_u64 (mft_start_cluster b) ∧ is_u64 (mft_mirror_start_cluster b) ∧
  -128 ≤ clusters_per_mft_record b < 128 ∧ -128 ≤ clusters_per_index_buffer b < 128 ∧
  is_u64 (serial_number b) ∧ is_u64 (partition_byte_offset b).
End boot.

(** ** Facts *)

Lemma signed8_range z : -128 ≤ signed 8 z < 128.
Proof.
  unfold signed. pose proof (Z.mod_pos_bound z (2 ^ 8)). change (2 ^ (8 - 1)) with 128.
  change (2 ^ 8) with 256 in *. cbv zeta. case_match; lia.
Qed.

(** A buffer of one sector is parsed or rejected, never a panic. *)
Lemma from_bytes_total buf off :
  len buf = 512 → bytes_ok buf → is_u64 off →
  (∃ b, from_bytes buf off = Ok b ∧ boot_wf b ∧ partition_byte_offset b = off) ∨
  from_bytes buf off = Err Ntfs_InvalidBootSector.
Proof.
  intros Hl Hb Hoff. unfold from_bytes. repeat bstep. case_bool_decide; [by right|].
  destruct (idx_in (E:=NtfsError) buf 0x1FE) as (s1&->&_); [lia|]. repeat bstep.
  destruct (idx_in (E:=NtfsError) buf 0x1FF) as (s2&->&_); [lia|]. repeat bstep.
  case_match; [by right|]. left. repeat bstep.
  destruct (idx_in (E:=NtfsError) buf 0x0D) as (spc&->&H1); [lia|]. repeat bstep.
  destruct (idx_in (E:=NtfsError) buf 0x15) as (m&->&H2); [lia|]. repeat bstep.
  destruct (idx_in (E:=NtfsError) buf 0x40) as (c1&->&H3); [lia|]. repeat bstep.
  destruct (idx_in (E:=NtfsError) buf 0x44) as (c2&->&H4); [lia|]. repeat bstep.
  eexists. split; [reflexivity|]. split; [|done].
  pose proof (λ n a, from_le_sub_range n a buf Hb) as Hr.
  unfold boot_wf; cbn. split_and!;
    first [ done | by apply (bytes_ok_byte buf _ _ Hb H1) | by apply (bytes_ok_byte buf _ _ Hb H2)
          | apply signed8_range | apply Hr; lia ].
Qed.

Lemma mft_record_size_cases b :
  boot_wf b →
  (0 < clusters_per_mft_record b ∧
   mft_record_size_of b =
     Ok (clusters_per_mft_record b * (bytes_per_sector b * sectors_per_cluster b))) ∨
  (-64 < clusters_per_mft_record b ≤ 0 ∧
   mft_record_size_of b = Ok (2 ^ (- clusters_per_mft_record b))) ∨
  (clusters_per_mft_record b ≤ -64 ∧ mft_record_size_of b = Panic).
Proof.
  intros (H1&H2&_&_&_&_&H3&_). unfold mft_record_size_of, bytes_per_cluster, is_u in *.
  destruct (Z.ltb_spec 0 (clusters_per_mft_record b)).
  - left. split; [done|]. assert (0 ≤ bytes_per_sector b * sectors_per_cluster b < 2 ^ 24) by nia.
    rewrite (wrap_small 64 (bytes_per_sector b * _)) by lia. by rewrite wrap_small by nia.
  - right. unfold assert_. destruct (Z.ltb_spec (- clusters_per_mft_record b) 64).
    + left. split; [lia|]. cbn. by rewrite Z.shiftl_1_l.
    + right. split; [lia|done].
Qed.

(** The boot sector [create_ntfs_boot_sector] builds, byte for byte. *)
Definition boot_image (total sector_size : Z) : list Z :=
  [0xEB; 0x52; 0x90] ++ lit "NTFS    " ++ u16_le sector_size ++ [8] ++ zeros 26 ++
  u64_le total ++ u64_le 2 ++ zeros 16 ++ u64_le 0x123456789ABCDEF0 ++ zeros 430 ++ [0x55; 0xAA].

Lemma create_ntfs_boot_sector_ok total sector_size :
  512 ≤ sector_size < 2 ^ 63 →
  create_ntfs_boot_sector total sector_size =
    Ok (boot_image total sector_size ++ zeros (sector_size - 512)).
Proof.
  intros Hs. unfold create_ntfs_boot_sector. rewrite (proj2 (Z.ltb_ge _ _)) by lia. cbv zeta.
  rewrite vec_zeroed_ok, bind_Ok by lia.
  assert (zeros sector_size = zeros 512 ++ zeros (sector_size - 512)) as ->.
  { rewrite <- zeros_app by lia. f_equal. lia. }
  assert (Hset : ∀ (l1 l2 : list Z) i v, len l1 = 512 → 0 ≤ i < 512 →
    set_idx (E:=GptError) (l1 ++ l2) i v = copy_to (l1 ++ l2) i (i + 1) [v]).
  { intros l1 l2 i v Hl Hi. rewrite set_idx_ok, copy_to_ok by (rewrite ?length_app; cbn; lia). done. }
  assert (Hz : len (zeros 512) = 512) by done.
  change (lit "NTFS    ") with [78; 84; 70; 83; 32; 32; 32; 32].
  do 3 bcopy. rewrite Hset by lia. bcopy. do 3 bcopy. rewrite Hset by lia. bcopy.
  rewrite Hset by lia.
  match goal with H : len ?l = 512 |- copy_to (?l ++ _) _ _ _ = _ =>
    destruct (copy_to_step (E:=GptError) l (zeros (sector_size - 512)) [0xAA] 511 (511 + 1) 512 H)
      as [-> _]; [lia|lia|done|] end.
  subst. reflexivity.
Qed.

Lemma length_boot_image total sector_size : len (boot_image total sector_size) = 512.
Proof. reflexivity. Qed.

Lemma from_bytes_boot_image total sector_size off :
  is_u16 sector_size → is_u64 total →
  from_bytes (boot_image total sector_size) off = Ok {|
    bytes_per_sector := sector_size; sectors_per_cluster := 8; media_type := 0;
    total_sectors := total; mft_start_cluster := 2; mft_mirror_start_cluster := 0;
    clusters_per_mft_record := 0; clusters_per_index_buffer := 0;
    serial_number := 0x123456789ABCDEF0; partition_byte_offset := off |}.
Proof.
  intros Hs Ht.
  assert (E1 : from_le (u16_le sector_size) = sector_size) by by apply from_to_le_small.
  assert (E2 : from_le (u64_le total) = total) by by apply from_to_le_small.
  transitivity (Ok (E:=NtfsError) {|
    bytes_per_sector := from_le (u16_le sector_size); sectors_per_cluster := 8; media_type := 0;
    total_sectors := from_le (u64_le total); mft_start_cluster := 2; mft_mirror_start_cluster := 0;
    clusters_per_mft_record := 0; clusters_per_index_buffer := 0;
    serial_number := 0x123456789ABCDEF0; partition_byte_offset := off |}); [reflexivity|].
  by rewrite E1, E2.
Qed.
