(* ===== verification/NtfsRuns.v ===== *)
(** * Data runs

    [fs/ntfs/runs.rs]: decoding the mapping pairs of a non-resident attribute
    and reading the clusters they name. *)

From S2P Require Import Prelude Bytes Text BlockDev NtfsTypes NtfsBoot.

(** ** Decoding *)

(** [x << s] on a 64-bit value: the shift amount is masked. *)
Definition shl64 (x s : Z) : Z := wrap 64 (Z.shiftl x (s mod 64)).

(** [for i in 0..n { acc |= (attr_data[pos + i] as u64) << (i * 8) }] *)
Fixpoint or_bytes (attr_data : list Z) (pos : Z) (i n : nat) (acc : Z) : outcome NtfsError Z :=
  match n with
  | O => mret acc
  | S n =>
      b ← idx attr_data (pos + Z.of_nat i);
      or_bytes attr_data pos (S i) n (Z.lor acc (shl64 b (Z.of_nat i * 8)))
  end.

Definition checked_add_i64 (a b : Z) : option Z :=
  if (- 2 ^ 63 <=? a + b) && (a + b <? 2 ^ 63) then Some (a + b) else None.

(** The [while] loop. [i64] values are kept as their 64-bit patterns until the
    sum. *)
Fixpoint runs_loop (fuel : nat) (attr_data : list Z) (current_offset prev_cluster : Z)
    (runs : list (Z * Z)) : outcome NtfsError (list (Z * Z)) :=
  match fuel with
  | O => Diverge
  | S fuel =>
      if negb (current_offset <? len attr_data) then mret runs else
      header ← idx attr_data current_offset;
      if header =? 0 then mret runs else
      let len_size := Z.land header 0x0F in
      let offset_size := Z.land (Z.shiftr header 4) 0x0F in
      if (len_size =? 0) || (8 <? len_size) || (8 <? offset_size) then mret runs else
      if len attr_data <? current_offset + 1 + len_size + offset_size then mret runs else
      length ← or_bytes attr_data (current_offset + 1) 0 (Z.to_nat len_size) 0;
      off ← or_bytes attr_data (current_offset + 1 + len_size) 0 (Z.to_nat offset_size) 0;
      off ← (if 0 <? offset_size then
               last ← idx attr_data (current_offset + 1 + len_size + offset_size - 1);
               mret (if Z.land last 0x80 =? 0 then off
                     else Z.lor off (wrap 64 (Z.lnot (shl64 1 (offset_size * 8) - 1))))
             else mret off);
      absolute_cluster ← ok_or (checked_add_i64 prev_cluster (signed 64 off))
                           Ntfs_CorruptedFilesystem;
      if absolute_cluster <? 0 then Err Ntfs_CorruptedFilesystem else
      runs_loop fuel attr_data (current_offset + (1 + len_size + offset_size)) absolute_cluster
        (runs ++ [(absolute_cluster, length)])
  end.

(** Each iteration advances by at least two bytes. *)
Definition parse_data_runs (attr_data : list Z) : outcome NtfsError (list (Z * Z)) :=
  if len attr_data <? 64 then Err Ntfs_InvalidAttribute else
  nr ← idx attr_data 8;
  if negb (nr =? 1) then Err Ntfs_InvalidAttribute else
  run_offset ← u16_at attr_data 32;
  if run_offset =? 0 then mret [] else
  if (run_offset <? 64) || (len attr_data <=? run_offset) then Err Ntfs_InvalidAttribute else
  allocated_size ← u64_at attr_data 40;
  if allocated_size =? 0 then mret [] else
  runs_loop (S (length attr_data)) attr_data run_offset 0 [].

(** ** Reading *)

Section read.
Context {D : Type} `{!BlockDevice D}.

(** The position handed to the device is [offset / 512]. *)
Fixpoint read_runs (bpc : Z) (runs : list (Z * Z)) (result : list Z) : st D NtfsError (list Z) :=
  match runs with
  | [] => mret result
  | (cluster, length) :: runs =>
      let offset := cluster *w bpc in
      let size := length *w bpc in
      buffer ← lift (vec_zeroed size);
      buffer ← st_map_err (λ _, Ntfs_IoError) (read_blocks (offset / 512) buffer);
      read_runs bpc runs (result ++ buffer)
  end.

Fixpoint read_data_runs_from (b : BootSector) (data_runs : list DataRun) (result : list Z)
  : st D NtfsError (list Z) :=
  match data_runs with
  | [] => mret result
  | Resident data :: data_runs => read_data_runs_from b data_runs (result ++ data)
  | NonResident runs :: data_runs =>
      result ← read_runs (bytes_per_cluster b) runs result;
      read_data_runs_from b data_runs result
  end.
Definition read_data_runs (data_runs : list DataRun) (b : BootSector) : st D NtfsError (list Z) :=
  read_data_runs_from b data_runs [].
End read.

(** ** Facts about decoding *)

Lemma land_15 z : Z.land z 0x0F = z mod 16.
Proof. change 0x0F with (Z.ones 4). by rewrite Z.land_ones by lia. Qed.

Lemma shiftr_4 z : Z.shiftr z 4 = z / 16.
Proof. by rewrite Z.shiftr_div_pow2 by lia. Qed.

Lemma shl64_byte b i : is_u8 b → 0 ≤ i < 8 → shl64 b (i * 8) = b * 2 ^ (8 * i).
Proof.
  intros [Hb Hb'] Hi. unfold shl64. rewrite (Z.mod_small (i * 8)) by lia.
  rewrite Z.shiftl_mul_pow2, (Z.mul_comm i 8) by lia. apply wrap_small.
  assert (2 ^ 8 * 2 ^ (8 * i) ≤ 2 ^ 64).
  { rewrite <- Z.pow_add_r by lia. apply Z.pow_le_mono_r; lia. }
  pose proof (Z.pow_pos_nonneg 2 (8 * i)). nia.
Qed.

(** Or-ing in [n] bytes from position [pos + i] adds them as a little-endian
    number. *)
Lemma or_bytes_spec attr pos n i acc :
  bytes_ok attr → 0 ≤ pos → pos + Z.of_nat i + Z.of_nat n ≤ len attr → (i + n ≤ 8)%nat →
  0 ≤ acc < 2 ^ (8 * Z.of_nat i) →
  or_bytes attr pos i n acc =
    Ok (acc + from_le (sub (pos + Z.of_nat i) (Z.of_nat n) attr) * 2 ^ (8 * Z.of_nat i)).
Proof.
  intros Hb Hpos. revert i acc. induction n as [|n IH]; intros i acc Hl Hin Hacc; cbn [or_bytes].
  - rewrite sub_0. cbn. f_equal. lia.
  - destruct (idx_in (E:=NtfsError) attr (pos + Z.of_nat i)) as (b&->&Hx); [lia|]. rewrite bind_Ok.
    pose proof (bytes_ok_byte _ _ _ Hb Hx) as Hb8.
    rewrite shl64_byte by (unfold is_u; lia). rewrite lor_shift_add by lia.
    assert (Hp : 2 ^ (8 * Z.of_nat (S i)) = 256 * 2 ^ (8 * Z.of_nat i)).
    { replace (8 * Z.of_nat (S i)) with (8 + 8 * Z.of_nat i) by lia. by rewrite Z.pow_add_r by lia. }
    rewrite IH; [|lia|lia|nia].
    rewrite (sub_split attr (pos + Z.of_nat i) 1 (Z.of_nat (S n))) by lia.
    assert (sub (pos + Z.of_nat i) 1 attr = [b]) as ->.
    { unfold sub. change (Z.to_nat 1) with 1%nat. by rewrite (drop_S _ b) by done. }
    cbn [app from_le]. f_equal. rewrite Hp.
    replace (pos + Z.of_nat (S i)) with (pos + Z.of_nat i + 1) by lia.
    replace (Z.of_nat (S n) - 1) with (Z.of_nat n) by lia. lia.
Qed.

Lemma or_bytes_zero attr pos n :
  bytes_ok attr → 0 ≤ pos → pos + Z.of_nat n ≤ len attr → (n ≤ 8)%nat →
  or_bytes attr pos 0 n 0 = Ok (from_le (sub pos (Z.of_nat n) attr)).
Proof.
  intros. rewrite or_bytes_spec by (done || lia). cbn [Z.of_nat].
  rewrite Z.add_0_r, Z.mul_0_r, Z.add_0_l. change (2 ^ 0) with 1. by rewrite Z.mul_1_r.
Qed.

(** A property of bytes, checked on all 256. *)
Lemma byte_cases (P : Z → bool) b : forallb P (seqZ 0 256) = true → is_u8 b → P b = true.
Proof.
  intros HP [H1 H2]. rewrite forallb_forall in HP. apply HP.
  apply list_elem_of_In, elem_of_seqZ. change (2 ^ 8) with 256 in H2. lia.
Qed.

Lemma land_0x80 b : is_u8 b → (Z.land b 0x80 =? 0) = (b <? 128).
Proof.
  intros Hb. pose proof (byte_cases (λ b, Bool.eqb (Z.land b 0x80 =? 0) (b <? 128)) b) as H.
  apply eqb_prop. apply H; [vm_compute; reflexivity|done].
Qed.

(** The sign extension of a run offset of [k] bytes. With eight bytes the
    shift [1i64 << 64] is masked to no shift at all, so that every negative
    offset becomes -1. *)
Definition run_offset_value (bytes : list Z) : Z :=
  let k := len bytes in
  let u := from_le bytes in
  if k =? 0 then 0
  else if u <? 2 ^ (8 * k - 1) then u
  else if k =? 8 then -1 else u - 2 ^ (8 * k).

Lemma from_le_snoc l b : from_le (l ++ [b]) = from_le l + b * 2 ^ (8 * len l).
Proof.
  induction l as [|a l IH]; cbn [app from_le length].
  - rewrite Z.mul_0_r. change (2 ^ 0) with 1. cbn. lia.
  - rewrite IH. replace (8 * Z.of_nat (S (length l))) with (8 + 8 * len l) by lia.
    rewrite Z.pow_add_r by lia. change (2 ^ 8) with 256. lia.
Qed.

Lemma signed_64_small z : 0 ≤ z < 2 ^ 63 → signed 64 z = z.
Proof.
  intros. unfold signed. rewrite Z.mod_small by lia. change (64 - 1) with 63. cbv zeta.
  by rewrite (proj2 (Z.ltb_lt _ _)) by lia.
Qed.
Lemma signed_64_neg z : 2 ^ 63 ≤ z < 2 ^ 64 → signed 64 z = z - 2 ^ 64.
Proof.
  intros. unfold signed. rewrite Z.mod_small by lia. change (64 - 1) with 63. cbv zeta.
  by rewrite (proj2 (Z.ltb_ge _ _)) by lia.
Qed.

Lemma sign_extension l last :
  bytes_ok (l ++ [last]) → (length l < 8)%nat →
  let bytes := l ++ [last] in
  signed 64 (if Z.land last 0x80 =? 0 then from_le bytes
             else Z.lor (from_le bytes) (wrap 64 (Z.lnot (shl64 1 (len bytes * 8) - 1)))) =
  run_offset_value bytes.
Proof.
  intros Hb Hl bytes. pose proof (from_le_range _ Hb) as Hr. fold bytes in Hr.
  assert (Hk : len bytes = len l + 1) by (unfold bytes; rewrite length_app; cbn; lia).
  apply Forall_app in Hb as [Hbl Hlast]. apply Forall_inv in Hlast.
  rewrite land_0x80 by done.
  pose proof (from_le_range _ Hbl) as Hrl. pose proof (from_le_snoc l last) as Hs. fold bytes in Hs.
  set (m := len l) in *. assert (Hm : 0 ≤ m ≤ 7) by lia.
  set (P := 2 ^ (8 * m)) in *.
  assert (HP : 1 ≤ P) by (pose proof (Z.pow_pos_nonneg 2 (8 * m)); unfold P; lia).
  assert (H1 : 2 ^ (8 * len bytes) = 256 * P).
  { rewrite Hk. replace (8 * (m + 1)) with (8 + 8 * m) by lia. by rewrite Z.pow_add_r by lia. }
  assert (H2 : 2 ^ (8 * len bytes - 1) = 128 * P).
  { rewrite Hk. replace (8 * (m + 1) - 1) with (7 + 8 * m) by lia. by rewrite Z.pow_add_r by lia. }
  assert (HP7 : P ≤ 2 ^ 56) by (apply Z.pow_le_mono_r; lia).
  unfold run_offset_value. rewrite (proj2 (Z.eqb_neq (len bytes) 0)), H2 by lia.
  change (2 ^ 8) with 256 in Hlast. unfold is_u in Hlast.
  destruct (Z.ltb_spec last 128).
  - rewrite (proj2 (Z.ltb_lt _ _)) by nia. apply signed_64_small. nia.
  - rewrite (proj2 (Z.ltb_ge _ _)) by nia.
    destruct (Z.eqb_spec (len bytes) 8) as [H8|H8].
    + rewrite H8. change (shl64 1 (8 * 8)) with (2 ^ 0). rewrite lnot_mask by lia.
      change ((2 ^ (64 - 0) - 1) * 2 ^ 0) with (Z.ones 64).
      rewrite Z.lor_ones_low; [reflexivity|lia|].
      apply is_u_log2; [lia|lia|]. rewrite H8 in Hr. lia.
    + assert (Hm6 : m ≤ 6) by lia.
      assert (shl64 1 (len bytes * 8) = 2 ^ (8 * len bytes)) as ->.
      { unfold shl64. rewrite Z.mod_small, Z.shiftl_1_l, Z.mul_comm by lia.
        apply wrap_small. split; [lia|]. apply Z.pow_lt_mono_r; lia. }
      rewrite lnot_mask by lia. rewrite lor_shift_add by lia.
      assert (2 ^ (64 - 8 * len bytes) * 2 ^ (8 * len bytes) = 2 ^ 64)
        by (rewrite <- Z.pow_add_r by lia; f_equal; lia).
      assert (2 ^ (8 * len bytes) * 256 ≤ 2 ^ 64).
      { change 256 with (2 ^ 8). rewrite <- Z.pow_add_r by lia. apply Z.pow_le_mono_r; lia. }
      rewrite signed_64_neg by nia. lia.
Qed.

(** ** The encoding the decoder inverts

    [encodes prev runs bytes]: [bytes] are mapping pairs for [runs] when the
    previous cluster is [prev], each run with a length field of [ls] bytes and
    a signed offset field of [os] bytes, of any sufficient sizes. *)
Inductive encodes : Z → list (Z * Z) → list Z → Prop :=
| encodes_nil prev : encodes prev [] []
| encodes_cons prev lcn n (ls os : nat) runs bs :
    (1 ≤ ls ≤ 8)%nat → (os ≤ 7)%nat → 0 ≤ n < 2 ^ (8 * Z.of_nat ls) → 0 ≤ lcn < 2 ^ 63 →
    (os = 0%nat ∧ lcn = prev) ∨
      ((1 ≤ os)%nat ∧ - 2 ^ (8 * Z.of_nat os - 1) ≤ lcn - prev < 2 ^ (8 * Z.of_nat os - 1)) →
    encodes lcn runs bs →
    encodes prev ((lcn, n) :: runs)
      (Z.of_nat os * 16 + Z.of_nat ls :: to_le ls n ++ to_le os (lcn - prev) ++ bs).

Lemma encodes_length prev runs bs : encodes prev runs bs → (2 * length runs ≤ length bs)%nat.
Proof.
  induction 1; cbn [length]; [lia|]. rewrite !length_app, !length_to_le. lia.
Qed.

Lemma encodes_bytes prev runs bs : encodes prev runs bs → bytes_ok bs.
Proof.
  induction 1; [constructor|]. constructor; [unfold is_u; lia|].
  rewrite !Forall_app. eauto using to_le_bytes.
Qed.

Lemma run_offset_value_to_le os v :
  (1 ≤ os ≤ 7)%nat → - 2 ^ (8 * Z.of_nat os - 1) ≤ v < 2 ^ (8 * Z.of_nat os - 1) →
  run_offset_value (to_le os v) = v.
Proof.
  intros Hos Hv. unfold run_offset_value. rewrite length_to_le, from_to_le.
  rewrite (proj2 (Z.eqb_neq _ 0)), (proj2 (Z.eqb_neq _ 8)) by lia.
  assert (Hp : 2 ^ (8 * Z.of_nat os) = 2 * 2 ^ (8 * Z.of_nat os - 1)).
  { rewrite <- Z.pow_succ_r by lia. f_equal. lia. }
  rewrite Hp in *. set (P := 2 ^ (8 * Z.of_nat os - 1)) in *.
  destruct (decide (0 ≤ v)).
  - rewrite Z.mod_small by lia. by rewrite (proj2 (Z.ltb_lt _ _)) by lia.
  - assert (v mod (2 * P) = v + 2 * P) as ->.
    { symmetry. apply Z.mod_unique with (q := -1); lia. }
    rewrite (proj2 (Z.ltb_ge _ _)) by lia. lia.
Qed.

(** The value of the offset field, from the bytes as the loop reads them. *)
Lemma offset_field attr pos (os : nat) :
  bytes_ok attr → 0 ≤ pos → pos + Z.of_nat os ≤ len attr → (1 ≤ os ≤ 8)%nat →
  ∃ last, idx (E:=NtfsError) attr (pos + Z.of_nat os - 1) = Ok last ∧
    signed 64 (if Z.land last 0x80 =? 0 then from_le (sub pos (Z.of_nat os) attr)
               else Z.lor (from_le (sub pos (Z.of_nat os) attr))
                      (wrap 64 (Z.lnot (shl64 1 (Z.of_nat os * 8) - 1)))) =
    run_offset_value (sub pos (Z.of_nat os) attr).
Proof.
  intros Hb Hp Hl Hos.
  destruct (idx_in (E:=NtfsError) attr (pos + Z.of_nat os - 1)) as (last&Hi&Hx); [lia|].
  exists last. split; [done|].
  assert (Hsp : sub pos (Z.of_nat os) attr = sub pos (Z.of_nat os - 1) attr ++ [last]).
  { rewrite (sub_split attr pos (Z.of_nat os - 1) (Z.of_nat os)) by lia. f_equal.
    replace (Z.of_nat os - (Z.of_nat os - 1)) with 1 by lia. unfold sub.
    change (Z.to_nat 1) with 1%nat.
    replace (pos + (Z.of_nat os - 1)) with (pos + Z.of_nat os - 1) by lia.
    by rewrite (drop_S _ last) by done. }
  rewrite Hsp.
  assert (Hlen : len (sub pos (Z.of_nat os - 1) attr ++ [last]) = Z.of_nat os)
    by (rewrite <- Hsp, len_sub; lia).
  pose proof (sign_extension (sub pos (Z.of_nat os - 1) attr) last) as Hse.
  cbv zeta in Hse. rewrite Hlen in Hse.
  apply Hse; [rewrite <- Hsp; auto with bytes|rewrite len_sub; lia].
Qed.

(** One iteration on a well-formed header byte. *)
Lemma runs_loop_step fuel attr cur prev acc (ls os : nat) :
  bytes_ok attr → 0 ≤ cur → (1 ≤ ls ≤ 8)%nat → (os ≤ 8)%nat →
  attr !! Z.to_nat cur = Some (Z.of_nat os * 16 + Z.of_nat ls) →
  cur + 1 + Z.of_nat ls + Z.of_nat os ≤ len attr →
  let n := from_le (sub (cur + 1) (Z.of_nat ls) attr) in
  let delta := run_offset_value (sub (cur + 1 + Z.of_nat ls) (Z.of_nat os) attr) in
  runs_loop (S fuel) attr cur prev acc =
    match checked_add_i64 prev delta with
    | None => Err Ntfs_CorruptedFilesystem
    | Some lcn =>
        if lcn <? 0 then Err Ntfs_CorruptedFilesystem
        else runs_loop fuel attr (cur + (1 + Z.of_nat ls + Z.of_nat os)) lcn (acc ++ [(lcn, n)])
    end.
Proof.
  intros Hb Hcur Hls Hos Hhd Hlen n delta. cbn [runs_loop].
  rewrite (proj2 (Z.ltb_lt _ _)) by lia. cbn [negb]. rewrite (idx_ok _ _ _ Hcur Hhd), bind_Ok.
  rewrite (proj2 (Z.eqb_neq _ 0)) by lia.
  assert (Hl15 : Z.land (Z.of_nat os * 16 + Z.of_nat ls) 0x0F = Z.of_nat ls).
  { rewrite land_15. rewrite Z.add_comm, Z.mod_add, Z.mod_small by lia. done. }
  assert (Ho15 : Z.land (Z.shiftr (Z.of_nat os * 16 + Z.of_nat ls) 4) 0x0F = Z.of_nat os).
  { rewrite land_15, shiftr_4. rewrite Z.add_comm, Z.div_add, Z.div_small by lia.
    apply Z.mod_small. lia. }
  rewrite Hl15, Ho15.
  rewrite (proj2 (Z.eqb_neq (Z.of_nat ls) 0)), (proj2 (Z.ltb_ge 8 (Z.of_nat ls))),
    (proj2 (Z.ltb_ge 8 (Z.of_nat os))), (proj2 (Z.ltb_ge (len attr) _)) by lia. cbn [orb].
  rewrite !Nat2Z.id, !or_bytes_zero, !bind_Ok by (done || lia).
  destruct (decide (os = 0%nat)) as [->|Hos0].
  - change (0 <? Z.of_nat 0) with false. cbv iota.
    rewrite bind_mret. unfold delta. rewrite sub_0. change (signed 64 (from_le [])) with (run_offset_value []).
    by destruct (checked_add_i64 prev _).
  - rewrite (proj2 (Z.ltb_lt 0 (Z.of_nat os))) by lia. cbv iota.
    destruct (offset_field attr (cur + 1 + Z.of_nat ls) os) as (last&Hi&Hv); [done|lia..|].
    rewrite Hi, bind_Ok, bind_mret, Hv. fold delta. by destruct (checked_add_i64 prev delta).
Qed.

Lemma runs_loop_encodes prev runs bs pre tail fuel acc :
  encodes prev runs bs → bytes_ok pre → bytes_ok tail → (tail = [] ∨ ∃ t, tail = 0 :: t) →
  (length runs < fuel)%nat → 0 ≤ prev →
  runs_loop fuel (pre ++ bs ++ tail) (len pre) prev acc = Ok (acc ++ runs).
Proof.
  intros He Hpre Htail Ht. revert pre fuel acc Hpre.
  induction He as [prev|prev lcn n ls os runs bs Hls Hos Hn Hlcn Hd He IH];
    intros pre fuel acc Hpre Hf Hprev.
  - destruct fuel as [|fuel]; [cbn in Hf; lia|]. cbn [runs_loop app]. rewrite app_nil_r.
    destruct Ht as [->|[t ->]].
    + rewrite app_nil_r, (proj2 (Z.ltb_ge _ _)) by lia. done.
    + rewrite (proj2 (Z.ltb_lt _ _)) by (rewrite length_app; cbn; lia). cbn [negb].
      rewrite (idx_ok _ _ 0) by (try lia; by rewrite Nat2Z.id, list_lookup_middle by done).
      rewrite bind_Ok. done.
  - destruct fuel as [|fuel]; [cbn in Hf; lia|].
    set (hd := Z.of_nat os * 16 + Z.of_nat ls) in *.
    set (body := to_le ls n ++ to_le os (lcn - prev)).
    replace (pre ++ (hd :: to_le ls n ++ to_le os (lcn - prev) ++ bs) ++ tail)
      with (pre ++ [hd] ++ to_le ls n ++ to_le os (lcn - prev) ++ bs ++ tail)
      by (cbn; by rewrite <- !app_assoc).
    assert (Hall : bytes_ok (pre ++ [hd] ++ to_le ls n ++ to_le os (lcn - prev) ++ bs ++ tail)).
    { pose proof (encodes_bytes _ _ _ He). rewrite !Forall_app, Forall_singleton.
      split_and!; try done; try apply to_le_bytes; unfold hd, is_u; lia. }
    rewrite (runs_loop_step fuel _ (len pre) prev acc ls os); try done; try lia.
    2:{ rewrite Nat2Z.id, lookup_app_r, Nat.sub_diag by lia. done. }
    2:{ rewrite !length_app, !length_to_le. cbn [length]. lia. }
    assert (E1 : sub (len pre + 1) (Z.of_nat ls)
      (pre ++ [hd] ++ to_le ls n ++ to_le os (lcn - prev) ++ bs ++ tail) = to_le ls n).
    { rewrite sub_app_r, sub_app_r, sub_app_l, sub_whole by (rewrite ?length_to_le; cbn; lia). done. }
    assert (E2 : sub (len pre + 1 + Z.of_nat ls) (Z.of_nat os)
      (pre ++ [hd] ++ to_le ls n ++ to_le os (lcn - prev) ++ bs ++ tail) = to_le os (lcn - prev)).
    { rewrite sub_app_r, sub_app_r, sub_app_r, sub_app_l, sub_whole
        by (rewrite ?length_to_le; cbn; lia). done. }
    rewrite E1, E2, from_to_le_small by done.
    assert (run_offset_value (to_le os (lcn - prev)) = lcn - prev) as ->.
    { destruct Hd as [[-> ->]|[? Hd]]; [by rewrite Z.sub_diag|]. apply run_offset_value_to_le; [lia|done]. }
    unfold checked_add_i64. rewrite (proj2 (Z.leb_le _ _)), (proj2 (Z.ltb_lt (prev + _) _)) by lia.
    cbn [andb]. replace (prev + (lcn - prev)) with lcn by lia.
    rewrite (proj2 (Z.ltb_ge lcn 0)) by lia.
    replace (pre ++ [hd] ++ to_le ls n ++ to_le os (lcn - prev) ++ bs ++ tail)
      with ((pre ++ [hd] ++ body) ++ bs ++ tail) by (unfold body; by rewrite <- !app_assoc).
    replace (len pre + (1 + Z.of_nat ls + Z.of_nat os)) with (len (pre ++ [hd] ++ body))
      by (unfold body; rewrite !length_app, !length_to_le; cbn; lia).
    rewrite IH; [by rewrite <- app_assoc| |cbn in Hf; lia|lia].
    unfold body. rewrite !Forall_app, Forall_singleton.
    split_and!; try done; try apply to_le_bytes; unfold hd, is_u; lia.
Qed.

(** ** Termination and range *)

Definition run_ok (r : Z * Z) : Prop := 0 ≤ r.1 < 2 ^ 63 ∧ 0 ≤ r.2 < 2 ^ 64.

Lemma checked_add_i64_Some a b c : checked_add_i64 a b = Some c → c = a + b ∧ - 2 ^ 63 ≤ c < 2 ^ 63.
Proof.
  unfold checked_add_i64. destruct (Z.leb_spec (- 2 ^ 63) (a + b)), (Z.ltb_spec (a + b) (2 ^ 63));
    cbn; intros [=]; subst; lia.
Qed.

Lemma runs_loop_total fuel attr cur prev acc :
  bytes_ok attr → 0 ≤ cur → Z.max 0 (len attr - cur) < Z.of_nat fuel → Forall run_ok acc →
  safe (runs_loop fuel attr cur prev acc) ∧
  ∀ rs, runs_loop fuel attr cur prev acc = Ok rs → Forall run_ok rs.
Proof.
  intros Hb. revert cur prev acc. induction fuel as [|fuel IH]; intros cur prev acc Hcur Hf Hacc;
    [lia|].
  assert (Hdone : safe (mret (M:=outcome NtfsError) acc) ∧
    ∀ rs, mret (M:=outcome NtfsError) acc = Ok rs → Forall run_ok rs).
  { split; [done|]. by intros rs [= <-]. }
  destruct (Z.ltb_spec cur (len attr)) as [Hlt|].
  2:{ cbn [runs_loop]. by rewrite (proj2 (Z.ltb_ge _ _)) by lia. }
  destruct (idx_in (E:=NtfsError) attr cur) as (h&Hi&Hx); [lia|].
  pose proof (bytes_ok_byte _ _ _ Hb Hx) as Hh.
  set (ls := Z.to_nat (h mod 16)). set (os := Z.to_nat (h / 16)).
  assert (Hls : 0 ≤ h mod 16 < 16) by (apply Z.mod_pos_bound; lia).
  assert (Hos : 0 ≤ h / 16 < 16).
  { split; [apply Z.div_pos; lia|]. apply Z.div_lt_upper_bound; lia. }
  assert (Hhd : h = Z.of_nat os * 16 + Z.of_nat ls).
  { unfold ls, os. pose proof (Z.div_mod h 16). lia. }
  destruct (decide ((1 ≤ ls ≤ 8)%nat ∧ (os ≤ 8)%nat ∧ cur + 1 + Z.of_nat ls + Z.of_nat os ≤ len attr))
    as [(H1&H2&H3)|Hno].
  - rewrite Hhd in Hx. rewrite (runs_loop_step fuel attr cur prev acc ls os); try done.
    destruct (checked_add_i64 prev _) as [lcn|] eqn:Hc; [|done].
    apply checked_add_i64_Some in Hc as [_ Hc]. destruct (Z.ltb_spec lcn 0); [done|].
    apply IH; [lia|lia|]. apply Forall_app. split; [done|]. constructor; [|done].
    split; cbn [fst snd]; [lia|].
    pose proof (from_le_sub_range (Z.of_nat ls) (cur + 1) attr Hb) as [? Hn]; [lia|].
    split; [done|]. eapply Z.lt_le_trans; [done|]. apply Z.pow_le_mono_r; lia.
  - cbn [runs_loop]. rewrite (proj2 (Z.ltb_lt _ _)) by lia. cbn [negb]. rewrite Hi, bind_Ok.
    destruct (Z.eqb_spec h 0); [done|]. rewrite land_15, shiftr_4, land_15.
    rewrite (Z.mod_small (h / 16)) by lia.
    destruct (Z.eqb_spec (h mod 16) 0), (Z.ltb_spec 8 (h mod 16)), (Z.ltb_spec 8 (h / 16));
      cbn [orb]; try done.
    rewrite (proj2 (Z.ltb_lt (len attr) _)); [done|]. unfold ls, os in Hno. lia.
Qed.

Lemma parse_data_runs_total attr :
  bytes_ok attr →
  safe (parse_data_runs attr) ∧ ∀ rs, parse_data_runs attr = Ok rs → Forall run_ok rs.
Proof.
  intros Hb. unfold parse_data_runs.
  assert (Hnil : safe (mret (M:=outcome NtfsError) (A:=list (Z * Z)) []) ∧
    ∀ rs, mret (M:=outcome NtfsError) (A:=list (Z * Z)) [] = Ok rs → Forall run_ok rs).
  { split; [done|]. by intros rs [= <-]. }
  destruct (Z.ltb_spec (len attr) 64); [done|].
  destruct (idx_in (E:=NtfsError) attr 8) as (nr&->&_); [lia|]. bstep.
  case_match; [done|]. repeat bstep. case_match; [done|].
  destruct (Z.ltb_spec (from_le (sub 32 2 attr)) 64); [done|]. cbn [orb]. case_match; [done|].
  repeat bstep. case_match; [done|].
  apply runs_loop_total; [done|lia|lia|constructor].
Qed.

(** A non-resident attribute as NTFS lays it out: a 64-byte header with the
    run offset at 32 and the allocated size at 40, padding, the mapping pairs
    and either a zero byte or the end of the attribute. *)
Definition nonresident_attr (hdr pad bs tail : list Z) : Prop :=
  len hdr = 64 ∧ hdr !! 8%nat = Some 1 ∧ from_le (sub 32 2 hdr) = 64 + len pad ∧
  from_le (sub 40 8 hdr) ≠ 0 ∧ (tail = [] ∨ ∃ t, tail = 0 :: t) ∧
  bytes_ok hdr ∧ bytes_ok pad ∧ bytes_ok tail ∧ bs ++ tail ≠ [].

(** ** Properties *)


(** [parse_data_runs] is total on any byte string: it ends within its fuel
    (one iteration per byte), never panics, and every run it returns has a
    cluster number in the [i64] range and a length in the [u64] range. *)
Theorem parse_data_runs_safe (attr : list Z) :
  bytes_ok attr →
  safe (parse_data_runs attr) ∧
  ∀ rs, parse_data_runs attr = Ok rs → Forall (λ r, 0 ≤ r.1 < 2 ^ 63 ∧ 0 ≤ r.2 < 2 ^ 64) rs.
Proof. apply parse_data_runs_total. Qed.

(** Two runs, the second one backwards on the disk. *)
Definition demo_hdr : list Z :=
  [0x80; 0; 0; 0; 80; 0; 0; 0; 1] ++ zeros 23 ++ [64; 0] ++ zeros 6 ++ [1] ++ zeros 23.
Definition demo_runs : list (Z * Z) := [(0x20, 0x18); (0x15, 8)].
Definition demo_pairs : list Z := [0x11; 0x18; 0x20; 0x11; 8; 0xF5].

Lemma demo_encodes : encodes 0 demo_runs demo_pairs.
Proof.
  refine (encodes_cons 0 0x20 0x18 1 1 _ [0x11; 8; 0xF5] _ _ _ _ _ _); [lia|lia|lia|lia|lia|].
  refine (encodes_cons 0x20 0x15 8 1 1 [] [] _ _ _ _ _ _); [lia|lia|lia|lia|lia|]. constructor.
Qed.


Lemma parse_data_runs_safe_witness :
  bytes_ok (demo_hdr ++ [0x18; 1; 2]) ∧ safe (parse_data_runs (demo_hdr ++ [0x18; 1; 2])).
Proof.
  assert (H : bytes_ok (demo_hdr ++ [0x18; 1; 2])) by by repeat constructor.
  split; [exact H|]. exact (proj1 (parse_data_runs_safe _ H)).
Defined.

(** An eight-byte offset field of -2 (from cluster 5) is decoded as -1. *)
Example eight_byte_offset :
  parse_data_runs (demo_hdr ++ [0x11; 1; 5; 0x81; 1] ++ to_le 8 (-2) ++ [0]) = Ok [(5, 1); (4, 1)].
Proof. vm_compute. reflexivity. Qed.

Section read_facts.
Context {D : Type} `{!BlockDevice D, !ByteDisk D}.

(** A run whose bytes lie on the device at the position the code asks for. *)
Definition run_readable (bpc : Z) (d : D) (r : Z * Z) : Prop :=
  0 ≤ r.1 ∧ 0 ≤ r.2 ∧ r.1 * bpc < 2 ^ 64 ∧ r.2 * bpc < 2 ^ 63 ∧
  r.1 * bpc / 512 + r.2 * bpc ≤ capacity d.

Lemma read_runs_ok bpc runs res d :
  disk_ok d → 0 ≤ bpc → Forall (run_readable bpc d) runs →
  ∃ d', read_runs bpc runs res d =
    (d', Ok (res ++ (runs ≫= λ r, rd (r.1 * bpc / 512) (r.2 * bpc) d))) ∧ d ≡ d'.
Proof.
  intros Hd Hbpc Hr. revert res d Hd Hr.
  induction runs as [|[c n] runs IH]; intros res d Hd Hr.
  { exists d. rewrite app_nil_r. done. }
  apply Forall_cons in Hr as [(H1&H2&H3&H4&H5) Hr]. cbn [fst snd] in *.
  cbn [read_runs]. rewrite (wrap_small 64 (c * bpc)), (wrap_small 64 (n * bpc)) by nia.
  rewrite vec_zeroed_ok, bind_lift_Ok by lia.
  destruct (dev_read (c * bpc / 512) (n * bpc) d) as (d1&Hrd&E1);
    [done|apply Z.div_pos; nia|nia|lia|].
  rewrite (st_bind_Ok _ _ _ _ _ (st_map_err_Ok _ _ _ _ _ Hrd)).
  destruct (IH (res ++ rd (c * bpc / 512) (n * bpc) d) d1) as (d2&Hrs&E2).
  { by rewrite <- E1. }
  { eapply Forall_impl; [exact Hr|]. unfold run_readable. intros r. by rewrite <- E1. }
  exists d2. split; [|by etrans]. rewrite Hrs, bind_cons, <- app_assoc. cbn [fst snd].
  do 4 f_equal. apply list_bind_ext; [|done]. intros r. by rewrite <- E1.
Qed.

(** Reading a non-resident stream returns, for each run in order, the
    bytes the device holds at [lcn * bytes_per_cluster / 512]: the position is
    divided by 512, and [partition_byte_offset] is not added, unlike in every
    other access of the driver ([cluster_to_disk_offset], [mft_byte_offset]). *)
Theorem read_data_runs_address (b : BootSector) (runs : list (Z * Z)) (d : D) :
  disk_ok d → Forall (run_readable (bytes_per_cluster b) d) runs →
  ∃ d', read_data_runs [NonResident runs] b d =
    (d', Ok (runs ≫= λ r, rd (r.1 * bytes_per_cluster b / 512) (r.2 * bytes_per_cluster b) d)) ∧
    d ≡ d'.
Proof.
  intros Hd Hr. unfold read_data_runs. cbn [read_data_runs_from].
  destruct (read_runs_ok (bytes_per_cluster b) runs [] d Hd) as (d'&Hrs&E); [|done|].
  { apply wrap_range. lia. }
  exists d'. split; [|done]. by rewrite (st_bind_Ok _ _ _ _ _ Hrs).
Qed.

(** Resident streams need no device access. *)
Lemma read_data_runs_resident b datas (d : D) :
  read_data_runs (Resident <$> datas) b d = (d, Ok (mjoin datas)).
Proof.
  unfold read_data_runs. change (mjoin datas) with ([] ++ mjoin datas).
  generalize (@nil Z). induction datas as [|x datas IH]; intros res; cbn.
  - by rewrite app_nil_r.
  - change (list_fmap _ _ Resident datas) with (Resident <$> datas).
    rewrite IH. by rewrite <- app_assoc.
Qed.
End read_facts.

(** Sixteen-sector disk with a run of one 1 KiB cluster at cluster 3. *)
Definition runs_boot : BootSector := {|
  bytes_per_sector := 512; sectors_per_cluster := 2; media_type := 0; total_sectors := 16;
  mft_start_cluster := 1; mft_mirror_start_cluster := 0; clusters_per_mft_record := 1;
  clusters_per_index_buffer := 1; serial_number := 0; partition_byte_offset := 0 |}.
Definition runs_disk : RamDisk := {| rd_size := 512; rd_count := 16; rd_data := {[6 := 9]} |}.

Lemma read_data_runs_address_witness :
  Forall (run_readable (bytes_per_cluster runs_boot) runs_disk) [(3, 1)] ∧
  ∃ d', read_data_runs [NonResident [(3, 1)]] runs_boot runs_disk =
    (d', Ok ([(3, 1)] ≫= λ r, rd (r.1 * bytes_per_cluster runs_boot / 512)
                                 (r.2 * bytes_per_cluster runs_boot) runs_disk)) ∧ runs_disk ≡ d'.
Proof.
  assert (H : Forall (run_readable (bytes_per_cluster runs_boot) runs_disk) [(3, 1)]).
  { constructor; [|constructor]. by vm_compute. }
  split; [exact H|]. refine (read_data_runs_address runs_boot [(3, 1)] runs_disk _ H). by vm_compute.
Defined.
