(* ===== verification/NtfsAttr.v ===== *)
(** * MFT record attributes

    [fs/ntfs/attr.rs]: walking the attributes of an MFT record, collecting the
    metadata ([parse_stat]), locating and updating the resident data, and the
    update-sequence fixups.

    Positions are sums of a buffer position and fields of at most 32 bits; a
    buffer is shorter than 2^63, so such a sum does not wrap and is written
    with [+]. The sector ends of the fixups, which can wrap, use [-w]. *)

From S2P Require Import Prelude Bytes Text BlockDev NtfsTypes NtfsBoot NtfsRuns.

(** ** Names *)

(** The loop of [parse_name_and_parent] over [name_len] units of [raw]. *)
Fixpoint read_name (n : nat) (raw : list Z) : rstring :=
  match n, raw with
  | S n, a :: b :: raw =>
      let c := from_le [a; b] in
      if c =? 0 then [] else unit_char c :: read_name n raw
  | _, _ => []
  end.

Definition parse_name_and_parent {E} (data : list Z) (name_offset : Z)
  : outcome E (option (rstring * Z)) :=
  if len data <? name_offset + 2 then mret None else
  parent ← u64_at data 0;
  name_len ← idx data 0x40;
  raw ← slice_from data name_offset;
  if len raw <? name_len * 2 then mret None else
  mret (Some (read_name (Z.to_nat name_len) raw, parent)).

Definition parse_filename {E} (attr_data : list Z) : outcome E (option (rstring * Z)) :=
  data ← slice_from attr_data 24;
  parse_name_and_parent data 0x42.

Definition parse_filename_from_key {E} (key : list Z) : outcome E (option (rstring * Z)) :=
  parse_name_and_parent key 0x42.

Definition parse_attr_name {E} (attr_data : list Z) (name_length : Z) : outcome E rstring :=
  if len attr_data <? 12 then mret [] else
  name_offset ← u16_at attr_data 10;
  let byte_len := name_length * 2 in
  match get_range attr_data name_offset (name_offset + byte_len) with
  | None => mret []
  | Some raw => mret (decode_utf16 raw)
  end.

(** ** Walking the attributes *)

Definition attribute_type (type_code : Z) : option AttributeType :=
  if type_code =? 0x10 then Some AT_StandardInformation
  else if type_code =? 0x20 then Some AT_AttributeList
  else if type_code =? 0x30 then Some AT_FileName
  else if type_code =? 0x40 then Some AT_ObjectId
  else if type_code =? 0x50 then Some AT_SecurityDescriptor
  else if type_code =? 0x60 then Some AT_VolumeName
  else if type_code =? 0x70 then Some AT_VolumeInformation
  else if type_code =? 0x80 then Some AT_Data
  else if type_code =? 0x90 then Some AT_IndexRoot
  else if type_code =? 0xA0 then Some AT_IndexAllocation
  else if type_code =? 0xB0 then Some AT_Bitmap
  else if type_code =? 0xC0 then Some AT_ReparsePoint
  else if type_code =? 0xD0 then Some AT_EaInformation
  else if type_code =? 0xE0 then Some AT_Ea
  else if type_code =? 0x100 then Some AT_LoggedUtilityStream
  else None.

(** One call of the closure of [parse_attributes]: the attribute at [offset]
    and the next offset. *)
Definition attr_next (record : list Z) (offset : Z)
  : outcome NtfsError (option (AttributeType * list Z * bool * Z)) :=
  if len record <? offset + 8 then mret None else
  type_code ← u32_at record offset;
  if type_code =? 0xFFFFFFFF then mret None else
  record_length ← u32_at record (offset + 4);
  if (record_length =? 0) || (len record <? offset + record_length) then mret None else
  flag ← idx record (offset + 8);
  let is_resident := flag =? 0 in
  match attribute_type type_code with
  | None => mret None
  | Some attr_type =>
      slice ← slice record offset (offset + record_length);
      mret (Some (attr_type, slice, is_resident, offset + record_length))
  end.

(** ** parse_stat *)

Section stat.
Implicit Types s : NtfsStat.

Definition with_name s n := {| st_is_directory := st_is_directory s; st_size := st_size s;
  st_name := n; st_data_runs := st_data_runs s; st_index_root := st_index_root s;
  st_standard_info := st_standard_info s; st_security_descriptor := st_security_descriptor s;
  st_object_id := st_object_id s; st_reparse_point := st_reparse_point s;
  st_alternate_data_streams := st_alternate_data_streams s |}.
Definition with_standard_info s i := {| st_is_directory := st_is_directory s; st_size := st_size s;
  st_name := st_name s; st_data_runs := st_data_runs s; st_index_root := st_index_root s;
  st_standard_info := i; st_security_descriptor := st_security_descriptor s;
  st_object_id := st_object_id s; st_reparse_point := st_reparse_point s;
  st_alternate_data_streams := st_alternate_data_streams s |}.
Definition with_object_id s i := {| st_is_directory := st_is_directory s; st_size := st_size s;
  st_name := st_name s; st_data_runs := st_data_runs s; st_index_root := st_index_root s;
  st_standard_info := st_standard_info s; st_security_descriptor := st_security_descriptor s;
  st_object_id := i; st_reparse_point := st_reparse_point s;
  st_alternate_data_streams := st_alternate_data_streams s |}.
Definition with_security_descriptor s i := {| st_is_directory := st_is_directory s;
  st_size := st_size s; st_name := st_name s; st_data_runs := st_data_runs s;
  st_index_root := st_index_root s; st_standard_info := st_standard_info s;
  st_security_descriptor := i; st_object_id := st_object_id s;
  st_reparse_point := st_reparse_point s;
  st_alternate_data_streams := st_alternate_data_streams s |}.
Definition with_reparse_point s i := {| st_is_directory := st_is_directory s; st_size := st_size s;
  st_name := st_name s; st_data_runs := st_data_runs s; st_index_root := st_index_root s;
  st_standard_info := st_standard_info s; st_security_descriptor := st_security_descriptor s;
  st_object_id := st_object_id s; st_reparse_point := i;
  st_alternate_data_streams := st_alternate_data_streams s |}.
(** [stat.is_directory = true] and the optional [stat.index_root = Some(..)] *)
Definition with_index_root s o := {| st_is_directory := true; st_size := st_size s;
  st_name := st_name s; st_data_runs := st_data_runs s;
  st_index_root := match o with Some d => Some d | None => st_index_root s end;
  st_standard_info := st_standard_info s; st_security_descriptor := st_security_descriptor s;
  st_object_id := st_object_id s; st_reparse_point := st_reparse_point s;
  st_alternate_data_streams := st_alternate_data_streams s |}.
(** [stat.size = size; stat.data_runs.push(run)] *)
Definition with_data s size run := {| st_is_directory := st_is_directory s; st_size := size;
  st_name := st_name s; st_data_runs := st_data_runs s ++ [run];
  st_index_root := st_index_root s; st_standard_info := st_standard_info s;
  st_security_descriptor := st_security_descriptor s; st_object_id := st_object_id s;
  st_reparse_point := st_reparse_point s;
  st_alternate_data_streams := st_alternate_data_streams s |}.
Definition with_ads s a := {| st_is_directory := st_is_directory s; st_size := st_size s;
  st_name := st_name s; st_data_runs := st_data_runs s; st_index_root := st_index_root s;
  st_standard_info := st_standard_info s; st_security_descriptor := st_security_descriptor s;
  st_object_id := st_object_id s; st_reparse_point := st_reparse_point s;
  st_alternate_data_streams := st_alternate_data_streams s ++ [a] |}.

(** [runs.iter().map(|(_, len)| len * bytes_per_cluster).sum()], wrapping. *)
Definition runs_size (b : BootSector) (runs : list (Z * Z)) : Z :=
  foldl (λ acc r, acc +w (r.2 *w bytes_per_cluster b)) 0 runs.

(** The [$DATA] arm; [continue] returns [s]. *)
Definition stat_data (b : BootSector) (attr_data : list Z) (is_resident : bool) s
  : outcome NtfsError NtfsStat :=
  name_length ← idx attr_data 9;
  if is_resident then
    if len attr_data <? 24 then mret s else
    value_length ← u32_at attr_data 16;
    value_offset ← u16_at attr_data 20;
    if len attr_data <? value_offset + value_length then mret s else
    data ← slice attr_data value_offset (value_offset + value_length);
    if name_length =? 0 then mret (with_data s value_length (Resident data))
    else
      name ← parse_attr_name attr_data name_length;
      mret (with_ads s {| ads_name := name; ads_size := value_length; ads_data := Resident data |})
  else
    runs ← parse_data_runs attr_data;
    let size := runs_size b runs in
    if name_length =? 0 then mret (with_data s size (NonResident runs))
    else
      name ← parse_attr_name attr_data name_length;
      mret (with_ads s {| ads_name := name; ads_size := size; ads_data := NonResident runs |}).

(** The body of the [for] loop. *)
Definition stat_attr (b : BootSector) (t : AttributeType) (attr_data : list Z)
    (is_resident : bool) s : outcome NtfsError NtfsStat :=
  match t with
  | AT_StandardInformation =>
      if is_resident then
        i ← StandardInformation_parse attr_data; mret (with_standard_info s i)
      else mret s
  | AT_ObjectId =>
      if is_resident then i ← ObjectId_parse attr_data; mret (with_object_id s i) else mret s
  | AT_SecurityDescriptor =>
      i ← SecurityDescriptor_parse attr_data is_resident; mret (with_security_descriptor s i)
  | AT_ReparsePoint =>
      if is_resident then i ← ReparsePoint_parse attr_data; mret (with_reparse_point s i)
      else mret s
  | AT_FileName =>
      if is_resident && bool_decide (st_name s = None) then
        o ← parse_filename attr_data;
        mret (match o with Some (name, _) => with_name s (Some name) | None => s end)
      else mret s
  | AT_IndexRoot =>
      if is_resident then
        val_off ← u16_at attr_data 20;
        if val_off <? len attr_data then
          d ← slice_from attr_data val_off;
          mret (with_index_root s (Some d))
        else mret (with_index_root s None)
      else mret s
  | AT_Data => stat_data b attr_data is_resident s
  | _ => mret s
  end.

(** Each attribute is at least one byte long. *)
Fixpoint stat_loop (fuel : nat) (record : list Z) (b : BootSector) (offset : Z) s
  : outcome NtfsError NtfsStat :=
  match fuel with
  | O => Diverge
  | S fuel =>
      o ← attr_next record offset;
      match o with
      | None => mret s
      | Some (t, attr_data, is_resident, next) =>
          s ← stat_attr b t attr_data is_resident s;
          stat_loop fuel record b next s
      end
  end.

Definition parse_stat (record : list Z) (b : BootSector) : outcome NtfsError NtfsStat :=
  first ← u16_at record 20;
  stat_loop (S (length record)) record b first NtfsStat_default.
End stat.

(** ** The data attribute in place *)

Fixpoint find_data_loop (fuel : nat) (record : list Z) (offset : Z) : outcome NtfsError Z :=
  match fuel with
  | O => Diverge
  | S fuel =>
      if len record <? offset + 8 then Err Ntfs_InvalidAttribute else
      attr_type ← u32_at record offset;
      if attr_type =? 0xFFFFFFFF then Err Ntfs_InvalidAttribute else
      if attr_type =? 0x80 then mret offset else
      attr_len ← u32_at record (offset + 4);
      if attr_len =? 0 then Err Ntfs_InvalidAttribute else
      find_data_loop fuel record (offset + attr_len)
  end.

Definition find_data_attribute_offset (record : list Z) : outcome NtfsError Z :=
  first ← u16_at record 20;
  find_data_loop (S (length record)) record first.

Definition update_resident_data (record : list Z) (attr_offset : Z) (data : list Z)
  : outcome NtfsError (list Z) :=
  if len record <? attr_offset + 24 then Err Ntfs_InvalidAttribute else
  value_offset ← u16_at record (attr_offset + 20);
  value_length ← u32_at record (attr_offset + 16);
  let start := attr_offset + value_offset in
  let end_ := start + value_length in
  if negb (len data =? value_length) || (len record <? end_) then Err Ntfs_InvalidAttribute else
  copy_to record start end_ data.

(** ** Fixups *)

(** [i * sector_size - 2] *)
Definition sector_end (i sector_size : Z) : Z := i *w sector_size -w 2.

(** [for i in i..i + n] of [apply_fixups]. *)
Fixpoint apply_loop (n : nat) (i : Z) (uso sector_size seq_number : Z) (buf : list Z)
  : outcome NtfsError (list Z) :=
  match n with
  | O => mret buf
  | S n =>
      let end_ := sector_end i sector_size in
      if len buf <? end_ +w 2 then Err Ntfs_CorruptedFilesystem else
      stored ← u16_at buf (uso + i * 2);
      bytes ← u16_at buf end_;
      if negb (bytes =? seq_number) then Err Ntfs_CorruptedFilesystem else
      buf ← copy_to buf end_ (end_ +w 2) (u16_le stored);
      apply_loop n (i + 1) uso sector_size seq_number buf
  end.

Definition apply_fixups (buf : list Z) (sector_size : Z) : outcome NtfsError (list Z) :=
  uso ← u16_at buf 4;
  usc ← u16_at buf 6;
  if (uso <? 48) || (len buf <? uso + 2) then mret buf else
  if usc =? 0 then mret buf else
  if len buf <? uso + 2 * usc then Err Ntfs_CorruptedFilesystem else
  seq_number ← u16_at buf uso;
  apply_loop (Z.to_nat (usc - 1)) 1 uso sector_size seq_number buf.

(** [for i in i..i + n] of [reapply_fixups]. *)
Fixpoint reapply_loop (n : nat) (i : Z) (uso sector_size seq_number : Z) (buf : list Z)
  : outcome NtfsError (list Z) :=
  match n with
  | O => mret buf
  | S n =>
      let end_ := sector_end i sector_size in
      if len buf <? end_ +w 2 then Err Ntfs_CorruptedFilesystem else
      original ← u16_at buf end_;
      buf ← copy_to buf (uso + i * 2) (uso + i * 2 + 2) (u16_le original);
      buf ← copy_to buf end_ (end_ +w 2) (u16_le seq_number);
      reapply_loop n (i + 1) uso sector_size seq_number buf
  end.

Definition reapply_fixups (buf : list Z) (sector_size : Z) : outcome NtfsError (list Z) :=
  uso ← u16_at buf 4;
  usc ← u16_at buf 6;
  if (uso <? 48) || (usc =? 0) then mret buf else
  if len buf <? uso + 2 * usc then Err Ntfs_CorruptedFilesystem else
  seq_number ← u16_at buf uso;
  reapply_loop (Z.to_nat (usc - 1)) 1 uso sector_size seq_number buf.

Definition fixups_applied (buf : list Z) (sector_size : Z) : outcome NtfsError bool :=
  uso ← u16_at buf 4;
  usc ← u16_at buf 6;
  if (uso <? 48) || (usc =? 0) || (len buf <? uso + 2) then mret false else
  seq_number ← u16_at buf uso;
  if 1 <? usc then
    let end_ := sector_size -w 2 in
    if end_ +w 2 <=? len buf then
      bytes ← u16_at buf end_;
      mret (negb (bytes =? seq_number))
    else mret false
  else mret false.

(** ** Facts about the walk *)

Lemma attr_next_cases record offset :
  bytes_ok record → 0 ≤ offset →
  attr_next record offset = Ok None ∨
  (∃ t a r next n, attr_next record offset = Ok (Some (t, a, r, next)) ∧
     n = from_le (sub (offset + 4) 4 record) ∧ 0 < n ∧ next = offset + n ∧ next ≤ len record ∧
     a = sub offset n record ∧ offset + 8 ≤ len record) ∨
  (attr_next record offset = Panic ∧ offset + 8 = len record ∧
     1 ≤ from_le (sub (offset + 4) 4 record) ≤ 8).
Proof.
  intros Hb Ho. unfold attr_next. destruct (Z.ltb_spec (len record) (offset + 8)); [by left|].
  repeat bstep. case_match; [by left|]. repeat bstep.
  pose proof (from_le_sub_range 4 (offset + 4) record Hb) as Hr.
  set (n := from_le (sub (offset + 4) 4 record)) in *.
  destruct (Z.eqb_spec n 0); cbn [orb]; [by left|].
  destruct (Z.ltb_spec (len record) (offset + n)); [by left|].
  destruct (decide (offset + 8 < len record)).
  - destruct (idx_in (E:=NtfsError) record (offset + 8)) as (f&->&_); [lia|]. bstep.
    destruct (attribute_type _) as [t|]; [|by left]. right. left.
    bstep. bstep. exists t, (sub offset (offset + n - offset) record), (f =? 0), (offset + n), n.
    split_and!; try done; try lia. f_equal. lia.
  - right. right. rewrite idx_out by lia. split; [done|]. lia.
Qed.

(** A value of at most [Ok] or [Err] for attributes that have a resident
    header. *)
Lemma stat_attr_safe b t a r s : bytes_ok a → 24 ≤ len a → safe (stat_attr b t a r s).
Proof.
  intros Hb Hl.
  assert (Hn : ∀ data, safe (parse_name_and_parent (E:=NtfsError) data 0x42)).
  { intros data. unfold parse_name_and_parent.
    destruct (Z.ltb_spec (len data) (0x42 + 2)); [done|]. repeat bstep.
    destruct (idx_in (E:=NtfsError) data 0x40) as (n&->&_); [lia|]. repeat bstep. by case_match. }
  assert (Ha : ∀ n, safe (parse_attr_name (E:=NtfsError) a n)).
  { intros n. unfold parse_attr_name. rewrite (proj2 (Z.ltb_ge _ _)) by lia. repeat bstep.
    by case_match. }
  destruct t, r; cbn [stat_attr andb]; try done;
    try (apply safe_bind; [auto with bytes|done]).
  - case_bool_decide; [|done]. apply safe_bind; [|done]. unfold parse_filename.
    rewrite slice_from_ok by lia. apply Hn.
  - unfold stat_data. destruct (idx_in (E:=NtfsError) a 9) as (n&->&_); [lia|]. bstep.
    rewrite (proj2 (Z.ltb_ge _ _)) by lia. repeat bstep.
    pose proof (from_le_sub_range 4 16 a Hb). pose proof (from_le_sub_range 2 20 a Hb).
    destruct (Z.ltb_spec (len a) (from_le (sub 20 2 a) + from_le (sub 16 4 a))); [done|].
    repeat bstep. case_match; [done|]. by apply safe_bind.
  - unfold stat_data. destruct (idx_in (E:=NtfsError) a 9) as (n&->&_); [lia|]. bstep.
    apply safe_bind; [by apply parse_data_runs_total|]. intros runs _. case_match; [done|].
    by apply safe_bind.
  - repeat bstep. destruct (Z.ltb_spec (from_le (sub 20 2 a)) (len a)); [|done].
    pose proof (from_le_sub_range 2 20 a Hb). by repeat bstep.
Qed.

Lemma stat_attr_no_diverge b t a r s : bytes_ok a → stat_attr b t a r s ≠ Diverge.
Proof.
  intros Hb.
  assert (HB : ∀ (A B : Type) (m : outcome NtfsError A) (k : A → outcome NtfsError B),
    m ≠ Diverge → (∀ x, k x ≠ Diverge) → (m ≫= k) ≠ Diverge)
    by (intros A B [x|e| |] k Hm Hk; [apply Hk|done..]).
  assert (HI : ∀ (A : Type) (l : list A) i, idx (E:=NtfsError) l i ≠ Diverge)
    by (intros; unfold idx, unwrap; by repeat case_match).
  assert (HL : ∀ n l o, le_at (E:=NtfsError) n l o ≠ Diverge)
    by (intros; unfold le_at, slice; by case_match).
  assert (HS : ∀ (A : Type) (l : list A) x y, slice (E:=NtfsError) l x y ≠ Diverge)
    by (intros; unfold slice; by case_match).
  assert (HV : ∀ A (m : outcome NtfsError A), safe m → m ≠ Diverge) by by intros ? [].
  assert (Hn : ∀ data o, parse_name_and_parent (E:=NtfsError) data o ≠ Diverge).
  { intros. unfold parse_name_and_parent, slice_from. case_match; [done|].
    repeat (apply HB; [auto|intros]). by case_match. }
  assert (Ha : ∀ n, parse_attr_name (E:=NtfsError) a n ≠ Diverge).
  { intros. unfold parse_attr_name. case_match; [done|]. apply HB; [auto|intros]. by case_match. }
  destruct t, r; cbn [stat_attr andb]; try done; try (apply HB; [auto using HV with bytes|done]).
  - case_bool_decide; [|done]. apply HB; [|done]. unfold parse_filename, slice_from.
    apply HB; [auto|intros]. apply Hn.
  - unfold stat_data. apply HB; [auto|intros]. case_match; [done|].
    do 2 (apply HB; [auto|intros]). case_match; [done|]. apply HB; [auto|intros].
    case_match; [done|]. apply HB; [auto|done].
  - unfold stat_data. apply HB; [auto|intros]. apply HB; [apply HV; by apply parse_data_runs_total|].
    intros. case_match; [done|]. apply HB; [auto|done].
  - apply HB; [auto|intros]. case_match; [|done]. unfold slice_from. apply HB; [auto|done].
Qed.

Lemma stat_loop_total fuel record b offset s :
  bytes_ok record → 0 ≤ offset → Z.max 0 (len record - offset) < Z.of_nat fuel →
  stat_loop fuel record b offset s ≠ Diverge ∧
  (stat_loop fuel record b offset s = Panic →
   ∃ o, 0 ≤ o ∧ o + 8 ≤ len record ∧ 1 ≤ from_le (sub (o + 4) 4 record) < 24).
Proof.
  intros Hb. revert offset s. induction fuel as [|fuel IH]; intros offset s Ho Hf; [lia|].
  cbn [stat_loop].
  destruct (attr_next_cases record offset Hb Ho)
    as [->|[(t&a&r&next&n&->&Hn&Hn0&->&Hle&->&H8)|(->&H8&Hn)]].
  - by rewrite bind_Ok.
  - rewrite bind_Ok. assert (Hba : bytes_ok (sub offset n record)) by auto with bytes.
    destruct (decide (n < 24)) as [Hlt|Hge].
    + split; [|intros _; exists offset; lia].
      pose proof (stat_attr_no_diverge b t (sub offset n record) r s Hba).
      destruct (stat_attr b t (sub offset n record) r s) as [s'| | |]; try done.
      rewrite bind_Ok. by apply IH; lia.
    + assert (Hsafe : safe (stat_attr b t (sub offset n record) r s)).
      { apply stat_attr_safe; [done|]. rewrite len_sub by lia. lia. }
      destruct (stat_attr b t (sub offset n record) r s) as [s'| | |]; try done.
      rewrite bind_Ok. apply IH; lia.
  - split; [done|]. intros _. exists offset. lia.
Qed.

Lemma find_data_loop_cases fuel record offset :
  bytes_ok record → 0 ≤ offset → Z.max 0 (len record - offset) < Z.of_nat fuel →
  find_data_loop fuel record offset = Err Ntfs_InvalidAttribute ∨
  ∃ o, find_data_loop fuel record offset = Ok o ∧ offset ≤ o ∧ o + 8 ≤ len record ∧
    from_le (sub o 4 record) = 0x80.
Proof.
  intros Hb. revert offset. induction fuel as [|fuel IH]; intros offset Ho Hf; [lia|].
  cbn [find_data_loop]. destruct (Z.ltb_spec (len record) (offset + 8)); [by left|].
  repeat bstep. case_match; [by left|].
  destruct (Z.eqb_spec (from_le (sub offset 4 record)) 0x80); [right; by exists offset|].
  repeat bstep. pose proof (from_le_sub_range 4 (offset + 4) record Hb).
  destruct (Z.eqb_spec (from_le (sub (offset + 4) 4 record)) 0); [by left|].
  destruct (IH (offset + from_le (sub (offset + 4) 4 record))) as [->|(o&->&?&?&?)];
    [lia|lia|by left|]. right. exists o. split_and!; try done. lia.
Qed.

Lemma find_data_attribute_offset_cases record :
  bytes_ok record → 22 ≤ len record →
  find_data_attribute_offset record = Err Ntfs_InvalidAttribute ∨
  ∃ o, find_data_attribute_offset record = Ok o ∧ 0 ≤ o ∧ o + 8 ≤ len record ∧
    from_le (sub o 4 record) = 0x80.
Proof.
  intros Hb Hl. unfold find_data_attribute_offset. repeat bstep.
  pose proof (from_le_sub_range 2 20 record Hb).
  destruct (find_data_loop_cases (S (length record)) record (from_le (sub 20 2 record)))
    as [->|(o&->&?&?&?)]; [done|lia|lia|by left|]. right. exists o. split_and!; try done. lia.
Qed.

(** ** Properties *)

(** [parse_stat] ends within its fuel on every record, and the only way it
    can panic is an attribute whose length field is between 1 and 23, shorter
    than a resident attribute header. *)
Theorem parse_stat_total (record : list Z) (b : BootSector) :
  bytes_ok record → 22 ≤ len record →
  parse_stat record b ≠ Diverge ∧
  (parse_stat record b = Panic →
   ∃ o, 0 ≤ o ∧ o + 8 ≤ len record ∧ 1 ≤ from_le (sub (o + 4) 4 record) < 24).
Proof.
  intros Hb Hl. unfold parse_stat. repeat bstep.
  pose proof (from_le_sub_range 2 20 record Hb). apply stat_loop_total; [done|lia|lia].
Qed.

(** A 1024-byte record whose last eight bytes are the header of an
    eight-byte attribute. *)
Definition short_attr_record : list Z :=
  [0x46; 0x49; 0x4C; 0x45] ++ zeros 16 ++ [0xF8; 3] ++ zeros 994 ++ [0x10; 0; 0; 0; 8; 0; 0; 0].

(** The panic is reachable: a 1024-byte FILE record whose attribute list
    starts with an eight-byte attribute at its very end makes [parse_stat]
    index past the buffer. *)
Theorem parse_stat_can_panic : len short_attr_record = 1024 ∧ parse_stat short_attr_record runs_boot = Panic.
Proof. split; vm_compute; reflexivity. Qed.

Lemma parse_stat_total_witness :
  bytes_ok short_attr_record ∧ parse_stat short_attr_record runs_boot ≠ Diverge.
Proof.
  assert (H : bytes_ok short_attr_record) by (apply bytes_ok_check; by vm_compute).
  split; [exact H|]. refine (proj1 (parse_stat_total short_attr_record runs_boot H _)).
  by vm_compute.
Defined.
