(* ===== verification/NtfsFixups.v ===== *)
(** * Facts about the fixups

    [apply_fixups] and [reapply_fixups] of [NtfsAttr] are inverse on records
    whose update sequence array lies before the end of the first sector. *)

From S2P Require Import Prelude Bytes NtfsTypes NtfsAttr.

(** ** The loops *)

Section loops.
Context (uso ss : Z).

(** Position of the [k]-th sector end, and of its entry in the array. *)
Definition se (k : Z) : Z := k * ss - 2.
Definition ue (k : Z) : Z := uso + k * 2.

Lemma sector_end_small k : 1 ≤ k → 2 ≤ ss → k * ss < 2 ^ 64 → sector_end k ss = se k.
Proof.
  intros. unfold sector_end, se. rewrite (wrap_small 64 (k * ss)) by lia.
  apply wrap_small. nia.
Qed.

(** The array entries [1 .. n] precede the end of the first sector, and the
    last sector ends inside the buffer. *)
Definition fix_layout (n : nat) (buf : list Z) : Prop :=
  0 ≤ uso ∧ uso + 2 + 2 * Z.of_nat n ≤ ss - 2 ∧ Z.of_nat n * ss ≤ len buf ∧ len buf < 2 ^ 63.

(** [buf'] is [buf] with the sector ends [i .. i + n - 1] replaced by the
    array entries. *)
Definition applied (i : Z) (n : nat) (buf buf' : list Z) : Prop :=
  length buf' = length buf ∧
  (∀ k, i ≤ k < i + Z.of_nat n → sub (se k) 2 buf' = sub (ue k) 2 buf) ∧
  (∀ a m, 0 ≤ a → (∀ k, i ≤ k < i + Z.of_nat n → a + m ≤ se k ∨ se k + 2 ≤ a) →
     sub a m buf' = sub a m buf).

Lemma apply_loop_spec n i seqno buf buf' :
  bytes_ok buf → 1 ≤ i → 0 ≤ uso → 2 ≤ ss → len buf < 2 ^ 63 →
  ue (i + Z.of_nat n) ≤ ss - 2 → (i + Z.of_nat n - 1) * ss ≤ len buf →
  apply_loop n i uso ss seqno buf = Ok buf' →
  applied i n buf buf' ∧ bytes_ok buf' ∧
  ∀ k, i ≤ k < i + Z.of_nat n → from_le (sub (se k) 2 buf) = seqno.
Proof.
  intros Hb Hi Hu Hs Hlen. revert i buf Hb Hi Hlen.
  induction n as [|n IH]; intros i buf Hb Hi Hlen Hue Hse.
  { cbn. intros [= <-]. repeat split; try done; intros; lia. }
  cbn [apply_loop]. rewrite sector_end_small by nia.
  assert (Hse1 : 0 ≤ se i ∧ se i + 2 ≤ len buf) by (unfold se; nia).
  rewrite (wrap_small 64 (se i + 2)) by lia. rewrite (proj2 (Z.ltb_ge _ _)) by lia.
  assert (Hue1 : 0 ≤ ue i ∧ ue i + 2 ≤ ss - 2) by (unfold ue in *; nia).
  assert (Hord : ∀ k, i + 1 ≤ k → se i + 2 ≤ se k ∧ ss - 2 ≤ se i) by (intros; unfold se; nia).
  change (uso + i * 2) with (ue i).
  rewrite !le_at_ok by (unfold se in *; nia). rewrite !bind_Ok.
  destruct (Z.eqb_spec (from_le (sub (se i) 2 buf)) seqno) as [Hseq|]; [|done]. cbn [negb].
  assert (Hst : to_le 2 (from_le (sub (ue i) 2 buf)) = sub (ue i) 2 buf).
  { apply to_from_le'; [auto with bytes|]. apply len_sub; unfold se in *; nia. }
  rewrite Hst.
  assert (Hl2 : len (sub (ue i) 2 buf) = 2) by (rewrite len_sub; unfold se in *; nia).
  rewrite copy_to_ok by lia. rewrite bind_Ok.
  set (buf1 := upd (se i) (sub (ue i) 2 buf) buf).
  assert (Hl1 : length buf1 = length buf) by (apply len_upd; lia).
  assert (Hout : ∀ a m, 0 ≤ a → a + m ≤ se i ∨ se i + 2 ≤ a → sub a m buf1 = sub a m buf).
  { intros. apply sub_upd_out; lia. }
  intros Hr. apply IH in Hr as ((Hl&Hk&Ho)&Hb'&Hq);
    [|unfold buf1; auto with bytes|lia|lia|unfold ue in *; nia|rewrite Hl1; nia].
  split; [|split; [done|]].
  - split; [lia|]. split.
    + intros k Hki. destruct (decide (k = i)) as [->|].
      * rewrite Ho; [|lia|intros k' Hk'; left; destruct (Hord k'); lia].
        unfold buf1. rewrite sub_upd_in by lia. rewrite Z.sub_diag. apply sub_whole; lia.
      * rewrite Hk by lia. apply Hout; [unfold ue; lia|]. left. unfold ue in *.
        destruct (Hord (i + 1)); [lia|]. nia.
    + intros a m Ha Hd. rewrite Ho; [|done|intros k' Hk'; apply Hd; lia].
      apply Hout; [done|]. apply Hd. lia.
  - intros k Hki. destruct (decide (k = i)) as [->|]; [done|].
    rewrite <- (Hq k) by lia. f_equal. symmetry. apply Hout; destruct (Hord k); lia.
Qed.

Lemma apply_loop_ok n i seqno buf :
  bytes_ok buf → 1 ≤ i → 0 ≤ uso → 2 ≤ ss → len buf < 2 ^ 63 →
  ue (i + Z.of_nat n) ≤ ss - 2 → (i + Z.of_nat n - 1) * ss ≤ len buf →
  (∀ k, i ≤ k < i + Z.of_nat n → from_le (sub (se k) 2 buf) = seqno) →
  ∃ buf', apply_loop n i uso ss seqno buf = Ok buf'.
Proof.
  intros Hb Hi Hu Hs Hlen. revert i buf Hb Hi Hlen.
  induction n as [|n IH]; intros i buf Hb Hi Hlen Hue Hse Hq.
  { by eexists. }
  cbn [apply_loop]. rewrite sector_end_small by nia.
  assert (Hse1 : 0 ≤ se i ∧ se i + 2 ≤ len buf) by (unfold se; nia).
  rewrite (wrap_small 64 (se i + 2)) by lia. rewrite (proj2 (Z.ltb_ge _ _)) by lia.
  assert (Hue1 : 0 ≤ ue i ∧ ue i + 2 ≤ ss - 2) by (unfold ue in *; nia).
  assert (Hord : ∀ k, i + 1 ≤ k → se i + 2 ≤ se k ∧ ss - 2 ≤ se i) by (intros; unfold se; nia).
  change (uso + i * 2) with (ue i).
  rewrite !le_at_ok by (unfold se in *; nia). rewrite !bind_Ok, Hq, Z.eqb_refl by lia. cbn [negb].
  rewrite copy_to_ok by (rewrite ?length_to_le; lia). rewrite bind_Ok.
  assert (Hl1 : length (upd (se i) (u16_le (from_le (sub (ue i) 2 buf))) buf) = length buf)
    by (apply len_upd; rewrite ?length_to_le; lia).
  apply IH; rewrite ?Hl1; auto with bytes; [lia|unfold ue in *; nia|nia|].
  intros k Hk. rewrite sub_upd_out by (rewrite ?length_to_le; destruct (Hord k); lia).
  apply Hq. lia.
Qed.

(** [buf'] is [buf] with the sector ends saved in the array and replaced by
    the sequence number. *)
Definition reapplied (i : Z) (n : nat) (seqno : Z) (buf buf' : list Z) : Prop :=
  length buf' = length buf ∧
  (∀ k, i ≤ k < i + Z.of_nat n → sub (se k) 2 buf' = u16_le seqno) ∧
  (∀ k, i ≤ k < i + Z.of_nat n → sub (ue k) 2 buf' = sub (se k) 2 buf) ∧
  (∀ a m, 0 ≤ a → (∀ k, i ≤ k < i + Z.of_nat n →
       (a + m ≤ se k ∨ se k + 2 ≤ a) ∧ (a + m ≤ ue k ∨ ue k + 2 ≤ a)) →
     sub a m buf' = sub a m buf).

Lemma reapply_loop_spec n i seqno buf :
  bytes_ok buf → 1 ≤ i → 0 ≤ uso → 2 ≤ ss → len buf < 2 ^ 63 →
  ue (i + Z.of_nat n) ≤ ss - 2 → (i + Z.of_nat n - 1) * ss ≤ len buf →
  ∃ buf', reapply_loop n i uso ss seqno buf = Ok buf' ∧ reapplied i n seqno buf buf' ∧ bytes_ok buf'.
Proof.
  intros Hb Hi Hu Hs Hlen. revert i buf Hb Hi Hlen.
  induction n as [|n IH]; intros i buf Hb Hi Hlen Hue Hse.
  { exists buf. cbn. repeat split; try done; intros; lia. }
  cbn [reapply_loop]. rewrite sector_end_small by nia.
  assert (Hse1 : 0 ≤ se i ∧ se i + 2 ≤ len buf) by (unfold se; nia).
  rewrite (wrap_small 64 (se i + 2)) by lia. rewrite (proj2 (Z.ltb_ge _ _)) by lia.
  assert (Hue1 : 0 ≤ ue i ∧ ue i + 2 ≤ ss - 2) by (unfold ue in *; nia).
  assert (Hord : ∀ k, i + 1 ≤ k → se i + 2 ≤ se k ∧ ss - 2 ≤ se i) by (intros; unfold se; nia).
  change (uso + i * 2) with (ue i).
  rewrite le_at_ok by lia. rewrite bind_Ok.
  assert (Hst : to_le 2 (from_le (sub (se i) 2 buf)) = sub (se i) 2 buf).
  { apply to_from_le'; [auto with bytes|]. apply len_sub; lia. }
  rewrite Hst.
  assert (Hl2 : len (sub (se i) 2 buf) = 2) by (rewrite len_sub; lia).
  assert (Huin : ue i + 2 ≤ len buf) by (unfold se in *; nia).
  rewrite copy_to_ok by lia. rewrite bind_Ok.
  set (buf1 := upd (ue i) (sub (se i) 2 buf) buf).
  assert (Hl1 : length buf1 = length buf) by (apply len_upd; lia).
  rewrite copy_to_ok by (rewrite ?length_to_le; lia). rewrite bind_Ok.
  set (buf2 := upd (se i) (u16_le seqno) buf1).
  assert (Hl2' : length buf2 = length buf) by (unfold buf2; rewrite len_upd; rewrite ?length_to_le; lia).
  assert (Hout : ∀ a m, 0 ≤ a → a + m ≤ se i ∨ se i + 2 ≤ a → a + m ≤ ue i ∨ ue i + 2 ≤ a →
    sub a m buf2 = sub a m buf).
  { intros. unfold buf2. rewrite sub_upd_out by (rewrite ?length_to_le; lia).
    apply sub_upd_out; lia. }
  destruct (IH (i + 1) buf2) as (buf'&Hr&(Hl&Hk&Hk2&Ho)&Hb');
    [unfold buf2, buf1; auto with bytes|lia|lia|unfold ue in *; nia|rewrite Hl2'; nia|].
  exists buf'. split; [done|]. split; [|done].
  split; [lia|]. split; [|split].
  - intros k Hki. destruct (decide (k = i)) as [->|]; [|apply Hk; lia].
    rewrite Ho; [|lia|].
    + unfold buf2. rewrite sub_upd_in by (rewrite ?length_to_le; lia). rewrite Z.sub_diag.
      apply sub_whole; rewrite ?length_to_le; lia.
    + intros k' Hk'. destruct (Hord k'); [lia|]. split; [lia|]. right. unfold ue in *. nia.
  - intros k Hki. destruct (decide (k = i)) as [->|].
    + rewrite Ho; [|lia|].
      * unfold buf2. rewrite sub_upd_out by (rewrite ?length_to_le; destruct (Hord (i + 1)); lia).
        unfold buf1. rewrite sub_upd_in by lia. rewrite Z.sub_diag. apply sub_whole; lia.
      * intros k' Hk'. destruct (Hord k'); [lia|]. split; [lia|]. left. unfold ue in *. lia.
    + rewrite Hk2 by lia. apply Hout; destruct (Hord k); unfold ue in *; lia.
  - intros a m Ha Hd. rewrite Ho; [|done|intros k' Hk'; apply Hd; lia].
    destruct (Hd i); [lia|]. by apply Hout.
Qed.
End loops.

(** ** The two functions *)

Lemma list_eq_sub {A} (l l' : list A) :
  length l' = length l → (∀ x, 0 ≤ x < len l → sub x 1 l' = sub x 1 l) → l' = l.
Proof.
  intros Hl Hs. apply list_eq. intros i. destruct (decide (i < length l)%nat).
  - specialize (Hs (Z.of_nat i) ltac:(lia)). apply (f_equal (.!! 0%nat)) in Hs.
    rewrite !lookup_sub in Hs. cbn in Hs. by rewrite Nat2Z.id, Nat.add_0_r in Hs.
  - by rewrite !lookup_ge_None_2 by lia.
Qed.

Abbreviation uso_of buf := (from_le (sub 4 2 buf)) (only parsing).
Abbreviation usc_of buf := (from_le (sub 6 2 buf)) (only parsing).

(** A record whose update sequence array is behind the header and before the
    end of the first sector, and whose sectors lie in the buffer. *)
Definition fixup_layout (ss : Z) (buf : list Z) : Prop :=
  bytes_ok buf ∧ 8 ≤ len buf < 2 ^ 63 ∧ 48 ≤ uso_of buf ∧ 1 ≤ usc_of buf ∧
  uso_of buf + 2 * usc_of buf ≤ ss - 2 ∧ (usc_of buf - 1) * ss ≤ len buf ∧ ss ≤ len buf.

(** The layout only depends on the header. *)
Lemma fixup_layout_same ss buf buf' :
  fixup_layout ss buf → bytes_ok buf' → length buf' = length buf → sub 0 48 buf' = sub 0 48 buf →
  fixup_layout ss buf'.
Proof.
  intros (Hb&?&?&?&?&?&?) Hb' Hl Hs.
  assert (X : ∀ (l : list Z) a m, 0 ≤ a → a + m ≤ 48 → sub a m l = sub a m (sub 0 48 l))
    by (intros; by rewrite sub_sub, Z.add_0_l by lia).
  unfold fixup_layout. rewrite (X buf' 4 2), (X buf' 6 2), Hs, <- !X, Hl by lia. split; [done|lia].
Qed.

Lemma apply_fixups_run ss buf :
  fixup_layout ss buf →
  apply_fixups buf ss =
    apply_loop (Z.to_nat (usc_of buf - 1)) 1 (uso_of buf) ss (from_le (sub (uso_of buf) 2 buf)) buf.
Proof.
  intros (Hb&Hl&H1&H2&H3&H4&H5). unfold apply_fixups. repeat bstep.
  rewrite (proj2 (Z.ltb_ge _ 48)), (proj2 (Z.ltb_ge (len buf) (_ + 2))) by lia. cbn [orb].
  rewrite (proj2 (Z.eqb_neq _ 0)), (proj2 (Z.ltb_ge (len buf) _)) by lia.
  by repeat bstep.
Qed.

Lemma reapply_fixups_run ss buf :
  fixup_layout ss buf →
  reapply_fixups buf ss =
    reapply_loop (Z.to_nat (usc_of buf - 1)) 1 (uso_of buf) ss (from_le (sub (uso_of buf) 2 buf)) buf.
Proof.
  intros (Hb&Hl&H1&H2&H3&H4&H5). unfold reapply_fixups. repeat bstep.
  rewrite (proj2 (Z.ltb_ge _ 48)) by lia. rewrite (proj2 (Z.eqb_neq _ 0)) by lia. cbn [orb].
  rewrite (proj2 (Z.ltb_ge (len buf) _)) by lia. by repeat bstep.
Qed.

(** Which sector end, if any, a position belongs to. *)
Lemma in_sector_end ss (n : nat) x :
  2 < ss → 0 ≤ x →
  (∃ k, 1 ≤ k < 1 + Z.of_nat n ∧ se ss k ≤ x < se ss k + 2) ∨
  (∀ k, 1 ≤ k < 1 + Z.of_nat n → x + 1 ≤ se ss k ∨ se ss k + 2 ≤ x).
Proof.
  intros Hss Hx. unfold se. set (q := (x + 2) / ss).
  pose proof (Z.div_mod (x + 2) ss) as Hd. pose proof (Z.mod_pos_bound (x + 2) ss) as Hm.
  fold q in Hd. destruct (decide (1 ≤ q < 1 + Z.of_nat n ∧ x + 2 < q * ss + 2)) as [[H1 H2]|Hno].
  - left. exists q. split; [done|]. nia.
  - right. intros k Hk. destruct (Z.lt_trichotomy k q) as [|[->|]]; [right; nia| |left; nia].
    right. nia.
Qed.

Lemma in_array uso (n : nat) x :
  (∃ k, 1 ≤ k < 1 + Z.of_nat n ∧ ue uso k ≤ x < ue uso k + 2) ∨
  (∀ k, 1 ≤ k < 1 + Z.of_nat n → x + 1 ≤ ue uso k ∨ ue uso k + 2 ≤ x).
Proof.
  unfold ue. destruct (decide (uso + 2 ≤ x < uso + 2 + 2 * Z.of_nat n)).
  - left. exists ((x - uso) / 2). pose proof (Z.div_mod (x - uso) 2).
    pose proof (Z.mod_pos_bound (x - uso) 2). lia.
  - right. intros. lia.
Qed.

Lemma sub1_of_sub2 (l : list Z) a x : 0 ≤ a ≤ x → x < a + 2 → sub x 1 l = sub (x - a) 1 (sub a 2 l).
Proof. intros. rewrite sub_sub by lia. f_equal. lia. Qed.

(** Both kinds of loop leave the two header fields and the sequence number. *)
Lemma header_kept ss (n : nat) (buf buf' : list Z) uso :
  48 ≤ uso → uso + 2 ≤ ss - 2 →
  (∀ a m, 0 ≤ a → (∀ k, 1 ≤ k < 1 + Z.of_nat n →
       (a + m ≤ se ss k ∨ se ss k + 2 ≤ a) ∧ (a + m ≤ ue uso k ∨ ue uso k + 2 ≤ a)) →
     sub a m buf' = sub a m buf) →
  sub 4 2 buf' = sub 4 2 buf ∧ sub 6 2 buf' = sub 6 2 buf ∧ sub uso 2 buf' = sub uso 2 buf.
Proof.
  intros Hu Hs Ho. assert (∀ k, 1 ≤ k → ss - 2 ≤ se ss k) by (intros; unfold se; nia).
  split_and!; apply Ho; try lia; intros k Hk; specialize (H k ltac:(lia)); unfold ue; lia.
Qed.

(** Applying the fixups keeps the header and the layout. *)
Lemma apply_fixups_keeps ss raw buf :
  fixup_layout ss raw → apply_fixups raw ss = Ok buf →
  fixup_layout ss buf ∧ length buf = length raw ∧ sub 0 48 buf = sub 0 48 raw.
Proof.
  intros Hlay Ha. rewrite apply_fixups_run in Ha by done.
  destruct Hlay as (Hb&Hl&H1&H2&H3&H4&H5).
  set (n := Z.to_nat (usc_of raw - 1)) in *.
  apply apply_loop_spec in Ha as ((Hlen&_&Ho)&Hb'&_); [|done|lia|lia|lia|lia|unfold ue; lia|lia].
  assert (Hss : ∀ k, 1 ≤ k → ss - 2 ≤ se ss k) by (intros; unfold se; nia).
  assert (Hk : ∀ a m, 0 ≤ a → a + m ≤ 48 → sub a m buf = sub a m raw).
  { intros. apply Ho; [lia|]. intros k Hk. specialize (Hss k ltac:(lia)). lia. }
  unfold fixup_layout. rewrite (Hk 4 2), (Hk 6 2), Hlen by lia. split; [split; [done|lia]|]. split; [done|].
  apply Hk; lia.
Qed.

Lemma reapply_after_apply ss raw buf :
  fixup_layout ss raw → apply_fixups raw ss = Ok buf → reapply_fixups buf ss = Ok raw.
Proof.
  intros Hlay Ha. rewrite apply_fixups_run in Ha by done.
  destruct Hlay as (Hb&Hl&H1&H2&H3&H4&H5).
  set (uso := uso_of raw) in *. set (usc := usc_of raw) in *.
  set (n := Z.to_nat (usc - 1)) in *. set (sq := from_le (sub uso 2 raw)) in *.
  assert (Hn : Z.of_nat n = usc - 1) by lia.
  apply apply_loop_spec in Ha as ((Hlen&Hk&Ho)&Hb'&Hq); [|done|lia|lia|lia|lia|unfold ue; lia|lia].
  destruct (header_kept ss n raw buf uso) as (E4&E6&Eu); [lia|lia|intros a m Ha Hd; apply Ho; [done|]; intros k Hk'; by apply Hd|].
  assert (Hlay' : fixup_layout ss buf).
  { unfold fixup_layout. rewrite E4, E6, Hlen. fold uso usc. split; [done|lia]. }
  rewrite reapply_fixups_run by done. rewrite E4, E6. fold uso usc n. rewrite Eu. fold sq.
  destruct (reapply_loop_spec uso ss n 1 sq buf) as (raw2&Hr&(Hl2&Hk1&Hk2&Ho2)&_);
    [done|lia|lia|lia|lia|unfold ue; lia|lia|].
  rewrite Hr. f_equal. apply list_eq_sub; [lia|]. intros x Hx.
  destruct (in_sector_end ss n x) as [(k&Hk'&Hxk)|Hse]; [lia|lia| |].
  - assert (0 ≤ se ss k) by (unfold se; nia).
    rewrite !(sub1_of_sub2 _ (se ss k) x) by lia. f_equal. rewrite Hk1 by done.
    rewrite <- (Hq k) by done. apply to_from_le'; [auto with bytes|].
    apply len_sub; unfold se; nia.
  - destruct (in_array uso n x) as [(k&Hk'&Hxk)|Hue].
    + assert (0 ≤ ue uso k) by (unfold ue; lia).
      rewrite !(sub1_of_sub2 _ (ue uso k) x) by lia. f_equal. by rewrite Hk2, Hk.
    + rewrite Ho2 by (try lia; intros; split; auto). apply Ho; [lia|auto].
Qed.

Lemma apply_after_reapply ss buf :
  fixup_layout ss buf →
  ∃ raw buf', reapply_fixups buf ss = Ok raw ∧ apply_fixups raw ss = Ok buf' ∧
    length raw = length buf ∧ length buf' = length buf ∧ bytes_ok raw ∧ bytes_ok buf' ∧
    sub 0 48 raw = sub 0 48 buf ∧
    (∀ a m, 0 ≤ a → 0 ≤ m → a + m ≤ uso_of buf + 2 ∨ uso_of buf + 2 * usc_of buf ≤ a →
       a + m ≤ len buf → sub a m buf' = sub a m buf) ∧
    (2 ≤ usc_of buf → fixups_applied raw ss = Ok false).
Proof.
  intros Hlay. pose proof Hlay as (Hb&Hl&H1&H2&H3&H4&H5). rewrite reapply_fixups_run by done.
  set (uso := uso_of buf) in *. set (usc := usc_of buf) in *.
  set (n := Z.to_nat (usc - 1)) in *. set (sq := from_le (sub uso 2 buf)) in *.
  assert (Hn : Z.of_nat n = usc - 1) by lia.
  destruct (reapply_loop_spec uso ss n 1 sq buf) as (raw&Hr&(Hlen&Hk1&Hk2&Ho)&Hb1);
    [done|lia|lia|lia|lia|unfold ue; lia|lia|].
  destruct (header_kept ss n buf raw uso) as (E4&E6&Eu); [lia|lia|done|].
  assert (Hlay' : fixup_layout ss raw).
  { unfold fixup_layout. rewrite E4, E6, Hlen. fold uso usc. split; [done|lia]. }
  assert (Hsq : u16_le sq = sub uso 2 buf).
  { apply to_from_le'; [auto with bytes|]. apply len_sub; lia. }
  destruct (apply_loop_ok uso ss n 1 sq raw) as (buf'&Ha);
    [done|lia|lia|lia|lia|unfold ue; lia|lia| |].
  { intros k Hk. rewrite Hk1 by lia. rewrite Hsq. done. }
  pose proof Ha as Ha'.
  apply apply_loop_spec in Ha' as ((Hlen'&Hk&Ho')&Hb'&Hq); [|done|lia|lia|lia|lia|unfold ue; lia|lia].
  exists raw, buf'. split; [done|]. split.
  { rewrite apply_fixups_run by done. rewrite E4, E6. fold uso usc n. by rewrite Eu. }
  split; [done|]. split; [lia|]. split; [done|]. split; [done|].
  assert (Hss : ∀ k, 1 ≤ k → ss - 2 ≤ se ss k) by (intros; unfold se; nia).
  split.
  { apply Ho; [lia|]. intros k Hk'. specialize (Hss k ltac:(lia)). unfold ue. lia. }
  split.
  - intros a m Ha0 Hm Hdis Hin. apply list_eq. intros j.
    rewrite !lookup_sub. case_decide as Hj; [|done].
    set (x := a + Z.of_nat j). 
    assert (Hx1 : sub x 1 buf' = sub x 1 buf).
    { destruct (in_sector_end ss n x) as [(k&Hk'&Hxk)|Hse]; [lia|lia| |].
      - assert (0 ≤ se ss k) by (unfold se; nia).
        rewrite !(sub1_of_sub2 _ (se ss k) x) by lia. f_equal. by rewrite Hk, Hk2.
      - rewrite Ho' by (try lia; auto). apply Ho; [lia|].
        intros k Hk'. split; [auto|]. unfold ue. lia. }
    apply (f_equal (.!! 0%nat)) in Hx1. rewrite !lookup_sub in Hx1. cbn in Hx1.
    replace (Z.to_nat x + 0)%nat with (Z.to_nat a + j)%nat in Hx1 by lia. done.
  - intros Husc. unfold fixups_applied. repeat bstep. rewrite E4, E6. fold uso usc.
    rewrite (proj2 (Z.ltb_ge uso 48)), (proj2 (Z.eqb_neq usc 0)), (proj2 (Z.ltb_ge _ (uso + 2)))
      by lia. cbn [orb]. bstep. bstep. rewrite (proj2 (Z.ltb_lt 1 usc)) by lia.
    rewrite (wrap_small 64 (ss - 2)) by lia. rewrite wrap_small by lia.
    rewrite (proj2 (Z.leb_le _ _)) by lia. bstep. bstep.
    replace (ss - 2) with (se ss 1) by (unfold se; lia). rewrite Hk1 by lia.
    rewrite Eu, Hsq, Z.eqb_refl. done.
Qed.

(** ** Properties *)

(** Writing a record back unmodified restores the disk image:
    [reapply_fixups] undoes [apply_fixups] exactly. *)
Theorem reapply_fixups_undoes_apply (ss : Z) (raw buf : list Z) :
  fixup_layout ss raw → apply_fixups raw ss = Ok buf → reapply_fixups buf ss = Ok raw.
Proof. apply reapply_after_apply. Qed.

(** A record protected by [reapply_fixups] is read back by [apply_fixups]
    unchanged everywhere outside the update sequence array (where the saved
    sector ends stay). *)
Theorem apply_fixups_undoes_reapply (ss : Z) (buf : list Z) :
  fixup_layout ss buf →
  ∃ raw buf', reapply_fixups buf ss = Ok raw ∧ apply_fixups raw ss = Ok buf' ∧
    length buf' = length buf ∧
    ∀ a m, 0 ≤ a → 0 ≤ m → a + m ≤ uso_of buf + 2 ∨ uso_of buf + 2 * usc_of buf ≤ a →
       a + m ≤ len buf → sub a m buf' = sub a m buf.
Proof.
  intros H. destruct (apply_after_reapply ss buf H) as (raw&buf'&H1&H2&_&H3&_&_&_&H4&_).
  exists raw, buf'. by split_and!.
Qed.

(** [fixups_applied] answers [false] on a record whose sector ends hold
    the sequence number, where its comment says it returns [true]. *)
Theorem fixups_applied_inverted (ss : Z) (buf : list Z) :
  fixup_layout ss buf → 2 ≤ usc_of buf →
  ∃ raw, reapply_fixups buf ss = Ok raw ∧ fixups_applied raw ss = Ok false.
Proof.
  intros H H2. destruct (apply_after_reapply ss buf H) as (raw&buf'&H1&_&_&_&_&_&_&_&H3).
  exists raw. auto.
Qed.

(** A two-sector record: array at 48, sequence number 7. *)
Definition demo_record : list Z :=
  [0x46; 0x49; 0x4C; 0x45; 48; 0; 3; 0] ++ zeros 40 ++ [7; 0; 0; 0; 0; 0] ++ replicate 970 5.
Definition demo_raw : list Z :=
  match reapply_fixups demo_record 512 with Ok r => r | _ => [] end.

Lemma demo_record_layout : fixup_layout 512 demo_record.
Proof.
  unfold fixup_layout. split; [|by vm_compute].
  apply bytes_ok_check. by vm_compute.
Qed.

Lemma demo_raw_layout : fixup_layout 512 demo_raw.
Proof.
  destruct (apply_after_reapply 512 demo_record demo_record_layout) as (raw&_&H1&_&_&_&H2&_).
  assert (demo_raw = raw) as <- by (unfold demo_raw; by rewrite H1).
  split; [exact H2|]. clear. by vm_compute.
Qed.

Lemma reapply_fixups_undoes_apply_witness :
  ∃ buf, apply_fixups demo_raw 512 = Ok buf ∧ reapply_fixups buf 512 = Ok demo_raw.
Proof.
  destruct (apply_fixups demo_raw 512) as [buf| | |] eqn:H;
    [|vm_compute in H; discriminate H..].
  exists buf. split; [reflexivity|].
  exact (reapply_fixups_undoes_apply 512 demo_raw buf demo_raw_layout H).
Defined.

Lemma apply_fixups_undoes_reapply_witness :
  ∃ raw buf', reapply_fixups demo_record 512 = Ok raw ∧ apply_fixups raw 512 = Ok buf' ∧
    sub 500 24 buf' = sub 500 24 demo_record.
Proof.
  destruct (apply_fixups_undoes_reapply 512 demo_record demo_record_layout)
    as (raw&buf'&H1&H2&_&H3).
  exists raw, buf'. split; [exact H1|]. split; [exact H2|].
  refine (H3 500 24 _ _ _ _); [by vm_compute|by vm_compute|right; by vm_compute|by vm_compute].
Defined.

Lemma fixups_applied_inverted_witness :
  ∃ raw, reapply_fixups demo_record 512 = Ok raw ∧ fixups_applied raw 512 = Ok false.
Proof. refine (fixups_applied_inverted 512 demo_record demo_record_layout _). by vm_compute. Defined.
