(* ===== verification/NtfsRecord.v ===== *)
(** * Building MFT records

    The record builders of [fs/ntfs/write.rs]: [build_mft_record] and the
    writers of the four attributes. [mft_record_size] is the field of the
    driver they read. *)

From S2P Require Import Prelude Bytes Text BlockDev NtfsTypes NtfsBoot NtfsRuns NtfsAttr.

(** [(n + 7) & !7] *)
Definition align8 (n : Z) : Z := Z.land (n + 7) (Z.lnot 7).

(** [for (i, &c) in utf16.iter().enumerate() { .. }] writing the units from
    position [pos]. *)
Fixpoint write_units (record : list Z) (pos : Z) (units : list Z) : outcome NtfsError (list Z) :=
  match units with
  | [] => mret record
  | c :: units =>
      record ← copy_to record pos (pos + 2) (u16_le c);
      write_units record (pos + 2) units
  end.

Definition write_standard_info_attr (record : list Z) (offset : Z) (is_directory : bool)
  : outcome NtfsError (list Z * Z) :=
  let DATA_LEN := 72 in
  let ATTR_LEN := 24 + DATA_LEN in
  if len record <? offset + ATTR_LEN then Err Ntfs_NoSpace else
  record ← copy_to record offset (offset + 4) (u32_le 0x10);
  record ← copy_to record (offset + 4) (offset + 8) (u32_le ATTR_LEN);
  record ← set_idx record (offset + 8) 0;
  record ← set_idx record (offset + 9) 0;
  record ← copy_to record (offset + 10) (offset + 12) (u16_le 0);
  record ← copy_to record (offset + 12) (offset + 14) (u16_le 0);
  record ← copy_to record (offset + 14) (offset + 16) (u16_le 0);
  record ← copy_to record (offset + 16) (offset + 20) (u32_le DATA_LEN);
  record ← copy_to record (offset + 20) (offset + 22) (u16_le 24);
  record ← fill_to record (offset + 22) (offset + 24) 0;
  let d := offset + 24 in
  let now := 0 in
  let flags := if is_directory then 0x10 else 0x20 in
  record ← copy_to record d (d + 8) (u64_le now);
  record ← copy_to record (d + 8) (d + 16) (u64_le now);
  record ← copy_to record (d + 16) (d + 24) (u64_le now);
  record ← copy_to record (d + 24) (d + 32) (u64_le now);
  record ← copy_to record (d + 32) (d + 36) (u32_le flags);
  record ← fill_to record (d + 36) (d + 72) 0;
  mret (record, offset + ATTR_LEN).

Definition write_filename_attr (record : list Z) (offset : Z) (name : rstring) (parent_record : Z)
  : outcome NtfsError (list Z * Z) :=
  let utf16 := encode_utf16 name in
  let name_len := len utf16 in
  if 255 <? name_len then Err Ntfs_NameTooLong else
  let data_len := 66 + name_len * 2 in
  let attr_len := align8 (24 + data_len) in
  if len record <? offset + attr_len then Err Ntfs_NoSpace else
  record ← copy_to record offset (offset + 4) (u32_le 0x30);
  record ← copy_to record (offset + 4) (offset + 8) (u32_le attr_len);
  record ← set_idx record (offset + 8) 0;
  record ← set_idx record (offset + 9) 0;
  record ← copy_to record (offset + 10) (offset + 12) (u16_le 0);
  record ← copy_to record (offset + 12) (offset + 16) (u32_le 0);
  record ← copy_to record (offset + 16) (offset + 20) (u32_le data_len);
  record ← copy_to record (offset + 20) (offset + 22) (u16_le 24);
  record ← set_idx record (offset + 22) 1;
  record ← set_idx record (offset + 23) 0;
  let d := offset + 24 in
  record ← copy_to record d (d + 8) (u64_le parent_record);
  record ← fill_to record (d + 8) (d + 64) 0;
  record ← set_idx record (d + 64) name_len;
  record ← set_idx record (d + 65) 1;
  record ← write_units record (d + 66) utf16;
  mret (record, offset + attr_len).

Definition MAX_RESIDENT_DATA : Z := 700.

Definition write_data_attr (record : list Z) (offset : Z) (data : list Z)
  : outcome NtfsError (list Z * Z) :=
  if MAX_RESIDENT_DATA <? len data then Err Ntfs_InvalidAttribute else
  let data_len := len data in
  let attr_len := align8 (24 + data_len) in
  if len record <? offset + attr_len then Err Ntfs_NoSpace else
  record ← copy_to record offset (offset + 4) (u32_le 0x80);
  record ← copy_to record (offset + 4) (offset + 8) (u32_le attr_len);
  record ← set_idx record (offset + 8) 0;
  record ← set_idx record (offset + 9) 0;
  record ← copy_to record (offset + 10) (offset + 12) (u16_le 0);
  record ← copy_to record (offset + 12) (offset + 16) (u32_le 0);
  record ← copy_to record (offset + 16) (offset + 20) (u32_le data_len);
  record ← copy_to record (offset + 20) (offset + 22) (u16_le 24);
  record ← fill_to record (offset + 22) (offset + 24) 0;
  record ← copy_to record (offset + 24) (offset + 24 + data_len) data;
  record ← fill_to record (offset + 24 + data_len) (offset + attr_len) 0;
  mret (record, offset + attr_len).

Definition write_index_root_attr (mft_record_size : Z) (record : list Z) (offset : Z)
  : outcome NtfsError (list Z * Z) :=
  let INDEX_ROOT_HEADER_LEN := 16 in
  let INDEX_HEADER_LEN := 16 in
  let END_ENTRY_LEN := 16 in
  let data_len := INDEX_ROOT_HEADER_LEN + INDEX_HEADER_LEN + END_ENTRY_LEN in
  let attr_len := 24 + data_len in
  if len record <? offset + attr_len then Err Ntfs_NoSpace else
  record ← copy_to record offset (offset + 4) (u32_le 0x90);
  record ← copy_to record (offset + 4) (offset + 8) (u32_le attr_len);
  record ← set_idx record (offset + 8) 0;
  record ← set_idx record (offset + 9) 0;
  record ← copy_to record (offset + 10) (offset + 12) (u16_le 0);
  record ← copy_to record (offset + 12) (offset + 16) (u32_le 0);
  record ← copy_to record (offset + 16) (offset + 20) (u32_le data_len);
  record ← copy_to record (offset + 20) (offset + 22) (u16_le 24);
  record ← fill_to record (offset + 22) (offset + 24) 0;
  let d := offset + 24 in
  record ← copy_to record d (d + 4) (u32_le 0x30);
  record ← copy_to record (d + 4) (d + 8) (u32_le 0);
  record ← copy_to record (d + 8) (d + 12) (u32_le mft_record_size);
  record ← set_idx record (d + 12) 1;
  record ← fill_to record (d + 13) (d + 16) 0;
  let ih := d + 16 in
  let first_entry_offset := INDEX_ROOT_HEADER_LEN + INDEX_HEADER_LEN in
  let total_size := INDEX_ROOT_HEADER_LEN + INDEX_HEADER_LEN + END_ENTRY_LEN in
  record ← copy_to record ih (ih + 4) (u32_le first_entry_offset);
  record ← copy_to record (ih + 4) (ih + 8) (u32_le total_size);
  record ← copy_to record (ih + 8) (ih + 12) (u32_le total_size);
  record ← fill_to record (ih + 12) (ih + 16) 0;
  let le := d + 32 in
  record ← copy_to record le (le + 8) (u64_le 0);
  record ← copy_to record (le + 8) (le + 10) (u16_le 16);
  record ← copy_to record (le + 10) (le + 12) (u16_le 0);
  record ← copy_to record (le + 12) (le + 14) (u16_le 0x0002);
  record ← fill_to record (le + 14) (le + 16) 0;
  mret (record, offset + attr_len).

Definition FILE_SIG : list Z := [0x46; 0x49; 0x4C; 0x45].

(** The 56 bytes before the attributes. *)
Definition mft_header (mft_record_size seq : Z) (record : list Z) : outcome NtfsError (list Z) :=
  record ← copy_to record 0x00 0x04 FILE_SIG;
  record ← copy_to record 0x04 0x06 (u16_le 48);
  record ← copy_to record 0x06 0x08 (u16_le 3);
  record ← copy_to record 0x08 0x10 (u64_le 0);
  record ← copy_to record 0x10 0x12 (u16_le seq);
  record ← copy_to record 0x12 0x14 (u16_le 1);
  record ← copy_to record 0x14 0x16 (u16_le 56);
  record ← copy_to record 0x16 0x18 (u16_le 1);
  record ← copy_to record 0x18 0x1C (u32_le 0);
  record ← copy_to record 0x1C 0x20 (u32_le mft_record_size);
  record ← copy_to record 0x20 0x28 (u64_le 0);
  record ← copy_to record 0x28 0x2A (u16_le 0);
  record ← fill_to record 0x2A 0x30 0;
  record ← copy_to record 0x30 0x32 (u16_le seq);
  fill_to record 0x32 0x36 0.

Definition build_mft_record (mft_record_size record_number : Z) (name : rstring) (parent_record : Z)
    (is_directory : bool) (data : list Z) : outcome NtfsError (list Z) :=
  record ← vec_zeroed mft_record_size;
  let seq := Z.land record_number 0xFFFF in
  record ← mft_header mft_record_size seq record;
  let off := 56 in
  '(record, off) ← write_standard_info_attr record off is_directory;
  '(record, off) ← write_filename_attr record off name parent_record;
  '(record, off) ← (if is_directory then write_index_root_attr mft_record_size record off
                    else write_data_attr record off data);
  record ← copy_to record off (off + 4) (u32_le 0xFFFFFFFF);
  let off := off + 4 in
  let used_size := align8 off in
  copy_to record 0x18 0x1C (u32_le used_size).
