(* ===== verification/NtfsRecordFacts.v ===== *)
(** * What the record builders produce

    The exact bytes of a record made by [build_mft_record], and that
    [parse_stat] reads back what was put in. *)

From S2P Require Import Prelude Bytes Text BlockDev NtfsTypes NtfsBoot NtfsRuns NtfsAttr NtfsRecord.

(** ** Sequential field writes *)

Section adj.
Context {E : Type}.
Implicit Types l acc src : list Z.

Lemma copy_adj l acc src off a b :
  0 ≤ off → a = off + len acc → b = a + len src → b ≤ len l →
  copy_to (E:=E) (upd off acc l) a b src = Ok (upd off (acc ++ src) l).
Proof.
  intros ? -> -> ?. rewrite copy_to_ok by (rewrite ?len_upd; lia).
  f_equal. apply upd_upd_adj; lia.
Qed.
Lemma set_adj l acc off a v :
  0 ≤ off → a = off + len acc → a + 1 ≤ len l →
  set_idx (E:=E) (upd off acc l) a v = Ok (upd off (acc ++ [v]) l).
Proof.
  intros ? -> ?. rewrite set_idx_ok by (rewrite ?len_upd; lia).
  f_equal. apply upd_upd_adj; cbn [length]; lia.
Qed.
Lemma fill_adj l acc off a b :
  0 ≤ off → a = off + len acc → a ≤ b → b ≤ len l →
  fill_to (E:=E) (upd off acc l) a b 0 = Ok (upd off (acc ++ zeros (b - a)) l).
Proof.
  intros ? -> ??. rewrite fill_to_ok by (rewrite ?len_upd; lia).
  f_equal. apply upd_upd_adj; rewrite ?length_zeros, ?length_replicate; lia.
Qed.
End adj.

Lemma write_units_adj l acc us off :
  0 ≤ off → off + len acc + 2 * len us ≤ len l →
  write_units (upd off acc l) (off + len acc) us = Ok (upd off (acc ++ (us ≫= λ u, u16_le u)) l).
Proof.
  intros Hoff. revert acc. induction us as [|u us IH]; intros acc Hl; cbn [write_units].
  - by rewrite app_nil_r.
  - cbn [length] in Hl. rewrite copy_adj by (rewrite ?length_to_le; lia). rewrite bind_Ok.
    replace (off + len acc + 2) with (off + len (acc ++ u16_le u))
      by (rewrite length_app, length_to_le; lia).
    rewrite IH by (rewrite length_app, length_to_le; lia).
    by rewrite bind_cons, <- app_assoc.
Qed.

(** [wstep] runs the next field write of a straight-line sequence. *)
Ltac wstep :=
  match goal with
  | |- context [copy_to (E:=?E) (upd ?off ?acc ?l) ?a ?b ?s] =>
      rewrite (copy_adj (E:=E) l acc s off a b) by blen
  | |- context [set_idx (E:=?E) (upd ?off ?acc ?l) ?a ?v] =>
      rewrite (set_adj (E:=E) l acc off a v) by blen
  | |- context [fill_to (E:=?E) (upd ?off ?acc ?l) ?a ?b 0] =>
      rewrite (fill_adj (E:=E) l acc off a b) by blen
  | |- context [copy_to (E:=?E) ?l ?a ?b ?s] => rewrite (copy_to_ok (E:=E) l a b s) by blen
  end; rewrite ?bind_Ok.

Lemma align8_eq n : align8 n = 8 * ((n + 7) / 8).
Proof.
  unfold align8. rewrite <- Z.ldiff_land. change 7 with (Z.ones 3) at 2.
  rewrite Z.ldiff_ones_r, Z.shiftl_mul_pow2, Z.shiftr_div_pow2 by lia.
  change (2 ^ 3) with 8. lia.
Qed.

Lemma align8_range n : n ≤ align8 n < n + 8.
Proof. rewrite align8_eq. dlia. Qed.

(** ** The attributes *)

Definition attr_head (type attr_len data_len : Z) (flags : list Z) : list Z :=
  u32_le type ++ u32_le attr_len ++ [0; 0] ++ u16_le 0 ++ u32_le 0 ++ u32_le data_len ++
  u16_le 24 ++ flags.

Definition std_info_bytes (is_directory : bool) : list Z :=
  attr_head 0x10 96 72 [0; 0] ++ zeros 32 ++ u32_le (if is_directory then 0x10 else 0x20) ++ zeros 36.

Definition filename_data_len (name : rstring) : Z := 66 + len (encode_utf16 name) * 2.
Definition filename_len (name : rstring) : Z := align8 (24 + filename_data_len name).
(** The bytes written, without the padding. *)
Definition filename_bytes (name : rstring) (parent : Z) : list Z :=
  attr_head 0x30 (filename_len name) (filename_data_len name) [1; 0] ++
  u64_le parent ++ zeros 56 ++ [len (encode_utf16 name); 1] ++
  (encode_utf16 name ≫= λ u, u16_le u).

Definition data_attr_len (data : list Z) : Z := align8 (24 + len data).
Definition data_bytes (data : list Z) : list Z :=
  attr_head 0x80 (data_attr_len data) (len data) [0; 0] ++ data ++
  zeros (data_attr_len data - (24 + len data)).

(** The value of a fresh index root. *)
Definition index_root_value (mft_record_size : Z) : list Z :=
  u32_le 0x30 ++ u32_le 0 ++ u32_le mft_record_size ++ [1] ++ zeros 3 ++
  u32_le 32 ++ u32_le 48 ++ u32_le 48 ++ zeros 4 ++
  u64_le 0 ++ u16_le 16 ++ u16_le 0 ++ u16_le 2 ++ zeros 2.
Definition index_root_bytes (mft_record_size : Z) : list Z :=
  attr_head 0x90 72 48 [0; 0] ++ index_root_value mft_record_size.

Lemma write_standard_info_attr_ok rec off isd :
  0 ≤ off →
  write_standard_info_attr rec off isd =
    if len rec <? off + 96 then Err Ntfs_NoSpace
    else Ok (upd off (std_info_bytes isd) rec, off + 96).
Proof.
  intros Hoff. unfold write_standard_info_attr.
  destruct (Z.ltb_spec (len rec) (off + 96)) as [H|H]; [by rewrite (proj2 (Z.ltb_lt _ _))|].
  rewrite (proj2 (Z.ltb_ge _ _)) by lia. repeat wstep.
  replace (off + 24 - (off + 22)) with 2 by lia.
  replace (off + 24 + 72 - (off + 24 + 36)) with 36 by lia.
  by destruct isd.
Qed.

Lemma write_filename_attr_ok rec off name parent :
  0 ≤ off → len (encode_utf16 name) ≤ 255 →
  write_filename_attr rec off name parent =
    if len rec <? off + filename_len name then Err Ntfs_NoSpace
    else Ok (upd off (filename_bytes name parent) rec, off + filename_len name).
Proof.
  intros Hoff Hn. unfold write_filename_attr.
  rewrite (proj2 (Z.ltb_ge 255 _)) by lia. fold (filename_data_len name). fold (filename_len name).
  destruct (Z.ltb_spec (len rec) (off + filename_len name)) as [H|H]; [done|].
  pose proof (align8_range (24 + filename_data_len name)) as Ha.
  fold (filename_len name) in Ha. unfold filename_data_len in Ha.
  repeat wstep.
  match goal with |- context [write_units (upd off ?acc rec) ?p _] =>
    replace p with (off + len acc) by blen end.
  rewrite write_units_adj by blen. rewrite bind_Ok.
  replace (off + 24 + 64 - (off + 24 + 8)) with 56 by lia.
  rewrite <- !app_assoc. done.
Qed.

Lemma write_data_attr_ok rec off data :
  0 ≤ off → len data ≤ 700 →
  write_data_attr rec off data =
    if len rec <? off + data_attr_len data then Err Ntfs_NoSpace
    else Ok (upd off (data_bytes data) rec, off + data_attr_len data).
Proof.
  intros Hoff Hn. unfold write_data_attr, MAX_RESIDENT_DATA.
  rewrite (proj2 (Z.ltb_ge 700 _)) by lia. fold (data_attr_len data).
  destruct (Z.ltb_spec (len rec) (off + data_attr_len data)) as [H|H]; [done|].
  pose proof (align8_range (24 + len data)) as Ha. fold (data_attr_len data) in Ha.
  repeat wstep.
  replace (off + 24 - (off + 22)) with 2 by lia.
  replace (off + data_attr_len data - (off + 24 + len data))
    with (data_attr_len data - (24 + len data)) by lia.
  rewrite <- !app_assoc. done.
Qed.

Lemma write_index_root_attr_ok sz rec off :
  0 ≤ off →
  write_index_root_attr sz rec off =
    if len rec <? off + 72 then Err Ntfs_NoSpace
    else Ok (upd off (index_root_bytes sz) rec, off + 72).
Proof.
  intros Hoff. unfold write_index_root_attr.
  destruct (Z.ltb_spec (len rec) (off + 72)) as [H|H]; [by rewrite (proj2 (Z.ltb_lt _ _))|].
  rewrite (proj2 (Z.ltb_ge _ _)) by lia. repeat wstep.
  replace (off + 24 - (off + 22)) with 2 by lia.
  replace (off + 24 + 16 - (off + 24 + 13)) with 3 by lia.
  replace (off + 24 + 16 + 16 - (off + 24 + 16 + 12)) with 4 by lia.
  replace (off + 24 + 32 + 16 - (off + 24 + 32 + 14)) with 2 by lia.
  reflexivity.
Qed.

(** ** The whole record *)

(** The 54 header bytes written, with a given used size. *)
Definition header_image (sz seq used : Z) : list Z :=
  FILE_SIG ++ u16_le 48 ++ u16_le 3 ++ u64_le 0 ++ u16_le seq ++ u16_le 1 ++ u16_le 56 ++
  u16_le 1 ++ u32_le used ++ u32_le sz ++ u64_le 0 ++ u16_le 0 ++ zeros 6 ++ u16_le seq ++ zeros 4.

Lemma mft_header_ok sz seq rec :
  54 ≤ len rec → mft_header sz seq rec = Ok (upd 0 (header_image sz seq 0) rec).
Proof.
  intros H. unfold mft_header. unfold FILE_SIG. repeat wstep. reflexivity.
Qed.

Lemma upd_zeros s n : len s ≤ n → upd 0 s (zeros n) = s ++ zeros (n - len s).
Proof.
  intros. unfold upd, zeros. change (Z.to_nat 0) with 0%nat.
  rewrite take_0, app_nil_l, Nat.add_0_l, drop_replicate. do 2 f_equal. lia.
Qed.

(** Writing behind a gap of zeros. *)
Lemma upd_zeros_gap s t n a :
  len s ≤ a → a + len t ≤ n →
  upd a t (upd 0 s (zeros n)) = upd 0 (s ++ zeros (a - len s) ++ t) (zeros n).
Proof.
  intros. rewrite !upd_zeros by (rewrite ?length_app, ?length_zeros; lia).
  replace (n - len s) with ((a - len s) + (n - a)) by lia. rewrite zeros_app by lia.
  rewrite (app_assoc s). replace (n - a) with (len t + (n - a - len t)) by lia.
  rewrite zeros_app by lia.
  rewrite (upd_field (s ++ zeros (a - len s)) (zeros (len t)) t);
    [|rewrite length_app, length_zeros; lia|rewrite length_zeros; lia].
  rewrite <- !app_assoc. do 4 f_equal. rewrite !length_app, length_zeros. lia.
Qed.

Section record.
Context (sz num : Z) (name : rstring) (parent : Z) (isd : bool) (data : list Z).

Definition body_attr : list Z := if isd then index_root_bytes sz else data_bytes data.
Definition body_len : Z := if isd then 72 else data_attr_len data.
(** Offset of the end marker. *)
Definition record_end : Z := 152 + filename_len name + body_len.

(** The padding [write_filename_attr] leaves behind the name. *)
Definition filename_padding : list Z :=
  zeros (filename_len name - (24 + filename_data_len name)).

Definition record_image (used : Z) : list Z :=
  header_image sz (Z.land num 0xFFFF) used ++ zeros 2 ++ std_info_bytes isd ++
  (filename_bytes name parent ++ filename_padding) ++ body_attr ++ u32_le 0xFFFFFFFF.

Lemma length_filename_bytes : len (filename_bytes name parent) = 24 + filename_data_len name.
Proof.
  unfold filename_bytes, attr_head, filename_data_len. rewrite !length_app, length_units.
  rewrite !length_to_le, length_zeros. cbn [length]. lia.
Qed.

Lemma length_filename_padded : len (filename_bytes name parent ++ filename_padding) = filename_len name.
Proof.
  rewrite length_app, Nat2Z.inj_add, length_filename_bytes. unfold filename_padding.
  rewrite length_zeros. pose proof (align8_range (24 + filename_data_len name)).
  fold (filename_len name) in *. lia.
Qed.

Lemma length_data_bytes : len (data_bytes data) = data_attr_len data.
Proof.
  unfold data_bytes, attr_head. rewrite !length_app, !length_to_le, length_zeros. cbn [length].
  pose proof (align8_range (24 + len data)). fold (data_attr_len data) in *. lia.
Qed.

Lemma length_body_attr : len body_attr = body_len.
Proof. unfold body_attr, body_len. destruct isd; [done|apply length_data_bytes]. Qed.

Lemma length_header_image s used : len (header_image sz s used) = 54.
Proof. reflexivity. Qed.
Lemma length_std_info_bytes : len (std_info_bytes isd) = 96.
Proof. by destruct isd. Qed.

Lemma length_record_image used : len (record_image used) = record_end + 4.
Proof.
  unfold record_image, record_end. pose proof length_filename_padded as H1.
  pose proof length_body_attr as H2. pose proof length_std_info_bytes as H3.
  pose proof (length_header_image (Z.land num 0xFFFF) used) as H4.
  rewrite !length_app, length_zeros, length_to_le. rewrite length_app in H1. lia.
Qed.

Lemma upd_used s used used' rest :
  upd 24 (u32_le used') (header_image sz s used ++ rest) = header_image sz s used' ++ rest.
Proof. reflexivity. Qed.

(** The three outcomes: the record, a panic when only the end marker does not
    fit, [NoSpace] otherwise. *)
Lemma build_mft_record_cases :
  152 ≤ sz < 2 ^ 63 → len (encode_utf16 name) ≤ 255 → len data ≤ 700 →
  build_mft_record sz num name parent isd data =
    if sz <? record_end then Err Ntfs_NoSpace
    else if sz <? record_end + 4 then Panic
    else Ok (record_image (align8 (record_end + 4)) ++ zeros (sz - (record_end + 4))).
Proof.
  intros Hsz Hn Hd. unfold build_mft_record. cbv zeta. rewrite vec_zeroed_ok, bind_Ok by lia.
  set (seq := Z.land num 0xFFFF).
  assert (Hz : len (zeros sz) = sz) by (rewrite length_zeros; lia).
  rewrite mft_header_ok by lia. rewrite bind_Ok.
  set (r0 := upd 0 (header_image sz seq 0) (zeros sz)).
  assert (H0 : len r0 = sz) by (unfold r0; rewrite len_upd; rewrite ?length_header_image; lia).
  rewrite write_standard_info_attr_ok by lia. rewrite H0, (proj2 (Z.ltb_ge _ _)) by lia.
  rewrite bind_Ok. change (56 + 96) with 152.
  assert (Hs : len (std_info_bytes isd) = 96) by by destruct isd.
  set (r1 := upd 56 (std_info_bytes isd) r0).
  assert (H1 : len r1 = sz) by (unfold r1; rewrite len_upd; lia).
  rewrite write_filename_attr_ok by lia. rewrite H1.
  pose proof (align8_range (24 + filename_data_len name)) as Hf. fold (filename_len name) in Hf.
  assert (Hf0 : 0 ≤ filename_data_len name) by (unfold filename_data_len; lia).
  assert (Hb0 : 0 ≤ body_len).
  { unfold body_len. destruct isd; [lia|]. pose proof (align8_range (24 + len data)).
    unfold data_attr_len. lia. }
  destruct (Z.ltb_spec sz (152 + filename_len name)) as [Hx|Hx].
  { rewrite bind_Err. by rewrite (proj2 (Z.ltb_lt sz record_end)) by (unfold record_end; lia). }
  rewrite bind_Ok. set (r2 := upd 152 (filename_bytes name parent) r1).
  pose proof length_filename_bytes as Hlf.
  assert (H2 : len r2 = sz) by (unfold r2; rewrite len_upd; lia).
  assert (Hbody : (if isd then write_index_root_attr sz r2 (152 + filename_len name)
    else write_data_attr r2 (152 + filename_len name) data) =
    if sz <? record_end then Err Ntfs_NoSpace
    else Ok (upd (152 + filename_len name) body_attr r2, record_end)).
  { unfold record_end, body_len, body_attr. destruct isd.
    - rewrite write_index_root_attr_ok by lia. by rewrite H2.
    - rewrite write_data_attr_ok by lia. by rewrite H2. }
  rewrite Hbody. clear Hbody. destruct (Z.ltb_spec sz record_end) as [Hy|Hy]; [done|].
  rewrite bind_Ok. pose proof length_body_attr as Hlb.
  set (r3 := upd (152 + filename_len name) body_attr r2).
  assert (H3 : len r3 = sz) by (unfold r3; rewrite len_upd; unfold record_end in Hy; lia).
  destruct (Z.ltb_spec sz (record_end + 4)) as [Hw|Hw].
  { unfold copy_to. rewrite H3. rewrite (proj2 (Z.leb_gt (record_end + 4) sz)) by lia.
    by rewrite andb_false_r. }
  rewrite copy_to_ok by (rewrite ?length_to_le; unfold record_end in *; lia). rewrite bind_Ok.
  (* collapse the writes *)
  pose proof length_filename_padded as Hlp.
  assert (E1 : r1 = upd 0 (header_image sz seq 0 ++ zeros 2 ++ std_info_bytes isd) (zeros sz)).
  { unfold r1, r0. rewrite upd_zeros_gap by (rewrite ?length_header_image; lia). done. }
  assert (Hl1 : len (header_image sz seq 0 ++ zeros 2 ++ std_info_bytes isd) = 152).
  { rewrite !length_app, length_zeros. pose proof (length_header_image seq 0). lia. }
  set (x1 := header_image sz seq 0 ++ zeros 2 ++ std_info_bytes isd) in *.
  assert (E2 : r2 = upd 0 (x1 ++ filename_bytes name parent) (zeros sz)).
  { unfold r2. rewrite E1. apply upd_upd_adj; lia. }
  assert (E3 : r3 = upd 0 (x1 ++ (filename_bytes name parent ++ filename_padding) ++ body_attr) (zeros sz)).
  { unfold r3. rewrite E2.
    rewrite upd_zeros_gap by (rewrite ?length_app; unfold record_end in *; lia).
    f_equal. unfold filename_padding. rewrite <- !app_assoc. do 3 f_equal.
    rewrite length_app. f_equal. lia. }
  assert (Hl3 : len (x1 ++ (filename_bytes name parent ++ filename_padding) ++ body_attr) = record_end).
  { rewrite length_app, (length_app (_ ++ filename_padding)). unfold record_end. lia. }
  assert (E4 : upd record_end (u32_le 0xFFFFFFFF) r3 = upd 0 (record_image 0) (zeros sz)).
  { rewrite E3. rewrite upd_upd_adj by (rewrite ?length_to_le; lia).
    f_equal. unfold record_image, x1. by rewrite <- !app_assoc. }
  rewrite E4. pose proof (length_record_image 0) as Hl4.
  assert (0 ≤ record_end) by (unfold record_end; lia).
  rewrite copy_to_ok by (rewrite ?len_upd, ?length_to_le; lia).
  f_equal. unfold record_end in *.
  rewrite upd_upd_in by (rewrite ?length_to_le; lia). rewrite Z.sub_0_r.
  unfold record_image at 1. rewrite upd_used. fold (record_image (align8 (152 + filename_len name + body_len + 4))).
  rewrite upd_zeros by (rewrite length_record_image; unfold record_end; lia).
  by rewrite length_record_image.
Qed.
End record.

(** ** Reading it back *)

Lemma attr_next_at pre a post ty t rest :
  attribute_type ty = Some t → 0 ≤ ty < 2 ^ 16 → len a < 2 ^ 32 →
  a = u32_le ty ++ u32_le (len a) ++ 0 :: rest →
  attr_next (pre ++ a ++ post) (len pre) = Ok (Some (t, a, true, len pre + len a)).
Proof.
  intros Ht Hty Hla Ha.
  assert (Hl : 9 ≤ len a) by (rewrite Ha, !length_app, !length_to_le; cbn [length]; lia).
  assert (Hlen : len (pre ++ a ++ post) = len pre + len a + len post) by (rewrite !length_app; lia).
  unfold attr_next. rewrite (proj2 (Z.ltb_ge _ _)) by lia.
  assert (H4 : sub 0 4 a = u32_le ty).
  { rewrite Ha. rewrite sub_app_l, sub_whole by (rewrite ?length_to_le; lia). done. }
  assert (H8 : sub 4 4 a = u32_le (len a)).
  { rewrite Ha at 1. rewrite sub_app_r, sub_app_l, sub_whole by (rewrite ?length_to_le; lia). done. }
  assert (E0 : sub (len pre) 4 (pre ++ a ++ post) = u32_le ty).
  { rewrite sub_app_r, Z.sub_diag, sub_app_l by lia. done. }
  assert (E4 : sub (len pre + 4) 4 (pre ++ a ++ post) = u32_le (len a)).
  { rewrite sub_app_r, sub_app_l by lia. replace (len pre + 4 - len pre) with 4 by lia. done. }
  rewrite !le_at_ok, !bind_Ok, E0, E4, !from_to_le_small by lia.
  rewrite (proj2 (Z.eqb_neq ty _)) by lia.
  rewrite (proj2 (Z.eqb_neq (len a) 0)), (proj2 (Z.ltb_ge _ (len pre + len a))) by lia. cbn [orb].
  rewrite (idx_ok _ (len pre + 8) 0); [|lia|].
  - rewrite bind_Ok, Ht. cbn [Z.eqb]. rewrite slice_ok, bind_Ok by lia.
    replace (len pre + len a - len pre) with (len a) by lia.
    rewrite sub_app_r, Z.sub_diag, sub_app_l, sub_all by lia. done.
  - rewrite lookup_app_r by lia. replace (Z.to_nat (len pre + 8) - length pre)%nat with 8%nat by lia.
    rewrite lookup_app_l by lia. rewrite Ha. reflexivity.
Qed.

Lemma attr_next_end pre post :
  attr_next (pre ++ u32_le 0xFFFFFFFF ++ post) (len pre) = Ok None.
Proof.
  unfold attr_next. destruct (Z.ltb_spec (len (pre ++ u32_le 0xFFFFFFFF ++ post)) (len pre + 8)); [done|].
  rewrite !le_at_ok, bind_Ok by lia. rewrite sub_app_r, Z.sub_diag by lia.
  rewrite sub_app_l, sub_whole by (rewrite ?length_to_le; lia). done.
Qed.

Lemma read_name_units us rest :
  Forall (λ u, 0 < u < 2 ^ 16) us →
  read_name (length us) ((us ≫= λ u, u16_le u) ++ rest) = unit_char <$> us.
Proof.
  induction 1 as [|u us Hu _ IH]; [done|]. rewrite bind_cons.
  change (u16_le u) with [u mod 256; (u / 256) mod 256]. cbn [app length read_name].
  change [u mod 256; (u / 256) mod 256] with (u16_le u).
  rewrite from_to_le_small by (change (8 * Z.of_nat 2) with 16; lia).
  rewrite (proj2 (Z.eqb_neq u 0)) by lia. by rewrite IH.
Qed.

(** Names [parse_stat] reads back unchanged. *)
Definition ascii_name (name : rstring) : Prop := Forall (λ c, 0 < c < 128) name.

Lemma ascii_units name : ascii_name name →
  encode_utf16 name = name ∧ unit_char <$> name = name ∧ Forall (λ u, 0 < u < 2 ^ 16) name.
Proof.
  intros Hn. split; [apply encode_utf16_bmp; eapply Forall_impl; [exact Hn|cbn; lia]|].
  split; [|eapply Forall_impl; [exact Hn|cbn; lia]].
  induction Hn as [|c name Hc _ IH]; [done|]. cbn [fmap list_fmap].
  change (list_fmap _ _ unit_char name) with (unit_char <$> name). rewrite IH.
  unfold unit_char. by rewrite (proj2 (Z.ltb_lt _ _)) by lia.
Qed.

(** A [$FILE_NAME] value, as an attribute value or an index key. *)
Lemma parse_name_value {E} data parent flags name rest :
  ascii_name name → len name ≤ 255 → is_u64 parent → len flags = 56 → 2 ≤ 2 * len name + len rest →
  data = u64_le parent ++ flags ++ [len name; 1] ++ (name ≫= λ u, u16_le u) ++ rest →
  parse_name_and_parent (E:=E) data 0x42 = Ok (Some (name, parent)).
Proof.
  intros Hn Hl Hp Hf H2 ->. destruct (ascii_units name Hn) as (_&Hu&Hr).
  set (data := u64_le parent ++ flags ++ [len name; 1] ++ (name ≫= λ u, u16_le u) ++ rest).
  assert (Hlen : len data = 66 + 2 * len name + len rest).
  { unfold data. rewrite !length_app, length_to_le, length_units. cbn [length]. lia. }
  unfold parse_name_and_parent. rewrite (proj2 (Z.ltb_ge _ _)) by lia.
  rewrite le_at_ok, bind_Ok by lia.
  assert (sub 0 8 data = u64_le parent) as ->.
  { unfold data. rewrite sub_app_l, sub_whole by (rewrite ?length_to_le; lia). done. }
  rewrite from_to_le_small by done.
  rewrite (idx_ok data 0x40 (len name)); [|lia|].
  2:{ unfold data. rewrite lookup_app_r by (rewrite length_to_le; lia). rewrite length_to_le.
      rewrite lookup_app_r by lia. replace (Z.to_nat 64 - 8 - length flags)%nat with 0%nat by lia. done. }
  rewrite bind_Ok, slice_from_ok, bind_Ok by lia.
  assert (sub 0x42 (len data - 0x42) data = (name ≫= λ u, u16_le u) ++ rest) as ->.
  { replace (len data - 0x42) with (2 * len name + len rest) by lia. unfold data.
    rewrite (app_assoc (u64_le parent)), (app_assoc (u64_le parent ++ flags)).
    rewrite sub_app_r by (rewrite !length_app, length_to_le; cbn [length]; lia).
    apply sub_whole; rewrite !length_app, ?length_to_le, ?length_units; cbn [length]; lia. }
  rewrite (proj2 (Z.ltb_ge _ _)) by (rewrite length_app, length_units; lia).
  by rewrite Nat2Z.id, read_name_units, Hu.
Qed.

Section parse.
Context (sz num : Z) (name : rstring) (parent : Z) (isd : bool) (data : list Z) (b : BootSector).
Context (Hname : ascii_name name) (Hnl : len name ≤ 255) (Hparent : is_u64 parent).
Context (Hdata : len data ≤ 700).

Lemma stat_std_info s :
  stat_attr b AT_StandardInformation (std_info_bytes isd) true s =
  Ok (with_standard_info s (Some {|
    si_created := 0; si_modified := 0; si_mft_modified := 0; si_accessed := 0;
    si_file_attributes := if isd then 0 else 0x20; si_owner_id := Some 0; si_security_id := Some 0;
    si_quota_charged := Some 0; si_usn := Some 0 |})).
Proof. by destruct isd. Qed.

Lemma stat_filename s :
  st_name s = None →
  stat_attr b AT_FileName (filename_bytes name parent ++ filename_padding name) true s =
  Ok (with_name s (Some name)).
Proof.
  intros Hs. cbn [stat_attr]. rewrite bool_decide_true by done. cbn [andb].
  unfold parse_filename. pose proof (length_filename_padded name parent) as Hl.
  pose proof (length_filename_bytes name parent) as Hl'. unfold filename_data_len in Hl'.
  destruct (ascii_units name Hname) as (He&_).
  rewrite slice_from_ok by (rewrite length_app; lia). rewrite bind_Ok.
  erewrite (parse_name_value _ parent (zeros 56) name (filename_padding name));
    [done|done|done|done|done| |].
  { rewrite length_app in Hl. rewrite He in Hl'. unfold filename_len in Hl.
    rewrite align8_eq in Hl. unfold filename_data_len in Hl. rewrite He in Hl. dlia. }
  unfold filename_bytes. rewrite <- !app_assoc.
  rewrite sub_app_r by done.
  change (24 - len (attr_head 48 (filename_len name) (filename_data_len name) [1; 0])) with 0.
  rewrite sub_whole; [by rewrite He|done|].
  rewrite !length_app, length_units, length_zeros, length_to_le. cbn [length].
  rewrite length_app in Hl. change (length (attr_head _ _ _ _)) with 24%nat. lia.
Qed.

Lemma stat_index_root s :
  stat_attr b AT_IndexRoot (index_root_bytes sz) true s =
  Ok (with_index_root s (Some (index_root_value sz))).
Proof. reflexivity. Qed.

Lemma stat_data_attr s :
  stat_attr b AT_Data (data_bytes data) true s = Ok (with_data s (len data) (Resident data)).
Proof.
  cbn [stat_attr]. unfold stat_data. pose proof (length_data_bytes data) as Hl.
  pose proof (align8_range (24 + len data)) as Ha. fold (data_attr_len data) in Ha.
  rewrite (idx_ok _ 9 0) by done. rewrite bind_Ok, (proj2 (Z.ltb_ge _ _)) by lia.
  rewrite !le_at_ok by lia. rewrite bind_Ok.
  change (sub 16 4 (data_bytes data)) with (u32_le (len data)).
  rewrite from_to_le_small by lia. rewrite bind_Ok.
  change (from_le (sub 20 2 (data_bytes data))) with 24.
  rewrite (proj2 (Z.ltb_ge _ _)) by lia. rewrite slice_ok, bind_Ok by lia. cbn [Z.eqb].
  do 2 f_equal. unfold data_bytes.
  rewrite sub_app_r by done. change (24 - len (attr_head 128 _ (len data) [0; 0])) with 0.
  rewrite sub_app_l by lia. apply f_equal, sub_whole; lia.
Qed.
(** The metadata of a file or directory that has just been built. *)
Definition built_stat : NtfsStat := {|
  st_is_directory := isd;
  st_size := if isd then 0 else len data;
  st_name := Some name;
  st_data_runs := if isd then [] else [Resident data];
  st_index_root := if isd then Some (index_root_value sz) else None;
  st_standard_info := Some {|
    si_created := 0; si_modified := 0; si_mft_modified := 0; si_accessed := 0;
    si_file_attributes := if isd then 0 else 0x20; si_owner_id := Some 0; si_security_id := Some 0;
    si_quota_charged := Some 0; si_usn := Some 0 |};
  st_security_descriptor := None; st_object_id := None; st_reparse_point := None;
  st_alternate_data_streams := [] |}.

Lemma stat_body s :
  stat_attr b (if isd then AT_IndexRoot else AT_Data) (body_attr sz isd data) true s =
  Ok (if isd then with_index_root s (Some (index_root_value sz))
      else with_data s (len data) (Resident data)).
Proof. unfold body_attr. destruct isd; [apply stat_index_root|apply stat_data_attr]. Qed.

Lemma parse_stat_image used rest :
  parse_stat (record_image sz num name parent isd data used ++ rest) b = Ok built_stat.
Proof.
  set (rec := record_image sz num name parent isd data used ++ rest).
  pose proof (length_record_image sz num name parent isd data used) as Hl.
  pose proof (align8_range (24 + filename_data_len name)) as Hf. fold (filename_len name) in Hf.
  assert (Hf0 : 66 ≤ filename_data_len name ≤ 576).
  { unfold filename_data_len. destruct (ascii_units name Hname) as (->&_). lia. }
  assert (Hb0 : 9 ≤ body_len isd data < 800).
  { unfold body_len. destruct isd; [lia|]. pose proof (align8_range (24 + len data)).
    unfold data_attr_len. lia. }
  unfold record_end in Hl.
  set (F := filename_bytes name parent ++ filename_padding name).
  set (B := body_attr sz isd data). set (S0 := std_info_bytes isd).
  set (H0 := header_image sz (Z.land num 0xFFFF) used ++ zeros 2).
  set (E0 := u32_le 0xFFFFFFFF).
  assert (HlF : len F = filename_len name) by apply length_filename_padded.
  assert (HlB : len B = body_len isd data) by apply length_body_attr.
  assert (HlS : len S0 = 96) by apply length_std_info_bytes.
  assert (HlH : len H0 = 56) by done.
  assert (R0 : rec = H0 ++ S0 ++ (F ++ B ++ E0 ++ rest)).
  { unfold rec, record_image. fold F B S0 E0. unfold H0. by rewrite <- !app_assoc. }
  assert (R1 : rec = (H0 ++ S0) ++ F ++ (B ++ E0 ++ rest)) by (rewrite R0; by rewrite <- !app_assoc).
  assert (R2 : rec = (H0 ++ S0 ++ F) ++ B ++ (E0 ++ rest)) by (rewrite R0; by rewrite <- !app_assoc).
  assert (R3 : rec = (H0 ++ S0 ++ F ++ B) ++ E0 ++ rest) by (rewrite R0; by rewrite <- !app_assoc).
  assert (Hrl : len rec = 156 + filename_len name + body_len isd data + len rest)
    by (unfold rec; rewrite length_app; lia).
  assert (Hlen : ∃ k, length rec = S (S (S (S k)))) by (exists (length rec - 4)%nat; lia).
  destruct Hlen as [k Hk]. unfold parse_stat. rewrite Hk.
  rewrite le_at_ok by lia. rewrite bind_Ok.
  assert (from_le (sub 20 2 rec) = 56) as -> by (rewrite R0, sub_app_l by lia; reflexivity).
  assert (A0 : attr_next rec 56 = Ok (Some (AT_StandardInformation, S0, true, 152))).
  { rewrite R0. replace 56 with (len H0) by lia. replace 152 with (len H0 + len S0) by lia.
    apply (attr_next_at _ _ _ 0x10 _ (tail (drop 8 S0))); [done|lia|lia|].
    unfold S0. by destruct isd. }
  assert (A1 : attr_next rec 152 = Ok (Some (AT_FileName, F, true, 152 + len F))).
  { rewrite R1. replace 152 with (len (H0 ++ S0)) by (rewrite length_app; lia).
    apply (attr_next_at _ _ _ 0x30 _ (tail (drop 8 F))); [done|lia|lia|].
    rewrite HlF. unfold F, filename_bytes, attr_head. rewrite <- !app_assoc. reflexivity. }
  assert (A2 : attr_next rec (152 + len F) =
    Ok (Some (if isd then AT_IndexRoot else AT_Data, B, true, 152 + len F + len B))).
  { rewrite R2. replace (152 + len F) with (len (H0 ++ S0 ++ F)) by (rewrite !length_app; lia).
    apply (attr_next_at _ _ _ (if isd then 0x90 else 0x80) _ (tail (drop 8 B)));
      [by destruct isd|destruct isd; lia|lia|].
    rewrite HlB. unfold B, body_attr, body_len. by destruct isd. }
  assert (A3 : attr_next rec (152 + len F + len B) = Ok None).
  { rewrite R3. replace (152 + len F + len B) with (len (H0 ++ S0 ++ F ++ B))
      by (rewrite !length_app; lia). apply attr_next_end. }
  pose proof stat_std_info as T0. fold S0 in T0.
  assert (T1 : ∀ s, st_name s = None → stat_attr b AT_FileName F true s = Ok (with_name s (Some name)))
    by apply stat_filename.
  pose proof stat_body as T2. fold B in T2.
  cbn [stat_loop]. rewrite A0, bind_Ok, T0, bind_Ok, A1, bind_Ok, T1, bind_Ok by done.
  rewrite A2, bind_Ok, T2, bind_Ok, A3, bind_Ok. unfold built_stat. by destruct isd.
Qed.
End parse.

Lemma record_end_ge name isd data : 152 ≤ record_end name isd data.
Proof.
  pose proof (align8_range (24 + filename_data_len name)). unfold record_end, filename_len.
  pose proof (length_body_attr 0 isd data). unfold filename_data_len in *. lia.
Qed.

(** ** Properties *)

(** [build_mft_record] followed by [parse_stat] returns what was put in:
    for every ASCII name, every parent and every file content of at most 700
    bytes (or a directory) whose attributes and end marker fit, the record is
    built with the configured size and parses to the given name, kind, size
    and content, wherever the rest of the record is. *)
Theorem build_parse_roundtrip (sz num : Z) (name : rstring) (parent : Z) (isd : bool)
    (data : list Z) (b : BootSector) :
  ascii_name name → len name ≤ 255 → is_u64 parent → len data ≤ 700 →
  record_end name isd data + 4 ≤ sz < 2 ^ 63 →
  ∃ rec, build_mft_record sz num name parent isd data = Ok rec ∧ len rec = sz ∧
    parse_stat rec b = Ok (built_stat sz name isd data).
Proof.
  intros Hn Hl Hp Hd Hfit. destruct (ascii_units name Hn) as (He&_).
  pose proof (record_end_ge name isd data) as Hend.
  eexists. split; [|split].
  - rewrite build_mft_record_cases by (rewrite ?He; lia).
    rewrite (proj2 (Z.ltb_ge sz _)), (proj2 (Z.ltb_ge sz (_ + 4))) by lia. done.
  - rewrite length_app, Nat2Z.inj_add, length_record_image, length_zeros. lia.
  - by apply parse_stat_image.
Qed.

(** The three outcomes of [build_mft_record] with a name of at most 255
    units and at most 700 bytes of data: [NoSpace] when an attribute does not
    fit, a record when the end marker fits as well, and a panic (the unchecked
    write of the end marker) in between. *)
Theorem build_mft_record_outcomes (sz num : Z) (name : rstring) (parent : Z) (isd : bool) (data : list Z) :
  152 ≤ sz < 2 ^ 63 → len (encode_utf16 name) ≤ 255 → len data ≤ 700 →
  (sz < record_end name isd data →
     build_mft_record sz num name parent isd data = Err Ntfs_NoSpace) ∧
  (record_end name isd data ≤ sz < record_end name isd data + 4 →
     build_mft_record sz num name parent isd data = Panic) ∧
  (record_end name isd data + 4 ≤ sz → is_ok (build_mft_record sz num name parent isd data) = true).
Proof.
  intros. rewrite build_mft_record_cases by done. split_and!; intros.
  - by rewrite (proj2 (Z.ltb_lt _ _)) by lia.
  - by rewrite (proj2 (Z.ltb_ge sz _)), (proj2 (Z.ltb_lt sz (_ + 4))) by lia.
  - by rewrite (proj2 (Z.ltb_ge sz _)), (proj2 (Z.ltb_ge sz (_ + 4))) by lia.
Qed.

Lemma build_parse_roundtrip_witness :
  ∃ rec, build_mft_record 1024 20 (lit "notes.txt") 5 false [1; 2; 3] = Ok rec ∧ len rec = 1024 ∧
    parse_stat rec runs_boot = Ok (built_stat 1024 (lit "notes.txt") false [1; 2; 3]).
Proof.
  refine (build_parse_roundtrip 1024 20 (lit "notes.txt") 5 false [1; 2; 3] runs_boot _ _ _ _ _);
    try (by vm_compute).
  unfold ascii_name. by repeat constructor.
Defined.

(** A 50-character name and 650 bytes of data in a 1024-byte record. *)
Lemma build_mft_record_outcomes_witness :
  build_mft_record 1024 20 (replicate 50 97) 5 false (replicate 650 1) = Panic.
Proof.
  refine (proj1 (proj2 (build_mft_record_outcomes 1024 20 (replicate 50 97) 5 false
    (replicate 650 1) _ _ _)) _); by vm_compute.
Defined.
