(* ===== verification/NtfsIndex.v ===== *)
(** * Directory indexes

    [fs/ntfs/index.rs] on buffers: finding an attribute, listing and searching
    the entries of an [$INDEX_ROOT] value, and the insertion of an entry into
    a resident index and into an INDX block. The device accesses around the
    insertions are in [NtfsDriver].

    Sums of buffer positions and fields of at most 32 bits do not wrap. *)

From S2P Require Import Prelude Bytes Text BlockDev NtfsTypes NtfsBoot NtfsRuns NtfsAttr NtfsRecord.

(** ** Finding an attribute *)

Fixpoint find_attr_loop (fuel : nat) (record : list Z) (attr_type offset : Z)
  : outcome NtfsError Z :=
  match fuel with
  | O => Diverge
  | S fuel =>
      if len record <? offset + 8 then Err Ntfs_InvalidAttribute else
      type_code ← u32_at record offset;
      if type_code =? 0xFFFFFFFF then Err Ntfs_InvalidAttribute else
      if type_code =? attr_type then mret offset else
      attr_len ← u32_at record (offset + 4);
      if (attr_len =? 0) || (len record <? offset + attr_len) then Err Ntfs_InvalidAttribute else
      find_attr_loop fuel record attr_type (offset + attr_len)
  end.

Definition find_attribute_offset (record : list Z) (attr_type : Z) : outcome NtfsError Z :=
  if len record <? 22 then Err Ntfs_InvalidMftRecord else
  first ← u16_at record 20;
  find_attr_loop (S (length record)) record attr_type first.

Definition find_index_root_offset (record : list Z) : outcome NtfsError Z :=
  find_attribute_offset record 0x90.

(** ** Listing and searching *)

Fixpoint list_loop (fuel : nat) (index_data : list Z) (end_ offset : Z) (result : list rstring)
  : outcome NtfsError (list rstring) :=
  match fuel with
  | O => Diverge
  | S fuel =>
      if Z.min end_ (len index_data) <? offset + 16 then mret result else
      entry ← slice_from index_data offset;
      entry_len ← u16_at entry 8;
      key_len ← u16_at entry 10;
      flags ← u16_at entry 12;
      if negb (Z.land flags 0x0002 =? 0) then mret result else
      result ← (if (0 <? key_len) && (offset + 16 + key_len <=? len index_data) then
                  key ← slice entry 16 (16 + key_len);
                  o ← parse_filename_from_key key;
                  mret (match o with Some (name, _) => result ++ [name] | None => result end)
                else mret result);
      if entry_len =? 0 then mret result else
      list_loop fuel index_data end_ (offset + entry_len) result
  end.

Definition list_directory (index_data : list Z) : outcome NtfsError (list rstring) :=
  if len index_data <? 32 then mret [] else
  let index_header_offset := 16 in
  if len index_data <? index_header_offset + 8 then mret [] else
  first_entry_rel ← u32_at index_data index_header_offset;
  total_size ← u32_at index_data (index_header_offset + 4);
  list_loop (S (length index_data)) index_data (index_header_offset + total_size)
    (index_header_offset + first_entry_rel) [].

Fixpoint find_loop (fuel : nat) (index_data : list Z) (end_ : Z) (name : rstring) (offset : Z)
  : outcome NtfsError Z :=
  match fuel with
  | O => Diverge
  | S fuel =>
      if Z.min end_ (len index_data) <? offset + 16 then Err Ntfs_FileNotFound else
      entry ← slice_from index_data offset;
      file_ref ← u64_at entry 0;
      entry_len ← u16_at entry 8;
      key_len ← u16_at entry 10;
      flags ← u16_at entry 12;
      if negb (Z.land flags 0x0002 =? 0) then Err Ntfs_FileNotFound else
      found ← (if (0 <? key_len) && (offset + 16 + key_len <=? len index_data) then
                 key ← slice entry 16 (16 + key_len);
                 o ← parse_filename_from_key key;
                 mret (match o with
                       | Some (entry_name, _) => eq_ignore_ascii_case entry_name name
                       | None => false
                       end)
               else mret false);
      if (found : bool) then mret (Z.land file_ref 0x0000FFFFFFFFFFFF) else
      if entry_len =? 0 then Err Ntfs_FileNotFound else
      find_loop fuel index_data end_ name (offset + entry_len)
  end.

Definition find_in_directory (index_data : list Z) (name : rstring) : outcome NtfsError Z :=
  if len index_data <? 32 then Err Ntfs_FileNotFound else
  let index_header_offset := 16 in
  first_entry_rel ← u32_at index_data index_header_offset;
  total_size ← u32_at index_data (index_header_offset + 4);
  find_loop (S (length index_data)) index_data (index_header_offset + total_size) name
    (index_header_offset + first_entry_rel).

(** ** Building an entry *)

(** [(16 + key_len + 7) & !7] *)
Definition entry_len_of (name_utf16 : list Z) : Z := align8 (16 + (66 + len name_utf16 * 2)).

(** The entry slice, zero-filled and then filled field by field; the units are
    written through the key slice. *)
Definition write_entry (parent_record child_record : Z) (name_utf16 : list Z) (entry : list Z)
  : outcome NtfsError (list Z) :=
  let name_len := len name_utf16 in
  let key_len := 66 + name_len * 2 in
  let entry_len_aligned := entry_len_of name_utf16 in
  entry ← fill_to entry 0 (len entry) 0;
  entry ← copy_to entry 0 8 (u64_le child_record);
  entry ← copy_to entry 8 10 (u16_le entry_len_aligned);
  entry ← copy_to entry 10 12 (u16_le key_len);
  entry ← copy_to entry 12 14 (u16_le 0);
  entry ← copy_to entry 14 16 (u16_le 0);
  entry ← copy_to entry 16 24 (u64_le parent_record);
  entry ← fill_to entry 24 72 0;
  entry ← copy_to entry 72 76 (u32_le 0x10);
  entry ← fill_to entry 76 80 0;
  entry ← set_idx entry 80 (name_len mod 256);
  entry ← set_idx entry 81 1;
  write_units entry 82 name_utf16.

(** ** The resident index *)

(** [add_to_resident_index] up to the fixups: the new record. *)
Definition resident_insert (record : list Z) (parent_record child_record : Z) (child_name : rstring)
  : outcome NtfsError (list Z) :=
  index_attr_offset ← map_err (λ _, Ntfs_InvalidAttribute) (find_attribute_offset record 0x90);
  if len record <=? index_attr_offset + 8 then Err Ntfs_NotSupported else
  flag ← idx record (index_attr_offset + 8);
  if negb (flag =? 0) then Err Ntfs_NotSupported else
  if len record <=? index_attr_offset + 22 then Err Ntfs_CorruptedFilesystem else
  val_off ← u16_at record (index_attr_offset + 20);
  let index_root_value_offset := index_attr_offset + val_off in
  let index_header_offset := index_root_value_offset + 16 in
  if len record <? index_header_offset + 12 then Err Ntfs_CorruptedFilesystem else
  total_size ← u32_at record (index_header_offset + 4);
  allocated_size ← u32_at record (index_header_offset + 8);
  let entries_end_offset := index_header_offset + total_size in
  if (entries_end_offset <? 16) || (len record <? entries_end_offset)
  then Err Ntfs_CorruptedFilesystem else
  let end_marker_offset := entries_end_offset - 16 in
  let name_utf16 := encode_utf16 child_name in
  let entry_len_aligned := entry_len_of name_utf16 in
  let new_total_size := total_size + entry_len_aligned in
  if allocated_size <? new_total_size then Err Ntfs_NoSpace else
  let new_end_marker_offset := end_marker_offset + entry_len_aligned in
  if len record <? new_end_marker_offset + 16 then Err Ntfs_NoSpace else
  record ← copy_within record end_marker_offset entries_end_offset new_end_marker_offset;
  let entry_start := end_marker_offset in
  entry ← slice record entry_start (entry_start + entry_len_aligned);
  entry ← write_entry parent_record child_record name_utf16 entry;
  record ← copy_to record entry_start (entry_start + entry_len_aligned) entry;
  record ← copy_to record (index_header_offset + 4) (index_header_offset + 8) (u32_le new_total_size);
  current_used ← u32_at record 24;
  let new_used := wrap 32 (current_used + wrap 32 entry_len_aligned) in
  copy_to record 24 28 (u32_le new_used).

(** ** The external index *)

(** Where the INDX block is: its size and position, from the parent record. *)
Definition external_index_target (b : BootSector) (parent_record : list Z)
  : outcome NtfsError (Z * Z) :=
  idx_root_offset ← find_attribute_offset parent_record 0x90;
  if len parent_record <? idx_root_offset + 22 then Err Ntfs_CorruptedFilesystem else
  val_off ← u16_at parent_record (idx_root_offset + 20);
  let idx_root_val := idx_root_offset + val_off in
  if len parent_record <? idx_root_val + 12 then Err Ntfs_CorruptedFilesystem else
  idx_record_size ← u32_at parent_record (idx_root_val + 8);
  idx_alloc_offset ← find_attribute_offset parent_record 0xA0;
  if len parent_record <? idx_alloc_offset + 48 then Err Ntfs_CorruptedFilesystem else
  flag ← idx parent_record (idx_alloc_offset + 8);
  if negb (flag =? 1) then Err Ntfs_NotSupported else
  allocated_size ← u64_at parent_record (idx_alloc_offset + 40);
  if allocated_size =? 0 then Err Ntfs_NoSpace else
  attr_slice ← slice_from parent_record idx_alloc_offset;
  runs ← parse_data_runs attr_slice;
  match runs with
  | [] => Err Ntfs_NoSpace
  | (start_cluster, _) :: _ =>
      let bpc := bytes_per_cluster b in
      let partition_size := total_sectors b *w bytes_per_sector b in
      (* a cluster size of zero is a division by zero *)
      max_cluster ← (if bpc =? 0 then Panic else mret (partition_size / bpc));
      if max_cluster <? start_cluster then Err Ntfs_CorruptedFilesystem else
      mret (idx_record_size, start_cluster *w bpc)
  end.

(** The two fixup loops of [add_to_external_index], with 512-byte sectors. *)
Fixpoint indx_apply (n : nat) (i uso seq : Z) (idx_buf : list Z) : outcome NtfsError (list Z) :=
  match n with
  | O => mret idx_buf
  | S n =>
      let end_ := i * 512 - 2 in
      if len idx_buf <? end_ + 2 then Err Ntfs_CorruptedFilesystem else
      stored ← u16_at idx_buf (uso + i * 2);
      bytes ← u16_at idx_buf end_;
      if negb (bytes =? seq) then Err Ntfs_CorruptedFilesystem else
      idx_buf ← copy_to idx_buf end_ (end_ + 2) (u16_le stored);
      indx_apply n (i + 1) uso seq idx_buf
  end.

Fixpoint indx_reapply (n : nat) (i uso seq : Z) (idx_buf : list Z) : outcome NtfsError (list Z) :=
  match n with
  | O => mret idx_buf
  | S n =>
      let end_ := i * 512 - 2 in
      original ← u16_at idx_buf end_;
      idx_buf ← copy_to idx_buf (uso + i * 2) (uso + i * 2 + 2) (u16_le original);
      idx_buf ← copy_to idx_buf end_ (end_ + 2) (u16_le seq);
      indx_reapply n (i + 1) uso seq idx_buf
  end.

Definition INDX_SIG : list Z := [0x49; 0x4E; 0x44; 0x58].

(** [add_to_external_index] between the read and the write of the block. *)
Definition indx_insert (idx_buf : list Z) (parent_record child_record : Z) (child_name : rstring)
  : outcome NtfsError (list Z) :=
  sig ← slice idx_buf 0 4;
  if bool_decide (sig ≠ INDX_SIG) then Err Ntfs_CorruptedFilesystem else
  uso ← u16_at idx_buf 4;
  usc ← u16_at idx_buf 6;
  if (uso <? 24) || (usc =? 0) || (len idx_buf <? uso + 2 * usc)
  then Err Ntfs_CorruptedFilesystem else
  seq ← u16_at idx_buf uso;
  idx_buf ← indx_apply (Z.to_nat (usc - 1)) 1 uso seq idx_buf;
  if len idx_buf <? 24 + 6 then Err Ntfs_CorruptedFilesystem else
  entries_offset ← u16_at idx_buf 24;
  total_size ← u16_at idx_buf 26;
  allocated_size ← u16_at idx_buf 28;
  let entries_end := 24 + entries_offset + total_size in
  if (entries_end <? 16) || (len idx_buf <? entries_end) then Err Ntfs_CorruptedFilesystem else
  let end_marker := entries_end - 16 in
  let name_utf16 := encode_utf16 child_name in
  let entry_len_aligned := entry_len_of name_utf16 in
  let new_total := total_size + entry_len_aligned in
  if allocated_size <? new_total then Err Ntfs_NoSpace else
  idx_buf ← copy_within idx_buf end_marker entries_end (end_marker + entry_len_aligned);
  entry ← slice idx_buf end_marker (end_marker + entry_len_aligned);
  entry ← write_entry parent_record child_record name_utf16 entry;
  idx_buf ← copy_to idx_buf end_marker (end_marker + entry_len_aligned) entry;
  idx_buf ← copy_to idx_buf 26 28 (u16_le new_total);
  indx_reapply (Z.to_nat (usc - 1)) 1 uso seq idx_buf.
