(* ===== verification/NtfsIndexFacts.v ===== *)
(** * What the directory index operations do

    Listing and searching agree on every buffer; an insertion into a resident
    index appends the entry; a directory that has just been created has no
    room for one. *)

From S2P Require Import Prelude Bytes Text BlockDev NtfsTypes NtfsBoot NtfsRuns NtfsAttr NtfsRecord.
From S2P Require Import NtfsRecordFacts NtfsIndex.

(** The first entry with the name, ASCII case ignored. *)
Fixpoint entry_named (name : rstring) (es : list (rstring * Z)) : option Z :=
  match es with
  | [] => None
  | (n, r) :: es => if eq_ignore_ascii_case n name then Some r else entry_named name es
  end.

Definition found (o : option Z) : outcome NtfsError Z :=
  match o with Some r => Ok r | None => Err Ntfs_FileNotFound end.

Lemma entry_named_app name es es' :
  entry_named name (es ++ es') =
  match entry_named name es with Some r => Some r | None => entry_named name es' end.
Proof. induction es as [|[n r] es IH]; [done|]. cbn [app entry_named]. by destruct (eq_ignore_ascii_case n name). Qed.

(** ** Arbitrary buffers *)

Lemma key_parse_ok {E} key : ∃ o, parse_filename_from_key (E:=E) key = Ok o.
Proof.
  unfold parse_filename_from_key, parse_name_and_parent.
  destruct (Z.ltb_spec (len key) (0x42 + 2)); [by eexists|]. repeat bstep.
  destruct (idx_in (E:=E) key 0x40) as (n&->&_); [lia|]. repeat bstep. case_match; by eexists.
Qed.

(** What one entry contributes to the listing. *)
Definition key_name (d : list Z) (off klen : Z) : option rstring :=
  if (0 <? klen) && (off + 16 + klen <=? len d) then
    match parse_filename_from_key (E:=NtfsError) (sub (off + 16) klen d) with
    | Ok (Some (n, _)) => Some n
    | _ => None
    end
  else None.

Lemma key_name_list d off klen acc :
  0 ≤ off → off ≤ len d → 0 ≤ klen →
  (if (0 <? klen) && (off + 16 + klen <=? len d) then
     key ← slice (E:=NtfsError) (sub off (len d - off) d) 16 (16 + klen);
     o ← parse_filename_from_key key;
     mret (match o with Some (name, _) => acc ++ [name] | None => acc end)
   else mret acc) =
  Ok (match key_name d off klen with Some n => acc ++ [n] | None => acc end).
Proof.
  intros Ho Hl Hk. unfold key_name. destruct (Z.ltb_spec 0 klen), (Z.leb_spec (off + 16 + klen) (len d));
    cbn [andb]; try done.
  bstep. bstep. rewrite sub_sub by lia. replace (16 + klen - 16) with klen by lia.
  destruct (key_parse_ok (E:=NtfsError) (sub (off + 16) klen d)) as [o ->].
  by destruct o as [[n p]|].
Qed.

Lemma key_name_find d off klen name :
  0 ≤ off → off ≤ len d → 0 ≤ klen →
  (if (0 <? klen) && (off + 16 + klen <=? len d) then
     key ← slice (E:=NtfsError) (sub off (len d - off) d) 16 (16 + klen);
     o ← parse_filename_from_key key;
     mret (match o with
           | Some (entry_name, _) => eq_ignore_ascii_case entry_name name
           | None => false
           end)
   else mret false) =
  Ok (match key_name d off klen with Some n => eq_ignore_ascii_case n name | None => false end).
Proof.
  intros Ho Hl Hk. unfold key_name. destruct (Z.ltb_spec 0 klen), (Z.leb_spec (off + 16 + klen) (len d));
    cbn [andb]; try done.
  bstep. bstep. rewrite sub_sub by lia. replace (16 + klen - 16) with klen by lia.
  destruct (key_parse_ok (E:=NtfsError) (sub (off + 16) klen d)) as [o ->].
  by destruct o as [[n p]|].
Qed.

Definition ref_mask : Z := 0x0000FFFFFFFFFFFF.

(** One iteration of both loops. *)
Lemma list_loop_step fuel d end_ off acc :
  0 ≤ off → bytes_ok d →
  list_loop (S fuel) d end_ off acc =
    if Z.min end_ (len d) <? off + 16 then Ok acc else
    if negb (Z.land (from_le (sub (off + 12) 2 d)) 2 =? 0) then Ok acc else
    let acc' := match key_name d off (from_le (sub (off + 10) 2 d)) with
                | Some n => acc ++ [n] | None => acc end in
    if from_le (sub (off + 8) 2 d) =? 0 then Ok acc' else
    list_loop fuel d end_ (off + from_le (sub (off + 8) 2 d)) acc'.
Proof.
  intros Ho Hb. cbn [list_loop].
  destruct (Z.ltb_spec (Z.min end_ (len d)) (off + 16)); [done|].
  repeat bstep. rewrite !sub_sub by lia.
  case_match; [done|]. cbv zeta.
  pose proof (from_le_sub_range 2 (off + 10) d Hb). rewrite key_name_list by lia.
  by rewrite bind_Ok.
Qed.

Lemma find_loop_step fuel d end_ name off :
  0 ≤ off → bytes_ok d →
  find_loop (S fuel) d end_ name off =
    if Z.min end_ (len d) <? off + 16 then Err Ntfs_FileNotFound else
    if negb (Z.land (from_le (sub (off + 12) 2 d)) 2 =? 0) then Err Ntfs_FileNotFound else
    if match key_name d off (from_le (sub (off + 10) 2 d)) with
       | Some n => eq_ignore_ascii_case n name | None => false end
    then Ok (Z.land (from_le (sub off 8 d)) ref_mask) else
    if from_le (sub (off + 8) 2 d) =? 0 then Err Ntfs_FileNotFound else
    find_loop fuel d end_ name (off + from_le (sub (off + 8) 2 d)).
Proof.
  intros Ho Hb. cbn [find_loop].
  destruct (Z.ltb_spec (Z.min end_ (len d)) (off + 16)); [done|].
  repeat bstep. rewrite !sub_sub by lia. rewrite Z.add_0_r.
  case_match; [done|].
  pose proof (from_le_sub_range 2 (off + 10) d Hb). rewrite key_name_find by lia.
  by rewrite bind_Ok.
Qed.

Lemma index_walk fuel d end_ off :
  bytes_ok d → 0 ≤ off → Z.max 0 (len d - off) < Z.of_nat fuel →
  ∃ es, (∀ acc, list_loop fuel d end_ off acc = Ok (acc ++ es.*1)) ∧
    (∀ name, find_loop fuel d end_ name off = found (entry_named name es)) ∧
    Forall (λ e, is_u 48 e.2) es.
Proof.
  intros Hb. revert off. induction fuel as [|fuel IH]; intros off Ho Hf; [lia|].
  destruct (Z.ltb_spec (Z.min end_ (len d)) (off + 16)) as [Hlt|Hge].
  { exists []. split_and!; try done; intros; rewrite ?list_loop_step, ?find_loop_step by done;
      rewrite (proj2 (Z.ltb_lt _ _)) by done; [by rewrite app_nil_r|done]. }
  destruct (negb (Z.land (from_le (sub (off + 12) 2 d)) 2 =? 0)) eqn:Hfl.
  { exists []. split_and!; try done; intros; rewrite ?list_loop_step, ?find_loop_step by done;
      rewrite (proj2 (Z.ltb_ge _ _)), Hfl by done; [by rewrite app_nil_r|done]. }
  set (e := match key_name d off (from_le (sub (off + 10) 2 d)) with
            | Some n => [(n, Z.land (from_le (sub off 8 d)) ref_mask)] | None => [] end).
  assert (He : Forall (λ e, is_u 48 e.2) e).
  { unfold e. case_match; [|done]. apply Forall_singleton. cbn.
    apply is_u_land; [done| |done]. apply (from_le_sub_range 8); [done|lia]. }
  pose proof (from_le_sub_range 2 (off + 8) d Hb) as Hel.
  destruct (Z.eqb_spec (from_le (sub (off + 8) 2 d)) 0) as [H0|H0].
  - exists e. split_and!; [| |done]; intros; rewrite ?list_loop_step, ?find_loop_step by done;
      rewrite (proj2 (Z.ltb_ge _ _)), Hfl by done; rewrite H0; unfold e; cbn [Z.eqb];
      destruct (key_name _ _ _) as [n|]; cbn [fmap list_fmap entry_named fst snd];
      rewrite ?app_nil_r; try done.
    by destruct (eq_ignore_ascii_case n name).
  - destruct (IH (off + from_le (sub (off + 8) 2 d))) as (es&Hl&Hfi&Hr); [lia|lia|].
    exists (e ++ es). split_and!; [| |by apply Forall_app]; intros;
      rewrite ?list_loop_step, ?find_loop_step by done;
      rewrite (proj2 (Z.ltb_ge _ _)), Hfl by done; rewrite (proj2 (Z.eqb_neq _ _) H0); cbv zeta;
      rewrite ?Hl, ?Hfi; unfold e; destruct (key_name _ _ _) as [n|];
      cbn [fmap list_fmap entry_named fst snd app]; rewrite <- ?app_assoc; try done.
    by destruct (eq_ignore_ascii_case n name).
Qed.

Lemma index_listing (index_data : list Z) :
  bytes_ok index_data →
  ∃ es, list_directory index_data = Ok es.*1 ∧
    (∀ name, find_in_directory index_data name = found (entry_named name es)) ∧
    Forall (λ e, is_u 48 e.2) es.
Proof.
  intros Hb. unfold list_directory, find_in_directory.
  destruct (Z.ltb_spec (len index_data) 32) as [Hl|Hl]; [by exists []|].
  rewrite (proj2 (Z.ltb_ge _ _)) by lia.
  pose proof (from_le_sub_range 4 16 index_data Hb).
  destruct (index_walk (S (length index_data)) index_data (16 + from_le (sub (16 + 4) 4 index_data))
    (16 + from_le (sub 16 4 index_data))) as (es&H1&H2&H3); [done|lia|lia|].
  exists es. split_and!; [| |done].
  - repeat bstep. apply H1.
  - intros name. repeat bstep. apply H2.
Qed.


(** ** Well-formed index values *)

Section chain.
Context (d : list Z).

(** The entries from one offset to another, each inside its own length. *)
Inductive index_chain : Z → Z → list (rstring * Z) → Prop :=
| chain_nil off : index_chain off off []
| chain_cons off fin name p es :
    0 < from_le (sub (off + 10) 2 d) →
    16 + from_le (sub (off + 10) 2 d) ≤ from_le (sub (off + 8) 2 d) →
    off + from_le (sub (off + 8) 2 d) ≤ fin →
    Z.land (from_le (sub (off + 12) 2 d)) 2 = 0 →
    parse_filename_from_key (E:=NtfsError)
      (sub (off + 16) (from_le (sub (off + 10) 2 d)) d) = Ok (Some (name, p)) →
    index_chain (off + from_le (sub (off + 8) 2 d)) fin es →
    index_chain off fin ((name, Z.land (from_le (sub off 8 d)) ref_mask) :: es).

(** A value whose entries end at [total] with the end marker (the header's
    sizes count from the index header, at offset 16). *)
Record index_value (es : list (rstring * Z)) (total alloc : Z) : Prop := {
  iv_first : 16 ≤ from_le (sub 16 4 d);
  iv_total : from_le (sub 20 4 d) = total;
  iv_alloc : from_le (sub 24 4 d) = alloc;
  iv_size : total ≤ alloc;
  iv_room : 16 + alloc ≤ len d;
  iv_end : Z.land (from_le (sub (total + 12) 2 d)) 2 ≠ 0;
  iv_chain : index_chain (16 + from_le (sub 16 4 d)) total es;
}.

Lemma chain_le off fin es : index_chain off fin es → off ≤ fin.
Proof. induction 1; lia. Qed.

Lemma chain_app off mid fin es1 es2 :
  index_chain off mid es1 → index_chain mid fin es2 → index_chain off fin (es1 ++ es2).
Proof.
  intros H1 H2. apply chain_le in H2 as Hle.
  induction H1; [done|]. cbn [app]. econstructor; eauto. lia.
Qed.

Lemma chain_loops off total es fuel :
  bytes_ok d → index_chain off total es → 0 ≤ off → total + 16 ≤ len d →
  Z.land (from_le (sub (total + 12) 2 d)) 2 ≠ 0 → Z.max 0 (len d - off) < Z.of_nat fuel →
  (∀ acc, list_loop fuel d (16 + total) off acc = Ok (acc ++ es.*1)) ∧
  (∀ name, find_loop fuel d (16 + total) name off = found (entry_named name es)).
Proof.
  intros Hb H. revert fuel. induction H as [off|off fin name p es Hk Hek Hfin Hfl Hp Hc IH];
    intros fuel Ho Hl Hend Hf; (destruct fuel as [|fuel]; [lia|]).
  - split; intros; rewrite ?list_loop_step, ?find_loop_step by done;
      rewrite (proj2 (Z.ltb_ge _ _)) by lia; rewrite (proj2 (Z.eqb_neq _ _) Hend); cbn [negb];
      by rewrite ?app_nil_r.
  - pose proof (chain_le _ _ _ Hc).
    destruct (IH fuel) as [IH1 IH2]; [lia|lia|done|lia|].
    assert (Hn : key_name d off (from_le (sub (off + 10) 2 d)) = Some name).
    { unfold key_name. rewrite (proj2 (Z.ltb_lt _ _)), (proj2 (Z.leb_le _ _)) by lia. cbn [andb].
      by rewrite Hp. }
    split; intros; rewrite ?list_loop_step, ?find_loop_step by done;
      rewrite (proj2 (Z.ltb_ge _ _)) by lia; rewrite (proj2 (Z.eqb_eq _ _) Hfl); cbn [negb];
      rewrite Hn, (proj2 (Z.eqb_neq (from_le (sub (off + 8) 2 d)) 0)) by lia; cbv zeta;
      rewrite ?IH1, ?IH2; cbn [entry_named fmap list_fmap fst].
    + by rewrite <- app_assoc.
    + by destruct (eq_ignore_ascii_case name name0).
Qed.

Lemma index_value_listing es total alloc :
  bytes_ok d → index_value es total alloc →
  list_directory d = Ok es.*1 ∧
  ∀ name, find_in_directory d name = found (entry_named name es).
Proof.
  intros Hb [Hf Ht Ha Hs Hr He Hc]. apply chain_le in Hc as Hle.
  destruct (chain_loops (16 + from_le (sub 16 4 d)) total es (S (length d))) as [H1 H2];
    [done|done|lia|lia|done|lia|].
  unfold list_directory, find_in_directory.
  split; [|intros name]; rewrite !(proj2 (Z.ltb_ge _ _)) by lia; repeat bstep;
    change (16 + 4) with 20; rewrite Ht; [by rewrite H1|by rewrite H2].
Qed.
End chain.

Lemma chain_frame d d' off fin es :
  0 ≤ off → (∀ a n, off ≤ a → 0 ≤ n → a + n ≤ fin → sub a n d' = sub a n d) →
  index_chain d off fin es → index_chain d' off fin es.
Proof.
  intros Ho Hd H. induction H as [off|off fin name p es Hk Hek Hfin Hfl Hp Hc IH]; [constructor|].
  apply chain_le in Hc as Hle.
  assert (E : ∀ a n, off ≤ a → 0 ≤ n → a + n ≤ off + 16 → sub a n d = sub a n d')
    by (intros; rewrite Hd by lia; done).
  rewrite (E off 8) by lia. rewrite (E (off + 8) 2), (E (off + 10) 2), (E (off + 12) 2) in * by lia.
  econstructor; try done.
  - by rewrite Hd by lia.
  - apply IH; [lia|]. intros. apply Hd; lia.
Qed.

(** ** The entry an insertion writes *)

Section entry.
Context (parent child : Z) (name : rstring).
Context (Hname : ascii_name name) (Hl : 1 ≤ len name ≤ 255).
Context (Hparent : is_u64 parent) (Hchild : is_u 48 child).

Definition entry_key : list Z :=
  u64_le parent ++ (zeros 48 ++ u32_le 0x10 ++ zeros 4) ++ [len name; 1] ++ (name ≫= λ u, u16_le u).
Definition entry_image : list Z :=
  u64_le child ++ u16_le (entry_len_of name) ++ u16_le (66 + len name * 2) ++ zeros 4 ++
  entry_key ++ zeros (entry_len_of name - (82 + len name * 2)).

Lemma entry_len_range : 82 + len name * 2 ≤ entry_len_of name < 90 + len name * 2.
Proof. unfold entry_len_of. pose proof (align8_range (16 + (66 + len name * 2))). lia. Qed.

Lemma length_entry_key : len entry_key = 66 + len name * 2.
Proof. unfold entry_key. rewrite !length_app, length_units, !length_zeros, !length_to_le. cbn [length]. lia. Qed.

Lemma length_entry_image : len entry_image = entry_len_of name.
Proof.
  pose proof entry_len_range. pose proof length_entry_key as H1. unfold entry_image.
  rewrite !length_app, !length_zeros, !length_to_le. lia.
Qed.

Lemma bytes_ok_entry_image : bytes_ok entry_image.
Proof.
  unfold entry_image, entry_key.
  rewrite !Forall_app, !Forall_cons.
  split_and!; auto with bytes; unfold is_u; lia.
Qed.

Lemma write_entry_ok entry :
  len entry = entry_len_of name → write_entry parent child name entry = Ok entry_image.
Proof.
  intros He. pose proof entry_len_range. unfold write_entry. cbv zeta.
  rewrite fill_to_ok by lia. rewrite bind_Ok.
  assert (upd 0 (replicate (Z.to_nat (len entry - 0)) 0) entry = upd 0 [] (zeros (entry_len_of name))) as ->.
  { rewrite upd_nil by (rewrite length_zeros; lia). unfold upd, zeros. cbn [take Z.to_nat].
    rewrite length_replicate, drop_ge by lia. rewrite app_nil_l, app_nil_r. f_equal. lia. }
  repeat wstep.
  match goal with |- context [write_units (upd 0 ?acc ?l) ?p _] => replace p with (0 + len acc) by blen end.
  rewrite write_units_adj by blen. rewrite upd_zeros by blen.
  f_equal. unfold entry_image, entry_key. rewrite (Z.mod_small (len name)) by lia.
  rewrite <- !app_assoc. cbn [app].
  match goal with |- context [zeros (entry_len_of name - len ?l)] =>
    replace (len l) with (82 + len name * 2) by blen end.
  reflexivity.
Qed.

(** The image as a chain of one entry. *)
Lemma entry_chain d off :
  0 ≤ off → off + entry_len_of name ≤ len d → sub off (entry_len_of name) d = entry_image →
  index_chain d off (off + entry_len_of name) [(name, child)].
Proof.
  intros Ho Hd Hi. pose proof entry_len_range as Hr.
  pose proof length_entry_image as Hle. pose proof length_entry_key as Hlk.
  assert (E : ∀ a n, 0 ≤ a → 0 ≤ n → a + n ≤ entry_len_of name →
    sub (off + a) n d = sub a n entry_image).
  { intros. rewrite <- Hi, sub_sub by lia. done. }
  assert (Eel : from_le (sub (off + 8) 2 d) = entry_len_of name).
  { rewrite E by lia. unfold entry_image. bread. apply from_to_le_small. lia. }
  assert (Ekl : from_le (sub (off + 10) 2 d) = 66 + len name * 2).
  { rewrite E by lia. unfold entry_image. bread. apply from_to_le_small. lia. }
  assert (Eref : Z.land (from_le (sub off 8 d)) ref_mask = child).
  { rewrite <- (Z.add_0_r off), E by lia. unfold entry_image. bread.
    rewrite from_to_le_small by (unfold is_u in *; lia). unfold ref_mask.
    change 0x0000FFFFFFFFFFFF with (Z.ones 48). rewrite Z.land_ones by lia. apply Z.mod_small, Hchild. }
  rewrite <- Eref. apply chain_cons with (p := parent); rewrite ?Eel, ?Ekl; try lia.
  - rewrite E by lia. unfold entry_image. bread. done.
  - rewrite E by lia.
    assert (sub 16 (66 + len name * 2) entry_image = entry_key) as ->.
    { unfold entry_image. by bread. }
    apply (parse_name_value _ _ (zeros 48 ++ u32_le 0x10 ++ zeros 4) _ []); try done; [lia|cbn; lia|].
    unfold entry_key. by rewrite app_nil_r.
  - constructor.
Qed.
End entry.

(** ** Insertion into a resident index *)

(** The attribute walk only reads what precedes the attribute it finds. *)
Lemma find_attr_loop_stable fuel rec rec' ty off ia :
  bytes_ok rec → 0 ≤ off → length rec' = length rec →
  (∀ a n, off ≤ a → 0 ≤ n → a + n ≤ ia + 8 → sub a n rec' = sub a n rec) →
  find_attr_loop fuel rec ty off = Ok ia →
  off ≤ ia ∧ ia + 8 ≤ len rec ∧ find_attr_loop fuel rec' ty off = Ok ia.
Proof.
  intros Hb Ho Hl. revert off Ho. induction fuel as [|fuel IH]; intros off Ho Hs; [done|].
  cbn [find_attr_loop]. rewrite Hl.
  destruct (Z.ltb_spec (len rec) (off + 8)); [done|].
  rewrite !(le_at_ok 4 rec), !(le_at_ok 4 rec'), !bind_Ok by lia.
  destruct (from_le (sub off 4 rec) =? 0xFFFFFFFF) eqn:E1; [done|].
  destruct (from_le (sub off 4 rec) =? ty) eqn:E2.
  { intros [= ->]. split_and!; [lia|lia|]. by rewrite Hs, E1, E2 by lia. }
  destruct ((from_le (sub (off + 4) 4 rec) =? 0) || _) eqn:E3; [done|]. intros H1.
  apply orb_false_elim in E3 as E4. destruct E4 as [E4 E5].
  pose proof (from_le_sub_range 4 (off + 4) rec Hb) as Hr.
  assert (Hsub : off + from_le (sub (off + 4) 4 rec) ≤ ia).
  { apply (IH (off + from_le (sub (off + 4) 4 rec))); [lia| |done].
    intros. apply Hs; lia. }
  destruct (IH (off + from_le (sub (off + 4) 4 rec))) as (?&?&IH'); [lia|intros; apply Hs; lia|done|].
  split_and!; [lia|lia|]. rewrite !Hs by lia. by rewrite E1, E2, E3.
Qed.

Lemma find_attribute_offset_stable rec rec' ty ia :
  bytes_ok rec → length rec' = length rec → sub 20 2 rec' = sub 20 2 rec →
  (∀ a n, from_le (sub 20 2 rec) ≤ a → 0 ≤ n → a + n ≤ ia + 8 → sub a n rec' = sub a n rec) →
  find_attribute_offset rec ty = Ok ia →
  from_le (sub 20 2 rec) ≤ ia ∧ ia + 8 ≤ len rec ∧ find_attribute_offset rec' ty = Ok ia.
Proof.
  intros Hb Hl H20 Hs. unfold find_attribute_offset. rewrite Hl.
  destruct (Z.ltb_spec (len rec) 22); [done|]. rewrite !le_at_ok, !bind_Ok, H20 by lia.
  intros H1. apply find_attr_loop_stable; try done. by apply (from_le_sub_range 2).
Qed.

(** The record of a directory whose resident index lists [es] and has [free]
    allocated bytes left: where the index attribute starts, where its value
    starts in it, and how long it is. *)
Record resident_dir (rec : list Z) (ia vo alen : Z) (es : list (rstring * Z)) (free : Z) : Prop := {
  rdir_found : find_attribute_offset rec 0x90 = Ok ia;
  rdir_first : 28 ≤ from_le (sub 20 2 rec);
  rdir_flag : sub (ia + 8) 1 rec = [0];
  rdir_len : from_le (sub (ia + 4) 4 rec) = alen;
  rdir_fits : ia + alen ≤ len rec;
  rdir_vo : from_le (sub (ia + 20) 2 rec) = vo;
  rdir_head : 24 ≤ vo ≤ alen;
  rdir_value : ∃ total, index_value (sub (ia + vo) (alen - vo) rec) es total (total + free);
}.

Lemma index_value_bounds d es total alloc : index_value d es total alloc → 32 ≤ total.
Proof. intros [Hf Ht Ha Hs Hr He Hc]. apply chain_le in Hc. lia. Qed.

Section insert.
Context (rec : list Z) (ia vo alen free : Z) (es : list (rstring * Z)).
Context (parent child : Z) (name : rstring).
Context (Hb : bytes_ok rec) (Hdir : resident_dir rec ia vo alen es free).
Context (Hname : ascii_name name) (Hl : 1 ≤ len name ≤ 255).
Context (Hparent : is_u64 parent) (Hchild : is_u 48 child) (Hfree : entry_len_of name ≤ free).

(** The record after the insertion, as a sequence of updates: the end marker
    moved, the entry, the total size, the used size. *)
Definition inserted_value (total : Z) (d : list Z) : list Z :=
  upd 20 (u32_le (total + entry_len_of name))
    (upd total (entry_image parent child name)
      (upd (total + entry_len_of name) (sub total 16 d) d)).
Definition inserted_used : Z :=
  wrap 32 (from_le (sub 24 4 rec) + wrap 32 (entry_len_of name)).

Lemma dir_offsets : 28 ≤ ia.
Proof.
  destruct Hdir as [Hfo Hfi _ _ _ _ _ _].
  destruct (find_attribute_offset_stable rec rec 0x90 ia) as (?&?&?); try done. lia.
Qed.

Lemma resident_insert_eq total :
  index_value (sub (ia + vo) (alen - vo) rec) es total (total + free) →
  resident_insert rec parent child name =
  Ok (upd 24 (u32_le inserted_used)
       (upd (ia + vo + 20) (u32_le (total + entry_len_of name))
         (upd (ia + vo + total) (entry_image parent child name)
           (upd (ia + vo + total + entry_len_of name) (sub (ia + vo + total) 16 rec) rec)))).
Proof.
  intros Hv. pose proof (index_value_bounds _ _ _ _ Hv) as Ht32. pose proof dir_offsets as Hia.
  destruct Hdir as [Hfo Hfi Hfl Hal Hfit Hvo Hhd _]. destruct Hv as [Hf Ht Ha Hs Hr He Hc].
  rewrite len_sub in Hr by lia.
  rewrite sub_sub in Ht, Ha by lia.
  pose proof (entry_len_range name) as Hel. destruct (ascii_units name Hname) as (Hu&_).
  unfold resident_insert. rewrite Hfo. cbn [map_err]. rewrite bind_Ok.
  rewrite (proj2 (Z.leb_gt _ _)) by lia.
  rewrite (idx_ok rec (ia + 8) 0); [|lia|].
  2:{ apply (f_equal (.!! 0%nat)) in Hfl. rewrite lookup_sub, decide_True in Hfl by lia.
      rewrite Nat.add_0_r in Hfl. done. }
  rewrite bind_Ok. cbn [Z.eqb negb]. rewrite (proj2 (Z.leb_gt _ _)) by lia.
  rewrite le_at_ok, bind_Ok, Hvo by lia. cbv zeta.
  rewrite (proj2 (Z.ltb_ge (len rec) _)) by lia.
  rewrite !(le_at_ok 4 rec), !bind_Ok by lia.
  replace (ia + vo + 16 + 4) with (ia + vo + 20) by lia.
  replace (ia + vo + 16 + 8) with (ia + vo + 24) by lia. rewrite Ht, Ha, Hu.
  rewrite (proj2 (Z.ltb_ge (ia + vo + 16 + total) 16)), (proj2 (Z.ltb_ge (len rec) _)) by lia. cbn [orb].
  rewrite (proj2 (Z.ltb_ge (total + free) _)), (proj2 (Z.ltb_ge (len rec) _)) by lia.
  replace (ia + vo + 16 + total - 16) with (ia + vo + total) by lia.
  rewrite copy_within_ok, bind_Ok by lia.
  replace (ia + vo + 16 + total - (ia + vo + total)) with 16 by lia.
  set (r1 := upd (ia + vo + total + entry_len_of name) _ _).
  assert (Hr1 : len r1 = len rec) by (unfold r1; rewrite len_upd; rewrite ?len_sub by lia; lia).
  rewrite slice_ok, bind_Ok by lia.
  rewrite write_entry_ok, bind_Ok by (try done; rewrite len_sub by lia; lia).
  pose proof (length_entry_image parent child name) as Hei.
  rewrite copy_to_ok, bind_Ok by lia.
  set (r2 := upd (ia + vo + total) _ r1).
  assert (Hr2 : len r2 = len rec) by (unfold r2; rewrite len_upd; lia).
  rewrite copy_to_ok, bind_Ok by (rewrite ?length_to_le; lia).
  rewrite le_at_ok, bind_Ok by (rewrite ?len_upd by (rewrite ?length_to_le; lia); lia).
  rewrite copy_to_ok by (rewrite ?len_upd by (rewrite ?length_to_le; lia); rewrite ?length_to_le; lia).
  f_equal. unfold inserted_used. do 4 f_equal.
  rewrite sub_upd_out by (rewrite ?length_to_le; lia). unfold r2.
  rewrite sub_upd_out by lia. unfold r1. rewrite sub_upd_out; [done|lia| |lia|lia].
  rewrite len_sub by lia. lia.
Qed.

Lemma inserted_value_ok total d :
  bytes_ok d → index_value d es total (total + free) →
  index_value (inserted_value total d) (es ++ [(name, child)]) (total + entry_len_of name) (total + free).
Proof.
  intros Hbd Hv. pose proof (index_value_bounds _ _ _ _ Hv) as Ht32.
  destruct Hv as [Hf Ht Ha Hs Hr He Hc].
  pose proof (entry_len_range name) as Hel.
  pose proof (length_entry_image parent child name) as Hei.
  pose proof (from_le_sub_range 4 24 d Hbd) as Ha32.
  unfold inserted_value. set (d1 := upd _ (sub total 16 d) d).
  assert (Hd1 : len d1 = len d) by (unfold d1; rewrite len_upd; rewrite ?len_sub by lia; lia).
  set (d2 := upd total _ d1). assert (Hd2 : len d2 = len d) by (unfold d2; rewrite len_upd; lia).
  assert (L16 : len (sub total 16 d) = 16) by (rewrite len_sub; lia).
  assert (R : ∀ a n, 24 ≤ a ∨ a + n ≤ 20 → 0 ≤ a → a + n ≤ total →
    sub a n (upd 20 (u32_le (total + entry_len_of name)) d2) = sub a n d).
  { intros. rewrite sub_upd_out by (rewrite ?length_to_le; lia). unfold d2.
    rewrite sub_upd_out by lia. unfold d1. by rewrite sub_upd_out by lia. }
  split.
  - rewrite R by lia. done.
  - rewrite sub_upd_in by (rewrite ?length_to_le; lia).
    rewrite Z.sub_diag, sub_whole by (rewrite ?length_to_le; lia). apply from_to_le_small. lia.
  - rewrite R by lia. done.
  - lia.
  - rewrite len_upd by (rewrite ?length_to_le; lia). lia.
  - rewrite sub_upd_out by (rewrite ?length_to_le; lia). unfold d2. rewrite sub_upd_out by lia.
    unfold d1. rewrite sub_upd_in by lia. rewrite sub_sub by lia.
    replace (total + (total + entry_len_of name + 12 - (total + entry_len_of name))) with (total + 12) by lia.
    done.
  - rewrite R by lia. apply chain_app with (mid := total).
    + apply (chain_frame d); [lia| |done]. intros. apply R; lia.
    + apply (entry_chain parent); try done.
      * lia.
      * rewrite len_upd by (rewrite ?length_to_le; lia). lia.
      * rewrite sub_upd_out by (rewrite ?length_to_le; lia). unfold d2.
        rewrite sub_upd_in by lia. apply sub_whole; lia.
Qed.

(** The insertion succeeds, appends the entry and changes no byte outside the
    index value and the used size. *)
Lemma resident_insert_ok :
  ∃ rec', resident_insert rec parent child name = Ok rec' ∧ length rec' = length rec ∧ bytes_ok rec' ∧
    resident_dir rec' ia vo alen (es ++ [(name, child)]) (free - entry_len_of name) ∧
    ∀ a n, 0 ≤ a → a + n ≤ 24 ∨ (28 ≤ a ∧ a + n ≤ ia + vo) ∨ ia + alen ≤ a →
      sub a n rec' = sub a n rec.
Proof.
  destruct (rdir_value _ _ _ _ _ _ Hdir) as [total Hv].
  eexists. split; [by apply resident_insert_eq|].
  pose proof (index_value_bounds _ _ _ _ Hv) as Ht32. pose proof dir_offsets as Hia.
  pose proof (entry_len_range name) as Hel.
  pose proof (length_entry_image parent child name) as Hei.
  pose proof (bytes_ok_entry_image parent child name Hl) as Hbe.
  destruct Hdir as [Hfo Hfi Hfl Hal Hfit Hvo Hhd _].
  pose proof (iv_room _ _ _ _ Hv) as Hr. rewrite len_sub in Hr by lia.
  set (mark := sub (ia + vo + total) 16 rec).
  assert (Lm : len mark = 16) by (unfold mark; rewrite len_sub; lia).
  set (r1 := upd (ia + vo + total + entry_len_of name) mark rec).
  assert (L1 : len r1 = len rec) by (unfold r1; rewrite len_upd; lia).
  set (r2 := upd (ia + vo + total) _ r1). assert (L2 : len r2 = len rec) by (unfold r2; rewrite len_upd; lia).
  set (r3 := upd (ia + vo + 20) _ r2).
  assert (L3 : len r3 = len rec) by (unfold r3; rewrite len_upd; rewrite ?length_to_le; lia).
  assert (F : ∀ a n, 0 ≤ a → a + n ≤ 24 ∨ (28 ≤ a ∧ a + n ≤ ia + vo + 20) ∨ ia + alen ≤ a →
    sub a n (upd 24 (u32_le inserted_used) r3) = sub a n rec).
  { intros a n Ha Hc. rewrite sub_upd_out by (rewrite ?length_to_le; lia). unfold r3.
    rewrite sub_upd_out by (rewrite ?length_to_le; lia). unfold r2.
    rewrite sub_upd_out by lia. unfold r1. by rewrite sub_upd_out by lia. }
  assert (L4 : length (upd 24 (u32_le inserted_used) r3) = length rec)
    by (rewrite len_upd by (rewrite ?length_to_le; lia); lia).
  split_and!; [done| | |intros; apply F; lia].
  { unfold r3, r2, r1, mark. auto 10 with bytes. }
  assert (Hst : find_attribute_offset (upd 24 (u32_le inserted_used) r3) 0x90 = Ok ia).
  { apply (find_attribute_offset_stable rec); try done; [apply F; lia|]. intros. apply F; lia. }
  split; rewrite ?F by lia; rewrite ?L4; try done.
  exists (total + entry_len_of name).
  replace (total + entry_len_of name + (free - entry_len_of name)) with (total + free) by lia.
  assert (sub (ia + vo) (alen - vo) (upd 24 (u32_le inserted_used) r3) =
    inserted_value total (sub (ia + vo) (alen - vo) rec)) as ->.
  { rewrite sub_upd_out by (rewrite ?length_to_le; lia). unfold r3.
    rewrite sub_upd_inner by (rewrite ?length_to_le; lia). unfold r2.
    rewrite sub_upd_inner by lia. unfold r1. rewrite sub_upd_inner by lia.
    unfold inserted_value, mark. rewrite sub_sub by lia.
    repeat f_equal; lia. }
  apply inserted_value_ok; [by apply bytes_ok_sub|done].
Qed.
End insert.

(** Inserting an entry into the resident index of a directory record that
    has room for it succeeds and appends it: listing the index then returns
    the old names followed by the new one, the new name is found at the
    child's record number (unless an older entry matches), and no byte outside
    the index value and the used-size field changes. *)
Theorem resident_insert_appends (rec : list Z) (ia vo alen free : Z) (es : list (rstring * Z))
    (parent child : Z) (name : rstring) :
  bytes_ok rec → resident_dir rec ia vo alen es free →
  ascii_name name → 1 ≤ len name ≤ 255 → is_u64 parent → is_u 48 child → entry_len_of name ≤ free →
  ∃ rec', resident_insert rec parent child name = Ok rec' ∧ length rec' = length rec ∧
    resident_dir rec' ia vo alen (es ++ [(name, child)]) (free - entry_len_of name) ∧
    list_directory (sub (ia + vo) (alen - vo) rec') = Ok (es.*1 ++ [name]) ∧
    (∀ n, find_in_directory (sub (ia + vo) (alen - vo) rec') n =
          found (entry_named n (es ++ [(name, child)]))) ∧
    ∀ a n, 0 ≤ a → a + n ≤ 24 ∨ (28 ≤ a ∧ a + n ≤ ia + vo) ∨ ia + alen ≤ a →
      sub a n rec' = sub a n rec.
Proof.
  intros Hb Hd Hn Hl Hp Hc Hf.
  destruct (resident_insert_ok rec ia vo alen free es parent child name) as (rec'&Hok&Hlen&Hb'&Hd'&Hfr); try done.
  exists rec'. destruct (rdir_value _ _ _ _ _ _ Hd') as [total Hv].
  apply index_value_listing in Hv as [H1 H2]; [|by apply bytes_ok_sub].
  rewrite fmap_app in H1. by split_and!.
Qed.

(** ** A directory that has just been created *)

Lemma find_attr_loop_skip fuel pre a post ty t rest :
  a = u32_le t ++ u32_le (len a) ++ rest → 0 < len a < 2 ^ 32 → 0 ≤ t < 2 ^ 16 → t ≠ ty →
  find_attr_loop (S fuel) (pre ++ a ++ post) ty (len pre) =
  find_attr_loop fuel (pre ++ a ++ post) ty (len pre + len a).
Proof.
  intros Ha Hla Ht Hne. assert (H8 : 8 ≤ len a) by (rewrite Ha, !length_app, !length_to_le; lia).
  assert (E0 : sub (len pre) 4 (pre ++ a ++ post) = u32_le t).
  { rewrite sub_app_r, Z.sub_diag, sub_app_l by lia. rewrite Ha. by bread. }
  assert (E4 : sub (len pre + 4) 4 (pre ++ a ++ post) = u32_le (len a)).
  { rewrite sub_app_r, sub_app_l by lia. replace (len pre + 4 - len pre) with 4 by lia.
    rewrite Ha at 1. by bread. }
  assert (Hlen : len (pre ++ a ++ post) = len pre + len a + len post) by (rewrite !length_app; lia).
  cbn [find_attr_loop]. rewrite (proj2 (Z.ltb_ge _ _)) by lia.
  rewrite !le_at_ok, !bind_Ok, E0, E4, !from_to_le_small by lia.
  rewrite (proj2 (Z.eqb_neq t _)), (proj2 (Z.eqb_neq t ty)), (proj2 (Z.eqb_neq (len a) 0)),
    (proj2 (Z.ltb_ge _ _)) by lia. done.
Qed.

(** No entry can be added to a directory that [build_mft_record] has just
    made: its index header gives 48 bytes both as the used and as the
    allocated size, so [add_to_resident_index] answers [NoSpace] for every
    name. *)
Theorem fresh_directory_is_full (sz num : Z) (name : rstring) (parent : Z) (data : list Z)
    (p c : Z) (child : rstring) (rec : list Z) :
  len (encode_utf16 name) ≤ 255 → len data ≤ 700 → record_end name true data + 16 ≤ sz < 2 ^ 63 →
  build_mft_record sz num name parent true data = Ok rec →
  resident_insert rec p c child = Err Ntfs_NoSpace.
Proof.
  intros Hn Hd Hsz.
  pose proof (align8_range (24 + filename_data_len name)) as Hf. fold (filename_len name) in Hf.
  assert (Hf0 : 66 ≤ filename_data_len name ≤ 576) by (unfold filename_data_len; lia).
  assert (Hre : record_end name true data = 224 + filename_len name) by (unfold record_end, body_len; lia).
  rewrite build_mft_record_cases by lia.
  rewrite (proj2 (Z.ltb_ge sz _)), (proj2 (Z.ltb_ge sz (_ + 4))) by lia. intros <-%Ok_inj.
  unfold record_image. set (rest := zeros (sz - _)).
  set (used := align8 _). set (F := filename_bytes name parent ++ filename_padding name).
  set (S0 := std_info_bytes true). set (H0 := header_image sz (Z.land num 0xFFFF) used ++ zeros 2).
  assert (HlF : len F = filename_len name) by apply length_filename_padded.
  assert (HlS : len S0 = 96) by done. assert (HlH : len H0 = 56) by done.
  assert (R : (header_image sz (Z.land num 65535) used ++ zeros 2 ++ S0 ++ F ++ body_attr sz true data ++
     u32_le 0xFFFFFFFF) ++ rest = H0 ++ S0 ++ F ++ index_root_bytes sz ++ u32_le 0xFFFFFFFF ++ rest)
    by (unfold H0; by rewrite <- !app_assoc).
  rewrite R. clear R. set (ia := 152 + filename_len name).
  set (rec := H0 ++ S0 ++ F ++ index_root_bytes sz ++ u32_le 0xFFFFFFFF ++ rest).
  assert (HlI : len (index_root_bytes sz) = 72) by done.
  assert (Hlr : len rec = sz).
  { unfold rec. rewrite !length_app, length_to_le. unfold rest. rewrite length_zeros. lia. }
  assert (E : ∀ a n, 0 ≤ a → 0 ≤ n → a + n ≤ 72 → sub (ia + a) n rec = sub a n (index_root_bytes sz)).
  { intros a n Ha Hn0 Han. unfold rec. rewrite (app_assoc H0), (app_assoc (H0 ++ S0)).
    rewrite sub_app_r by (rewrite !length_app; lia). rewrite sub_app_l by (rewrite !length_app; lia).
    f_equal. rewrite !length_app. lia. }
  assert (Hia : find_attribute_offset rec 0x90 = Ok ia).
  { unfold find_attribute_offset. rewrite (proj2 (Z.ltb_ge _ _)) by lia.
    rewrite le_at_ok, bind_Ok by lia. change (from_le (sub 20 2 rec)) with 56.
    assert (Hfu : ∃ k, S (length rec) = S (S (S k))) by (exists (length rec - 2)%nat; lia).
    destruct Hfu as [k ->]. replace 56 with (len H0) by done. unfold rec at 1.
    rewrite (find_attr_loop_skip _ H0 S0 _ _ 0x10 (drop 8 S0)) by (try done; lia).
    replace (len H0 + len S0) with (len (H0 ++ S0)) by (rewrite length_app; lia).
    rewrite (app_assoc H0).
    rewrite (find_attr_loop_skip _ (H0 ++ S0) F _ _ 0x30 (drop 8 F)); [|
      rewrite HlF; unfold F, filename_bytes, attr_head; rewrite <- !app_assoc; reflexivity|lia|lia|done].
    rewrite <- app_assoc. fold rec.
    replace (len (H0 ++ S0) + len F) with ia by (rewrite length_app; unfold ia; lia).
    cbn [find_attr_loop]. rewrite (proj2 (Z.ltb_ge _ _)) by lia.
    pose proof (E 0 4) as E0. rewrite Z.add_0_r in E0.
    rewrite (le_at_ok 4 rec ia), bind_Ok, E0 by lia. done. }
  unfold resident_insert. rewrite Hia. cbn [map_err]. rewrite bind_Ok.
  rewrite (proj2 (Z.leb_gt _ _)) by lia.
  rewrite (idx_ok rec (ia + 8) 0); [|lia|].
  2:{ pose proof (E 8 1) as E8. apply (f_equal (.!! 0%nat)) in E8; [|lia..].
      rewrite lookup_sub, decide_True, Nat.add_0_r in E8 by lia. by rewrite E8. }
  rewrite bind_Ok. cbn [Z.eqb negb]. rewrite (proj2 (Z.leb_gt _ _)) by lia.
  rewrite le_at_ok, bind_Ok, (E 20 2) by lia. change (from_le (sub 20 2 _)) with 24. cbv zeta.
  rewrite (proj2 (Z.ltb_ge (len rec) _)) by lia.
  rewrite !(le_at_ok 4 rec), !bind_Ok by lia.
  replace (ia + 24 + 16 + 4) with (ia + 44) by lia.
  replace (ia + 24 + 16 + 8) with (ia + 48) by lia. rewrite (E 44 4), (E 48 4) by lia.
  change (from_le (sub 44 4 _)) with 48. change (from_le (sub 48 4 _)) with 48.
  rewrite (proj2 (Z.ltb_ge (ia + 24 + 16 + 48) 16)), (proj2 (Z.ltb_ge (len rec) _)) by lia. cbn [orb].
  pose proof (entry_len_range (encode_utf16 child)).
  by rewrite (proj2 (Z.ltb_lt 48 _)) by lia.
Qed.

(** ** Witnesses *)

(** An empty directory with 200 free bytes in its index. *)
Definition demo_dir_value : list Z :=
  u32_le 0x30 ++ u32_le 0 ++ u32_le 1024 ++ [1; 0; 0; 0] ++
  u32_le 16 ++ u32_le 32 ++ u32_le 232 ++ zeros 4 ++
  u64_le 0 ++ u16_le 16 ++ u16_le 0 ++ u16_le 2 ++ zeros 2 ++ zeros 200.
Definition demo_dir : list Z :=
  zeros 20 ++ [56; 0] ++ zeros 34 ++ attr_head 0x90 272 248 [0; 0] ++ demo_dir_value ++ zeros 8.
Definition demo_name : rstring := lit "a.txt".

Lemma demo_dir_ok : resident_dir demo_dir 56 24 272 [] 200.
Proof.
  split; try by vm_compute. exists 32. split; try by vm_compute. constructor.
Qed.

Lemma demo_name_ok : ascii_name demo_name ∧ 1 ≤ len demo_name ≤ 255.
Proof. split; [by repeat constructor|by vm_compute]. Qed.

Lemma resident_insert_appends_witness :
  resident_dir demo_dir 56 24 272 [] 200 ∧
  ∃ rec', resident_insert demo_dir 5 40 demo_name = Ok rec' ∧ length rec' = length demo_dir ∧
    resident_dir rec' 56 24 272 ([] ++ [(demo_name, 40)]) (200 - entry_len_of demo_name) ∧
    list_directory (sub (56 + 24) (272 - 24) rec') = Ok (([] : list (rstring * Z)).*1 ++ [demo_name]) ∧
    (∀ n, find_in_directory (sub (56 + 24) (272 - 24) rec') n =
          found (entry_named n ([] ++ [(demo_name, 40)]))) ∧
    ∀ a n, 0 ≤ a → a + n ≤ 24 ∨ (28 ≤ a ∧ a + n ≤ 56 + 24) ∨ 56 + 272 ≤ a →
      sub a n rec' = sub a n demo_dir.
Proof.
  split; [exact demo_dir_ok|].
  refine (resident_insert_appends demo_dir 56 24 272 200 [] 5 40 demo_name _ demo_dir_ok
            (proj1 demo_name_ok) (proj2 demo_name_ok) _ _ _).
  - apply bytes_ok_check. by vm_compute.
  - by vm_compute.
  - by vm_compute.
  - by vm_compute.
Defined.


Lemma fresh_directory_is_full_witness :
  ∃ rec, build_mft_record 1024 64 demo_name 5 true [] = Ok rec ∧
    resident_insert rec 64 65 demo_name = Err Ntfs_NoSpace.
Proof.
  destruct (build_mft_record 1024 64 demo_name 5 true []) as [rec| | |] eqn:H; try by vm_compute in H.
  exists rec. split; [done|].
  refine (fresh_directory_is_full 1024 64 demo_name 5 [] 64 65 demo_name rec _ _ _ H);
    clear H; repeat split; by vm_compute.
Defined.
