(* ===== verification/NtfsStatFacts.v ===== *)
(** * How [parse_stat] depends on the record

    It only reads the attribute list; replacing the value of the first unnamed
    resident [$DATA] attribute changes exactly the first run of its result,
    and changing the index value of a directory exactly its index. *)

From S2P Require Import Prelude Bytes Text BlockDev NtfsTypes NtfsBoot NtfsRuns NtfsAttr NtfsRecord.
From S2P Require Import NtfsRecordFacts NtfsIndex NtfsIndexFacts.

(** ** Frames *)

(** Two buffers of one length that agree from [lo] up to [hi]. *)
Definition agree (lo hi : Z) (l l' : list Z) : Prop :=
  length l' = length l ∧ ∀ a n, lo ≤ a → 0 ≤ n → a + n ≤ hi → sub a n l' = sub a n l.

Lemma agree_weaken lo hi lo' hi' l l' :
  lo ≤ lo' → hi' ≤ hi → agree lo hi l l' → agree lo' hi' l l'.
Proof. intros ?? [? H]. split; [done|]. intros. apply H; lia. Qed.

Lemma agree_le_at {E} lo hi l l' n o :
  agree lo hi l l' → lo ≤ o → 0 ≤ o → 0 ≤ n → o + n ≤ hi → le_at (E:=E) n l' o = le_at n l o.
Proof.
  intros [Hl H] ????. destruct (decide (o + n ≤ len l)).
  - by rewrite !le_at_ok, H by lia.
  - unfold le_at. by rewrite !slice_panic by lia.
Qed.

Lemma agree_idx {E} lo hi l l' i :
  agree lo hi l l' → lo ≤ i → 0 ≤ i → i < hi → idx (E:=E) l' i = idx l i.
Proof.
  intros [Hl H] ???. destruct (decide (i < len l)); [|by rewrite !idx_out by lia].
  specialize (H i 1 ltac:(lia) ltac:(lia) ltac:(lia)). apply (f_equal (.!! 0%nat)) in H.
  rewrite !lookup_sub, decide_True, Nat.add_0_r in H by lia.
  unfold idx. by rewrite H.
Qed.

Lemma agree_slice {E} lo hi l l' a b :
  agree lo hi l l' → lo ≤ a → b ≤ hi → slice (E:=E) l' a b = slice l a b.
Proof.
  intros [Hl H] ??. unfold slice. rewrite Hl. destruct (_ && _) eqn:Hc; [|done].
  rewrite H by lia. done.
Qed.

Lemma attr_next_agree lo hi record record' off :
  agree lo hi record record' → lo ≤ off → 0 ≤ off → off + 9 ≤ hi →
  (∀ t a r next, attr_next record off = Ok (Some (t, a, r, next)) → next ≤ hi) →
  attr_next record' off = attr_next record off.
Proof.
  intros Ha Hlo Ho Hhi Hn. pose proof Ha as [Hl _]. revert Hn. unfold attr_next. rewrite Hl.
  destruct (Z.ltb_spec (len record) (off + 8)); [done|].
  rewrite (agree_le_at lo hi record record' 4 off), (agree_le_at lo hi record record' 4 (off + 4)) by (done || lia).
  rewrite !(le_at_ok 4 record), !bind_Ok by lia. case_match; [done|]. rewrite ?bind_Ok.
  case_match eqn:Hlen; [done|]. rewrite (agree_idx lo hi record record') by (done || lia).
  destruct (idx record (off + 8)) as [f| | |]; try done. rewrite !bind_Ok.
  destruct (attribute_type _) as [t|]; [|done].
  unfold slice. rewrite Hl. destruct (_ && _) eqn:Hc; [|done]. rewrite !bind_Ok. intros Hn.
  pose proof (Hn _ _ _ _ eq_refl). rewrite (proj2 Ha) by lia. done.
Qed.

Lemma stat_loop_agree fuel record record' b off s :
  bytes_ok record → 0 ≤ off → agree off (len record) record record' →
  stat_loop fuel record' b off s = stat_loop fuel record b off s.
Proof.
  intros Hb. revert off s. induction fuel as [|fuel IH]; intros off s Ho Ha; [done|]. cbn [stat_loop].
  destruct (decide (off + 9 ≤ len record)) as [Hle|Hgt].
  - rewrite (attr_next_agree off (len record) record record') by
      (try done; try lia; intros t a r next Hn;
       destruct (attr_next_cases record off Hb Ho) as [E|[(?&?&?&?&?&E&_&_&_&?&_)|(E&_)]];
       rewrite E in Hn; by simplify_eq).
    destruct (attr_next_cases record off Hb Ho) as [->|[(t&a&r&next&n&->&_&Hn&->&_)|(->&_)]]; [done| |done].
    rewrite !bind_Ok. destruct (stat_attr _ _ _ _ _); try done. rewrite !bind_Ok.
    apply IH; [lia|]. eapply agree_weaken; [| |exact Ha]; lia.
  - assert (E : ∀ l, length l = length record → agree off (len record) record l →
      attr_next l off = attr_next record off).
    { intros l Hl Hal. unfold attr_next. rewrite Hl.
      destruct (Z.ltb_spec (len record) (off + 8)); [done|].
      rewrite (agree_le_at off (len record) record l 4 off),
        (agree_le_at off (len record) record l 4 (off + 4)) by (done || lia).
      repeat (case_match; [done|]) || idtac.
      rewrite !(le_at_ok 4 record), !bind_Ok by lia. case_match; [done|]. rewrite ?bind_Ok.
      case_match; [done|]. by rewrite !idx_out by lia. }
    rewrite E by (try done; apply Ha).
    destruct (attr_next_cases record off Hb Ho) as [->|[(t&a&r&next&n&->&_&Hn&->&?&_)|(->&_)]]; [done| |done].
    rewrite !bind_Ok. destruct (stat_attr _ _ _ _ _); try done. rewrite !bind_Ok.
    apply IH; [lia|]. eapply agree_weaken; [| |exact Ha]; lia.
Qed.

(** [parse_stat] reads the offset of the first attribute and what follows it. *)
Lemma parse_stat_agree record record' b :
  bytes_ok record → agree (from_le (sub 20 2 record)) (len record) record record' →
  sub 20 2 record' = sub 20 2 record → parse_stat record' b = parse_stat record b.
Proof.
  intros Hb Ha H20. unfold parse_stat. pose proof Ha as [Hl _]. rewrite Hl.
  destruct (decide (22 ≤ len record)).
  - rewrite !le_at_ok, !bind_Ok, H20 by lia. apply stat_loop_agree; [done| |done].
    by apply (from_le_sub_range 2).
  - unfold le_at. by rewrite !slice_panic by lia.
Qed.

(** ** Replacing the content of a resident file *)

(** The metadata with the first run replaced. *)
Definition set_first_run (data : list Z) (s : NtfsStat) : NtfsStat := {|
  st_is_directory := st_is_directory s; st_size := st_size s; st_name := st_name s;
  st_data_runs := match st_data_runs s with [] => [] | _ :: rs => Resident data :: rs end;
  st_index_root := st_index_root s; st_standard_info := st_standard_info s;
  st_security_descriptor := st_security_descriptor s; st_object_id := st_object_id s;
  st_reparse_point := st_reparse_point s;
  st_alternate_data_streams := st_alternate_data_streams s |}.

(** A result and the same result with the first run replaced. *)
Definition replaced (data : list Z) (x : DataRun) (m' m : outcome NtfsError NtfsStat) : Prop :=
  m' = set_first_run data <$> m ∧ yields m (λ s, head (st_data_runs s) = Some x).

Lemma replaced_bind {A} data x (n : outcome NtfsError A) k' k :
  (∀ a, n = Ok a → replaced data x (k' a) (k a)) → replaced data x (n ≫= k') (n ≫= k).
Proof. destruct n; intros H; [by apply H|by split..]. Qed.
Lemma replaced_mret data x s1 s : s1 = set_first_run data s → head (st_data_runs s) = Some x →
  replaced data x (mret s1) (mret s).
Proof. intros -> ?. split; [done|]. by apply yields_mret. Qed.

Lemma stat_attr_replaced b t a r s data x :
  head (st_data_runs s) = Some x →
  replaced data x (stat_attr b t a r (set_first_run data s)) (stat_attr b t a r s).
Proof.
  destruct s as [dir size name [|y rs] idx si sd oid rp ads]; [done|]. cbn [st_data_runs head].
  intros [= ->].
  destruct t, r; cbn [stat_attr andb]; try (by apply replaced_mret);
    try (apply replaced_bind; intros ? _; by apply replaced_mret).
  - cbn [st_name set_first_run]. case_bool_decide; [|by apply replaced_mret].
    apply replaced_bind. intros [[? ?]|] _; by apply replaced_mret.
  - apply replaced_bind; intros n _. case_match; [by apply replaced_mret|].
    do 2 (apply replaced_bind; intros ? _). case_match; [by apply replaced_mret|].
    apply replaced_bind; intros ? _. case_match; [by apply replaced_mret|].
    apply replaced_bind; intros ? _. by apply replaced_mret.
  - apply replaced_bind; intros n _. apply replaced_bind; intros ? _.
    case_match; [by apply replaced_mret|].
    apply replaced_bind; intros ? _. by apply replaced_mret.
  - apply replaced_bind; intros vo _. case_match; [|by apply replaced_mret].
    apply replaced_bind; intros ? _. by apply replaced_mret.
Qed.

Lemma stat_loop_replaced fuel rec b off s data x :
  head (st_data_runs s) = Some x →
  replaced data x (stat_loop fuel rec b off (set_first_run data s)) (stat_loop fuel rec b off s).
Proof.
  revert off s. induction fuel as [|fuel IH]; intros off s Hs; cbn [stat_loop]; [by split|].
  apply replaced_bind. intros [[[[t a] r] next]|] _; [|by apply replaced_mret].
  destruct (stat_attr_replaced b t a r s data x Hs) as [E Hy]. rewrite E.
  destruct (stat_attr b t a r s) as [s'| | |]; [|by split..].
  change (set_first_run data <$> Ok s') with (Ok (E:=NtfsError) (set_first_run data s')).
  rewrite !bind_Ok. apply IH. by apply Hy.
Qed.

(** The first unnamed resident [$DATA] attribute of a record: its offset, the
    offset of its value, its content, and the metadata of the record. *)
Record resident_data (rec : list Z) (b : BootSector) (o vo : Z) (existing : list Z) (s : NtfsStat)
    : Prop := {
  rd_found : find_data_attribute_offset rec = Ok o;
  rd_flags : sub (o + 8) 2 rec = [0; 0];
  rd_fits : o + from_le (sub (o + 4) 4 rec) ≤ len rec;
  rd_length : from_le (sub (o + 16) 4 rec) = len existing;
  rd_offset : from_le (sub (o + 20) 2 rec) = vo;
  rd_head : 24 ≤ vo;
  rd_inside : vo + len existing ≤ from_le (sub (o + 4) 4 rec);
  rd_value : sub (o + vo) (len existing) rec = existing;
  rd_stat : parse_stat rec b = Ok s;
  rd_runs : st_data_runs s ≠ [];
}.

(** [stat_attr] on an attribute that is not [$DATA] leaves the runs alone. *)
Lemma stat_attr_runs b t a r s :
  t ≠ AT_Data → yields (stat_attr b t a r s) (λ s', st_data_runs s' = st_data_runs s).
Proof.
  intros Ht. destruct t, r; try done; cbn [stat_attr andb]; try (by apply yields_mret);
    try (apply yields_bind; intros ? _; by apply yields_mret).
  - case_bool_decide; [|by apply yields_mret]. apply yields_bind.
    intros [[? ?]|] _; by apply yields_mret.
  - apply yields_bind; intros ? _. case_match; [|by apply yields_mret].
    apply yields_bind; intros ? _. by apply yields_mret.
Qed.

Lemma attr_next_type record off t a r next :
  attr_next record off = Ok (Some (t, a, r, next)) →
  attribute_type (from_le (sub off 4 record)) = Some t.
Proof.
  unfold attr_next. case_match; [done|]. intros (ty&(?&?&?&->)%le_at_Ok_inv&Hk)%bind_Ok_inv.
  revert Hk. case_match; [done|]. intros (n&_&Hk)%bind_Ok_inv. revert Hk. case_match; [done|].
  intros (f&_&Hk)%bind_Ok_inv. revert Hk. destruct (attribute_type _) as [t'|]; [|done].
  intros (l&_&Hk)%bind_Ok_inv. by injection Hk as -> _ _ _.
Qed.

Lemma attribute_type_data ty : attribute_type ty = Some AT_Data → ty = 0x80.
Proof.
  unfold attribute_type. repeat (case_match; [done || (intros _; lia)|]). done.
Qed.

(** The walk of [parse_stat] reaches the attribute [find_data_attribute_offset]
    finds, on the record and on any record that agrees with it up to there. *)
Lemma stat_walk fuel fuel' rec rec' b off o s s' :
  bytes_ok rec → 0 ≤ off → find_data_loop fuel' rec off = Ok o →
  st_data_runs s = [] → stat_loop fuel rec b off s = Ok s' → st_data_runs s' ≠ [] →
  agree off (o + 24) rec rec' →
  off ≤ o ∧ ∃ fuel1 s1, st_data_runs s1 = [] ∧
    stat_loop fuel rec b off s = stat_loop fuel1 rec b o s1 ∧
    stat_loop fuel rec' b off s = stat_loop fuel1 rec' b o s1.
Proof.
  intros Hb. revert fuel' off s. induction fuel as [|fuel IH]; intros fuel' off s Ho Hf Hs Hst Hne Ha; [done|].
  destruct fuel' as [|fuel']; [done|]. cbn [find_data_loop] in Hf. revert Hf.
  destruct (Z.ltb_spec (len rec) (off + 8)); [done|]. repeat bstep. case_match; [done|].
  destruct (Z.eqb_spec (from_le (sub off 4 rec)) 0x80) as [|Hty].
  { intros [= ->]. split; [lia|]. by exists (S fuel), s. }
  repeat bstep. destruct (Z.eqb_spec (from_le (sub (off + 4) 4 rec)) 0) as [|Hlen]; [done|]. intros Hf.
  cbn [stat_loop] in Hst |- *.
  destruct (attr_next_cases rec off Hb Ho) as [E|[(t&a&r&next&n&E&->&Hn&->&Hle&->&_)|(E&_)]];
    rewrite E in Hst; [| |done];
    rewrite bind_Ok in Hst; [by injection Hst as <-|]. pose proof (attr_next_type _ _ _ _ _ _ E) as Ht.
  assert (t ≠ AT_Data) by (intros ->; by apply attribute_type_data in Ht).
  destruct (stat_attr b t _ r s) as [s2| | |] eqn:E2; try done. rewrite bind_Ok in Hst.
  assert (Hs2 : st_data_runs s2 = []) by (rewrite <- Hs; by eapply stat_attr_runs).
  destruct (IH fuel' (off + from_le (sub (off + 4) 4 rec)) s2) as (Hle2&f1&s1&Hr1&Hr2&Hr3);
    [lia|done|done|done|done|by eapply agree_weaken; [..|exact Ha]; lia|].
  split; [lia|]. exists f1, s1. split; [done|].
  rewrite (attr_next_agree off (o + 24) rec rec'); [|done|lia|lia|lia|].
  - rewrite E, !bind_Ok, E2, !bind_Ok. done.
  - intros ? ? ? ? E'. rewrite E in E'. simplify_eq. lia.
Qed.

(** The iteration at the attribute. *)
Lemma stat_step_data fuel R b o n vo v s :
  0 ≤ o → from_le (sub o 4 R) = 0x80 → sub (o + 8) 2 R = [0; 0] → from_le (sub (o + 4) 4 R) = n →
  o + n ≤ len R → from_le (sub (o + 16) 4 R) = len v → from_le (sub (o + 20) 2 R) = vo →
  24 ≤ vo → vo + len v ≤ n → sub (o + vo) (len v) R = v →
  stat_loop (S fuel) R b o s = stat_loop fuel R b (o + n) (with_data s (len v) (Resident v)).
Proof.
  intros Ho Hty Hfl Hn Hfit Hl Hvo Hh Hin Hv. cbn [stat_loop].
  assert (E : attr_next R o = Ok (Some (AT_Data, sub o n R, true, o + n))).
  { unfold attr_next. rewrite (proj2 (Z.ltb_ge _ _)) by lia.
    rewrite !le_at_ok, !bind_Ok, Hty, Hn by lia. cbn [Z.eqb].
    rewrite (proj2 (Z.eqb_neq n 0)), (proj2 (Z.ltb_ge _ _)) by lia. cbn [orb].
    rewrite (idx_ok R (o + 8) 0); [|lia|].
    - rewrite bind_Ok. change (attribute_type 0x80) with (Some AT_Data). cbv beta zeta iota.
      rewrite slice_ok, bind_Ok by lia.
      replace (o + n - o) with n by lia. done.
    - apply (f_equal (.!! 0%nat)) in Hfl. rewrite lookup_sub, decide_True, Nat.add_0_r in Hfl by lia. done. }
  rewrite E, bind_Ok. cbn [stat_attr]. unfold stat_data.
  assert (La : len (sub o n R) = n) by (rewrite len_sub; lia).
  rewrite (idx_ok _ 9 0); [|lia|].
  2:{ apply (f_equal (.!! 1%nat)) in Hfl. rewrite lookup_sub, decide_True in Hfl by lia.
      rewrite lookup_sub, decide_True by lia. etrans; [|exact Hfl]. f_equal. lia. }
  rewrite bind_Ok, La, (proj2 (Z.ltb_ge _ _)) by lia.
  rewrite !le_at_ok by lia. rewrite !sub_sub, !bind_Ok, Hl, Hvo by lia.
  rewrite (proj2 (Z.ltb_ge _ _)) by lia. rewrite slice_ok, bind_Ok by lia. cbn [Z.eqb].
  rewrite sub_sub by lia. replace (vo + len v - vo) with (len v) by lia. by rewrite Hv.
Qed.

(** Replacing the content: [parse_stat] sees the new content and nothing else
    changes. *)
Lemma parse_stat_update rec b o vo existing s data :
  bytes_ok rec → 24 ≤ from_le (sub 20 2 rec) →
  resident_data rec b o vo existing s → len data = len existing →
  head (st_data_runs s) = Some (Resident existing) ∧
  parse_stat (upd (o + vo) data rec) b = Ok (set_first_run data s).
Proof.
  intros Hb Hfirst [Hfo Hfl Hfit Hlen Hvo Hh Hin Hv Hst Hne] Hld.
  set (rec' := upd (o + vo) data rec).
  unfold find_data_attribute_offset in Hfo. unfold parse_stat in Hst |- *.
  apply bind_Ok_inv in Hst as (first&Hfs&Hst). rewrite Hfs, bind_Ok in Hfo.
  apply le_at_Ok_inv in Hfs as (_&_&Hl22&->).
  assert (Ho : from_le (sub 20 2 rec) ≤ o ∧ o + 8 ≤ len rec ∧ from_le (sub o 4 rec) = 0x80).
  { destruct (find_data_loop_cases (S (length rec)) rec (from_le (sub 20 2 rec))) as [E|(o'&E&?&?&?)];
      [done|lia|lia|congruence|]. rewrite E in Hfo. simplify_eq. lia. }
  destruct Ho as (Ho&Ho8&Hty).
  assert (Hn0 : 0 ≤ from_le (sub (o + 4) 4 rec)) by (by apply (from_le_sub_range 4)).
  assert (Hlr : length rec' = length rec) by (apply len_upd; lia).
  assert (Hag : ∀ a n, 0 ≤ a → 0 ≤ n → a + n ≤ o + vo ∨ o + vo + len data ≤ a → sub a n rec' = sub a n rec).
  { intros. unfold rec'. apply sub_upd_out; lia. }
  assert (H20 : le_at (E:=NtfsError) 2 rec' 20 = Ok (from_le (sub 20 2 rec))).
  { rewrite (le_at_ok (E:=NtfsError)) by lia. rewrite Hag by lia. done. }
  rewrite H20, bind_Ok, Hlr. clear H20.
  destruct (stat_walk (S (length rec)) (S (length rec)) rec rec' b (from_le (sub 20 2 rec)) o
    NtfsStat_default s) as (_&f1&s1&Hs1&E1&E2); [done|lia|done|done|done|done| |].
  { split; [done|]. intros. apply Hag; lia. }
  rewrite E2. rewrite E1 in Hst. destruct f1 as [|f1]; [done|].
  rewrite (stat_step_data f1 rec b o _ vo existing) in Hst by (done || lia).
  rewrite (stat_step_data f1 rec' b o (from_le (sub (o + 4) 4 rec)) vo data).
  - set (x := with_data s1 (len existing) (Resident existing)) in *.
    assert (Hx : head (st_data_runs x) = Some (Resident existing)) by (unfold x; cbn; by rewrite Hs1).
    assert (E : with_data s1 (len data) (Resident data) = set_first_run data x).
    { unfold x, with_data, set_first_run. cbn. by rewrite Hs1, Hld. }
    rewrite E. rewrite (stat_loop_agree f1 rec rec');
      [|done|lia|split; [done|intros; apply Hag; lia]].
    destruct (stat_loop_replaced f1 rec b (o + from_le (sub (o + 4) 4 rec)) x data _ Hx) as [-> Hy].
    rewrite Hst. split; [by apply Hy|done].
  - lia.
  - rewrite Hag by lia. done.
  - rewrite Hag by lia. done.
  - rewrite Hag by lia. done.
  - rewrite Hlr. lia.
  - rewrite Hag by lia. lia.
  - rewrite Hag by lia. done.
  - done.
  - lia.
  - unfold rec'. rewrite sub_upd_in by lia. rewrite Z.sub_diag. apply sub_all.
Qed.

(** ** Replacing the index of a directory *)

Definition set_index (v : list Z) (s : NtfsStat) : NtfsStat := {|
  st_is_directory := st_is_directory s; st_size := st_size s; st_name := st_name s;
  st_data_runs := st_data_runs s; st_index_root := Some v;
  st_standard_info := st_standard_info s; st_security_descriptor := st_security_descriptor s;
  st_object_id := st_object_id s; st_reparse_point := st_reparse_point s;
  st_alternate_data_streams := st_alternate_data_streams s |}.

Definition reindexed (v w : list Z) (m' m : outcome NtfsError NtfsStat) : Prop :=
  m' = set_index v <$> m ∧ yields m (λ s, st_index_root s = Some w).

Lemma reindexed_bind {A} v w (n : outcome NtfsError A) k' k :
  (∀ a, n = Ok a → reindexed v w (k' a) (k a)) → reindexed v w (n ≫= k') (n ≫= k).
Proof. destruct n; intros H; [by apply H|by split..]. Qed.
Lemma reindexed_mret v w s1 s :
  s1 = set_index v s → st_index_root s = Some w → reindexed v w (mret s1) (mret s).
Proof. intros -> ?. split; [done|]. by apply yields_mret. Qed.

Lemma stat_attr_reindexed b t a r s v w :
  t ≠ AT_IndexRoot → st_index_root s = Some w →
  reindexed v w (stat_attr b t a r (set_index v s)) (stat_attr b t a r s).
Proof.
  intros Ht Hs. destruct t, r; cbn [stat_attr andb]; try done; try (by apply reindexed_mret);
    try (apply reindexed_bind; intros ? _; by apply reindexed_mret).
  - cbn [st_name set_index]. case_bool_decide; [|by apply reindexed_mret].
    apply reindexed_bind. intros [[? ?]|] _; by apply reindexed_mret.
  - apply reindexed_bind; intros n _. case_match; [by apply reindexed_mret|].
    do 2 (apply reindexed_bind; intros ? _). case_match; [by apply reindexed_mret|].
    apply reindexed_bind; intros ? _. case_match; [by apply reindexed_mret|].
    apply reindexed_bind; intros ? _. by apply reindexed_mret.
  - apply reindexed_bind; intros n _. apply reindexed_bind; intros ? _.
    case_match; [by apply reindexed_mret|].
    apply reindexed_bind; intros ? _. by apply reindexed_mret.
Qed.

Lemma attribute_type_index ty : attribute_type ty = Some AT_IndexRoot → ty = 0x90.
Proof.
  unfold attribute_type. repeat (case_match; [done || (intros _; lia)|]). done.
Qed.

(** No attribute of the type from an offset on, as the walk over record
    lengths sees it. *)
Fixpoint no_attr (fuel : nat) (record : list Z) (ty offset : Z) : Prop :=
  match fuel with
  | O => True
  | S fuel =>
      len record < offset + 8 ∨ from_le (sub offset 4 record) = 0xFFFFFFFF ∨
      (from_le (sub offset 4 record) ≠ ty ∧
       no_attr fuel record ty (offset + from_le (sub (offset + 4) 4 record)))
  end.

Lemma no_attr_le k fuel rec ty off : (k ≤ fuel)%nat → no_attr fuel rec ty off → no_attr k rec ty off.
Proof.
  revert k off. induction fuel as [|fuel IH]; intros [|k] off Hk; try done; [lia|].
  cbn [no_attr]. intros [H|[H|[H1 H2]]]; [by left|by right; left|right; right].
  split; [done|]. apply IH; [lia|done].
Qed.

Lemma stat_loop_reindexed fuel rec b off s v w :
  bytes_ok rec → 0 ≤ off → no_attr fuel rec 0x90 off → st_index_root s = Some w →
  reindexed v w (stat_loop fuel rec b off (set_index v s)) (stat_loop fuel rec b off s).
Proof.
  intros Hb. revert off s. induction fuel as [|fuel IH]; intros off s Ho Hno Hs; cbn [stat_loop]; [by split|].
  destruct (attr_next_cases rec off Hb Ho) as [->|[(t&a&r&next&n&E&->&Hn&->&Hle&->&Ho8)|(->&_)]];
    [by apply reindexed_mret| |by split].
  rewrite E. apply reindexed_bind. intros x [= <-].
  apply attr_next_type in E as Ht. cbn [no_attr] in Hno.
  destruct Hno as [Hno|[Hno|[Hne Hno]]]; [lia|rewrite Hno in Ht; done|].
  destruct (stat_attr_reindexed b t (sub off (from_le (sub (off + 4) 4 rec)) rec) r s v w) as [E' Hy];
    [intros ->; by apply attribute_type_index in Ht|done|].
  rewrite E'. destruct (stat_attr b t _ r s) as [s'| | |]; [|by split..].
  change (set_index v <$> Ok s') with (Ok (E:=NtfsError) (set_index v s')).
  rewrite !bind_Ok. apply IH; [lia|done|]. by apply Hy.
Qed.

Lemma stat_attr_index_root b t a r s :
  t ≠ AT_IndexRoot → yields (stat_attr b t a r s) (λ s', st_index_root s' = st_index_root s).
Proof.
  intros Ht. destruct t, r; try done; cbn [stat_attr andb]; try (by apply yields_mret);
    try (apply yields_bind; intros ? _; by apply yields_mret).
  - case_bool_decide; [|by apply yields_mret]. apply yields_bind.
    intros [[? ?]|] _; by apply yields_mret.
  - apply yields_bind; intros n _. case_match; [by apply yields_mret|].
    do 2 (apply yields_bind; intros ? _). case_match; [by apply yields_mret|].
    apply yields_bind; intros ? _. case_match; [by apply yields_mret|].
    apply yields_bind; intros ? _. by apply yields_mret.
  - apply yields_bind; intros n _. apply yields_bind; intros ? _.
    case_match; [by apply yields_mret|]. apply yields_bind; intros ? _. by apply yields_mret.
Qed.

Lemma stat_walk_index fuel fuel' rec rec' b off ia s s' :
  bytes_ok rec → 0 ≤ off → find_attr_loop fuel' rec 0x90 off = Ok ia →
  st_index_root s = None → stat_loop fuel rec b off s = Ok s' → st_index_root s' ≠ None →
  agree off (ia + 24) rec rec' →
  off ≤ ia ∧ ∃ fuel1 s1, (fuel1 ≤ fuel)%nat ∧ from_le (sub ia 4 rec) = 0x90 ∧
    stat_loop fuel rec b off s = stat_loop fuel1 rec b ia s1 ∧
    stat_loop fuel rec' b off s = stat_loop fuel1 rec' b ia s1.
Proof.
  intros Hb. revert fuel' off s. induction fuel as [|fuel IH]; intros fuel' off s Ho Hf Hs Hst Hne Ha; [done|].
  destruct fuel' as [|fuel']; [done|]. cbn [find_attr_loop] in Hf. revert Hf.
  destruct (Z.ltb_spec (len rec) (off + 8)); [done|]. repeat bstep. case_match; [done|].
  destruct (Z.eqb_spec (from_le (sub off 4 rec)) 0x90) as [|Hty].
  { intros [= ->]. split; [lia|]. by exists (S fuel), s. }
  repeat bstep. destruct (Z.eqb_spec (from_le (sub (off + 4) 4 rec)) 0) as [|Hlen]; cbn [orb]; [done|].
  case_match; [done|]. intros Hf. cbn [stat_loop] in Hst |- *.
  destruct (attr_next_cases rec off Hb Ho) as [E|[(t&a&r&next&n&E&->&Hn&->&Hle&->&_)|(E&_)]];
    rewrite E in Hst; [| |done];
    rewrite bind_Ok in Hst; [by injection Hst as <-|]. pose proof (attr_next_type _ _ _ _ _ _ E) as Ht.
  assert (Hti : t ≠ AT_IndexRoot) by (intros ->; by apply attribute_type_index in Ht).
  destruct (stat_attr b t _ r s) as [s2| | |] eqn:E2; try done. rewrite bind_Ok in Hst.
  assert (Hs2 : st_index_root s2 = None) by (rewrite <- Hs; by eapply stat_attr_index_root).
  destruct (IH fuel' (off + from_le (sub (off + 4) 4 rec)) s2) as (Hle2&f1&s1&Hr0&Hr1&Hr2&Hr3);
    [lia|done|done|done|done|by eapply agree_weaken; [..|exact Ha]; lia|].
  split; [lia|]. exists f1, s1. split; [lia|]. split; [done|].
  rewrite (attr_next_agree off (ia + 24) rec rec'); [|done|lia|lia|lia|].
  - rewrite E, !bind_Ok, E2, !bind_Ok. done.
  - intros ? ? ? ? E'. rewrite E in E'. simplify_eq. lia.
Qed.

Lemma stat_step_index fuel R b ia n vo s :
  0 ≤ ia → from_le (sub ia 4 R) = 0x90 → sub (ia + 8) 1 R = [0] → from_le (sub (ia + 4) 4 R) = n →
  ia + n ≤ len R → from_le (sub (ia + 20) 2 R) = vo → 24 ≤ vo < n →
  stat_loop (S fuel) R b ia s =
  stat_loop fuel R b (ia + n) (with_index_root s (Some (sub (ia + vo) (n - vo) R))).
Proof.
  intros Ho Hty Hfl Hn Hfit Hvo Hh. cbn [stat_loop].
  assert (E : attr_next R ia = Ok (Some (AT_IndexRoot, sub ia n R, true, ia + n))).
  { unfold attr_next. rewrite (proj2 (Z.ltb_ge _ _)) by lia.
    rewrite !le_at_ok, !bind_Ok, Hty, Hn by lia. cbn [Z.eqb].
    rewrite (proj2 (Z.eqb_neq n 0)), (proj2 (Z.ltb_ge _ _)) by lia. cbn [orb].
    rewrite (idx_ok R (ia + 8) 0); [|lia|].
    - rewrite bind_Ok. change (attribute_type 0x90) with (Some AT_IndexRoot). cbv beta zeta iota.
      rewrite slice_ok, bind_Ok by lia. replace (ia + n - ia) with n by lia. done.
    - apply (f_equal (.!! 0%nat)) in Hfl. rewrite lookup_sub, decide_True, Nat.add_0_r in Hfl by lia. done. }
  rewrite E, bind_Ok. cbn [stat_attr].
  assert (La : len (sub ia n R) = n) by (rewrite len_sub; lia).
  rewrite le_at_ok, sub_sub, bind_Ok, Hvo by lia.
  rewrite La, (proj2 (Z.ltb_lt _ _)) by lia. rewrite slice_from_ok, bind_Ok by lia.
  rewrite La, sub_sub by lia. done.
Qed.

(** A record whose index value is read by [parse_stat], and the same record
    with that value changed. *)
Lemma parse_stat_index rec rec' b ia n vo s :
  bytes_ok rec → 24 ≤ from_le (sub 20 2 rec) →
  find_attribute_offset rec 0x90 = Ok ia → sub (ia + 8) 1 rec = [0] →
  from_le (sub (ia + 4) 4 rec) = n → ia + n ≤ len rec →
  from_le (sub (ia + 20) 2 rec) = vo → 24 ≤ vo < n → no_attr (length rec) rec 0x90 (ia + n) →
  parse_stat rec b = Ok s → st_index_root s ≠ None →
  length rec' = length rec → sub 20 2 rec' = sub 20 2 rec →
  agree (from_le (sub 20 2 rec)) (ia + 24) rec rec' → agree (ia + n) (len rec) rec rec' →
  st_index_root s = Some (sub (ia + vo) (n - vo) rec) ∧
  parse_stat rec' b = Ok (set_index (sub (ia + vo) (n - vo) rec') s).
Proof.
  intros Hb Hfirst Hfo Hfl Hn Hfit Hvo Hh Hno Hst Hne Hl H20 Ha1 Ha2.
  unfold find_attribute_offset in Hfo. revert Hfo. destruct (Z.ltb_spec (len rec) 22); [done|].
  rewrite le_at_ok, bind_Ok by lia. intros Hfo.
  unfold parse_stat in Hst |- *. rewrite Hl. rewrite le_at_ok, bind_Ok in Hst by lia.
  rewrite le_at_ok, bind_Ok, H20 by lia.
  destruct (stat_walk_index (S (length rec)) (S (length rec)) rec rec' b (from_le (sub 20 2 rec)) ia
    NtfsStat_default s) as (Hle&f1&s1&Hfu&Hty&E1&E2); [done|lia|done|done|done|done|done|].
  rewrite E2. rewrite E1 in Hst. destruct f1 as [|k]; [done|].
  assert (H24 : ∀ a m, ia ≤ a → 0 ≤ m → a + m ≤ ia + 24 → sub a m rec' = sub a m rec)
    by (intros; apply Ha1; lia).
  rewrite (stat_step_index k rec b ia n vo) in Hst by (done || lia).
  rewrite (stat_step_index k rec' b ia n vo) by
    (rewrite ?H24, ?Hl by lia; done || lia).
  set (v := sub (ia + vo) (n - vo) rec) in *. set (v' := sub (ia + vo) (n - vo) rec').
  rewrite (stat_loop_agree k rec rec'); [|done|lia|done].
  assert (E : with_index_root s1 (Some v') = set_index v' (with_index_root s1 (Some v))) by done.
  rewrite E.
  destruct (stat_loop_reindexed k rec b (ia + n) (with_index_root s1 (Some v)) v' v) as [-> Hy];
    [done|lia|apply (no_attr_le _ (length rec)); [lia|done]|done|].
  rewrite Hst. split; [by apply Hy|done].
Qed.

(** ** Directories on records that agree *)

Lemma no_attr_agree fuel rec rec' ty off :
  bytes_ok rec → 0 ≤ off → agree off (len rec) rec rec' → no_attr fuel rec ty off → no_attr fuel rec' ty off.
Proof.
  intros Hb. revert off. induction fuel as [|fuel IH]; intros off Ho Ha; [done|].
  pose proof Ha as [Hl H]. cbn [no_attr]. rewrite Hl. intros [Hno|Hno]; [by left|].
  destruct (decide (len rec < off + 8)); [by left|]. right. rewrite !H by lia.
  destruct Hno as [Hno|[Hne Hno]]; [by left|right]. split; [done|].
  pose proof (from_le_sub_range 4 (off + 4) rec Hb). apply IH; [lia| |done].
  eapply agree_weaken; [..|exact Ha]; lia.
Qed.

Lemma resident_dir_agree rec rec' ia vo alen es free :
  bytes_ok rec → agree (from_le (sub 20 2 rec)) (len rec) rec rec' → sub 20 2 rec' = sub 20 2 rec →
  resident_dir rec ia vo alen es free → resident_dir rec' ia vo alen es free.
Proof.
  intros Hb Ha H20 [Hfo Hfi Hfl Hal Hfit Hvo Hhd Hv]. pose proof Ha as [Hl H].
  destruct (find_attribute_offset_stable rec rec 0x90 ia) as (?&?&_); try done.
  destruct (find_attribute_offset_stable rec rec' 0x90 ia) as (_&_&?); try done.
  { intros. apply H; lia. }
  assert (0 ≤ from_le (sub 20 2 rec)) by (by apply (from_le_sub_range 2)).
  split; rewrite ?H20, ?Hl; rewrite ?(H (ia + 8) 1), ?(H (ia + 4) 4), ?(H (ia + 20) 2),
    ?(H (ia + vo) (alen - vo)) by lia; done.
Qed.

(** Searching for another type steps over the index attribute. *)
Lemma find_attr_loop_other fuel fuel' rec rec' ty off ia :
  bytes_ok rec → 0 ≤ off → ty ≠ 0x90 → find_attr_loop fuel' rec 0x90 off = Ok ia →
  ia + 8 ≤ len rec → 8 ≤ from_le (sub (ia + 4) 4 rec) →
  agree off (ia + 8) rec rec' → agree (ia + from_le (sub (ia + 4) 4 rec)) (len rec) rec rec' →
  find_attr_loop fuel rec' ty off = find_attr_loop fuel rec ty off.
Proof.
  intros Hb Ho Hne Hf Hia Hn8 Ha1 Ha2. pose proof Ha1 as [Hl _].
  assert (Hia0 : 0 ≤ ia) by (destruct (find_attr_loop_stable fuel' rec rec 0x90 off ia) as (?&_&_); try done; lia).
  assert (Hrest : ∀ fuel o, ia + from_le (sub (ia + 4) 4 rec) ≤ o →
    find_attr_loop fuel rec' ty o = find_attr_loop fuel rec ty o).
  { clear Ho Hf Ha1. intros f. induction f as [|f IHf]; intros o Ho; [done|]. cbn [find_attr_loop]. rewrite Hl.
    destruct (Z.ltb_spec (len rec) (o + 8)); [done|].
    rewrite !le_at_ok by lia. rewrite !(proj2 Ha2) by lia. rewrite !bind_Ok.
    do 3 (case_match; [done|]). apply IHf.
    pose proof (from_le_sub_range 4 (o + 4) rec Hb). lia. }
  revert fuel' off Ho Hf Ha1. induction fuel as [|fuel IH]; intros [|fuel'] off Ho Hf Ha1; try done.
  destruct (find_attr_loop_stable (S fuel') rec rec 0x90 off ia) as (Hle&_&_); try done.
  cbn [find_attr_loop] in *. rewrite Hl. revert Hf.
  destruct (Z.ltb_spec (len rec) (off + 8)); [done|].
  rewrite !le_at_ok by lia. rewrite !(proj2 Ha1) by lia. rewrite !bind_Ok.
  destruct (from_le (sub off 4 rec) =? 0xFFFFFFFF); [done|].
  destruct (Z.eqb_spec (from_le (sub off 4 rec)) 0x90) as [H90|H90].
  { intros [= <-]. rewrite H90. rewrite (proj2 (Z.eqb_neq 0x90 ty)) by congruence.
    case_match; [done|]. apply Hrest. lia. }
  destruct ((from_le (sub (off + 4) 4 rec) =? 0) || _); [done|]. intros Hf.
  case_match; [done|].
  pose proof (from_le_sub_range 4 (off + 4) rec Hb) as Hr.
  apply (IH fuel'); [lia|done|]. eapply agree_weaken; [..|exact Ha1]; lia.
Qed.

Lemma find_attribute_offset_other rec rec' ty ia :
  bytes_ok rec → ty ≠ 0x90 → find_attribute_offset rec 0x90 = Ok ia → ia + 8 ≤ len rec →
  8 ≤ from_le (sub (ia + 4) 4 rec) → sub 20 2 rec' = sub 20 2 rec →
  agree (from_le (sub 20 2 rec)) (ia + 8) rec rec' →
  agree (ia + from_le (sub (ia + 4) 4 rec)) (len rec) rec rec' →
  find_attribute_offset rec' ty = find_attribute_offset rec ty.
Proof.
  intros Hb Hne Hf Hia Hn8 H20 Ha1 Ha2. pose proof Ha1 as [Hl _]. revert Hf.
  unfold find_attribute_offset. rewrite Hl. case_match; [done|].
  destruct (Z.ltb_spec (len rec) 22); [done|].
  rewrite !le_at_ok, !bind_Ok, H20 by lia. intros Hf.
  eapply find_attr_loop_other; try done. by apply (from_le_sub_range 2).
Qed.
