(* ===== verification/NtfsDriver.v ===== *)
(** * The NTFS driver

    [fs/ntfs/mod.rs], and the parts of [fs/ntfs/write.rs] and
    [fs/ntfs/index.rs] that access the device. [NtfsDriver] is split: the two
    fields that are fixed when the volume is mounted are the record
    [NtfsDriver], the [device] field is the state the operations thread. *)

From S2P Require Import Prelude Bytes Text BlockDev NtfsTypes NtfsBoot NtfsRuns NtfsAttr NtfsRecord.
From S2P Require Import NtfsIndex.

Record NtfsDriver := { boot : BootSector; mft_record_size : Z }.

(** ** Paths *)

(** The loop of [normalize_path], and the trailing slash. *)
Fixpoint collapse_slashes (prev_was_slash : bool) (path : rstring) : rstring :=
  match path with
  | [] => []
  | c :: path =>
      if c =? 47
      then if prev_was_slash then collapse_slashes true path else c :: collapse_slashes true path
      else c :: collapse_slashes false path
  end.

Definition normalize_path (path : rstring) : rstring :=
  if is_empty path then [47] else
  let result := collapse_slashes false path in
  if (1 <? str_len result) && bool_decide (last result = Some 47)
  then removelast result else result.

Section driver.
Context {D : Type} `{!BlockDevice D}.
Implicit Types (drv : NtfsDriver) (file parent dir : NtfsFile).

Definition io {A} (m : st D BlockError A) : st D NtfsError A := st_map_err (λ _, Ntfs_IoError) m.

Definition mount (partition_byte_offset : Z) : st D NtfsError NtfsDriver :=
  boot_buf ← io (read_blocks partition_byte_offset (zeros 512));
  boot ← lift (from_bytes boot_buf partition_byte_offset);
  mft_record_size ← lift (mft_record_size_of boot);
  mret {| boot := boot; mft_record_size := mft_record_size |}.

(** The device is handed back. *)
Definition unmount drv : st D NtfsError D := get_st.

Definition root_directory : NtfsFile := {| record_number := 5 |}.

Definition sector_size drv : Z := bytes_per_sector (boot drv).

(** Where record [n] lies on the device. *)
Definition record_offset drv (n : Z) : Z :=
  mft_byte_offset (boot drv) +w n *w mft_record_size drv.

Definition read_mft_record drv (n : Z) : st D NtfsError (list Z) :=
  buf ← lift (vec_zeroed (mft_record_size drv));
  buf ← io (read_blocks (record_offset drv n) buf);
  sig ← lift (slice buf 0 4);
  if bool_decide (sig ≠ FILE_SIG) then fail Ntfs_InvalidMftRecord else
  lift (apply_fixups buf (sector_size drv)).

Definition open_file drv (n : Z) : st D NtfsError NtfsFile :=
  read_mft_record drv n;;
  mret {| record_number := n |}.

Definition stat drv file : st D NtfsError NtfsStat :=
  record ← read_mft_record drv (record_number file);
  lift (parse_stat record (boot drv)).

Definition is_directory drv file : st D NtfsError bool :=
  if record_number file =? 5 then mret true else
  s ← stat drv file;
  mret (st_is_directory s).

Definition file_size drv file : st D NtfsError Z :=
  s ← stat drv file; mret (st_size s).

Definition file_name drv file : st D NtfsError (option rstring) :=
  s ← stat drv file; mret (st_name s).

Definition read_file_all drv file : st D NtfsError (list Z) :=
  s ← stat drv file;
  if st_is_directory s then fail Ntfs_NotAFile else
  read_data_runs (st_data_runs s) (boot drv).

(** The number of bytes read and the caller's buffer. *)
Definition read_file drv file (buf : list Z) : st D NtfsError (Z * list Z) :=
  data ← read_file_all drv file;
  let n := Z.min (len buf) (len data) in
  src ← lift (slice data 0 n);
  buf ← lift (copy_to buf 0 n src);
  mret (n, buf).

Definition get_index_data drv file (s : NtfsStat) : st D NtfsError (list Z) :=
  match st_index_root s with
  | Some data => mret data
  | None =>
      record ← read_mft_record drv (record_number file);
      offset ← lift (find_index_root_offset record);
      flag ← lift (idx record (offset + 8));
      if negb (flag =? 0) then fail Ntfs_NotSupported else
      val_off ← lift (u16_at record (offset + 20));
      lift (slice_from record (offset + val_off))
  end.

Definition list_directory drv dir : st D NtfsError (list rstring) :=
  s ← stat drv dir;
  index_data ← get_index_data drv dir s;
  lift (NtfsIndex.list_directory index_data).

Definition find_in_directory drv dir (name : rstring) : st D NtfsError Z :=
  s ← stat drv dir;
  index_data ← get_index_data drv dir s;
  lift (NtfsIndex.find_in_directory index_data name).

(** The loop of [open] over the components. *)
Fixpoint open_walk drv (components : list rstring) (current : NtfsFile) : st D NtfsError NtfsFile :=
  match components with
  | [] => mret current
  | component :: components =>
      if bool_decide (component = [46; 46]) then fail Ntfs_InvalidInput else
      s ← stat drv current;
      if negb (st_is_directory s) then fail Ntfs_NotADirectory else
      index_data ← get_index_data drv current s;
      child ← lift (NtfsIndex.find_in_directory index_data component);
      current ← open_file drv child;
      open_walk drv components current
  end.

Definition open drv (path : rstring) : st D NtfsError NtfsFile :=
  let normalized := normalize_path path in
  if bool_decide (normalized = [47]) || is_empty normalized then mret root_directory else
  open_walk drv (filter nonempty (split_on 47 normalized)) root_directory.

Definition volume_info drv : VolumeInfo := {|
  vi_sector_size := bytes_per_sector (boot drv);
  vi_cluster_size := wrap 32 (bytes_per_cluster (boot drv));
  vi_file_record_size := wrap 32 (mft_record_size drv);
  vi_mft_position := mft_byte_offset (boot drv);
  vi_serial_number := serial_number (boot drv);
|}.

(** ** Writing *)

Definition write_resident_file drv file (data : list Z) : st D NtfsError () :=
  s ← stat drv file;
  run ← lift (ok_or (head (st_data_runs s)) Ntfs_InvalidAttribute);
  match run with
  | NonResident _ => fail Ntfs_InvalidAttribute
  | Resident existing =>
      if negb (len data =? len existing) then fail Ntfs_InvalidAttribute else
      record ← read_mft_record drv (record_number file);
      data_attr_offset ← lift (find_data_attribute_offset record);
      record ← lift (update_resident_data record data_attr_offset data);
      record ← lift (reapply_fixups record (sector_size drv));
      io (write_blocks (record_offset drv (record_number file)) record)
  end.

Definition write_file drv file (data : list Z) : st D NtfsError () :=
  write_resident_file drv file data.

(** [for num in num..num + n] *)
Fixpoint allocate_loop drv (n : nat) (num : Z) : st D NtfsError Z :=
  match n with
  | O => fail Ntfs_NoSpace
  | S n =>
      buf ← lift (vec_zeroed (mft_record_size drv));
      r ← st_try (read_blocks (record_offset drv num) buf);
      match r with
      | inl buf =>
          sig ← lift (slice buf 0 4);
          if bool_decide (sig ≠ FILE_SIG ∧ sig ≠ lit "BAAD") then mret num else
          allocate_loop drv n (num + 1)
      | inr _ => allocate_loop drv n (num + 1)
      end
  end.

Definition START_SCAN : Z := 16.
Definition MAX_SCAN : Z := 100000.
Definition allocate_mft_record drv : st D NtfsError Z :=
  allocate_loop drv (Z.to_nat (MAX_SCAN - START_SCAN)) START_SCAN.

Definition add_to_resident_index drv (record : list Z) parent (child_record : Z) (child_name : rstring)
  : st D NtfsError () :=
  record ← lift (resident_insert record (record_number parent) child_record child_name);
  record ← lift (reapply_fixups record (sector_size drv));
  io (write_blocks (record_offset drv (record_number parent)) record).

Definition add_to_external_index drv (parent_record : list Z) parent (child_record : Z)
    (child_name : rstring) : st D NtfsError () :=
  '(idx_record_size, idx_offset) ← lift (external_index_target (boot drv) parent_record);
  idx_buf ← io (read_blocks idx_offset (zeros idx_record_size));
  idx_buf ← lift (indx_insert idx_buf (record_number parent) child_record child_name);
  io (write_blocks idx_offset idx_buf).

(** [add_to_resident_index] fails with [NoSpace] only before it changes the
    record, so the fallback sees the record as it was read. *)
Definition add_directory_entry drv parent (child_record : Z) (child_name : rstring)
  : st D NtfsError () :=
  record ← read_mft_record drv (record_number parent);
  has_external ← lift (try_ (find_attribute_offset record 0xA0));
  match has_external with
  | inl _ =>
      r ← st_try (add_to_resident_index drv record parent child_record child_name);
      match r with
      | inl _ => mret ()
      | inr Ntfs_NoSpace => add_to_external_index drv record parent child_record child_name
      | inr e => fail e
      end
  | inr _ => add_to_resident_index drv record parent child_record child_name
  end.

Definition create_file drv parent (name : rstring) (options : CreateOptions) : st D NtfsError NtfsFile :=
  isd ← is_directory drv parent;
  if negb isd then fail Ntfs_NotADirectory else
  r ← st_try (find_in_directory drv parent name);
  match r with
  | inl _ => fail Ntfs_AlreadyExists
  | inr Ntfs_FileNotFound =>
      if 255 <? str_len name then fail Ntfs_NameTooLong else
      new_record_number ← allocate_mft_record drv;
      record ← lift (build_mft_record (mft_record_size drv) new_record_number name
                       (record_number parent) (co_is_directory options) (co_data options));
      record ← lift (reapply_fixups record (sector_size drv));
      io (write_blocks (record_offset drv new_record_number) record);;
      add_directory_entry drv parent new_record_number name;;
      open_file drv new_record_number
  | inr e => fail e
  end.
End driver.
