(* ===== verification/NtfsDriverFacts.v ===== *)
(** * What the NTFS driver does

    Path resolution, and that the reading operations end and leave the device
    as it was. *)

From S2P Require Import Prelude Bytes Text BlockDev Gpt GptManager NtfsTypes NtfsBoot NtfsRuns.
From S2P Require Import NtfsAttr NtfsFixups NtfsRecord NtfsRecordFacts NtfsIndex NtfsIndexFacts.
From S2P Require Import NtfsDriver.

(** ** Paths *)

(** The components [open] walks. *)
Definition components (path : rstring) : list rstring := filter nonempty (split_on 47 path).

Lemma components_nil ps : filter nonempty (([] : rstring) :: ps) = filter nonempty ps.
Proof. apply filter_cons_False. by intros []. Qed.

Lemma collapse_components path :
  (∃ w ws ws', split_on 47 (collapse_slashes false path) = w :: ws ∧ split_on 47 path = w :: ws' ∧
     filter nonempty ws = filter nonempty ws') ∧
  components (collapse_slashes true path) = components path.
Proof.
  unfold components. induction path as [|c path [(w&ws&ws'&IH1&IH2&IH3) IHt]]; [by split; [by exists [], [], []|]|].
  cbn [collapse_slashes split_on]. destruct (Z.eqb_spec c 47) as [->|Hc].
  - split; [|by rewrite IHt, components_nil].
    eexists [], _, _. split_and!; [reflexivity|reflexivity|done].
  - assert (E : split_on 47 (c :: collapse_slashes false path) = (c :: w) :: ws).
    { cbn [split_on]. rewrite (proj2 (Z.eqb_neq _ _) Hc). by rewrite IH1. }
    rewrite IH2. split.
    + eexists (c :: w), ws, ws'. done.
    + rewrite E. rewrite !filter_cons. by rewrite IH3.
Qed.

Lemma split_on_snoc c s : split_on c (s ++ [c]) = split_on c s ++ [[]].
Proof.
  induction s as [|x s IH]; cbn [app split_on]; [by rewrite Z.eqb_refl|].
  rewrite IH. destruct (x =? c); [done|]. destruct (split_on c s) as [|p ps] eqn:E; [|done].
  by destruct (split_on_nonnil c s).
Qed.

Lemma normalize_components path : components (normalize_path path) = components path.
Proof.
  unfold normalize_path. destruct path as [|c path]; [done|]. cbn [is_empty].
  set (p := c :: path). destruct (collapse_components p) as [(w&ws&ws'&H1&H2&H3) _].
  assert (E : components (collapse_slashes false p) = components p).
  { unfold components. rewrite H1, H2, !filter_cons. by rewrite H3. }
  set (q := collapse_slashes false p) in *.
  destruct ((1 <? str_len q) && _) eqn:Hq; [|done].
  apply andb_prop in Hq as [_ Hl%bool_decide_eq_true].
  destruct (decide (q = [])) as [->|Hne]; [done|].
  rewrite <- E. rewrite (app_removelast_last 0 Hne) at 2.
  assert (List.last q 0 = 47) as ->.
  { clear -Hl Hne. induction q as [|x q IH]; [done|]. destruct q; [cbn in *; congruence|].
    by apply IH. }
  unfold components. by rewrite split_on_snoc, filter_app, app_nil_r.
Qed.

(** ** What parsing yields *)

Lemma apply_loop_yields n i uso ss seq buf :
  bytes_ok buf → yields (apply_loop n i uso ss seq buf) (λ b, bytes_ok b ∧ length b = length buf).
Proof.
  revert i buf. induction n as [|n IH]; intros i buf Hb; cbn [apply_loop]; [by apply yields_mret|].
  case_match; [done|]. do 2 (apply yields_bind; intros ? _). case_match; [done|].
  apply yields_bind. intros b' (?&?&?&->)%copy_to_Ok_inv.
  intros b [Hb' Hl]%IH; [|auto with bytes]. split; [done|].
  rewrite Hl. apply len_upd; rewrite ?length_to_le in *; lia.
Qed.

Lemma apply_fixups_yields buf ss :
  bytes_ok buf → yields (apply_fixups buf ss) (λ b, bytes_ok b ∧ length b = length buf).
Proof.
  intros Hb. unfold apply_fixups. do 2 (apply yields_bind; intros ? _).
  case_match; [by apply yields_mret|]. case_match; [by apply yields_mret|].
  case_match; [done|]. apply yields_bind; intros ? _. by apply apply_loop_yields.
Qed.

Lemma apply_fixups_ends buf ss : ends (apply_fixups buf ss).
Proof.
  assert (HL : ∀ n i uso seq b, ends (apply_loop n i uso ss seq b)).
  { intros n. induction n as [|n IH]; intros; cbn [apply_loop]; [done|]. case_match; [done|].
    do 2 (apply ends_bind; [auto with bytes|intros ? _]). case_match; [done|].
    apply ends_bind; [auto with bytes|intros ? _]. apply IH. }
  unfold apply_fixups. do 2 (apply ends_bind; [auto with bytes|intros ? _]).
  do 3 (case_match; [done|]). apply ends_bind; [auto with bytes|intros ? _]. apply HL.
Qed.

Definition run_bytes (r : DataRun) : Prop :=
  match r with Resident data => bytes_ok data | NonResident _ => True end.

Definition stat_bytes (s : NtfsStat) : Prop :=
  (∀ v, st_index_root s = Some v → bytes_ok v) ∧ Forall run_bytes (st_data_runs s).

Lemma stat_attr_yields b t a r s :
  bytes_ok a → stat_bytes s → yields (stat_attr b t a r s) stat_bytes.
Proof.
  intros Hb Hs. assert (Hsub : ∀ x y, yields (slice (E:=NtfsError) a x y) (λ l, bytes_ok l)).
  { intros x y l (?&?&->)%slice_Ok_inv. auto with bytes. }
  destruct t, r; cbn [stat_attr andb]; try (by apply yields_mret);
    try (by apply yields_bind; intros; apply yields_mret).
  - case_bool_decide; [|by apply yields_mret]. apply yields_bind. intros o _. apply yields_mret.
    by destruct o as [[? ?]|].
  - unfold stat_data. apply yields_bind; intros n _. case_match; [by apply yields_mret|].
    do 2 (apply yields_bind; intros ? _). case_match; [by apply yields_mret|].
    apply yields_bind; intros data Hd%Hsub. case_match.
    + apply yields_mret. destruct Hs. split; [done|]. apply Forall_app. by repeat constructor.
    + apply yields_bind; intros ? _. by apply yields_mret.
  - unfold stat_data. apply yields_bind; intros n _. apply yields_bind; intros runs _. case_match.
    + apply yields_mret. destruct Hs. split; [done|]. apply Forall_app. by repeat constructor.
    + apply yields_bind; intros ? _. by apply yields_mret.
  - apply yields_bind; intros vo _. destruct Hs as [H1 H2]. case_match; [|by apply yields_mret].
    apply yields_bind; intros d Hd%Hsub. apply yields_mret. split; [|done]. intros v [= <-]. done.
Qed.

Lemma parse_stat_yields record b : bytes_ok record → yields (parse_stat record b) stat_bytes.
Proof.
  intros Hb. unfold parse_stat. apply yields_bind. intros first (Hf&_&Hl&->)%le_at_Ok_inv.
  generalize (S (length record)). intros fuel.
  assert (H0 : stat_bytes NtfsStat_default) by by split.
  pose proof (from_le_sub_range 2 20 record Hb) as Ho. specialize (Ho ltac:(lia)). destruct Ho as [Ho _].
  revert Ho H0. generalize (from_le (sub 20 2 record)), NtfsStat_default.
  induction fuel as [|fuel IH]; intros off s Ho Hs; cbn [stat_loop]; [done|].
  destruct (attr_next_cases record off Hb Ho) as [->|[(t&a&r&next&n&->&_&Hn&->&_&->&_)|(->&_&_)]];
    [by apply yields_mret| |done].
  rewrite bind_Ok. apply yields_bind. intros s' Hs'%stat_attr_yields; [|auto with bytes|done].
  apply IH; [lia|done].
Qed.

Lemma parse_stat_ends record b : bytes_ok record → ends (parse_stat record b).
Proof.
  intros Hb. unfold parse_stat. apply ends_bind; [auto with bytes|].
  intros first (_&_&Hl&->)%le_at_Ok_inv. pose proof (from_le_sub_range 2 20 record Hb).
  apply stat_loop_total; [done|lia|lia].
Qed.

Lemma find_attr_loop_ends fuel record ty off :
  bytes_ok record → 0 ≤ off → Z.max 0 (len record - off) < Z.of_nat fuel →
  ends (find_attr_loop fuel record ty off).
Proof.
  intros Hb. revert off. induction fuel as [|fuel IH]; intros off Ho Hf; [lia|]. cbn [find_attr_loop].
  case_match; [done|]. repeat bstep. case_match; [done|]. case_match; [done|]. repeat bstep.
  pose proof (from_le_sub_range 4 (off + 4) record Hb).
  destruct (Z.eqb_spec (from_le (sub (off + 4) 4 record)) 0); cbn [orb]; [done|].
  case_match; [done|]. apply IH; lia.
Qed.

Lemma find_attribute_offset_ends record ty : bytes_ok record → ends (find_attribute_offset record ty).
Proof.
  intros Hb. unfold find_attribute_offset. case_match; [done|].
  apply ends_bind; [auto with bytes|]. intros first (_&_&Hl&->)%le_at_Ok_inv.
  pose proof (from_le_sub_range 2 20 record Hb). apply find_attr_loop_ends; [done|lia|lia].
Qed.

(** ** The reading operations *)

Section facts.
Context {D : Type} `{!BlockDevice D}.

Lemma open_walks drv path :
  open (D:=D) drv path = open_walk drv (components path) root_directory.
Proof.
  unfold open. rewrite <- (normalize_components path).
  destruct (bool_decide_reflect (normalize_path path = [47])) as [->|]; [done|].
  destruct (normalize_path path); done.
Qed.

Context `{!ByteDisk D}.
Context (drv : NtfsDriver) (Hsz : 0 ≤ mft_record_size drv).
Implicit Types d : D.

Lemma io_read_looks a buf d n :
  disk_ok d → buf = zeros n → 0 ≤ n → looks (io (read_blocks a buf)) d (λ b, len b = n ∧ bytes_ok b).
Proof. intros Hd -> Hn. by apply looks_map_err, reads_looks, reads_blocks. Qed.

Lemma alloc_looks {E} n d : looks (E:=E) (lift (vec_zeroed n)) d (λ b, b = zeros n).
Proof.
  apply looks_lift; [auto with bytes|]. unfold vec_zeroed. intros a. case_match; [|done]. by intros [= <-].
Qed.

Lemma read_mft_record_looks n d :
  disk_ok d → looks (read_mft_record drv n) d (λ r, bytes_ok r ∧ len r = mft_record_size drv).
Proof.
  intros Hd. unfold read_mft_record. eapply looks_bind; [apply alloc_looks|]. intros z d1 Hz E1.
  eapply looks_bind; [apply (io_read_looks _ _ _ (mft_record_size drv)); [by rewrite <- E1|exact Hz|done]|].
  intros buf d2 [Hl Hb] _. eapply (looks_bind _ _ _ (λ _, True)); [by apply looks_lift; [auto with bytes|]|].
  intros sig d3 _ _. case_bool_decide; [apply looks_fail|].
  apply looks_lift; [apply apply_fixups_ends|]. intros r [Hr Hlr]%apply_fixups_yields; [|done].
  split; [done|lia].
Qed.

Lemma stat_looks f d : disk_ok d → looks (stat drv f) d stat_bytes.
Proof.
  intros Hd. eapply looks_bind; [by apply read_mft_record_looks|]. intros r d1 [Hr _] _.
  apply looks_lift; [by apply parse_stat_ends|by apply parse_stat_yields].
Qed.

Lemma get_index_data_looks f s d :
  disk_ok d → stat_bytes s → looks (get_index_data drv f s) d (λ l, bytes_ok l).
Proof.
  intros Hd [Hs _]. unfold get_index_data. destruct (st_index_root s) as [v|] eqn:Hv.
  { apply looks_mret. by apply Hs. }
  eapply looks_bind; [by apply read_mft_record_looks|]. intros r d1 [Hr _] _.
  eapply (looks_bind _ _ _ (λ _, True)); [by apply looks_lift; [apply find_attribute_offset_ends|]|].
  intros off d2 _ _. eapply (looks_bind _ _ _ (λ _, True)); [by apply looks_lift; [auto with bytes|]|].
  intros fl d3 _ _. case_match; [apply looks_fail|].
  eapply (looks_bind _ _ _ (λ _, True)); [by apply looks_lift; [auto with bytes|]|].
  intros vo d4 _ _. apply looks_lift; [auto with bytes|].
  intros l (?&?&->)%slice_Ok_inv. auto with bytes.
Qed.

Lemma search_ends data name : bytes_ok data → ends (NtfsIndex.find_in_directory data name).
Proof.
  intros (es&_&H&_)%index_listing. rewrite H. by destruct (entry_named name es).
Qed.

Lemma open_file_looks n d : disk_ok d → looks (open_file drv n) d (λ f, f = {| record_number := n |}).
Proof.
  intros Hd. eapply looks_bind; [by apply read_mft_record_looks|]. intros. by apply looks_mret.
Qed.

Lemma open_walk_looks cs f d : disk_ok d → looks (open_walk drv cs f) d (λ _, True).
Proof.
  revert f d. induction cs as [|c cs IH]; intros f d Hd; cbn [open_walk]; [by apply looks_mret|].
  case_bool_decide; [apply looks_fail|].
  eapply looks_bind; [by apply stat_looks|]. intros s d1 Hs E1.
  case_match; [apply looks_fail|].
  eapply looks_bind; [apply get_index_data_looks; [by rewrite <- E1|done]|]. intros data d2 Hb E2.
  eapply (looks_bind _ _ _ (λ _, True)); [by apply looks_lift; [apply search_ends|]|].
  intros child d3 _ E3.
  eapply looks_bind; [apply open_file_looks; by rewrite <- E3, <- E2, <- E1|].
  intros f' d4 _ E4. apply IH. by rewrite <- E4, <- E3, <- E2, <- E1.
Qed.

Lemma read_data_runs_looks runs d :
  disk_ok d → Forall run_bytes runs → looks (read_data_runs runs (boot drv)) d (λ l, bytes_ok l).
Proof.
  intros Hd Hr. unfold read_data_runs.
  assert (HR : ∀ bpc rs res d, disk_ok d → bytes_ok res → looks (read_runs bpc rs res) d (λ l, bytes_ok l)).
  { intros bpc rs. induction rs as [|[c n] rs IH]; intros res d0 Hd0 Hb; cbn [read_runs]; [by apply looks_mret|].
    eapply looks_bind; [apply alloc_looks|]. intros z d1 Hz E1.
    eapply looks_bind; [apply (io_read_looks _ _ _ (n *w bpc)); [by rewrite <- E1|exact Hz|by apply wrap_range]|].
    intros buf d2 [_ Hbuf] E2. apply IH; [by rewrite <- E2, <- E1|by apply Forall_app]. }
  assert (Hn : bytes_ok []) by done. revert d Hd Hn. generalize (@nil Z).
  induction Hr as [|[data|rs] runs Hx _ IH]; intros res d Hd Hb; cbn [read_data_runs_from].
  - by apply looks_mret.
  - apply IH; [done|by apply Forall_app].
  - eapply looks_bind; [by apply HR|]. intros l d1 Hl E1. apply IH; [by rewrite <- E1|done].
Qed.

(** C40: no reading operation of the driver writes to the device, whatever is
    on it, and each of them ends: opening any path, [stat], listing or
    searching a directory, reading a file (whose content is then a string of
    bytes). *)
Theorem reading_leaves_device d :
  disk_ok d →
  (∀ path, looks (open drv path) d (λ _, True)) ∧
  (∀ f, looks (stat drv f) d (λ _, True)) ∧
  (∀ f, looks (list_directory drv f) d (λ _, True)) ∧
  (∀ f name, looks (find_in_directory drv f name) d (λ _, True)) ∧
  (∀ f, looks (read_file_all drv f) d (λ data, bytes_ok data)).
Proof.
  intros Hd. split_and!; intros.
  - rewrite open_walks. by apply open_walk_looks.
  - eapply looks_weaken; [by apply stat_looks|done].
  - eapply looks_bind; [by apply stat_looks|]. intros s d1 Hs E1.
    eapply looks_bind; [apply get_index_data_looks; [by rewrite <- E1|done]|]. intros data d2 Hb _.
    apply looks_lift; [|done]. destruct (index_listing data Hb) as (es&->&_). done.
  - eapply looks_bind; [by apply stat_looks|]. intros s d1 Hs E1.
    eapply looks_bind; [apply get_index_data_looks; [by rewrite <- E1|done]|]. intros data d2 Hb _.
    apply looks_lift; [by apply search_ends|done].
  - eapply looks_bind; [by apply stat_looks|]. intros s d1 Hs E1.
    case_match; [apply looks_fail|]. apply read_data_runs_looks; [by rewrite <- E1|apply Hs].
Qed.

(** [open] resolves a path by its non-empty components, whatever slashes
    separate, precede or follow them: it walks them one by one from record 5. *)
Theorem open_resolves_components (path : rstring) :
  open (D:=D) drv path = open_walk drv (components path) root_directory.
Proof. apply open_walks. Qed.
End facts.

(** ** Mounting *)

Section mount.
Context {D : Type} `{!BlockDevice D, !ByteDisk D}.
Implicit Types d : D.

Lemma mount_read off d :
  disk_ok d → 0 ≤ off → off + 512 ≤ capacity d →
  ∃ d', d ≡ d' ∧ mount off d =
    (d', b ← from_bytes (rd off 512 d) off; sz ← mft_record_size_of b;
         Ok {| boot := b; mft_record_size := sz |}).
Proof.
  intros Hd Ho Hc. destruct (dev_read off 512 d) as (d'&Hr&E); [done|lia|lia|done|].
  exists d'. split; [done|]. unfold mount, io.
  rewrite (st_bind_Ok _ _ _ _ _ (st_map_err_Ok _ _ _ _ _ Hr)).
  destruct (from_bytes _ off) as [b| | |]; [|done..]. rewrite bind_lift_Ok, bind_Ok.
  by destruct (mft_record_size_of b).
Qed.

(** Mounting leaves the device as it is and, depending on the boot sector
    at the given offset, rejects it, returns a driver whose record size
    follows from the signed field at 0x40 (a positive one counts clusters, any
    other one is a power of two in bytes), or panics when that field is -64 or
    less. *)
Theorem mount_outcomes (off : Z) (d : D) :
  disk_ok d → is_u64 off → off + 512 ≤ capacity d →
  ∃ d' r, mount off d = (d', r) ∧ d ≡ d' ∧
    (r = Err Ntfs_InvalidBootSector ∨
     ∃ b, from_bytes (rd off 512 d) off = Ok b ∧ boot_wf b ∧
       let c := clusters_per_mft_record b in
       (0 < c ∧ r = Ok {| boot := b; mft_record_size := c * (bytes_per_sector b * sectors_per_cluster b) |} ∨
        -64 < c ≤ 0 ∧ r = Ok {| boot := b; mft_record_size := 2 ^ (- c) |} ∨
        c ≤ -64 ∧ r = Panic)).
Proof.
  intros Hd Ho Hc. destruct (mount_read off d Hd (proj1 Ho) Hc) as (d'&E&Hm).
  exists d', (mount off d).2. rewrite Hm. split; [done|]. split; [done|]. cbn [snd].
  assert (Hl : len (rd off 512 d) = 512) by (rewrite length_rd; done).
  destruct (from_bytes_total (rd off 512 d) off Hl) as [(b&Hb&Hwf&_)|Hb]; [auto with bytes|done| |];
    rewrite Hb; [|by left].
  right. exists b. split; [done|]. split; [done|]. rewrite bind_Ok. cbv zeta.
  destruct (mft_record_size_cases b Hwf) as [[? ->]|[[? ->]|[? ->]]]; [left|right; left|right; right];
    by rewrite bind_Ok || done.
Qed.

Lemma one_byte_record_panics drv n d :
  mft_record_size drv = 1 → disk_ok d → record_offset drv n < capacity d →
  (read_mft_record drv n d).2 = Panic.
Proof.
  intros H1 Hd Hn. unfold read_mft_record, io. rewrite H1, vec_zeroed_ok, bind_lift_Ok by lia.
  assert (0 ≤ record_offset drv n) by by apply wrap_range.
  destruct (dev_read (record_offset drv n) 1 d) as (d'&Hr&_); [done|done|lia|lia|].
  rewrite (st_bind_Ok _ _ _ _ _ (st_map_err_Ok _ _ _ _ _ Hr)).
  unfold slice. rewrite length_rd. done.
Qed.

(** The volume [format_disk] lays out cannot be used: its boot sector
    leaves the record size field 0, so the driver mounts with records of one
    byte and reading any record of it panics. *)
Theorem created_volume_unusable (off total sector : Z) (d : D) :
  disk_ok d → is_u64 off → is_u16 sector → is_u64 total →
  off + 512 ≤ capacity d →
  rd off 512 d = boot_image total sector →
  ∃ d' drv, mount off d = (d', Ok drv) ∧ mft_record_size drv = 1 ∧
    ∀ n d2, disk_ok d2 → record_offset drv n < capacity d2 → (read_mft_record drv n d2).2 = Panic.
Proof.
  intros Hd Ho Hs Ht Hc Hboot. destruct (mount_read off d Hd (proj1 Ho) Hc) as (d'&_&Hm).
  rewrite Hboot, from_bytes_boot_image in Hm by done.
  exists d'. eexists. split; [exact Hm|]. split; [done|].
  intros n d2. by apply one_byte_record_panics.
Qed.
End mount.
