(* ===== verification/NtfsWriteFacts.v ===== *)
(** * What the driver's writes do

    Overwriting a resident file and creating one, followed by reading back
    through the driver. *)

From S2P Require Import Prelude Bytes Text BlockDev Gpt GptManager NtfsTypes NtfsBoot NtfsRuns.
From S2P Require Import NtfsAttr NtfsStatFacts NtfsFixups NtfsRecord NtfsRecordFacts NtfsIndex.
From S2P Require Import NtfsIndexFacts NtfsDriver NtfsDriverFacts.

Section write.
Context {D : Type} `{!BlockDevice D, !ByteDisk D}.
Context (drv : NtfsDriver).
Implicit Types d : D.

(** Record [n] lies on the device, and its size is one a buffer can have. *)
Definition placed (n : Z) d : Prop :=
  4 ≤ mft_record_size drv < 2 ^ 63 ∧ record_offset drv n + mft_record_size drv ≤ capacity d.

(** The bytes of record [n] on the device. *)
Definition raw_record (n : Z) d : list Z := rd (record_offset drv n) (mft_record_size drv) d.

Lemma record_offset_range n : 0 ≤ record_offset drv n.
Proof. by apply wrap_range. Qed.

Lemma length_raw_record n d : placed n d → len (raw_record n d) = mft_record_size drv.
Proof. intros [? _]. unfold raw_record. rewrite length_rd. lia. Qed.

Lemma read_mft_record_eq n d :
  disk_ok d → placed n d →
  ∃ d', d ≡ d' ∧ read_mft_record drv n d =
    (d', if bool_decide (sub 0 4 (raw_record n d) ≠ FILE_SIG) then Err Ntfs_InvalidMftRecord
         else apply_fixups (raw_record n d) (sector_size drv)).
Proof.
  intros Hd Hp. pose proof (length_raw_record n d Hp) as Hl. destruct Hp as [Hs Hc].
  pose proof (record_offset_range n).
  destruct (dev_read (record_offset drv n) (mft_record_size drv) d) as (d'&Hr&E); [done|lia|lia|done|].
  exists d'. split; [done|]. unfold read_mft_record, io.
  rewrite vec_zeroed_ok, bind_lift_Ok by lia.
  rewrite (st_bind_Ok _ _ _ _ _ (st_map_err_Ok _ _ _ _ _ Hr)).
  fold (raw_record n d). rewrite slice_ok, bind_lift_Ok by lia. rewrite Z.sub_0_r.
  by case_bool_decide.
Qed.

Lemma read_mft_record_ok n d rec :
  disk_ok d → placed n d → sub 0 4 (raw_record n d) = FILE_SIG →
  apply_fixups (raw_record n d) (sector_size drv) = Ok rec →
  ∃ d', read_mft_record drv n d = (d', Ok rec) ∧ d ≡ d'.
Proof.
  intros Hd Hp Hs Ha. destruct (read_mft_record_eq n d Hd Hp) as (d'&E&Hr).
  rewrite bool_decide_false, Ha in Hr by (by intros []). by exists d'.
Qed.

Lemma read_mft_record_inv n d rec :
  disk_ok d → placed n d → (read_mft_record drv n d).2 = Ok rec →
  sub 0 4 (raw_record n d) = FILE_SIG ∧ apply_fixups (raw_record n d) (sector_size drv) = Ok rec.
Proof.
  intros Hd Hp. destruct (read_mft_record_eq n d Hd Hp) as (d'&_&->). cbn [snd].
  case_bool_decide as Hs; [done|]. split; [|done].
  destruct (decide (sub 0 4 (raw_record n d) = FILE_SIG)); [done|by destruct Hs].
Qed.

Lemma placed_equiv n d d' : d ≡ d' → placed n d → placed n d'.
Proof. intros E [? ?]. split; [done|]. by rewrite <- E. Qed.
Lemma raw_record_equiv n d d' : d ≡ d' → raw_record n d' = raw_record n d.
Proof. intros E. unfold raw_record. by rewrite E. Qed.

(** A record written through [reapply_fixups] is read back as it was, except
    for the update sequence array. *)
Lemma write_record_back n d rec :
  disk_ok d → placed n d → fixup_layout (sector_size drv) rec → len rec = mft_record_size drv →
  sub 0 4 rec = FILE_SIG →
  ∃ raw d1 rec1, reapply_fixups rec (sector_size drv) = Ok raw ∧
    write_blocks (record_offset drv n) raw d = (d1, Ok ()) ∧
    wrote (record_offset drv n) raw d d1 ∧ len raw = mft_record_size drv ∧
    fixup_layout (sector_size drv) raw ∧ apply_fixups raw (sector_size drv) = Ok rec1 ∧
    length rec1 = length rec ∧ bytes_ok rec1 ∧
    (∀ a m, 0 ≤ a → 0 ≤ m → a + m ≤ uso_of rec + 2 ∨ uso_of rec + 2 * usc_of rec ≤ a →
       a + m ≤ len rec → sub a m rec1 = sub a m rec) ∧
    (∀ d2, disk_ok d2 → placed n d2 → raw_record n d2 = raw →
       ∃ d3, read_mft_record drv n d2 = (d3, Ok rec1) ∧ d2 ≡ d3).
Proof.
  intros Hd Hp Hlay Hl Hsig.
  destruct (apply_after_reapply _ _ Hlay) as (raw&rec1&Hr&Ha&Hlr&Hl1&Hbr&Hb1&H48&Hag&_).
  pose proof Hp as [Hs Hc]. pose proof (record_offset_range n).
  destruct (dev_write (record_offset drv n) raw d) as (d1&Hw&Hwr); [done|done|done|lia|].
  exists raw, d1, rec1. split_and!; try done; [lia|by eapply fixup_layout_same|].
  intros d2 Hd2 Hp2 Hraw. apply read_mft_record_ok; rewrite ?Hraw; try done.
  assert (E : ∀ l : list Z, sub 0 4 l = sub 0 4 (sub 0 48 l)) by (intros; by rewrite sub_sub).
  by rewrite E, H48, <- E.
Qed.

(** ** Overwriting a file *)

Section overwrite.
Context (d : D) (n : Z) (rec : list Z) (s : NtfsStat) (o vo : Z) (existing data : list Z).
Context (Hd : disk_ok d) (Hp : placed n d).
Context (Hread : (read_mft_record drv n d).2 = Ok rec).
Context (Hlay : fixup_layout (sector_size drv) (raw_record n d)).
Context (Hfirst : uso_of rec + 2 * usc_of rec ≤ from_le (sub 20 2 rec)).
Context (Hres : resident_data rec (boot drv) o vo existing s).
Context (Hdata : bytes_ok data) (Hlen : len data = len existing).

Lemma write_file_ok :
  ∃ d', write_file drv {| record_number := n |} data d = (d', Ok ()) ∧ disk_ok d' ∧ placed n d' ∧
    (∀ x, x < record_offset drv n ∨ record_offset drv n + mft_record_size drv ≤ x →
       byte_at d' x = byte_at d x) ∧
    ∃ d'', stat drv {| record_number := n |} d' = (d'', Ok (set_first_run data s)) ∧ d' ≡ d''.
Proof.
  destruct (read_mft_record_inv n d rec Hd Hp Hread) as [Hsig Happ].
  destruct (apply_fixups_keeps _ _ _ Hlay Happ) as (Hlay1&Hl1&H48).
  pose proof (length_raw_record n d Hp) as Hlr. pose proof Hlay1 as (Hb&?&H1&H2&H3&H4&H5).
  destruct (parse_stat_update rec (boot drv) o vo existing s data) as [Hhd Hup]; [done|lia|done|done|].
  destruct Hres as [Hfo Hfl Hfit Hlv Hvo Hh Hin Hv Hst Hne].
  destruct (find_data_attribute_offset_cases rec) as [E|(o'&E&Ho0&Ho8&_)]; [done|lia|congruence|].
  rewrite Hfo in E. simplify_eq E. intros <-. clear E.
  assert (Hofs : from_le (sub 20 2 rec) ≤ o).
  { unfold find_data_attribute_offset in Hfo. rewrite le_at_ok, bind_Ok in Hfo by lia.
    pose proof (from_le_sub_range 2 20 rec Hb).
    destruct (find_data_loop_cases (S (length rec)) rec (from_le (sub 20 2 rec))) as [E|(o'&E&?&?&?)];
      [done|lia|lia|congruence|]. rewrite E in Hfo. by simplify_eq. }
  set (rec' := upd (o + vo) data rec).
  assert (Hupd : update_resident_data rec o data = Ok rec').
  { unfold update_resident_data. rewrite (proj2 (Z.ltb_ge _ _)) by lia.
    rewrite !le_at_ok, !bind_Ok, Hlv, Hvo by lia. rewrite (proj2 (Z.eqb_eq _ _) Hlen).
    rewrite (proj2 (Z.ltb_ge _ _)) by lia. cbn [negb orb]. by apply copy_to_ok; lia. }
  assert (Hl' : length rec' = length rec) by (apply len_upd; lia).
  assert (Hkeep : ∀ a m, a + m ≤ o + 24 → 0 ≤ a → sub a m rec' = sub a m rec)
    by (intros; unfold rec'; apply sub_upd_out; lia).
  assert (Hlay' : fixup_layout (sector_size drv) rec').
  { unfold fixup_layout. rewrite !Hkeep, Hl' by lia. split_and!; try done; [|lia..].
    unfold rec'. auto with bytes. }
  (* the first two reads *)
  destruct (read_mft_record_ok n d rec) as (d1&Hr1&E1); try done.
  destruct (read_mft_record_ok n d1 rec) as (d2&Hr2&E2);
    [by rewrite <- E1|by eapply placed_equiv|by rewrite (raw_record_equiv n d)|by rewrite (raw_record_equiv n d)|].
  assert (E12 : d ≡ d2) by by etrans.
  destruct (write_record_back n d2 rec') as (raw&d3&rec1&Hre&Hw&Hwr&Hlraw&_&Ha'&Hl1'&Hb1&Hag&Hback);
    [by rewrite <- E12|by eapply placed_equiv|done|lia|
     rewrite Hkeep by lia; change (sub 0 4 rec) with (sub 0 4 rec);
       assert (X : ∀ l : list Z, sub 0 4 l = sub 0 4 (sub 0 48 l)) by (intros; by rewrite sub_sub);
       by rewrite X, H48, <- X|].
  exists d3. split.
  { unfold write_file, write_resident_file, stat. cbn [record_number].
    rewrite st_bind_assoc. rewrite (st_bind_Ok _ _ _ _ _ Hr1), Hst. srun.
    rewrite Hhd. cbn [ok_or]. srun. rewrite (proj2 (Z.eqb_eq _ _) Hlen). cbn [negb].
    rewrite (st_bind_Ok _ _ _ _ _ Hr2), Hfo. srun. rewrite Hupd. srun. rewrite Hre. srun.
    by apply st_map_err_Ok. }
  assert (Hp3 : placed n d3).
  { split; [lia|]. rewrite (wrote_capacity _ _ _ _ Hwr), <- E12. apply Hp. }
  split; [by eapply wrote_ok|]. split; [done|]. split.
  { intros x Hx. rewrite (proj2 (proj2 Hwr)), decide_False by lia. apply E12. }
  destruct (Hback d3) as (d4&Hr4&E4).
  { by eapply wrote_ok. }
  { done. }
  { unfold raw_record. by apply (rd_wrote _ _ d2). }
  exists d4. split; [|done]. unfold stat. cbn [record_number]. rewrite (st_bind_Ok _ _ _ _ _ Hr4).
  unfold lift. f_equal. rewrite <- Hup. fold rec'.
  rewrite !Hkeep in Hag by lia.
  apply parse_stat_agree.
  - apply Hlay'.
  - rewrite Hkeep by lia. split; [lia|]. intros. apply Hag; lia.
  - apply Hag; lia.
Qed.
End overwrite.

(** C3: overwriting a resident file with content of the same length succeeds,
    changes no byte outside the file's MFT record, and is read back: [stat]
    then returns the old metadata with the new content, and reading the file
    returns it. *)
Theorem write_file_read_back (d : D) (n : Z) (rec : list Z) (s : NtfsStat) (o vo : Z)
    (existing data : list Z) :
  disk_ok d → placed n d → (read_mft_record drv n d).2 = Ok rec →
  fixup_layout (sector_size drv) (raw_record n d) →
  uso_of rec + 2 * usc_of rec ≤ from_le (sub 20 2 rec) →
  resident_data rec (boot drv) o vo existing s → bytes_ok data → len data = len existing →
  ∃ d', write_file drv {| record_number := n |} data d = (d', Ok ()) ∧
    (∀ x, x < record_offset drv n ∨ record_offset drv n + mft_record_size drv ≤ x →
       byte_at d' x = byte_at d x) ∧
    (stat drv {| record_number := n |} d').2 = Ok (set_first_run data s) ∧
    (st_is_directory s = false → st_data_runs s = [Resident existing] →
     (read_file_all drv {| record_number := n |} d').2 = Ok data).
Proof.
  intros. destruct (write_file_ok d n rec s o vo existing data) as (d'&Hw&Hd'&_&Hx&d''&Hs&E); try done.
  exists d'. split_and!; try done; [by rewrite Hs|]. intros Hdir Hrun.
  unfold read_file_all. rewrite (st_bind_Ok _ _ _ _ _ Hs).
  cbn [st_is_directory set_first_run st_data_runs]. rewrite Hdir, Hrun.
  change [Resident data] with (Resident <$> [data]). rewrite read_data_runs_resident. cbn.
  by rewrite app_nil_r.
Qed.

(** ** Allocation *)

(** The record holds a signature the scan takes for a record in use. *)
Definition in_use (n : Z) d : Prop :=
  sub 0 4 (raw_record n d) = FILE_SIG ∨ sub 0 4 (raw_record n d) = lit "BAAD".

Lemma allocate_loop_first k num n d :
  disk_ok d → num ≤ n < num + Z.of_nat k → placed n d → ¬ in_use n d →
  (∀ j, num ≤ j < n → placed j d ∧ in_use j d) →
  ∃ d', allocate_loop drv k num d = (d', Ok n) ∧ d ≡ d'.
Proof.
  revert num d. induction k as [|k IH]; intros num d Hd Hn Hp Hfree Huse; [lia|]. cbn [allocate_loop].
  assert (Hpn : placed num d) by (destruct (decide (num = n)) as [->|]; [done|apply Huse; lia]).
  pose proof (length_raw_record num d Hpn) as Hl. destruct Hpn as [Hs Hc].
  pose proof (record_offset_range num).
  destruct (dev_read (record_offset drv num) (mft_record_size drv) d) as (d1&Hr&E1); [done|lia|lia|done|].
  rewrite vec_zeroed_ok, bind_lift_Ok by lia.
  rewrite (st_bind_Ok _ _ _ _ _ (st_try_run _ _ _ _ Hr)). cbn [try_].
  fold (raw_record num d). rewrite slice_ok, bind_lift_Ok by lia. rewrite Z.sub_0_r.
  destruct (decide (num = n)) as [->|Hne].
  - rewrite bool_decide_true by (unfold in_use in Hfree; tauto). by exists d1.
  - destruct (Huse num) as [_ Hu]; [lia|].
    rewrite bool_decide_false by (unfold in_use in Hu; tauto).
    destruct (IH (num + 1) d1) as (d2&Ha&E2).
    + by rewrite <- E1.
    + lia.
    + by eapply placed_equiv.
    + unfold in_use. by rewrite (raw_record_equiv n d d1).
    + intros j Hj. destruct (Huse j) as [? ?]; [lia|]. split; [by eapply placed_equiv|].
      unfold in_use. by rewrite (raw_record_equiv j d d1).
    + exists d2. split; [done|by etrans].
Qed.

Lemma allocate_first n d :
  disk_ok d → 16 ≤ n < 100000 → placed n d → ¬ in_use n d →
  (∀ j, 16 ≤ j < n → placed j d ∧ in_use j d) →
  ∃ d', allocate_mft_record drv d = (d', Ok n) ∧ d ≡ d'.
Proof. intros. apply allocate_loop_first; try done; unfold MAX_SCAN, START_SCAN; lia. Qed.
End write.
