(* ===== verification/NtfsCreateFacts.v ===== *)
(** * Creating a file

    The whole of [create_file] on a directory with a resident index that has
    room: afterwards the directory lists the new name, and the new record
    holds the file. [create_file_writes] is what [create_file] has done when it
    turns to the parent's entry, with or without room for it. *)

From S2P Require Import Prelude Bytes Text BlockDev Gpt GptManager NtfsTypes NtfsBoot NtfsRuns.
From S2P Require Import NtfsAttr NtfsFixups NtfsRecord NtfsRecordFacts NtfsIndex NtfsIndexFacts.
From S2P Require Import NtfsStatFacts NtfsDriver NtfsDriverFacts NtfsWriteFacts.

(** ** The record that is written *)

Lemma bytes_ok_record_image sz num name parent isd data used :
  ascii_name name → len name ≤ 255 → bytes_ok data →
  bytes_ok (record_image sz num name parent isd data used).
Proof.
  intros Hn Hl Hd. destruct (ascii_units name Hn) as (He&_).
  assert (bytes_ok FILE_SIG) by by repeat constructor.
  assert (∀ l, bytes_ok l → bytes_ok (0 :: 0 :: l)) by (intros; by repeat constructor).
  unfold record_image, header_image, std_info_bytes, filename_bytes, filename_padding, body_attr,
    index_root_bytes, index_root_value, data_bytes, attr_head. rewrite He.
  destruct isd; rewrite !Forall_app, ?Forall_cons, ?Forall_nil; split_and!;
    auto with bytes; unfold is_u; lia.
Qed.

Section built.
Context (drv : NtfsDriver) (n parent : Z) (name : rstring) (isd : bool) (data : list Z).
Context (Hname : ascii_name name) (Hl : 1 ≤ len name ≤ 255) (Hdata : bytes_ok data).
Context (Hdl : len data ≤ 700) (Hss : 56 ≤ sector_size drv).
Context (Hsz : 2 * sector_size drv ≤ mft_record_size drv < 2 ^ 63).
Context (Hfit : record_end name isd data + 4 ≤ mft_record_size drv).

Definition built_record : list Z :=
  record_image (mft_record_size drv) n name parent isd data (align8 (record_end name isd data + 4)) ++
  zeros (mft_record_size drv - (record_end name isd data + 4)).

Lemma build_ok : build_mft_record (mft_record_size drv) n name parent isd data = Ok built_record.
Proof.
  destruct (ascii_units name Hname) as (He&_). pose proof (record_end_ge name isd data).
  rewrite build_mft_record_cases by (rewrite ?He; lia).
  by rewrite (proj2 (Z.ltb_ge (mft_record_size drv) _)), (proj2 (Z.ltb_ge _ (_ + 4))) by lia.
Qed.

Lemma length_built : len built_record = mft_record_size drv.
Proof.
  pose proof (record_end_ge name isd data). unfold built_record. rewrite length_app, Nat2Z.inj_add, length_record_image, length_zeros. lia.
Qed.

Lemma built_layout : fixup_layout (sector_size drv) built_record.
Proof.
  pose proof length_built as Hlb. unfold fixup_layout.
  assert (Hb : bytes_ok built_record).
  { apply Forall_app. split; [apply bytes_ok_record_image; [done|lia|done]|auto with bytes]. }
  change (uso_of built_record) with 48. change (usc_of built_record) with 3. split; [done|lia].
Qed.

Lemma built_sig : sub 0 4 built_record = FILE_SIG.
Proof. reflexivity. Qed.

(** The metadata of any record that agrees with it from the first attribute
    on. *)
Lemma built_stat_of rec (Hp : is_u64 parent) :
  agree 56 (len built_record) built_record rec → sub 20 2 rec = sub 20 2 built_record →
  parse_stat rec (boot drv) = Ok (built_stat (mft_record_size drv) name isd data).
Proof.
  intros Ha H20. rewrite (parse_stat_agree built_record).
  - apply parse_stat_image; try done; lia.
  - apply built_layout.
  - done.
  - done.
Qed.
End built.

(** ** Directories *)

Section create.
Context {D : Type} `{!BlockDevice D, !ByteDisk D}.
Context (drv : NtfsDriver).
Implicit Types d : D.

(** The MFT up to record [m] lies on the device, which is not larger than the
    address space. *)
Definition mft_room (m : Z) d : Prop :=
  4 ≤ mft_record_size drv < 2 ^ 63 ∧
  mft_byte_offset (boot drv) + (m + 1) * mft_record_size drv ≤ capacity d ∧ capacity d ≤ 2 ^ 64.

Lemma record_offset_eq m d k :
  mft_room m d → 0 ≤ k ≤ m →
  record_offset drv k = mft_byte_offset (boot drv) + k * mft_record_size drv.
Proof.
  intros (Hs&Hc&Hc64) Hk. unfold record_offset.
  assert (0 ≤ mft_byte_offset (boot drv)) by by apply wrap_range.
  rewrite (wrap_small 64 (k * _)) by nia. apply wrap_small. nia.
Qed.

Lemma room_placed m d k : mft_room m d → 0 ≤ k ≤ m → placed drv k d.
Proof.
  intros Hr Hk. split; [apply Hr|]. rewrite (record_offset_eq m d k) by done.
  destruct Hr as (Hs&Hc&_). nia.
Qed.

Lemma room_equiv m d d' : d ≡ d' → mft_room m d → mft_room m d'.
Proof. intros E (?&?&?). split; [done|]. split; by rewrite <- E. Qed.

(** Record [p] is a directory that lists [es] and has [free] bytes left in its
    resident index; it has no external index. *)
Record directory d (p : Z) (rec : list Z) (s : NtfsStat) (ia vo alen : Z)
    (es : list (rstring * Z)) (free : Z) : Prop := {
  dir_read : (read_mft_record drv p d).2 = Ok rec;
  dir_layout : fixup_layout (sector_size drv) (raw_record drv p d);
  dir_array : uso_of rec + 2 * usc_of rec ≤ from_le (sub 20 2 rec);
  dir_resident : resident_dir rec ia vo alen es free;
  dir_only : no_attr (length rec) rec 0x90 (ia + alen);
  dir_no_external : find_attribute_offset rec 0xA0 = Err Ntfs_InvalidAttribute;
  dir_stat : parse_stat rec (boot drv) = Ok s;
  dir_index : st_index_root s ≠ None;
  dir_isdir : st_is_directory s = true;
}.

Section dir.
Context (d : D) (p : Z) (rec : list Z) (s : NtfsStat) (ia vo alen : Z).
Context (es : list (rstring * Z)) (free : Z).
Context (Hd : disk_ok d) (Hp : placed drv p d) (Hdir : directory d p rec s ia vo alen es free).

Lemma dir_read_ok d' : d ≡ d' → ∃ d'', read_mft_record drv p d' = (d'', Ok rec) ∧ d ≡ d''.
Proof.
  intros E. destruct (read_mft_record_inv drv p d rec Hd Hp (dir_read _ _ _ _ _ _ _ _ _ Hdir)) as [Hs Ha].
  destruct (read_mft_record_ok drv p d' rec) as (d''&Hr&E').
  - by rewrite <- E.
  - by eapply placed_equiv.
  - by rewrite (raw_record_equiv drv p d d').
  - by rewrite (raw_record_equiv drv p d d').
  - exists d''. split; [done|by etrans].
Qed.

Lemma dir_rec_layout :
  fixup_layout (sector_size drv) rec ∧ len rec = mft_record_size drv ∧ sub 0 4 rec = FILE_SIG.
Proof.
  destruct (read_mft_record_inv drv p d rec Hd Hp (dir_read _ _ _ _ _ _ _ _ _ Hdir)) as [Hs Ha].
  destruct (apply_fixups_keeps _ _ _ (dir_layout _ _ _ _ _ _ _ _ _ Hdir) Ha) as (H1&H2&H3).
  pose proof (length_raw_record drv p d Hp). split_and!; [done|lia|].
  assert (X : ∀ l : list Z, sub 0 4 l = sub 0 4 (sub 0 48 l)) by (intros; by rewrite sub_sub).
  by rewrite X, H3, <- X.
Qed.

Lemma dir_index_value :
  st_index_root s = Some (sub (ia + vo) (alen - vo) rec).
Proof.
  destruct dir_rec_layout as ((Hb&_)&_&_).
  destruct Hdir as [_ _ _ [Hfo Hfi Hfl Hal Hfit Hvo Hhd (total&Hv)] Honly _ Hst Hne _].
  pose proof (iv_room _ _ _ _ Hv) as Hr. pose proof (index_value_bounds _ _ _ _ Hv) as Ht.
  pose proof (iv_size _ _ _ _ Hv) as Hsz.
  assert (Hva : vo < alen).
  { destruct (decide (vo = alen)) as [->|]; [|lia]. rewrite Z.sub_diag, sub_0 in Hr. cbn [length] in Hr. lia. }
  apply (parse_stat_index rec rec (boot drv) ia alen vo s); try done; first [lia | by split].
Qed.

Lemma dir_stat_ok d' : d ≡ d' →
  ∃ d'', stat drv {| record_number := p |} d' = (d'', Ok s) ∧ d ≡ d''.
Proof.
  intros E. destruct (dir_read_ok d' E) as (d''&Hr&E'). exists d''. split; [|done].
  unfold stat. cbn [record_number]. rewrite (st_bind_Ok _ _ _ _ _ Hr).
  unfold lift. by rewrite (dir_stat _ _ _ _ _ _ _ _ _ Hdir).
Qed.

Lemma dir_value_listing :
  let v := sub (ia + vo) (alen - vo) rec in
  NtfsIndex.list_directory v = Ok es.*1 ∧
  ∀ name, NtfsIndex.find_in_directory v name = found (entry_named name es).
Proof.
  destruct dir_rec_layout as ((Hb&_)&_&_).
  destruct (rdir_value _ _ _ _ _ _ (dir_resident _ _ _ _ _ _ _ _ _ Hdir)) as (total&Hv).
  eapply index_value_listing; [by apply bytes_ok_sub|exact Hv].
Qed.

Lemma dir_list_ok d' : d ≡ d' →
  ∃ d'', list_directory drv {| record_number := p |} d' = (d'', Ok es.*1) ∧ d ≡ d''.
Proof.
  intros E. destruct (dir_stat_ok d' E) as (d''&Hr&E'). exists d''. split; [|done].
  unfold list_directory. rewrite (st_bind_Ok _ _ _ _ _ Hr). unfold get_index_data.
  rewrite dir_index_value. srun. unfold lift. by rewrite (proj1 dir_value_listing).
Qed.

Lemma dir_find_ok d' name : d ≡ d' →
  ∃ d'', find_in_directory drv {| record_number := p |} name d' = (d'', found (entry_named name es)) ∧ d ≡ d''.
Proof.
  intros E. destruct (dir_stat_ok d' E) as (d''&Hr&E'). exists d''. split; [|done].
  unfold find_in_directory. rewrite (st_bind_Ok _ _ _ _ _ Hr). unfold get_index_data.
  rewrite dir_index_value. srun. unfold lift. by rewrite (proj2 dir_value_listing).
Qed.

Lemma dir_is_directory_ok d' : d ≡ d' →
  ∃ d'', is_directory drv {| record_number := p |} d' = (d'', Ok true) ∧ d ≡ d''.
Proof.
  intros E. unfold is_directory. cbn [record_number]. case_match; [by exists d'|].
  destruct (dir_stat_ok d' E) as (d''&Hr&E'). exists d''. split; [|done].
  rewrite (st_bind_Ok _ _ _ _ _ Hr). by rewrite (dir_isdir _ _ _ _ _ _ _ _ _ Hdir).
Qed.

(** The device changes in one record only. *)
Definition only_record (k : Z) d d' : Prop :=
  same_geometry d d' ∧
  ∀ x, x < record_offset drv k ∨ record_offset drv k + mft_record_size drv ≤ x →
    byte_at d' x = byte_at d x.

Context (n : Z) (name : rstring).
Context (Hname : ascii_name name) (Hl : 1 ≤ len name ≤ 255).
Context (Hpu : is_u64 p) (Hnu : is_u 48 n) (Hfree : entry_len_of name ≤ free).

(** The record after the insertion, before and after its trip to the disk. *)
Lemma inserted_directory rec1 rec2 :
  bytes_ok rec1 → length rec1 = length rec →
  resident_dir rec1 ia vo alen (es ++ [(name, n)]) (free - entry_len_of name) →
  (∀ a m, 0 ≤ a → a + m ≤ 24 ∨ (28 ≤ a ∧ a + m ≤ ia + vo) ∨ ia + alen ≤ a →
      sub a m rec1 = sub a m rec) →
  length rec2 = length rec → bytes_ok rec2 →
  (∀ a m, 0 ≤ a → 0 ≤ m → a + m ≤ uso_of rec + 2 ∨ uso_of rec + 2 * usc_of rec ≤ a →
     a + m ≤ len rec → sub a m rec2 = sub a m rec1) →
  resident_dir rec2 ia vo alen (es ++ [(name, n)]) (free - entry_len_of name) ∧
  no_attr (length rec2) rec2 0x90 (ia + alen) ∧
  find_attribute_offset rec2 0xA0 = Err Ntfs_InvalidAttribute ∧
  parse_stat rec2 (boot drv) = Ok (set_index (sub (ia + vo) (alen - vo) rec2) s) ∧
  uso_of rec2 + 2 * usc_of rec2 ≤ from_le (sub 20 2 rec2).
Proof.
  intros Hb1 Hl1 Hdir1 Hfr Hl2 Hb2 Hag. destruct dir_rec_layout as (Hlay&Hlen&_).
  pose proof dir_index_value as Hiv.
  destruct Hdir as [_ _ Harr [Hfo Hfi Hfl Hal Hfit Hvo Hhd (total&Hv)] Honly Hext Hst Hne _].
  pose proof Hlay as (Hb&?&H1&H2&H3&H4&H5).
  destruct (find_attribute_offset_stable rec rec 0x90 ia) as (Hfia&Hia8&_); try done.
  assert (Hva : vo < alen).
  { pose proof (iv_room _ _ _ _ Hv) as Hr. pose proof (index_value_bounds _ _ _ _ Hv).
    pose proof (iv_size _ _ _ _ Hv). destruct (decide (vo = alen)) as [->|]; [|lia].
    rewrite Z.sub_diag, sub_0 in Hr. cbn [length] in Hr. lia. }
  assert (K1 : ∀ a m, 28 ≤ a → 0 ≤ m → a + m ≤ ia + vo ∨ ia + alen ≤ a → sub a m rec1 = sub a m rec)
    by (intros; apply Hfr; lia).
  assert (K2 : ∀ a m, 0 ≤ a → 0 ≤ m → a + m ≤ 24 → sub a m rec2 = sub a m rec)
    by (intros; rewrite Hag by lia; apply Hfr; lia).
  assert (K3 : ∀ a m, from_le (sub 20 2 rec) ≤ a → 0 ≤ m → a + m ≤ len rec →
    a + m ≤ ia + vo ∨ ia + alen ≤ a → sub a m rec2 = sub a m rec)
    by (intros; rewrite Hag by lia; apply K1; lia).
  assert (Ha20 : sub 20 2 rec1 = sub 20 2 rec) by (apply Hfr; lia).
  split_and!.
  - apply (resident_dir_agree rec1); try done.
    + rewrite Ha20. split; [lia|]. intros. apply Hag; lia.
    + rewrite Ha20. apply K2; lia.
  - rewrite Hl2. apply (no_attr_agree _ rec); [done|lia| |done]. split; [done|]. intros. apply K3; lia.
  - rewrite (find_attribute_offset_other rec rec2 0xA0 ia); try done; try lia; [apply K2; lia|split..];
      try done; intros; apply K3; lia.
  - apply (parse_stat_index rec rec2 (boot drv) ia alen vo s); try done; try lia; [apply K2; lia|split..];
      try done; intros; apply K3; lia.
  - rewrite !K2 by lia. done.
Qed.

Lemma add_entry_ok :
  ∃ d' rec', add_directory_entry drv {| record_number := p |} n name d = (d', Ok ()) ∧
    disk_ok d' ∧ only_record p d d' ∧
    directory d' p rec' (set_index (sub (ia + vo) (alen - vo) rec') s) ia vo alen
      (es ++ [(name, n)]) (free - entry_len_of name).
Proof.
  destruct (dir_read_ok d) as (d1&Hr1&E1); [done|]. destruct dir_rec_layout as (Hlay&Hlen&Hsig).
  pose proof Hlay as (Hb&?&H1&H2&H3&H4&H5).
  destruct (resident_insert_ok rec ia vo alen free es p n name) as (rec1&Hins&Hl1&Hb1&Hdir1&Hfr);
    try done; [apply Hdir|].
  assert (Hh : ∀ a m, 0 ≤ a → a + m ≤ 24 → sub a m rec1 = sub a m rec) by (intros; apply Hfr; lia).
  assert (Hlay1 : fixup_layout (sector_size drv) rec1).
  { unfold fixup_layout. rewrite !Hh, Hl1 by lia. split; [done|lia]. }
  destruct (write_record_back drv p d1 rec1) as (raw&d2&rec2&Hre&Hw&Hwr&Hlraw&Hlr&Ha2&Hl2&Hb2&Hag&Hback);
    [by rewrite <- E1|by eapply placed_equiv|done|lia|by rewrite Hh by lia|].
  exists d2, rec2. split.
  { unfold add_directory_entry. cbn [record_number]. rewrite (st_bind_Ok _ _ _ _ _ Hr1).
    rewrite (dir_no_external _ _ _ _ _ _ _ _ _ Hdir). cbn [try_]. srun.
    unfold add_to_resident_index. cbn [record_number]. rewrite Hins. srun. rewrite Hre. srun.
    by apply st_map_err_Ok. }
  split; [by eapply wrote_ok|]. split.
  { split.
    - destruct Hwr as (_&[H6 H7]&_). destruct E1 as (_&[]&_). split; congruence.
    - intros x Hx. rewrite (proj2 (proj2 Hwr)), decide_False by lia. apply E1. }
  assert (Hp2 : placed drv p d2).
  { split; [apply Hp|]. rewrite (wrote_capacity _ _ _ _ Hwr), <- E1. apply Hp. }
  assert (Hraw : raw_record drv p d2 = raw) by (by apply (rd_wrote _ _ d1)).
  destruct (Hback d2) as (d3&Hr3&_); [by eapply wrote_ok|done|done|].
  rewrite !Hh in Hag by lia. rewrite Hl1 in Hag.
  destruct (inserted_directory rec1 rec2) as (I1&I2&I3&I4&I5); try done; [lia|].
  split; try done.
  - by rewrite Hr3.
  - by rewrite Hraw.
  - apply Hdir.
Qed.
End dir.

(** A directory only depends on the bytes of its record. *)
Lemma directory_same d d' p rec s ia vo alen es free :
  disk_ok d → disk_ok d' → placed drv p d → placed drv p d' →
  raw_record drv p d' = raw_record drv p d →
  directory d p rec s ia vo alen es free → directory d' p rec s ia vo alen es free.
Proof.
  intros Hd Hd' Hp Hp' Hraw Hdir. pose proof Hdir as [Hr Hlay ???????]. split; try done; [|by rewrite Hraw].
  apply read_mft_record_inv in Hr as [Hs Ha]; [|done|done].
  destruct (read_mft_record_ok drv p d' rec) as (d''&->&_); rewrite ?Hraw; done.
Qed.

Lemma str_len_ascii name : ascii_name name → str_len name = len name.
Proof.
  induction 1 as [|c name Hc _ IH]; [done|]. rewrite str_len_cons, IH. cbn [length].
  unfold utf8_len. rewrite (proj2 (Z.ltb_lt _ _)) by lia. lia.
Qed.

(** What a change of one record leaves of the device. *)
Lemma only_record_capacity k d d' : only_record k d d' → capacity d' = capacity d.
Proof. intros [[H1 H2] _]. unfold capacity. by rewrite H1, H2. Qed.

Lemma only_record_placed k q d d' : only_record k d d' → placed drv q d → placed drv q d'.
Proof. intros H [H1 H2]. split; [done|]. by rewrite (only_record_capacity k d d'). Qed.

Lemma only_record_raw k q d d' :
  record_offset drv q + mft_record_size drv ≤ record_offset drv k ∨
    record_offset drv k + mft_record_size drv ≤ record_offset drv q →
  only_record k d d' → raw_record drv q d' = raw_record drv q d.
Proof. intros Hdis [_ H]. unfold raw_record. apply rd_eq. intros x Hx. apply H. lia. Qed.

(** [create_file] up to the entry in the parent: the record is on the device. *)
Section new_record.
Context (d : D) (m p n : Z) (Hroom : mft_room m d) (Hpm : 0 ≤ p ≤ m).

Lemma parent_u64 : is_u64 p.
Proof.
  pose proof Hroom as (Hs&Hc&Hc64). assert (0 ≤ mft_byte_offset (boot drv)) by by apply wrap_range.
  unfold is_u. nia.
Qed.

Context (Hnm : 16 ≤ n ≤ m) (Hne : p ≠ n).

Lemma records_disjoint :
  record_offset drv p + mft_record_size drv ≤ record_offset drv n ∨
  record_offset drv n + mft_record_size drv ≤ record_offset drv p.
Proof.
  rewrite !(record_offset_eq m d) by (done || lia).
  destruct Hroom as (Hs&_). destruct (decide (p < n)); [left|right]; nia.
Qed.

Context (name : rstring) (isd : bool) (data : list Z).
Context (Hd : disk_ok d) (Hn : n < 100000).
Context (Huse : ∀ j, 16 ≤ j < n → in_use drv j d) (Hfreen : ¬ in_use drv n d).
Context (Hname : ascii_name name) (Hl : 1 ≤ len name ≤ 255).
Context (Hdata : bytes_ok data) (Hdl : len data ≤ 700) (Hss : 56 ≤ sector_size drv).
Context (Hsz : 2 * sector_size drv ≤ mft_record_size drv).
Context (Hfit : record_end name isd data + 4 ≤ mft_record_size drv).

Lemma allocate_ok d2 : d ≡ d2 → ∃ d3, allocate_mft_record drv d2 = (d3, Ok n) ∧ d2 ≡ d3.
Proof.
  intros E. assert (Hpl : ∀ j, 0 ≤ j ≤ m → placed drv j d2)
    by (intros; eapply placed_equiv; [done|by apply (room_placed m)]).
  apply allocate_first; [by rewrite <- E|lia|apply Hpl; lia| |].
  - unfold in_use. by rewrite (raw_record_equiv drv n d d2).
  - intros j Hj. split; [apply Hpl; lia|].
    unfold in_use. rewrite (raw_record_equiv drv j d d2) by done. by apply Huse.
Qed.

Lemma create_file_writes d1 d2 :
  is_directory drv {| record_number := p |} d = (d1, Ok true) →
  find_in_directory drv {| record_number := p |} name d1 = (d2, Err Ntfs_FileNotFound) → d ≡ d2 →
  ∃ d4, create_file drv {| record_number := p |} name {| co_is_directory := isd; co_data := data |} d =
      (add_directory_entry drv {| record_number := p |} n name;; open_file drv n) d4 ∧
    disk_ok d4 ∧ only_record n d d4 ∧
    (∀ d5, disk_ok d5 → placed drv n d5 → raw_record drv n d5 = raw_record drv n d4 →
       in_use drv n d5 ∧ ∃ d6, d5 ≡ d6 ∧ open_file drv n d5 = (d6, Ok {| record_number := n |}) ∧
         stat drv {| record_number := n |} d5 = (d6, Ok (built_stat (mft_record_size drv) name isd data))).
Proof.
  intros Hr1 Hr2 E02. pose proof Hroom as ([_ Hs64]&_).
  destruct (allocate_ok d2 E02) as (d3&Hr3&E3). assert (E03 : d ≡ d3) by by etrans.
  pose proof (build_ok drv n p name isd data Hname Hl Hdl ltac:(lia) Hfit) as Hbuild.
  pose proof (built_layout drv n p name isd data Hname Hl Hdata Hss ltac:(lia) Hfit) as Hblay.
  pose proof (length_built drv n p name isd data Hfit) as Hblen. pose proof parent_u64.
  assert (Hd3 : disk_ok d3) by by rewrite <- E03.
  assert (Hpn : placed drv n d3) by (eapply placed_equiv; [done|]; apply (room_placed m); [done|lia]).
  destruct (write_record_back drv n d3 (built_record drv n p name isd data))
    as (raw&d4&recn&Hre&Hw&Hwr&Hlraw&_&_&Hln&_&Hag&Hback); [done..|].
  change (uso_of (built_record drv n p name isd data)) with 48 in Hag.
  change (usc_of (built_record drv n p name isd data)) with 3 in Hag.
  exists d4. split.
  { unfold create_file. rewrite (st_bind_Ok _ _ _ _ _ Hr1). cbn [negb].
    rewrite (st_bind_Ok _ _ _ _ _ (st_try_run _ _ _ _ Hr2)). cbn [try_].
    rewrite str_len_ascii, (proj2 (Z.ltb_ge _ _)) by (done || lia).
    rewrite (st_bind_Ok _ _ _ _ _ Hr3). cbn [record_number co_is_directory co_data].
    rewrite Hbuild. srun. rewrite Hre. srun.
    unfold io. by rewrite (st_bind_Ok _ _ _ _ _ (st_map_err_Ok _ _ _ _ _ Hw)). }
  split; [by eapply wrote_ok|]. split.
  { split.
    - destruct Hwr as (_&[H6 H7]&_). destruct E03 as (_&[]&_). split; congruence.
    - intros x Hx. rewrite (proj2 (proj2 Hwr)), decide_False by lia. apply E03. }
  assert (Hraw4 : raw_record drv n d4 = raw) by by apply (rd_wrote _ _ d3).
  intros d5 Hd5 Hp5 Hraw. rewrite Hraw4 in Hraw.
  destruct (Hback d5) as (d6&Hr6&E6); [done..|]. split.
  { left. by destruct (read_mft_record_inv drv n d5 recn) as [? _]; [done|done|rewrite Hr6|]. }
  exists d6. split; [done|]. unfold open_file, stat. cbn [record_number].
  rewrite !(st_bind_Ok _ _ _ _ _ Hr6). split; [done|].
  unfold lift. f_equal. apply (built_stat_of drv n p); try done.
  - split; [done|]. intros. apply Hag; lia.
  - apply Hag; lia.
Qed.
End new_record.

Section run.
Context (d : D) (m p n : Z) (rec : list Z) (s : NtfsStat) (ia vo alen : Z).
Context (es : list (rstring * Z)) (free : Z) (name : rstring) (isd : bool) (data : list Z).
Context (Hd : disk_ok d) (Hroom : mft_room m d) (Hpm : 0 ≤ p ≤ m) (Hnm : 16 ≤ n ≤ m) (Hn : n < 100000).
Context (Hdir : directory d p rec s ia vo alen es free).
Context (Huse : ∀ j, 16 ≤ j < n → in_use drv j d) (Hfreen : ¬ in_use drv n d).
Context (Hname : ascii_name name) (Hl : 1 ≤ len name ≤ 255).
Context (Hnew : entry_named name es = None) (Hfree : entry_len_of name ≤ free).
Context (Hdata : bytes_ok data) (Hdl : len data ≤ 700) (Hss : 56 ≤ sector_size drv).
Context (Hsz : 2 * sector_size drv ≤ mft_record_size drv).
Context (Hfit : record_end name isd data + 4 ≤ mft_record_size drv).

Lemma parent_not_new : p ≠ n.
Proof.
  intros ->. apply Hfreen. left.
  by destruct (read_mft_record_inv drv n d rec Hd (room_placed m d n Hroom ltac:(lia))
    (dir_read _ _ _ _ _ _ _ _ _ Hdir)).
Qed.

Lemma create_file_ok :
  ∃ d' rec', create_file drv {| record_number := p |} name {| co_is_directory := isd; co_data := data |} d =
      (d', Ok {| record_number := n |}) ∧ disk_ok d' ∧ mft_room m d' ∧
    directory d' p rec' (set_index (sub (ia + vo) (alen - vo) rec') s) ia vo alen
      (es ++ [(name, n)]) (free - entry_len_of name) ∧
    (∃ d'', stat drv {| record_number := n |} d' =
       (d'', Ok (built_stat (mft_record_size drv) name isd data)) ∧ d' ≡ d'') ∧
    (∀ x, (x < record_offset drv p ∨ record_offset drv p + mft_record_size drv ≤ x) →
       (x < record_offset drv n ∨ record_offset drv n + mft_record_size drv ≤ x) →
       byte_at d' x = byte_at d x).
Proof.
  pose proof parent_not_new as Hne. pose proof (records_disjoint d m p n Hroom Hpm Hnm Hne) as Hdis.
  assert (Hpl : ∀ j, 0 ≤ j ≤ m → placed drv j d) by (intros; by apply (room_placed m)).
  pose proof (Hpl p Hpm) as Hpp.
  destruct (dir_is_directory_ok d p rec s ia vo alen es free Hd Hpp Hdir d) as (d1&Hr1&E1); [done|].
  destruct (dir_find_ok d p rec s ia vo alen es free Hd Hpp Hdir d1 name E1) as (d2&Hr2&E2).
  rewrite Hnew in Hr2. cbn [found] in Hr2.
  destruct (create_file_writes d m p n) with name isd data d1 d2 as (d4&Hc&Hd4&Ho4&Hback); try done.
  pose proof (only_record_placed _ p _ _ Ho4 Hpp) as Hpp4.
  destruct (add_entry_ok d4 p rec s ia vo alen es free Hd4 Hpp4 (directory_same d d4 _ _ _ _ _ _ _ _
      Hd Hd4 Hpp Hpp4 (only_record_raw _ p _ _ Hdis Ho4) Hdir) n name)
    as (d5&rec'&Hadd&Hd5&Ho5&Hdir5); try done;
    [by apply (parent_u64 d m)|unfold is_u; lia|].
  assert (Hpl5 : ∀ j, 0 ≤ j ≤ m → placed drv j d5)
    by (intros; eapply only_record_placed, only_record_placed; eauto).
  destruct (Hback d5) as (_&d6&E6&Hop&Hst6); [done|apply Hpl5; lia| |].
  { apply (only_record_raw p n d4 d5); [tauto|done]. }
  assert (Hpl6 : ∀ j, 0 ≤ j ≤ m → placed drv j d6) by (intros; eapply placed_equiv; eauto).
  assert (Hd6 : disk_ok d6) by by rewrite <- E6.
  exists d6, rec'. split; [by rewrite Hc, (st_bind_Ok _ _ _ _ _ Hadd)|]. split; [done|]. split.
  { destruct Hroom as (?&?&?). split; [done|].
    by rewrite <- E6, (only_record_capacity _ _ _ Ho5), (only_record_capacity _ _ _ Ho4). }
  split; [by apply (directory_same d5); auto using raw_record_equiv|]. split.
  { destruct (Hback d6) as (_&d7&E7&_&Hst7); [done|apply Hpl6; lia| |by exists d7].
    transitivity (raw_record drv n d5); [by apply raw_record_equiv|].
    apply (only_record_raw p n d4 d5); [tauto|done]. }
  intros x Hx1 Hx2. transitivity (byte_at d5 x); [apply E6|].
  by rewrite (proj2 Ho5), (proj2 Ho4).
Qed.
End run.

(** Reading the record of a directory, on any device that holds it. *)
Section parent.
Context (d : D) (p : Z) (rec : list Z) (s : NtfsStat).
Context (Hd : disk_ok d) (Hp : placed drv p d) (Hread : (read_mft_record drv p d).2 = Ok rec).
Context (Hst : parse_stat rec (boot drv) = Ok s).

Lemma stat_reads d' : d ≡ d' → ∃ d'', stat drv {| record_number := p |} d' = (d'', Ok s) ∧ d' ≡ d''.
Proof.
  intros E. apply read_mft_record_inv in Hread as [Hs Ha]; [|done|done].
  destruct (read_mft_record_ok drv p d' rec) as (d''&Hr&E');
    [by rewrite <- E|by eapply placed_equiv|by rewrite (raw_record_equiv drv p d)..|].
  exists d''. split; [|done]. unfold stat. cbn [record_number].
  rewrite (st_bind_Ok _ _ _ _ _ Hr). unfold lift. by rewrite Hst.
Qed.

Lemma is_directory_reads : st_is_directory s = true →
  ∃ d', is_directory drv {| record_number := p |} d = (d', Ok true) ∧ d ≡ d'.
Proof.
  intros Hs. unfold is_directory. cbn [record_number]. case_match; [by exists d|].
  destruct (stat_reads d) as (d'&Hr&E); [done|]. exists d'. split; [|done].
  rewrite (st_bind_Ok _ _ _ _ _ Hr). by rewrite Hs.
Qed.

Lemma find_missing_reads v name d' : d ≡ d' → st_index_root s = Some v →
  NtfsIndex.find_in_directory v name = Err Ntfs_FileNotFound →
  ∃ d'', find_in_directory drv {| record_number := p |} name d' = (d'', Err Ntfs_FileNotFound) ∧ d' ≡ d''.
Proof.
  intros E Hv Hf. destruct (stat_reads d' E) as (d''&Hr&E'). exists d''. split; [|done].
  unfold find_in_directory. rewrite (st_bind_Ok _ _ _ _ _ Hr). unfold get_index_data. rewrite Hv.
  srun. unfold lift. by rewrite Hf.
Qed.
End parent.

End create.

(** ** Properties *)

Section properties.
Context {D : Type} `{!BlockDevice D, !ByteDisk D}.
Context (drv : NtfsDriver).
Implicit Types d : D.

Lemma eq_ignore_ascii_case_refl name : eq_ignore_ascii_case name name = true.
Proof. unfold eq_ignore_ascii_case. by apply bool_decide_true. Qed.

(** C2: creating a file (or a directory) of at most 700 bytes in a directory
    with a resident index that has room for the entry succeeds with the first
    record the scan takes for free. Afterwards the directory lists the old
    names and the new one, searching finds the new record, the new record has
    the name, kind and content asked for, the directory is again one with a
    resident index (with that much less room), and no byte outside the two
    records has changed. *)
Theorem create_file_appears (d : D) (m p n : Z) (rec : list Z) (s : NtfsStat) (ia vo alen : Z)
    (es : list (rstring * Z)) (free : Z) (name : rstring) (isd : bool) (data : list Z) :
  disk_ok d → mft_room drv m d → 0 ≤ p ≤ m → 16 ≤ n ≤ m → n < 100000 →
  directory drv d p rec s ia vo alen es free →
  (∀ j, 16 ≤ j < n → in_use drv j d) → ¬ in_use drv n d →
  ascii_name name → 1 ≤ len name ≤ 255 → entry_named name es = None → entry_len_of name ≤ free →
  bytes_ok data → len data ≤ 700 →
  56 ≤ sector_size drv → 2 * sector_size drv ≤ mft_record_size drv →
  record_end name isd data + 4 ≤ mft_record_size drv →
  ∃ d' rec' s', create_file drv {| record_number := p |} name {| co_is_directory := isd; co_data := data |} d =
      (d', Ok {| record_number := n |}) ∧
    (list_directory drv {| record_number := p |} d').2 = Ok (es.*1 ++ [name]) ∧
    (find_in_directory drv {| record_number := p |} name d').2 = Ok n ∧
    (stat drv {| record_number := n |} d').2 = Ok (built_stat (mft_record_size drv) name isd data) ∧
    (isd = false → (read_file_all drv {| record_number := n |} d').2 = Ok data) ∧
    directory drv d' p rec' s' ia vo alen (es ++ [(name, n)]) (free - entry_len_of name) ∧
    (∀ x, (x < record_offset drv p ∨ record_offset drv p + mft_record_size drv ≤ x) →
       (x < record_offset drv n ∨ record_offset drv n + mft_record_size drv ≤ x) →
       byte_at d' x = byte_at d x).
Proof.
  intros. destruct (create_file_ok drv d m p n rec s ia vo alen es free name isd data)
    as (d'&rec'&Hc&Hd'&Hroom'&Hdir'&(d''&Hst&E)&Hfr); try done.
  assert (Hp' : placed drv p d') by by apply (room_placed drv m).
  exists d', rec'. eexists. split; [exact Hc|].
  destruct (dir_list_ok drv d' p rec' _ _ _ _ _ _ Hd' Hp' Hdir' d') as (d1&Hli&_); [done|].
  destruct (dir_find_ok drv d' p rec' _ _ _ _ _ _ Hd' Hp' Hdir' d' name) as (d2&Hfi&_); [done|].
  split; [by rewrite Hli, fmap_app|]. split.
  { rewrite Hfi. cbn [snd]. rewrite entry_named_app. replace (entry_named name es) with (@None Z) by done.
    cbn [entry_named]. by rewrite eq_ignore_ascii_case_refl. }
  split; [by rewrite Hst|]. split; [|by split].
  intros ->. unfold read_file_all. rewrite (st_bind_Ok _ _ _ _ _ Hst).
  cbn [built_stat st_is_directory st_data_runs].
  change [Resident data] with (Resident <$> [data]). rewrite read_data_runs_resident.
  cbn. by rewrite app_nil_r.
Qed.

(** C22: When the entry does not fit into the parent's index, [create_file]
    fails with [NoSpace] only after it has written the new record: the record
    stays in use, with the file in it, under no name. *)
Theorem create_file_leaks_record (d : D) (m p n : Z) (rec : list Z) (s : NtfsStat) (v : list Z)
    (name : rstring) (isd : bool) (data : list Z) :
  disk_ok d → mft_room drv m d → 0 ≤ p ≤ m → 16 ≤ n ≤ m → n < 100000 →
  (read_mft_record drv p d).2 = Ok rec → parse_stat rec (boot drv) = Ok s →
  st_is_directory s = true → st_index_root s = Some v →
  NtfsIndex.find_in_directory v name = Err Ntfs_FileNotFound →
  find_attribute_offset rec 0xA0 = Err Ntfs_InvalidAttribute →
  resident_insert rec p n name = Err Ntfs_NoSpace →
  (∀ j, 16 ≤ j < n → in_use drv j d) → ¬ in_use drv n d →
  ascii_name name → 1 ≤ len name ≤ 255 → bytes_ok data → len data ≤ 700 →
  56 ≤ sector_size drv → 2 * sector_size drv ≤ mft_record_size drv →
  record_end name isd data + 4 ≤ mft_record_size drv →
  ∃ d', create_file drv {| record_number := p |} name {| co_is_directory := isd; co_data := data |} d =
      (d', Err Ntfs_NoSpace) ∧
    in_use drv n d' ∧ raw_record drv p d' = raw_record drv p d ∧
    (stat drv {| record_number := n |} d').2 = Ok (built_stat (mft_record_size drv) name isd data).
Proof.
  intros Hd Hroom Hpm Hnm Hn Hread Hst Hisd Hv Hfind Hext Hfull Huse Hfreen Hname Hl Hdata Hdl Hss Hsz Hfit.
  assert (Hpl : ∀ j, 0 ≤ j ≤ m → placed drv j d) by (intros; by apply (room_placed drv m)).
  pose proof (Hpl p Hpm) as Hpp. destruct (read_mft_record_inv drv p d rec Hd Hpp Hread) as [Hsig Happ].
  assert (Hne : p ≠ n) by (intros ->; apply Hfreen; by left).
  pose proof (records_disjoint drv d m p n Hroom Hpm Hnm Hne) as Hdis.
  destruct (is_directory_reads drv d p rec s) as (d1&Hr1&E1); try done.
  destruct (find_missing_reads drv d p rec s Hd Hpp Hread Hst v name d1) as (d2&Hr2&E2); try done.
  assert (E02 : d ≡ d2) by by etrans.
  destruct (create_file_writes drv d m p n) with name isd data d1 d2
    as (d4&Hc&Hd4&Ho4&Hback); try done.
  pose proof (only_record_placed drv _ p _ _ Ho4 Hpp) as Hpp4.
  pose proof (only_record_raw drv _ p _ _ Hdis Ho4) as Hraw4.
  destruct (read_mft_record_ok drv p d4 rec) as (d5&Hr5&E5); [done|done|by rewrite Hraw4..|].
  assert (Hd5 : disk_ok d5) by by rewrite <- E5.
  destruct (Hback d5) as (Hin&d6&_&_&Hst6); [done| |by apply raw_record_equiv|].
  { eapply placed_equiv; [exact E5|]. eapply only_record_placed; [exact Ho4|apply Hpl; lia]. }
  exists d5. split; [|split; [done|split; [by rewrite (raw_record_equiv drv p d4 d5)|by rewrite Hst6]]].
  rewrite Hc. apply st_bind_Err. unfold add_directory_entry. cbn [record_number].
  rewrite (st_bind_Ok _ _ _ _ _ Hr5), Hext. cbn [try_]. srun.
  unfold add_to_resident_index. cbn [record_number]. rewrite Hfull. by srun.
Qed.
End properties.
