(* ===== verification/NtfsDemo.v ===== *)
(** * Volumes in memory

    Small NTFS volumes on a RAM disk, on which the properties of the driver
    are instantiated: their hypotheses hold there. *)

From S2P Require Import Prelude Bytes Text BlockDev Gpt GptManager NtfsTypes NtfsBoot NtfsRuns.
From S2P Require Import NtfsAttr NtfsFixups NtfsRecord NtfsRecordFacts NtfsIndex NtfsIndexFacts.
From S2P Require Import NtfsStatFacts NtfsDriver NtfsDriverFacts NtfsWriteFacts NtfsCreateFacts.

(** Forty sectors: the boot cluster, and an MFT of 1024-byte records behind
    it. *)
Definition demo_boot : BootSector := {|
  bytes_per_sector := 512; sectors_per_cluster := 2; media_type := 0xF8; total_sectors := 40;
  mft_start_cluster := 1; mft_mirror_start_cluster := 0; clusters_per_mft_record := -10;
  clusters_per_index_buffer := 1; serial_number := 1; partition_byte_offset := 0 |}.
Definition demo_drv : NtfsDriver := {| boot := demo_boot; mft_record_size := 1024 |}.

Definition protected (rec : list Z) : list Z :=
  match reapply_fixups rec 512 with Ok raw => raw | _ => [] end.
Definition built (num : Z) (name : rstring) (parent : Z) (isd : bool) (data : list Z) : list Z :=
  match build_mft_record 1024 num name parent isd data with Ok rec => rec | _ => [] end.

(** Record 5: an empty directory with 200 free bytes in its index. *)
Definition parent_record : list Z :=
  FILE_SIG ++ [48; 0; 3; 0] ++ zeros 12 ++ [56; 0; 3; 0] ++ zeros 32 ++
  attr_head 0x90 272 248 [0; 0] ++ demo_dir_value ++ u32_le 0xFFFFFFFF ++ zeros 692.

Definition volume (num : Z) (rec : list Z) : RamDisk :=
  {| rd_size := 512; rd_count := 40;
     rd_data := ram_store (1024 + 1024 * num) (protected rec) ∅ |}.

Definition dir_volume : RamDisk := volume 5 parent_record.
Definition fresh_volume : RamDisk := volume 5 (built 5 (lit "root") 5 true []).
Definition file_volume : RamDisk := volume 16 (built 16 demo_name 5 false [1; 2; 3]).

Definition mem_record (num : Z) (d : RamDisk) : list Z :=
  match (read_mft_record demo_drv num d).2 with Ok rec => rec | _ => [] end.
Definition mem_stat (num : Z) (d : RamDisk) : NtfsStat :=
  match (stat demo_drv {| record_number := num |} d).2 with Ok s => s | _ => NtfsStat_default end.


Lemma demo_disk_ok num rec : disk_ok (volume num rec).
Proof. by split. Qed.
Lemma demo_room num rec : mft_room demo_drv 16 (volume num rec).
Proof. by vm_compute. Qed.
Lemma demo_placed num rec n : 0 ≤ n ≤ 16 → placed demo_drv n (volume num rec).
Proof. apply room_placed, demo_room. Qed.

Lemma dir_volume_read : (read_mft_record demo_drv 5 dir_volume).2 = Ok (mem_record 5 dir_volume).
Proof. by vm_compute. Qed.
Lemma fresh_volume_read : (read_mft_record demo_drv 5 fresh_volume).2 = Ok (mem_record 5 fresh_volume).
Proof. by vm_compute. Qed.
Lemma file_volume_read : (read_mft_record demo_drv 16 file_volume).2 = Ok (mem_record 16 file_volume).
Proof. by vm_compute. Qed.

Lemma dir_volume_resident : resident_dir (mem_record 5 dir_volume) 56 24 272 [] 200.
Proof. split; try by vm_compute. exists 32. split; try by vm_compute. constructor. Qed.

Lemma dir_volume_only :
  no_attr (length (mem_record 5 dir_volume)) (mem_record 5 dir_volume) 0x90 (56 + 272).
Proof.
  assert (H : from_le (sub (56 + 272) 4 (mem_record 5 dir_volume)) = 0xFFFFFFFF) by by vm_compute.
  destruct (length _); [done|]. right; left. exact H.
Qed.

Lemma dir_volume_directory :
  directory demo_drv dir_volume 5 (mem_record 5 dir_volume) (mem_stat 5 dir_volume) 56 24 272 [] 200.
Proof.
  split; [exact dir_volume_read| | |exact dir_volume_resident|exact dir_volume_only|by vm_compute..].
  - split; [|by vm_compute]. apply bytes_ok_check. by vm_compute.
  - by vm_compute.
Qed.

Lemma file_volume_data :
  resident_data (mem_record 16 file_volume) demo_boot 256 24 [1; 2; 3] (mem_stat 16 file_volume).
Proof. split; by vm_compute. Qed.

(** ** Witnesses *)

Lemma reading_leaves_device_witness :
  disk_ok dir_volume ∧ looks (open demo_drv (lit "/a.txt")) dir_volume (λ _, True).
Proof.
  split; [exact (demo_disk_ok 5 parent_record)|].
  exact (proj1 (reading_leaves_device demo_drv ltac:(by vm_compute) dir_volume
    (demo_disk_ok 5 parent_record)) (lit "/a.txt")).
Defined.

Lemma write_file_read_back_witness :
  ∃ d', write_file demo_drv {| record_number := 16 |} [7; 8; 9] file_volume = (d', Ok ()) ∧
    (read_file_all demo_drv {| record_number := 16 |} d').2 = Ok [7; 8; 9].
Proof.
  destruct (write_file_read_back demo_drv file_volume 16 (mem_record 16 file_volume)
    (mem_stat 16 file_volume) 256 24 [1; 2; 3] [7; 8; 9]) as (d'&Hw&_&_&Hr).
  - apply demo_disk_ok.
  - by apply demo_placed.
  - exact file_volume_read.
  - split; [|by vm_compute]. apply bytes_ok_check. by vm_compute.
  - by vm_compute.
  - exact file_volume_data.
  - by repeat constructor.
  - reflexivity.
  - exists d'. split; [exact Hw|]. apply Hr; by vm_compute.
Defined.

Lemma create_file_appears_witness :
  ∃ d', create_file demo_drv root_directory demo_name
      {| co_is_directory := false; co_data := [1; 2; 3] |} dir_volume =
      (d', Ok {| record_number := 16 |}) ∧
    (list_directory demo_drv root_directory d').2 = Ok [demo_name] ∧
    (read_file_all demo_drv {| record_number := 16 |} d').2 = Ok [1; 2; 3].
Proof.
  destruct (create_file_appears demo_drv dir_volume 16 5 16 (mem_record 5 dir_volume)
    (mem_stat 5 dir_volume) 56 24 272 [] 200 demo_name false [1; 2; 3])
    as (d'&rec'&s'&Hc&Hl&_&_&Hr&_).
  - apply demo_disk_ok.
  - apply demo_room.
  - by vm_compute.
  - by vm_compute.
  - by vm_compute.
  - exact dir_volume_directory.
  - intros j Hj. lia.
  - unfold in_use. intros [H|H]; by vm_compute in H.
  - exact (proj1 demo_name_ok).
  - exact (proj2 demo_name_ok).
  - reflexivity.
  - by vm_compute.
  - by repeat constructor.
  - by vm_compute.
  - by vm_compute.
  - by vm_compute.
  - by vm_compute.
  - exists d'. split; [exact Hc|]. split; [exact Hl|]. exact (Hr eq_refl).
Defined.

Lemma create_file_leaks_record_witness :
  ∃ d', create_file demo_drv root_directory demo_name
      {| co_is_directory := false; co_data := [1; 2; 3] |} fresh_volume = (d', Err Ntfs_NoSpace) ∧
    in_use demo_drv 16 d'.
Proof.
  destruct (create_file_leaks_record demo_drv fresh_volume 16 5 16 (mem_record 5 fresh_volume)
    (mem_stat 5 fresh_volume) (index_root_value 1024) demo_name false [1; 2; 3])
    as (d'&Hc&Hu&_).
  - apply demo_disk_ok.
  - apply demo_room.
  - by vm_compute.
  - by vm_compute.
  - by vm_compute.
  - exact fresh_volume_read.
  - by vm_compute.
  - by vm_compute.
  - by vm_compute.
  - by vm_compute.
  - by vm_compute.
  - by vm_compute.
  - intros j Hj. lia.
  - unfold in_use. intros [H|H]; by vm_compute in H.
  - exact (proj1 demo_name_ok).
  - exact (proj2 demo_name_ok).
  - by repeat constructor.
  - by vm_compute.
  - by vm_compute.
  - by vm_compute.
  - by vm_compute.
  - exists d'. split; [exact Hc|exact Hu].
Defined.

(** A volume that starts with the boot sector [format_disk] writes. *)
Definition boot_volume : RamDisk :=
  {| rd_size := 512; rd_count := 40; rd_data := ram_store 512 (boot_image 30 512) ∅ |}.

Lemma mount_outcomes_witness :
  ∃ d' r, mount 512 boot_volume = (d', r) ∧ boot_volume ≡ d'.
Proof.
  destruct (mount_outcomes 512 boot_volume) as (d'&r&H&E&_); [by split|by vm_compute|by vm_compute|].
  exists d', r. split; [exact H|exact E].
Defined.

Lemma created_volume_unusable_witness :
  ∃ d' drv, mount 512 boot_volume = (d', Ok drv) ∧ mft_record_size drv = 1.
Proof.
  destruct (created_volume_unusable 512 30 512 boot_volume) as (d'&drv&H&E&_);
    [by split|by vm_compute|by vm_compute|by vm_compute|by vm_compute|by vm_compute|].
  exists d', drv. split; [exact H|exact E].
Defined.
