(* ===== verification/HalFs.v ===== *)
(** * The I/O and file system interfaces of the hal

    [hal::io] ([lib/hal/src/io/mod.rs]) and [hal::fs] ([lib/hal/src/fs/mod.rs]):
    the traits [Read], [Seek], [File] and [FileSystem] as type classes, and
    the provided method [read_exact].

    A method on [&mut self] works on the state [S] of the reader. A [Box<dyn
    File>] owns its own state and also reaches state it shares with others (a
    file system's device), so its methods work on a pair [W * F] of the shared
    world and the file. *)

From S2P Require Import Prelude Bytes Text BlockDev.

Inductive SeekFrom :=
| Start (n : Z)
| Current (n : Z)
| End (n : Z).

(** ** The traits

    [read] returns the number of bytes it has put at the front of the buffer,
    and the buffer. No caller looks at the buffer after an error. *)
Class Read (S : Type) := read : list Z → st S IoError (Z * list Z).
Class Seek (S : Type) := seek : SeekFrom → st S IoError Z.

Class File (W F : Type) := {
  #[global] file_Read :: Read (W * F);
  #[global] file_Seek :: Seek (W * F);
  size : F → Z;
  path : F → rstring;
}.

(** [open] makes a new [Box<dyn File>]; [exists] is a Rocq keyword. *)
Class FileSystem (W FS F : Type) `{!File W F} := {
  fs_open : FS → rstring → st W HalFsError F;
  fs_exists : FS → rstring → st W HalFsError bool;
}.

Definition stream_position {S} `{!Seek S} : st S IoError Z := seek (Current 0).

(** ** [read_exact]

    [filled] is the part of the caller's buffer in front of the slice [buf]
    that is still to be read. *)
Section read_exact.
Context {S : Type} `{!Read S}.

Fixpoint read_exact_loop (fuel : nat) (filled buf : list Z) : st S IoError (list Z) :=
  match fuel with
  | O => lift Diverge
  | Datatypes.S fuel =>
      if is_empty buf then mret filled else
      '(n, buf) ← read buf;
      if n =? 0 then fail Io_UnexpectedEof else
      head ← lift (slice buf 0 n);
      rest ← lift (slice_from buf n);
      read_exact_loop fuel (filled ++ head) rest
  end.

Definition read_exact (buf : list Z) : st S IoError (list Z) :=
  read_exact_loop (Datatypes.S (length buf)) [] buf.
End read_exact.

(** ** The abstract reader

    What [Read] and [Seek] promise on a file whose content does not change: a
    cursor into the content. *)
Record Cursor := { content : list Z; pos : Z }.

Definition cursor_read (buf : list Z) (c : Cursor) : Cursor * (Z * list Z) :=
  let n := Z.min (len buf) (Z.max 0 (len (content c) - pos c)) in
  ({| content := content c; pos := pos c + n |},
   (n, sub (pos c) n (content c) ++ drop (Z.to_nat n) buf)).

(** [R] relates the states of a reader to the cursors it implements. *)
Class Reads (S : Type) `{!Read S} (R : S → Cursor → Prop) :=
  reads_cursor s c buf : R s c →
    ∃ s', read buf s = (s', Ok (cursor_read buf c).2) ∧ R s' (cursor_read buf c).1.

Section cursor.
Context {S : Type} `{!Read S} (R : S → Cursor → Prop) `{!Reads S R}.

Lemma length_cursor_read buf c :
  0 ≤ pos c → len ((cursor_read buf c).2).2 = len buf.
Proof.
  intros Hp. unfold cursor_read. cbn. rewrite length_app, length_drop.
  destruct (decide (len (content c) ≤ pos c)).
  - rewrite Z.max_l, Z.min_r, sub_0 by lia. cbn. lia.
  - rewrite len_sub by lia. lia.
Qed.

(** One turn of the loop. *)
Lemma read_exact_turn fuel filled buf s c :
  R s c → 0 ≤ pos c → buf ≠ [] →
  let n := Z.min (len buf) (Z.max 0 (len (content c) - pos c)) in
  ∃ s', R s' {| content := content c; pos := pos c + n |} ∧
    read_exact_loop (Datatypes.S fuel) filled buf s =
    if n =? 0 then (s', Err Io_UnexpectedEof)
    else read_exact_loop fuel (filled ++ sub (pos c) n (content c)) (drop (Z.to_nat n) buf) s'.
Proof.
  intros HR Hp Hb n. destruct (reads_cursor s c buf HR) as (s'&Hrd&HR').
  exists s'. split; [exact HR'|]. cbn [read_exact_loop].
  assert (is_empty buf = false) as -> by by destruct buf.
  rewrite (st_bind_Ok _ _ _ _ _ Hrd). cbn [cursor_read snd]. fold n.
  destruct (Z.eqb_spec n 0) as [|Hn]; [done|].
  pose proof (length_cursor_read buf c Hp) as Hl. unfold cursor_read in Hl. cbn [snd] in Hl. fold n in Hl.
  assert (Hls : len (sub (pos c) n (content c)) = n) by (rewrite len_sub; lia).
  rewrite slice_ok, bind_lift_Ok, slice_from_ok, bind_lift_Ok by lia. do 2 f_equal.
  - rewrite Z.sub_0_r, sub_app_l, sub_all' by lia. done.
  - rewrite sub_app_r, Hls, Z.sub_diag, sub_all' by (rewrite ?Hl, ?length_drop; lia). done.
Qed.

Lemma read_exact_cursor s c buf :
  R s c → 0 ≤ pos c →
  let avail := Z.max 0 (len (content c) - pos c) in
  ∃ s', read_exact buf s =
      (s', if len buf <=? avail then Ok (sub (pos c) (len buf) (content c)) else Err Io_UnexpectedEof) ∧
    R s' {| content := content c; pos := pos c + Z.min (len buf) avail |}.
Proof.
  intros HR Hp avail. unfold read_exact. destruct (decide (buf = [])) as [->|Hb].
  { exists s. rewrite (proj2 (Z.leb_le _ _)) by (cbn; lia). split; [done|].
    rewrite Z.min_l by (cbn; lia). cbn. rewrite Z.add_0_r. by destruct c. }
  assert (Hl : 0 < len buf) by (destruct buf; cbn; [done|lia]).
  destruct (read_exact_turn (length buf) [] buf s c HR Hp Hb) as (s1&HR1&->). fold avail in HR1 |- *.
  destruct (Z.eqb_spec (Z.min (len buf) avail) 0).
  { exists s1. rewrite (proj2 (Z.leb_gt _ _)) by lia. done. }
  destruct (length buf) as [|fuel] eqn:Hf; [lia|].
  destruct (Z.leb_spec (Z.of_nat (Datatypes.S fuel)) avail) as [Hle|Hgt].
  - exists s1. rewrite Z.min_l, drop_ge by lia. cbn [read_exact_loop is_empty app]. split; [done|].
    by rewrite Z.min_l in HR1 by lia.
  - rewrite Z.min_r in HR1 |- * by lia.
    set (rest := drop _ buf).
    assert (Hr : rest ≠ []) by (intros E; apply (f_equal length) in E; unfold rest in E;
      rewrite length_drop in E; cbn in E; lia).
    destruct (read_exact_turn fuel ([] ++ sub (pos c) avail (content c)) rest s1 _ HR1)
      as (s2&HR2&->); [cbn; lia|done|]. cbn [content pos] in *.
    replace (Z.min (len rest) _) with 0 in * by lia. exists s2. split; [done|].
    by rewrite Z.add_0_r in HR2.
Qed.
End cursor.
