(* ===== verification/VfsPath.v ===== *)
(** * Paths and the mount table

    [lib/vfs/src/path.rs] and [lib/vfs/src/mount.rs]. A file system is an
    [Arc<dyn FileSystem>]: the table holds references, of a type [FS]. *)

From S2P Require Import Prelude Bytes Text.

(** [vfs::FsError] *)
Inductive FsError :=
| Fs_NotFound | Fs_NotDir | Fs_IsDir | Fs_PermissionDenied | Fs_BadFd
| Fs_InvalidPath | Fs_MountFailed | Fs_IoError | Fs_NotImplemented.

#[global] Instance FsError_eq_dec : EqDecision FsError.
Proof. solve_decision. Defined.

(** ** Paths *)

Record Path := { components : list rstring; absolute : bool }.

#[global] Instance Path_eq_dec : EqDecision Path.
Proof. solve_decision. Defined.

Definition Path_new (s : rstring) : outcome FsError Path :=
  if is_empty s then Err Fs_InvalidPath else
  mret {| components := filter nonempty (split_on 47 s); absolute := starts_with s [47] |}.

Definition is_absolute (p : Path) : bool := absolute p.

Definition parent (p : Path) : option Path :=
  if is_empty (components p) then None
  else Some {| components := removelast (components p); absolute := absolute p |}.

Definition filename (p : Path) : option rstring := last (components p).

Definition to_string (p : Path) : rstring :=
  if absolute p then 47 :: join [47] (components p) else join [47] (components p).

(** The paths [Path_new] makes. *)
Definition path_wf (p : Path) : Prop :=
  Forall (λ c, c ≠ [] ∧ 47 ∉ c) (components p) ∧ (absolute p = false → components p ≠ []).

(** [&s[n..]] for a byte offset [n]: a panic when it is not the start of a
    character or the end of the string. *)
Fixpoint str_from (s : rstring) (n : Z) : outcome FsError rstring :=
  if n =? 0 then Ok s else
  match s with
  | [] => Panic
  | c :: s => if n <? 0 then Panic else str_from s (n - utf8_len c)
  end.

(** ** The mount table *)

Section mounts.
Context {FS : Type}.

Record MountTable := { mounts : gmap rstring FS }.
Implicit Types (mt : MountTable) (p : Path) (fs : FS).

Definition MountTable_new : MountTable := {| mounts := ∅ |}.

Definition MountTable_mount fs p : st MountTable FsError () := λ mt,
  let key := to_string p in
  match mounts mt !! key with
  | Some _ => (mt, Err Fs_MountFailed)
  | None => ({| mounts := <[key := fs]> (mounts mt) |}, Ok ())
  end.

Definition MountTable_unmount p : st MountTable FsError () := λ mt,
  match mounts mt !! to_string p with
  | Some _ => ({| mounts := delete (to_string p) (mounts mt) |}, Ok ())
  | None => (mt, Err Fs_NotFound)
  end.

(** The loop over the mounts: the best match so far and its length. *)
Fixpoint best_mount (path_str : rstring) (entries : list (rstring * FS)) (best_match : option (rstring * FS))
    (best_len : Z) : option (rstring * FS) :=
  match entries with
  | [] => best_match
  | (mount_path, fs) :: entries =>
      if starts_with path_str mount_path && (best_len <=? str_len mount_path)
      then best_mount path_str entries (Some (mount_path, fs)) (str_len mount_path)
      else best_mount path_str entries best_match best_len
  end.

Definition resolve mt p : outcome FsError (FS * Path) :=
  let path_str := to_string p in
  '(mount_str, fs) ← ok_or (best_mount path_str (bt_iter str_le (mounts mt)) None 0) Fs_NotFound;
  rel_path ← (if str_len mount_str <? str_len path_str
              then rest ← str_from path_str (str_len mount_str); Path_new rest
              else Path_new [47]);
  mret (fs, rel_path).

Definition find_mount mt p : outcome FsError FS :=
  m ← ok_or (best_mount (to_string p) (bt_iter str_le (mounts mt)) None 0) Fs_NotFound;
  mret m.2.
End mounts.
Arguments MountTable FS : clear implicits.

(** ** Paths and strings *)

Lemma starts_with_slash x s : starts_with (x :: s) [47] = (x =? 47).
Proof. destruct s; cbn; by rewrite andb_true_r. Qed.

Lemma components_pieces s : Forall (λ c, c ≠ [] ∧ 47 ∉ c) (filter nonempty (split_on 47 s)).
Proof.
  pose proof (split_on_pieces 47 s) as H. induction H as [|c l Hc _ IH]; [constructor|].
  rewrite filter_cons. case_decide as Hn; [|done]. constructor; [|done]. split; [|done].
  by intros ->.
Qed.

Lemma Path_new_wf s p : Path_new s = Ok p → path_wf p.
Proof.
  unfold Path_new. destruct s as [|x s]; [done|]. cbn [is_empty]. intros <-%Ok_inj. split; cbn [components absolute].
  - apply components_pieces.
  - rewrite starts_with_slash. intros Hx. cbn [split_on]. rewrite Hx.
    destruct (split_on 47 s) as [|q qs]; rewrite filter_cons, decide_True by done; done.
Qed.

Lemma filter_all_nonempty l : Forall (λ c : rstring, c ≠ [] ∧ 47 ∉ c) l → filter nonempty l = l.
Proof.
  induction 1 as [|c l [Hc _] _ IH]; [done|]. rewrite filter_cons, decide_True, IH; [done|].
  by destruct c.
Qed.

Lemma split_components l :
  Forall (λ c, c ≠ [] ∧ 47 ∉ c) l → filter nonempty (split_on 47 (join [47] l)) = l.
Proof.
  intros Hl. destruct l as [|c l]; [done|].
  rewrite split_join; [by apply filter_all_nonempty|done|].
  eapply Forall_impl; [exact Hl|by intros ? []].
Qed.

Lemma join_head l :
  Forall (λ c, c ≠ [] ∧ 47 ∉ c) l → l ≠ [] → ∃ x s, join [47] l = x :: s ∧ x ≠ 47.
Proof.
  destruct l as [|c l]; [done|]. intros [[Hc H47] _]%Forall_cons _.
  destruct c as [|x c]; [done|]. exists x. apply not_elem_of_cons in H47 as [Hx _].
  destruct l; cbn [join app]; by eexists.
Qed.

Lemma Path_new_to_string p : path_wf p → Path_new (to_string p) = Ok p.
Proof.
  destruct p as [l a]. intros [Hl Ha]. cbn [components absolute] in *. unfold to_string, Path_new.
  cbn [components absolute]. destruct a.
  - cbn [is_empty]. rewrite starts_with_slash, split_on_cons_sep, filter_cons, decide_False by by intros [].
    rewrite split_components by done. done.
  - destruct (join_head l Hl (Ha eq_refl)) as (x&s&E&Hx). pose proof (split_components l Hl) as Hs.
    rewrite E in *. cbn [is_empty]. by rewrite starts_with_slash, Hs, (proj2 (Z.eqb_neq _ _)).
Qed.

(** ** The longest mount prefix *)

Lemma str_from_app s t : str_from (s ++ t) (str_len s) = Ok t.
Proof.
  induction s as [|c s IH]; [by destruct t|]. cbn [app str_from]. rewrite str_len_cons.
  pose proof (utf8_len_pos c). pose proof (str_len_nonneg s).
  rewrite (proj2 (Z.eqb_neq _ _)), (proj2 (Z.ltb_ge _ _)) by lia.
  by replace (utf8_len c + str_len s - utf8_len c) with (str_len s) by lia.
Qed.

Section facts.
Context {FS : Type}.
Implicit Types (mt : MountTable FS) (p : Path) (fs : FS).

(** A prefix of [s] among the mounts [l] or the best match so far. *)
Definition candidate (s : rstring) (l : list (rstring * FS)) (best : option (rstring * FS))
    (m : rstring) (fs : FS) : Prop :=
  m `prefix_of` s ∧ ((m, fs) ∈ l ∨ best = Some (m, fs)).

Lemma best_mount_spec s l best n :
  match best with None => n = 0 | Some (m, _) => n = str_len m ∧ m `prefix_of` s end →
  match best_mount s l best n with
  | Some (m, fs) => candidate s l best m fs ∧
      ∀ m' fs', candidate s l best m' fs' → m' `prefix_of` m
  | None => ∀ m' fs', ¬ candidate s l best m' fs'
  end.
Proof.
  unfold candidate. revert best n. induction l as [|[m fs] l IH]; intros best n Hb; cbn [best_mount].
  - destruct best as [[m fs]|].
    + destruct Hb as [_ Hp]. split; [by split; [|right]|].
      intros m' fs' [_ [H|[= -> ->]]]; [by apply elem_of_nil in H|done].
    + intros m' fs' [_ [H|H]]; [by apply elem_of_nil in H|done].
  - destruct (starts_with s m && _) eqn:Hm.
    + apply andb_prop in Hm as [Hp%starts_with_spec Hl%Z.leb_le].
      specialize (IH (Some (m, fs)) (str_len m) (conj eq_refl Hp)).
      destruct (best_mount s l _ _) as [[mb fb]|]; [|destruct (IH m fs); by split; [|right]].
      destruct IH as [[Hpb Hin] Hmax]. split.
      * split; [done|]. destruct Hin as [|[= -> ->]]; [left; by right|left; by left].
      * intros m' fs' [Hp' [[[= -> ->]|Hin']%elem_of_cons|Hb']].
        -- apply (Hmax m fs). split; [done|by right].
        -- apply (Hmax m' fs'). split; [done|by left].
        -- etrans; [|apply (Hmax m fs); split; [done|by right]].
           subst best. destruct Hb as [-> _]. by eapply prefix_len_le.
    + specialize (IH best n Hb). assert (Hno : m `prefix_of` s → str_len m < n).
      { intros Hp%starts_with_spec. rewrite Hp in Hm. cbn in Hm. by apply Z.leb_gt in Hm. }
      assert (Hbest : m `prefix_of` s → ∃ m0 f0, best = Some (m0, f0) ∧ m `prefix_of` m0).
      { intros Hp. specialize (Hno Hp). destruct best as [[m0 f0]|].
        - destruct Hb as [-> Hp0]. exists m0, f0. split; [done|]. eapply prefix_len_le; [done|done|lia].
        - pose proof (str_len_nonneg m). lia. }
      destruct (best_mount s l best n) as [[mb fb]|].
      * destruct IH as [[Hpb Hin] Hmax]. split; [split; [done|]; destruct Hin; [left; by right|by right]|].
        intros m' fs' [Hp' [[[= -> ->]|Hin']%elem_of_cons|Hb']].
        -- destruct (Hbest Hp') as (m0&f0&E&Hp0). etrans; [exact Hp0|]. apply (Hmax m0 f0).
           subst best. destruct Hb. split; [done|by right].
        -- apply (Hmax m' fs'). split; [done|by left].
        -- apply (Hmax m' fs'). split; [done|by right].
      * intros m' fs' [Hp' [[[= -> ->]|Hin']%elem_of_cons|Hb']].
        -- destruct (Hbest Hp') as (m0&f0&->&_). destruct Hb. apply (IH m0 f0). split; [done|by right].
        -- apply (IH m' fs'). split; [done|by left].
        -- apply (IH m' fs'). split; [done|by right].
Qed.

Lemma best_mount_table mt s :
  match best_mount s (bt_iter str_le (mounts mt)) None 0 with
  | Some (m, fs) => m `prefix_of` s ∧ mounts mt !! m = Some fs ∧
      ∀ m', is_Some (mounts mt !! m') → m' `prefix_of` s → m' `prefix_of` m
  | None => ∀ m', is_Some (mounts mt !! m') → ¬ m' `prefix_of` s
  end.
Proof.
  pose proof (best_mount_spec s (bt_iter str_le (mounts mt)) None 0 eq_refl) as H. unfold candidate in H.
  destruct (best_mount _ _ _ _) as [[m fs]|].
  - destruct H as [[Hp [Hin|?]] Hmax]; [|done]. apply elem_of_bt_iter in Hin. split_and!; [done..|].
    intros m' [fs' Hm'] Hp'. apply (Hmax m' fs'). split; [done|]. left. by apply elem_of_bt_iter.
  - intros m' [fs' Hm'] Hp'. apply (H m' fs'). split; [done|]. left. by apply elem_of_bt_iter.
Qed.

Lemma Path_new_nonempty s : s ≠ [] → ∃ p, Path_new s = Ok p.
Proof. destruct s; [done|]. intros _. by eexists. Qed.

Lemma resolve_eq mt p m fs rest :
  best_mount (to_string p) (bt_iter str_le (mounts mt)) None 0 = Some (m, fs) → to_string p = m ++ rest →
  find_mount mt p = Ok fs ∧
  resolve mt p = (rel ← Path_new (if is_empty rest then [47] else rest); mret (fs, rel)).
Proof.
  intros Hb Hs. unfold find_mount, resolve. rewrite Hb. cbn [ok_or]. rewrite !bind_Ok.
  split; [done|]. rewrite Hs, str_len_app. destruct rest as [|c rest].
  - change (str_len []) with 0. rewrite Z.add_0_r, Z.ltb_irrefl. done.
  - rewrite str_len_cons. pose proof (utf8_len_pos c). pose proof (str_len_nonneg rest).
    rewrite (proj2 (Z.ltb_lt _ _)), str_from_app by lia. done.
Qed.

(** [find_mount] returns the file system of the mount whose path is the
    longest prefix of the path's text (so every other mounted prefix is a
    prefix of it), and [resolve] returns the same file system with the rest
    of the text as the path in it ([/] when nothing is left); both fail with
    [NotFound] when no mounted path is a prefix. Neither panics. *)
Theorem find_mount_longest mt p :
  match find_mount mt p with
  | Ok fs => ∃ m rest rel, to_string p = m ++ rest ∧ mounts mt !! m = Some fs ∧
      (∀ m', is_Some (mounts mt !! m') → m' `prefix_of` to_string p → m' `prefix_of` m) ∧
      Path_new (if is_empty rest then [47] else rest) = Ok rel ∧ resolve mt p = Ok (fs, rel)
  | Err e => e = Fs_NotFound ∧ resolve mt p = Err Fs_NotFound ∧
      ∀ m', is_Some (mounts mt !! m') → ¬ m' `prefix_of` to_string p
  | Panic | Diverge => False
  end.
Proof.
  pose proof (best_mount_table mt (to_string p)) as H.
  destruct (best_mount (to_string p) (bt_iter str_le (mounts mt)) None 0) as [[m fs]|] eqn:Hb.
  - destruct H as ([rest Hs]&Hm&Hmax). destruct (resolve_eq mt p m fs rest Hb Hs) as [-> Hr].
    destruct (Path_new_nonempty (if is_empty rest then [47] else rest)) as [rel Hrel]; [by destruct rest|].
    exists m, rest, rel. split_and!; try done. by rewrite Hr, Hrel.
  - unfold find_mount, resolve. rewrite Hb. done.
Qed.

(** A mount is matched as raw text, not by components: a file system
    mounted at [m] also serves every path whose text merely starts with [m]
    (as [/mnt2] does with [/mnt]), and the path [resolve] hands on is then
    relative. *)
Theorem mount_ignores_component_boundary mt p m fs (c : Z) (rest : rstring) :
  mounts mt = {[ m := fs ]} → to_string p = m ++ c :: rest → c ≠ 47 →
  find_mount mt p = Ok fs ∧ ∃ rel, resolve mt p = Ok (fs, rel) ∧ is_absolute rel = false.
Proof.
  intros Hmt Hs Hc. pose proof (best_mount_table mt (to_string p)) as H. rewrite Hmt in H.
  destruct (best_mount _ _ _ _) as [[m' fs']|] eqn:Hb; rewrite <- Hmt in Hb.
  - destruct H as (_&[<- <-]%lookup_singleton_Some&_).
    destruct (resolve_eq _ p m fs (c :: rest) Hb Hs) as [Hf Hr]. split; [done|].
    eexists. split; [rewrite Hr; reflexivity|]. unfold is_absolute. cbn [absolute is_empty].
    rewrite starts_with_slash. by apply Z.eqb_neq.
  - destruct (H m); [|rewrite Hs; by eexists]. by rewrite lookup_singleton_eq.
Qed.

(** A path read back from its text is the same path, and the table's
    [mount] and [unmount] are inverse: mounting at a free path makes the path
    resolve to exactly that file system at [/], a second mount there fails and
    changes nothing, and unmounting restores the table. *)
Theorem mount_unmount_roundtrip mt p fs (s : rstring) :
  Path_new s = Ok p → mounts mt !! to_string p = None →
  Path_new (to_string p) = Ok p ∧
  ∃ mt', MountTable_mount fs p mt = (mt', Ok ()) ∧
    resolve mt' p = (rel ← Path_new [47]; mret (fs, rel)) ∧
    (∀ fs', MountTable_mount fs' p mt' = (mt', Err Fs_MountFailed)) ∧
    MountTable_unmount p mt' = (mt, Ok ()) ∧
    MountTable_unmount p mt = (mt, Err Fs_NotFound).
Proof.
  intros Hp Hfree. split; [by eapply Path_new_to_string, Path_new_wf|].
  exists {| mounts := <[to_string p := fs]> (mounts mt) |}. unfold MountTable_mount, MountTable_unmount.
  rewrite Hfree. cbn [mounts]. rewrite lookup_insert_eq, delete_insert_id by done.
  split_and!; try done; [|by destruct mt].
  pose proof (best_mount_table {| mounts := <[to_string p := fs]> (mounts mt) |} (to_string p)) as H.
  cbn [mounts] in H.
  destruct (best_mount _ _ _ _) as [[m fs']|] eqn:Hb.
  - destruct H as (Hm&Hl&Hmax). assert (m = to_string p) as ->.
    { apply (anti_symm prefix); [done|]. apply Hmax; [|done]. rewrite lookup_insert_eq. by eexists. }
    rewrite lookup_insert_eq in Hl. injection Hl as <-.
    by destruct (resolve_eq {| mounts := _ |} p _ fs [] Hb (eq_sym (app_nil_r _))) as [_ ->].
  - destruct (H (to_string p)); [|done]. rewrite lookup_insert_eq. by eexists.
Qed.
End facts.

(** ** Witnesses *)

Lemma mount_ignores_component_boundary_witness :
  ∃ p, Path_new (lit "/mnt2/x") = Ok p ∧ find_mount {| mounts := {[ lit "/mnt" := 7%nat ]} |} p = Ok 7%nat.
Proof.
  exists {| components := [lit "mnt2"; lit "x"]; absolute := true |}. split; [reflexivity|].
  refine (proj1 (mount_ignores_component_boundary {| mounts := {[ lit "/mnt" := 7%nat ]} |} _ (lit "/mnt") 7%nat
    50 (lit "/x") eq_refl _ _)); by vm_compute.
Defined.

Lemma mount_unmount_roundtrip_witness :
  ∃ mt', MountTable_mount 7%nat {| components := [lit "mnt"]; absolute := true |} MountTable_new = (mt', Ok ()).
Proof.
  destruct (mount_unmount_roundtrip MountTable_new {| components := [lit "mnt"]; absolute := true |} 7%nat
    (lit "/mnt/")) as (_&mt'&H&_); [reflexivity|reflexivity|].
  exists mt'. exact H.
Defined.
