(* ===== verification/Vfs.v ===== *)
(** * The virtual file system

    [lib/vfs/src/inode.rs], [file.rs] and [lib.rs]: the [Inode] trait, the
    inode-based [File], the [FileHandle] of a file descriptor and the [Vfs]
    manager. [W] is the world the objects behind [Arc] and [Box] share. The
    locks of [Vfs] are taken and released within one method, in the order of
    the code; a method runs to its end before the next one starts. *)

From S2P Require Import Prelude Bytes Text BlockDev HalFs VfsPath.

(** ** Inodes *)

Inductive InodeType := It_File | It_Directory | It_Symlink | It_BlockDevice | It_CharDevice | It_Socket.

#[global] Instance InodeType_eq_dec : EqDecision InodeType.
Proof. solve_decision. Defined.

Record Metadata := {
  md_inode_num : Z;
  md_size : Z;
  md_typ : InodeType;
  md_permissions : Z;
  md_created : Z;
  md_modified : Z;
  md_accessed : Z;
  md_links : Z;
}.

Record DirectoryEntry := { de_name : rstring; de_inode_num : Z; de_typ : InodeType }.

(** [metadata] returns no [Result]; [lookup] makes a new [Arc<dyn Inode>]. *)
Class Inode (W I : Type) := {
  metadata : I → st W FsError Metadata;
  lookup : I → rstring → st W FsError I;
  readlink : I → st W FsError rstring;
  read_at : I → Z → list Z → st W FsError (Z * list Z);
  write_at : I → Z → list Z → st W FsError Z;
  readdir : I → st W FsError (list DirectoryEntry);
  inode_type : I → InodeType;
}.

(** [FsError::from(IoError)] *)
Definition FsError_from_IoError (e : IoError) : FsError := Fs_IoError.

Record FsStat := { fss_total_blocks : Z; fss_free_blocks : Z; fss_block_size : Z }.

(** ** Open flags *)

Definition OpenFlags := Z.
Definition READ : OpenFlags := 1.
Definition WRITE : OpenFlags := 2.
Definition CREATE : OpenFlags := 4.
Definition APPEND : OpenFlags := 8.
Definition TRUNC : OpenFlags := 16.

(** [bitflags]' [contains] *)
Definition contains (flags other : OpenFlags) : bool := Z.land flags other =? other.

(** ** Files over an inode *)

Section file.
Context {W I : Type} `{!Inode W I}.

Record File := { f_inode : I; f_flags : OpenFlags; f_offset : Z }.

Definition File_new (inode : I) (flags : OpenFlags) : File :=
  {| f_inode := inode; f_flags := flags; f_offset := 0 |}.

Definition set_offset (f : File) (offset : Z) : File :=
  {| f_inode := f_inode f; f_flags := f_flags f; f_offset := offset |}.

(** A method of the inode, from a method of the file. *)
Definition on_world {A} (m : st W FsError A) : st (W * File) FsError A :=
  λ '(w, f), let '(w', r) := m w in ((w', f), r).
Definition get_file : st (W * File) FsError File := λ '(w, f), ((w, f), Ok f).
Definition put_file (f : File) : st (W * File) FsError () := λ '(w, _), ((w, f), Ok ()).

Definition File_read (buf : list Z) : st (W * File) FsError (Z * list Z) :=
  self ← get_file;
  if negb (contains (f_flags self) READ) then fail Fs_PermissionDenied else
  '(bytes, buf) ← on_world (read_at (f_inode self) (f_offset self) buf);
  put_file (set_offset self (f_offset self +w bytes));;
  mret (bytes, buf).

Definition File_write (buf : list Z) : st (W * File) FsError Z :=
  self ← get_file;
  if negb (contains (f_flags self) WRITE) then fail Fs_PermissionDenied else
  (if contains (f_flags self) APPEND
   then md ← on_world (metadata (f_inode self)); put_file (set_offset self (md_size md))
   else mret ());;
  self ← get_file;
  bytes ← on_world (write_at (f_inode self) (f_offset self) buf);
  put_file (set_offset self (f_offset self +w bytes));;
  mret bytes.

Definition File_seek (pos : Z) : st (W * File) FsError () :=
  self ← get_file; put_file (set_offset self pos).

Definition File_metadata : st (W * File) FsError Metadata :=
  self ← get_file; on_world (metadata (f_inode self)).
End file.
Arguments File I : clear implicits.

(** ** The manager *)

Section vfs.
Context {W FS FL : Type} `{!HalFs.File W FL, !FileSystem W FS FL}.

(** [FileHandle] *)
Record FileHandle := { inner : FL }.

Definition FileHandle_read (buf : list Z) : st (W * FileHandle) IoError (Z * list Z) := λ '(w, h),
  let '((w', f), r) := read buf (w, inner h) in ((w', {| inner := f |}), r).

(** Writing is not implemented: the handle refuses. *)
Definition FileHandle_write (buf : list Z) : st (W * FileHandle) IoError Z := fail Io_Other.

Record Vfs := {
  mount_table : MountTable FS;
  fd_table : gmap Z FileHandle;
  next_fd : Z;
}.

Definition Vfs_new : Vfs :=
  {| mount_table := MountTable_new; fd_table := ∅; next_fd := 0 |}.

Definition Vfs_mount (fs : FS) (mount_point : Path) : st (W * Vfs) FsError () := λ '(w, v),
  let '(mt, r) := MountTable_mount fs mount_point (mount_table v) in
  ((w, {| mount_table := mt; fd_table := fd_table v; next_fd := next_fd v |}), r).

Definition find_fs_for_path (v : Vfs) (p : Path) : outcome FsError FS := find_mount (mount_table v) p.

Definition alloc_fd (v : Vfs) : Vfs * Z :=
  ({| mount_table := mount_table v; fd_table := fd_table v; next_fd := wrap 64 (next_fd v + 1) |},
   next_fd v).

Definition insert_fd (v : Vfs) (fd : Z) (h : FileHandle) : Vfs :=
  {| mount_table := mount_table v; fd_table := <[fd := h]> (fd_table v); next_fd := next_fd v |}.

Definition Vfs_open (path : rstring) (flags : OpenFlags) : st (W * Vfs) FsError Z := λ '(w, v),
  match (p ← Path_new path; fs ← find_fs_for_path v p; mret (p, fs)) with
  | Ok (p, fs) =>
      match st_map_err (λ _, Fs_NotFound) (fs_open fs (to_string p)) w with
      | (w', Ok file) =>
          let '(v', fd) := alloc_fd v in
          ((w', insert_fd v' fd {| inner := file |}), Ok fd)
      | (w', Err e) => ((w', v), Err e)
      | (w', Panic) => ((w', v), Panic)
      | (w', Diverge) => ((w', v), Diverge)
      end
  | Err e => ((w, v), Err e)
  | Panic => ((w, v), Panic)
  | Diverge => ((w, v), Diverge)
  end.

(** [table.get_mut(&fd).ok_or(BadFd)?] and a method on the handle. *)
Definition with_fd {A} (fd : Z) (m : st (W * FileHandle) IoError A) : st (W * Vfs) FsError A :=
  λ '(w, v),
  match fd_table v !! fd with
  | None => ((w, v), Err Fs_BadFd)
  | Some h => let '((w', h'), r) := m (w, h) in
      ((w', insert_fd v fd h'), map_err FsError_from_IoError r)
  end.

Definition Vfs_read (fd : Z) (buf : list Z) : st (W * Vfs) FsError (Z * list Z) :=
  with_fd fd (FileHandle_read buf).

Definition Vfs_write (fd : Z) (buf : list Z) : st (W * Vfs) FsError Z :=
  with_fd fd (FileHandle_write buf).

Definition Vfs_close (fd : Z) : st (W * Vfs) FsError () := λ '(w, v),
  match fd_table v !! fd with
  | None => ((w, v), Err Fs_BadFd)
  | Some _ =>
      ((w, {| mount_table := mount_table v; fd_table := delete fd (fd_table v);
              next_fd := next_fd v |}), Ok ())
  end.
End vfs.
Arguments FileHandle FL : clear implicits.
Arguments Vfs FS FL : clear implicits.
