(* ===== verification/VfsFacts.v ===== *)
(** * What the virtual file system promises

    Runs of the [Vfs] manager as sequences of calls, the abstract descriptor
    table they implement, and a file system in memory that instantiates the
    interfaces. *)

From S2P Require Import Prelude Bytes Text BlockDev HalFs VfsPath Vfs.

(** ** Descriptors *)

Section vfs.
Context {W FS FL : Type} {FileI : HalFs.File W FL} {FSI : FileSystem W FS FL}.
Implicit Types (w : W) (v : Vfs FS FL) (s : W * Vfs FS FL).

(** A call of a public method of [Vfs] with what it answered. *)
Inductive event :=
| Mounted (r : outcome FsError ())
| Opened (r : outcome FsError Z)
| DidRead (fd : Z) (r : outcome FsError (Z * list Z))
| DidWrite (fd : Z) (r : outcome FsError Z)
| Closed (fd : Z) (r : outcome FsError ()).

Inductive step : W * Vfs FS FL → event → W * Vfs FS FL → Prop :=
| step_mount s s' fs p r : Vfs_mount fs p s = (s', r) → step s (Mounted r) s'
| step_open s s' path flags r : Vfs_open path flags s = (s', r) → step s (Opened r) s'
| step_read s s' fd buf r : Vfs_read fd buf s = (s', r) → step s (DidRead fd r) s'
| step_write s s' fd buf r : Vfs_write fd buf s = (s', r) → step s (DidWrite fd r) s'
| step_close s s' fd r : Vfs_close fd s = (s', r) → step s (Closed fd r) s'.

(** The events of a run, in order. *)
Inductive run : W * Vfs FS FL → list event → W * Vfs FS FL → Prop :=
| run_nil s : run s [] s
| run_snoc s es s1 e s2 : run s es s1 → step s1 e s2 → run s (es ++ [e]) s2.

(** The abstract descriptor table: how many descriptors have been handed out,
    and which of them are open. *)
Record Fds := { issued : Z; live : gset Z }.

Definition spec_event (a : Fds) (e : event) : Fds :=
  match e with
  | Opened (Ok _) => {| issued := issued a + 1; live := {[ issued a ]} ∪ live a |}
  | Closed fd (Ok _) => {| issued := issued a; live := live a ∖ {[ fd ]} |}
  | _ => a
  end.

(** What the abstract table lets an event answer. *)
Definition spec_answer (a : Fds) (e : event) : Prop :=
  match e with
  | Opened (Ok fd) => fd = issued a
  | DidRead fd r => r = Err Fs_BadFd ∨ fd ∈ live a
  | DidWrite fd r => r = Err (if decide (fd ∈ live a) then Fs_IoError else Fs_BadFd)
  | Closed fd r => r = if decide (fd ∈ live a) then Ok () else Err Fs_BadFd
  | _ => True
  end.

Definition refines (v : Vfs FS FL) (a : Fds) : Prop :=
  next_fd v = issued a ∧ 0 ≤ issued a ∧ dom (fd_table v) = live a ∧ ∀ fd, fd ∈ live a → fd < issued a.

Lemma with_fd_dom {A} fd (m : st (W * FileHandle FL) IoError A) w v :
  let '((w', v'), r) := with_fd fd m (w, v) in
  next_fd v' = next_fd v ∧ dom (fd_table v') = dom (fd_table v) ∧
  (fd ∉ dom (fd_table v) → r = Err Fs_BadFd).
Proof.
  unfold with_fd. destruct (fd_table v !! fd) as [h|] eqn:Hfd.
  - destruct (m (w, h)) as [[w' h'] r]. cbn. split; [done|].
    apply elem_of_dom_2 in Hfd as Hin. split; [set_solver|done].
  - apply not_elem_of_dom in Hfd. done.
Qed.

Lemma open_fd path flags w v w' v' r :
  Vfs_open path flags (w, v) = ((w', v'), r) →
  (∃ fd h, r = Ok fd ∧ fd = next_fd v ∧ next_fd v' = wrap 64 (next_fd v + 1) ∧
     fd_table v' = <[fd := h]> (fd_table v) ∧ mount_table v' = mount_table v) ∨
  (v' = v ∧ is_ok r = false).
Proof.
  unfold Vfs_open. destruct (p ← _; _) as [[p fs]| | |]; [|intros [= <- <- <-]; by right..].
  destruct (st_map_err _ _ w) as [w1 [file| | |]]; [|intros [= <- <- <-]; by right..].
  cbn [alloc_fd]. intros [= <- <- <-]. left. by eexists _, _.
Qed.

Lemma step_refines s e s' a :
  step s e s' → refines s.2 a → issued a < 2 ^ 64 - 1 → spec_answer a e ∧ refines s'.2 (spec_event a e).
Proof.
  intros Hs (Hn&Hi&Hd&Hlt) Hw.
  destruct Hs as [[w v] [w' v'] fs p r H|[w v] [w' v'] path flags r H|[w v] [w' v'] fd buf r H
    |[w v] [w' v'] fd buf r H|[w v] [w' v'] fd r H]; cbn [snd] in *.
  - unfold Vfs_mount in H. destruct (MountTable_mount _ _ _) as [mt r']. injection H as <- <- <-. done.
  - destruct (open_fd _ _ _ _ _ _ _ H) as [(fd&h&->&->&Hn'&Ht&_)|[-> Hr]].
    + cbn. split; [done|]. unfold refines. cbn. rewrite Hn', Ht, Hn, wrap_small by lia.
      split_and!; [done|lia|set_solver|]. intros fd [->%elem_of_singleton|?%Hlt]%elem_of_union; lia.
    + destruct r; [done|done..].
  - pose proof (with_fd_dom fd (FileHandle_read buf) w v) as Hf. unfold Vfs_read in H. rewrite H in Hf.
    destruct Hf as (Hn'&Hd'&Hb). cbn. rewrite <- Hd. split.
    + destruct (decide (fd ∈ dom (fd_table v))); auto.
    + split_and!; [congruence|done|congruence|done].
  - pose proof (with_fd_dom fd (FileHandle_write buf) w v) as Hf. unfold Vfs_write in H. rewrite H in Hf.
    destruct Hf as (Hn'&Hd'&Hb). cbn. rewrite <- Hd. split.
    + case_decide as Hin; [|by apply Hb]. apply elem_of_dom in Hin as [h Hh].
      unfold with_fd in H. rewrite Hh in H. cbn in H. by injection H as _ _ <-.
    + split_and!; [congruence|done|congruence|done].
  - unfold Vfs_close in H. destruct (fd_table v !! fd) as [h|] eqn:Hfd; injection H as <- <- <-.
    + apply elem_of_dom_2 in Hfd. rewrite Hd in Hfd. cbn. rewrite decide_True by done. split; [done|].
      unfold refines. cbn. split_and!; [done|done|set_solver|]. intros fd' [? _]%elem_of_difference. auto.
    + apply not_elem_of_dom in Hfd. rewrite Hd in Hfd. cbn. rewrite decide_False by done. done.
Qed.

(** The answers of a run, each against the abstract table at that point. *)
Fixpoint spec_run (a : Fds) (es : list event) : Prop :=
  match es with
  | [] => True
  | e :: es => spec_answer a e ∧ spec_run (spec_event a e) es
  end.

Lemma spec_run_snoc a es e :
  spec_run a es → spec_answer (foldl spec_event a es) e → spec_run a (es ++ [e]).
Proof.
  revert a. induction es as [|e' es IH]; intros a; cbn; [done|]. intros [? ?] ?. auto.
Qed.

Lemma issued_le a es : issued (foldl spec_event a es) ≤ issued a + len es.
Proof.
  revert a. induction es as [|e es IH]; intros a; cbn [foldl length]; [lia|].
  specialize (IH (spec_event a e)). assert (issued (spec_event a e) ≤ issued a + 1); [|lia].
  unfold spec_event. repeat case_match; cbn; lia.
Qed.

Lemma run_refines w es s a0 :
  run (w, Vfs_new) es s → a0 = {| issued := 0; live := ∅ |} → len es < 2 ^ 64 →
  refines s.2 (foldl spec_event a0 es) ∧ spec_run a0 es.
Proof.
  intros Hr ->. remember (w, Vfs_new) as s0 eqn:E0.
  induction Hr as [s|s es s1 e s2 Hr IH Hs]; intros Hw; subst.
  - split; [|done]. unfold refines. cbn. split_and!; [done..|set_solver].
  - rewrite length_app in Hw. cbn [length] in Hw. rewrite foldl_app. cbn [foldl].
    destruct IH as [Href Hsp]; [done|lia|].
    pose proof (issued_le {| issued := 0; live := ∅ |} es) as Hle. cbn [issued] in Hle.
    destruct (step_refines _ _ _ _ Hs Href) as [Ha Hr']; [lia|]. split; [done|].
    by apply spec_run_snoc.
Qed.


(** A descriptor is only changed through itself: reading, writing or
    closing one leaves the handle of every other in place, opening adds one
    and leaves all the others, and mounting touches none. *)
Theorem vfs_handles_independent s e s' fd :
  step s e s' → fd_table s.2 !! fd ≠ fd_table s'.2 !! fd →
  match e with
  | Opened r => r = Ok fd ∧ fd = next_fd s.2
  | DidRead fd' _ | DidWrite fd' _ | Closed fd' _ => fd' = fd
  | Mounted _ => False
  end.
Proof.
  assert (Hwith : ∀ A fd' (m : st (W * FileHandle FL) IoError A) s s' r,
    with_fd fd' m s = (s', r) → fd_table s.2 !! fd ≠ fd_table s'.2 !! fd → fd' = fd).
  { intros A fd' m [w1 v1] s1 r H Hne. unfold with_fd in H. destruct (fd_table v1 !! fd') as [h|].
    - destruct (m (w1, h)) as [[w' h'] r']. injection H as <- <-. cbn in Hne.
      destruct (decide (fd' = fd)); [done|]. by rewrite lookup_insert_ne in Hne.
    - by injection H as <- <-. }
  intros Hs Hne.
  destruct Hs as [[w v] [w' v'] fs p r H|[w v] [w' v'] path flags r H|s s' fd' buf r H
    |s s' fd' buf r H|[w v] [w' v'] fd' r H]; cbn [snd] in *.
  - unfold Vfs_mount in H. destruct (MountTable_mount _ _ _). by injection H as <- <- <-.
  - destruct (open_fd _ _ _ _ _ _ _ H) as [(fd'&h&->&->&_&Ht&_)|[-> _]]; [|done].
    rewrite Ht in Hne. destruct (decide (next_fd v = fd)) as [<-|]; [done|].
    by rewrite lookup_insert_ne in Hne.
  - by eapply Hwith.
  - by eapply Hwith.
  - unfold Vfs_close in H. destruct (fd_table v !! fd') as [h|]; injection H as <- <- <-; [|done].
    cbn in Hne. destruct (decide (fd' = fd)); [done|]. by rewrite lookup_delete_ne in Hne.
Qed.
End vfs.
