(* ===== verification/NtfsVfs.v ===== *)
(** * NTFS behind the file system interfaces

    [fs/ntfs/hal_impl.rs] and [fs/ntfs/vfs_adapter.rs]. File systems, open
    files and inodes share a driver through [Arc<Mutex<NtfsDriver>>]: the
    world is the list of these drivers (the fixed fields and the device of
    each), an [Arc] is an index into it. *)

From S2P Require Import Prelude Bytes Text BlockDev NtfsTypes NtfsBoot NtfsRuns NtfsDriver.
From S2P Require Import HalFs VfsPath Vfs.

(** [u64::saturating_add] *)
Definition saturating_add (a b : Z) : Z := Z.min (a + b) (2 ^ 64 - 1).

Section ntfs.
Context {D : Type} `{!BlockDevice D}.

Definition Drivers : Type := list (NtfsDriver * D).

(** A method of the driver under its lock. An [Arc] keeps its driver alive,
    so the index is never out of the list. *)
Definition lock {E A} (driver : nat) (m : NtfsDriver → st D E A) : st Drivers E A := λ w,
  match w !! driver with
  | Some (drv, d) => let '(d', r) := m drv d in (<[driver := (drv, d')]> w, r)
  | None => (w, Panic)
  end.

(** [Arc::new(Mutex::new(driver))] *)
Definition share {E} (driver : NtfsDriver * D) : st Drivers E nat := λ w,
  (w ++ [driver], Ok (length w)).

(** ** Open files *)

Record NtfsFileImpl := {
  nf_driver : nat;
  nf_file : NtfsFile;
  nf_offset : Z;
  nf_path : rstring;
  nf_size : Z;
}.

Definition nf_seek (f : NtfsFileImpl) (offset : Z) : NtfsFileImpl :=
  {| nf_driver := nf_driver f; nf_file := nf_file f; nf_offset := offset;
     nf_path := nf_path f; nf_size := nf_size f |}.

Definition NtfsFileImpl_read (buf : list Z) : st (Drivers * NtfsFileImpl) IoError (Z * list Z) :=
  λ '(w, f),
  match lock (nf_driver f) (λ drv, st_map_err (λ _, Io_Other) (read_file_all drv (nf_file f))) w with
  | (w, Ok data) =>
      let start := nf_offset f in
      let available := Z.max 0 (len data - start) in
      let to_read := Z.min (len buf) available in
      if 0 <? to_read then
        match (src ← slice data start (start +w to_read); copy_to buf 0 to_read src) with
        | Ok buf => ((w, nf_seek f (nf_offset f +w to_read)), Ok (to_read, buf))
        | Err e => ((w, f), Err e)
        | Panic => ((w, f), Panic)
        | Diverge => ((w, f), Diverge)
        end
      else ((w, f), Ok (to_read, buf))
  | (w, Err e) => ((w, f), Err e)
  | (w, Panic) => ((w, f), Panic)
  | (w, Diverge) => ((w, f), Diverge)
  end.

Definition NtfsFileImpl_seek (p : SeekFrom) : st (Drivers * NtfsFileImpl) IoError Z := λ '(w, f),
  let offset :=
    match p with
    | Start n => n
    | Current n => nf_offset f +w wrap 64 n
    | End n => saturating_add (nf_size f) (wrap 64 n)
    end in
  ((w, nf_seek f offset), Ok offset).

#[global] Instance NtfsFileImpl_File : HalFs.File Drivers NtfsFileImpl := {|
  file_Read := NtfsFileImpl_read;
  file_Seek := NtfsFileImpl_seek;
  size := nf_size;
  path := nf_path;
|}.

(** [open] of both file systems, on the driver at index [driver]. *)
Definition open_ntfs (driver : nat) (p : rstring) : st Drivers HalFsError NtfsFileImpl :=
  lock driver (λ drv,
    ntfs_file ← st_map_err (λ _, Hal_NotFound) (open drv p);
    stat ← st_map_err (λ _, Hal_Io Io_Other) (stat drv ntfs_file);
    if st_is_directory stat then fail Hal_NotAFile else
    mret {| nf_driver := driver; nf_file := ntfs_file; nf_offset := 0; nf_path := p;
            nf_size := st_size stat |}).

(** ** The two file systems *)

Record NtfsFsImpl := { fsi_driver : nat }.

(** The device is given to the new driver; on an error it is dropped. *)
Definition NtfsFsImpl_new (block_dev : D) : st Drivers HalFsError NtfsFsImpl := λ w,
  match mount 0 block_dev with
  | (d, Ok drv) => (l ← share (drv, d); mret {| fsi_driver := l |}) w
  | (_, Err _) => (w, Err (Hal_Io Io_Other))
  | (_, Panic) => (w, Panic)
  | (_, Diverge) => (w, Diverge)
  end.

Definition NtfsFsImpl_open (self : NtfsFsImpl) (p : rstring) : st Drivers HalFsError NtfsFileImpl :=
  open_ntfs (fsi_driver self) p.

Definition NtfsFsImpl_exists (self : NtfsFsImpl) (p : rstring) : st Drivers HalFsError bool :=
  r ← st_try (NtfsFsImpl_open self p);
  mret (match r with inl _ => true | inr _ => false end).

Record NtfsFsAdapter := { fsa_inner : nat; fsa_root_ino : Z }.

Definition NtfsFsAdapter_new (driver : NtfsDriver) (d : D) : st Drivers HalFsError NtfsFsAdapter :=
  l ← share (driver, d); mret {| fsa_inner := l; fsa_root_ino := 5 |}.

Definition NtfsFsAdapter_open (self : NtfsFsAdapter) (p : rstring) : st Drivers HalFsError NtfsFileImpl :=
  open_ntfs (fsa_inner self) p.

Definition NtfsFsAdapter_exists (self : NtfsFsAdapter) (p : rstring) : st Drivers HalFsError bool :=
  r ← st_try (lock (fsa_inner self) (λ drv, open drv p));
  mret (match r with inl _ => true | inr _ => false end).

#[global] Instance NtfsFsImpl_FileSystem : FileSystem Drivers NtfsFsImpl NtfsFileImpl := {|
  fs_open := NtfsFsImpl_open;
  fs_exists := NtfsFsImpl_exists;
|}.
#[global] Instance NtfsFsAdapter_FileSystem : FileSystem Drivers NtfsFsAdapter NtfsFileImpl := {|
  fs_open := NtfsFsAdapter_open;
  fs_exists := NtfsFsAdapter_exists;
|}.

(** ** Inodes *)

Record NtfsInode := { ni_fs : nat; ni_ino : Z; ni_typ : InodeType }.

Definition to_ntfs_file (self : NtfsInode) : NtfsFile := {| record_number := ni_ino self |}.

Definition type_of (s : NtfsStat) : InodeType := if st_is_directory s then It_Directory else It_File.

(** [fs.stat(..).unwrap_or_default()] *)
Definition stat_or_default {E} (drv : NtfsDriver) (file : NtfsFile) : st D E NtfsStat :=
  r ← st_try (stat drv file);
  mret (match r with inl s => s | inr _ => NtfsStat_default end).

Definition NtfsInode_metadata (self : NtfsInode) : st Drivers FsError Metadata :=
  lock (ni_fs self) (λ drv,
    stat ← stat_or_default drv (to_ntfs_file self);
    mret {| md_inode_num := ni_ino self; md_size := st_size stat; md_typ := type_of stat;
            md_permissions := 0x1ED; md_created := 0; md_modified := 0; md_accessed := 0;
            md_links := 1 |}).

Definition NtfsInode_lookup (self : NtfsInode) (name : rstring) : st Drivers FsError NtfsInode :=
  lock (ni_fs self) (λ drv,
    child_ino ← st_map_err (λ _, Fs_NotFound) (find_in_directory drv (to_ntfs_file self) name);
    child_stat ← st_map_err (λ _, Fs_IoError) (stat drv {| record_number := child_ino |});
    mret {| ni_fs := ni_fs self; ni_ino := child_ino; ni_typ := type_of child_stat |}).

Definition NtfsInode_read_at (self : NtfsInode) (offset : Z) (buf : list Z)
  : st Drivers FsError (Z * list Z) :=
  lock (ni_fs self) (λ drv,
    data ← st_map_err (λ _, Fs_IoError) (read_file_all drv (to_ntfs_file self));
    let start := offset in
    let available := Z.max 0 (len data - start) in
    let to_read := Z.min (len buf) available in
    if 0 <? to_read then
      src ← lift (slice data start (start +w to_read));
      buf ← lift (copy_to buf 0 to_read src);
      mret (to_read, buf)
    else mret (to_read, buf)).

(** The offset is not looked at. *)
Definition NtfsInode_write_at (self : NtfsInode) (offset : Z) (buf : list Z) : st Drivers FsError Z :=
  lock (ni_fs self) (λ drv,
    st_map_err (λ _, Fs_IoError) (write_file drv (to_ntfs_file self) buf);;
    mret (len buf)).

(** The loop over the names. *)
Fixpoint readdir_loop (drv : NtfsDriver) (dir : NtfsFile) (names : list rstring)
    (entries : list DirectoryEntry) : st D FsError (list DirectoryEntry) :=
  match names with
  | [] => mret entries
  | name :: names =>
      r ← st_try (find_in_directory drv dir name);
      match r with
      | inl ino =>
          stat ← stat_or_default drv {| record_number := ino |};
          readdir_loop drv dir names
            (entries ++ [{| de_name := name; de_inode_num := ino; de_typ := type_of stat |}])
      | inr _ => readdir_loop drv dir names entries
      end
  end.

Definition NtfsInode_readdir (self : NtfsInode) : st Drivers FsError (list DirectoryEntry) :=
  lock (ni_fs self) (λ drv,
    names ← st_map_err (λ _, Fs_IoError) (list_directory drv (to_ntfs_file self));
    readdir_loop drv (to_ntfs_file self) names []).

#[global] Instance NtfsInode_Inode : Inode Drivers NtfsInode := {|
  metadata := NtfsInode_metadata;
  lookup := NtfsInode_lookup;
  readlink _ := fail Fs_NotImplemented;
  read_at := NtfsInode_read_at;
  write_at := NtfsInode_write_at;
  readdir := NtfsInode_readdir;
  inode_type := ni_typ;
|}.
End ntfs.
Arguments Drivers D : clear implicits.
