(* ===== verification/NtfsVfsFacts.v ===== *)
(** * NTFS files behind the interfaces

    An open NTFS file implements the abstract reader of [HalFs]; its seeks;
    what a handle sees after the file is overwritten through an inode; and a
    file created by the driver, read back through the [Vfs]. *)

From S2P Require Import Prelude Bytes Text BlockDev NtfsTypes NtfsBoot NtfsRuns NtfsAttr NtfsFixups.
From S2P Require Import NtfsRecord NtfsRecordFacts NtfsIndex NtfsIndexFacts NtfsStatFacts NtfsDriver.
From S2P Require Import NtfsDriverFacts NtfsWriteFacts NtfsCreateFacts HalFs VfsPath Vfs NtfsVfs.

Section ntfs.
Context {D : Type} `{!BlockDevice D, !ByteDisk D}.
Implicit Types (d : D) (w : Drivers D) (f : NtfsFileImpl) (c : Cursor).

(** The file has this content on the device, whenever it is read. *)
Definition holds (drv : NtfsDriver) (file : NtfsFile) (data : list Z) d : Prop :=
  ∀ d', d ≡ d' → ∃ d'', read_file_all drv file d' = (d'', Ok data) ∧ d ≡ d''.

Lemma holds_equiv drv file data d d' : d ≡ d' → holds drv file data d → holds drv file data d'.
Proof.
  intros E H d1 E1. destruct (H d1) as (d2&Hr&E2); [by etrans|]. exists d2. split; [done|].
  etrans; [symmetry; exact E|exact E2].
Qed.

(** The metadata of a record that lies on the device only depends on its
    bytes. *)
Lemma stat_stable drv n s d :
  disk_ok d → placed drv n d → (stat drv {| record_number := n |} d).2 = Ok s →
  ∀ d', d ≡ d' → ∃ d'', stat drv {| record_number := n |} d' = (d'', Ok s) ∧ d ≡ d''.
Proof.
  intros Hd Hp Hs d' E. unfold stat in *. cbn [record_number] in *.
  destruct (read_mft_record_eq drv n d Hd Hp) as (d1&_&H1).
  destruct (read_mft_record_eq drv n d') as (d2&E2&H2); [by rewrite <- E|by eapply placed_equiv|].
  rewrite (raw_record_equiv drv n d d' E) in H2.
  set (r := if bool_decide _ then _ else _) in *. destruct r as [rec| | |] eqn:Hr.
  - rewrite (st_bind_Ok _ _ _ _ _ H1) in Hs. unfold lift in Hs. cbn [snd] in Hs.
    exists d2. rewrite (st_bind_Ok _ _ _ _ _ H2). unfold lift. rewrite Hs. split; [done|by etrans].
  - rewrite (st_bind_Err _ _ _ _ _ H1) in Hs. done.
  - rewrite st_bind_unfold, H1 in Hs. done.
  - rewrite st_bind_unfold, H1 in Hs. done.
Qed.

Lemma open_file_stable drv n s d :
  disk_ok d → placed drv n d → (stat drv {| record_number := n |} d).2 = Ok s →
  ∀ d', d ≡ d' → ∃ d'', open_file drv n d' = (d'', Ok {| record_number := n |}) ∧ d ≡ d''.
Proof.
  intros Hd Hp Hs d' E. destruct (stat_stable drv n s d Hd Hp Hs d' E) as (d''&H&E').
  unfold stat in H. apply st_bind_Ok_inv in H as (d1&rec&H&[= <- _]). cbn [record_number] in H.
  exists d1. unfold open_file. by rewrite (st_bind_Ok _ _ _ _ _ H).
Qed.

Lemma resident_holds drv n s data d :
  disk_ok d → placed drv n d → (stat drv {| record_number := n |} d).2 = Ok s →
  st_is_directory s = false → st_data_runs s = [Resident data] →
  holds drv {| record_number := n |} data d.
Proof.
  intros Hd Hp Hs Hdir Hrun d' E. destruct (stat_stable drv n s d Hd Hp Hs d' E) as (d''&H&E').
  exists d''. split; [|done]. unfold read_file_all. rewrite (st_bind_Ok _ _ _ _ _ H), Hdir, Hrun.
  change [Resident data] with (Resident <$> [data]). rewrite read_data_runs_resident. cbn.
  by rewrite app_nil_r.
Qed.

(** ** The lock *)

Lemma lock_run {E A} l (m : NtfsDriver → st D E A) w drv d d' r :
  w !! l = Some (drv, d) → m drv d = (d', r) → lock l m w = (<[l := (drv, d')]> w, r).
Proof. intros Hl Hm. unfold lock. by rewrite Hl, Hm. Qed.

Lemma lock_shared {E A} l (m : NtfsDriver → st D E A) w drv d d' r :
  w !! l = Some (drv, d) → m drv d = (d', r) → (lock l m w).1 !! l = Some (drv, d').
Proof.
  intros Hl Hm. rewrite (lock_run _ _ _ _ _ _ _ Hl Hm). apply list_lookup_insert_eq.
  by apply lookup_lt_Some in Hl.
Qed.

(** ** Reading is a cursor *)

(** The open file [f] is a cursor into content that is on the device. *)
Definition reader (s : Drivers D * NtfsFileImpl) c : Prop :=
  ∃ drv d, s.1 !! nf_driver s.2 = Some (drv, d) ∧ holds drv (nf_file s.2) (content c) d ∧
    nf_offset s.2 = pos c ∧ is_u64 (pos c) ∧ len (content c) < 2 ^ 63.

Lemma copy_front {E} (buf src : list Z) n :
  0 ≤ n ≤ len buf → len src = n → copy_to (E:=E) buf 0 n src = Ok (src ++ drop (Z.to_nat n) buf).
Proof.
  intros Hn Hs. rewrite copy_to_ok by lia. unfold upd.
  replace (Z.to_nat n) with (length src) by lia. done.
Qed.

Lemma file_read_run w f buf drv d data :
  w !! nf_driver f = Some (drv, d) → holds drv (nf_file f) data d →
  is_u64 (nf_offset f) → len data < 2 ^ 63 →
  ∃ d', d ≡ d' ∧ read buf (w, f) =
    ((<[nf_driver f := (drv, d')]> w, nf_seek f (pos (cursor_read buf {| content := data; pos := nf_offset f |}).1)),
     Ok (cursor_read buf {| content := data; pos := nf_offset f |}).2).
Proof.
  intros Hw Hh Ho Hl. destruct (Hh d) as (d'&Hr&E); [done|]. exists d'. split; [done|].
  unfold read, file_Read. cbn [NtfsFileImpl_File]. unfold NtfsFileImpl_read.
  rewrite (lock_run _ _ _ _ _ _ _ Hw (st_map_err_Ok _ _ _ _ _ Hr)). cbv zeta.
  unfold cursor_read. cbn [content pos fst snd].
  set (n := Z.min (len buf) _). unfold is_u in Ho.
  destruct (Z.ltb_spec 0 n).
  - assert (Hn : nf_offset f + n ≤ len data) by lia. rewrite !wrap_small by lia.
    rewrite slice_ok, bind_Ok by lia.
    replace (nf_offset f + n - nf_offset f) with n by lia.
    rewrite copy_front by (rewrite ?len_sub by lia; lia). done.
  - assert (n = 0) as -> by lia. rewrite sub_0, Z.add_0_r. destruct f; done.
Qed.

#[global] Instance reader_reads : Reads (Drivers D * NtfsFileImpl) reader.
Proof.
  intros [w f] c buf (drv&d&Hw&Hh&Hp&Hu&Hl). cbn [fst snd] in *.
  destruct (file_read_run w f buf drv d (content c) Hw Hh) as (d'&E&Hr); [by rewrite Hp|done|].
  rewrite Hp in Hr. destruct c as [data p]. cbn [content pos] in *.
  eexists. split; [exact Hr|]. exists drv, d'. cbn [fst snd nf_seek nf_driver nf_file nf_offset].
  split; [apply list_lookup_insert_eq; by apply lookup_lt_Some in Hw|].
  split; [by eapply holds_equiv|]. cbn [cursor_read fst content pos]. split; [done|].
  split; [|done]. unfold is_u in *. lia.
Qed.

(** Where a seek goes; [End] counts from the size at opening. *)
Definition cursor_seek (file_size : Z) (p : SeekFrom) c : Z :=
  match p with
  | Start n => n
  | Current n => (pos c + n) mod 2 ^ 64
  | End n => Z.min (file_size + n mod 2 ^ 64) (2 ^ 64 - 1)
  end.

(** C5: an open NTFS file refines a cursor into its content. A read fills the
    buffer from the cursor as far as the content goes, leaves the rest of the
    buffer alone and advances the cursor by what it has read; a seek moves the
    cursor (relative to itself modulo 2^64, relative to the end by saturating
    addition) and answers the new position; both keep the relation. *)
Theorem ntfs_file_refines_cursor (s : Drivers D * NtfsFileImpl) c :
  reader s c →
  (∀ buf, ∃ s', read buf s = (s', Ok (cursor_read buf c).2) ∧ reader s' (cursor_read buf c).1) ∧
  (∀ p, match p with Start n => is_u64 n | Current n => -2 ^ 63 ≤ n < 2 ^ 63 | End _ => is_u64 (nf_size s.2) end →
     ∃ s', seek p s = (s', Ok (cursor_seek (nf_size s.2) p c)) ∧
       reader s' {| content := content c; pos := cursor_seek (nf_size s.2) p c |}).
Proof.
  intros HR. split; [intros buf; by apply reads_cursor|].
  intros p Hp. destruct s as [w f]. destruct HR as (drv&d&Hw&Hh&Ho&Hu&Hl). cbn [fst snd] in *.
  unfold seek, file_Seek. cbn [NtfsFileImpl_File]. unfold NtfsFileImpl_seek.
  set (o := match p with Start n => n | _ => _ end).
  assert (o = cursor_seek (nf_size f) p c ∧ is_u64 o) as [<- Hou].
  { unfold o, cursor_seek. rewrite <- Ho. destruct p as [n|n|n].
    - done.
    - split; [|by apply wrap_range]. unfold wrap. by rewrite Zplus_mod_idemp_r.
    - unfold saturating_add, wrap. split; [done|]. pose proof (Z.mod_pos_bound n (2 ^ 64)).
      unfold is_u in *. lia. }
  eexists. split; [done|]. exists drv, d. by split_and!.
Qed.

(** [read_exact] on an open NTFS file returns, in a bounded number of
    reads, exactly the bytes that follow the cursor, or fails with
    [UnexpectedEof] when the content ends before the buffer is full; it has
    then consumed the rest of the file. *)
Theorem ntfs_read_exact (s : Drivers D * NtfsFileImpl) c buf :
  reader s c →
  let avail := Z.max 0 (len (content c) - pos c) in
  ∃ s', read_exact buf s =
      (s', if len buf <=? avail then Ok (sub (pos c) (len buf) (content c)) else Err Io_UnexpectedEof) ∧
    reader s' {| content := content c; pos := pos c + Z.min (len buf) avail |}.
Proof. intros HR. apply (read_exact_cursor reader); [done|]. destruct HR as (?&?&_&_&_&[]&_). done. Qed.

(** Seeking to a negative offset from the end does not go there: the
    [i64] is reinterpreted as a [u64] and added with saturation, so the cursor
    ends at 2^64 - 1 and the next read returns nothing. *)
Theorem seek_before_end_saturates w f c (n : Z) buf :
  reader (w, f) c → is_u64 (nf_size f) → -2 ^ 63 ≤ n < 0 → - n ≤ nf_size f →
  ∃ s', seek (End n) (w, f) = (s', Ok (2 ^ 64 - 1)) ∧
    (read buf s').2 = Ok (0, buf).
Proof.
  intros (drv&d&Hw&Hh&Ho&Hu&Hl) Hs Hn Hle. cbn [fst snd] in *.
  exists (w, nf_seek f (2 ^ 64 - 1)). split.
  - unfold seek, file_Seek. cbn [NtfsFileImpl_File]. unfold NtfsFileImpl_seek, saturating_add, wrap.
    assert (n mod 2 ^ 64 = n + 2 ^ 64) as ->.
    { rewrite <- (Z_mod_plus_full n 1), Z.mul_1_l. apply Z.mod_small. lia. }
    unfold is_u in Hs. by rewrite Z.min_r by lia.
  - destruct (file_read_run w (nf_seek f (2 ^ 64 - 1)) buf drv d (content c) Hw Hh) as (d'&_&->); [|done|].
    { unfold is_u. cbn. lia. }
    cbn [snd cursor_read content pos nf_seek nf_offset]. unfold cursor_read. cbn [snd content pos].
    rewrite Z.max_l, Z.min_r, sub_0 by lia. done.
Qed.
End ntfs.

(** ** Writing through an inode *)

Section overwrite.
Context {D : Type} `{!BlockDevice D, !ByteDisk D}.
Context (w : Drivers D) (l : nat) (drv : NtfsDriver) (d : D) (n : Z) (rec : list Z) (s : NtfsStat).
Context (o vo : Z) (existing data : list Z).
Context (Hw : w !! l = Some (drv, d)) (Hd : disk_ok d) (Hp : placed drv n d).
Context (Hread : (read_mft_record drv n d).2 = Ok rec).
Context (Hlay : fixup_layout (sector_size drv) (raw_record drv n d)).
Context (Hfirst : uso_of rec + 2 * usc_of rec ≤ from_le (sub 20 2 rec)).
Context (Hres : resident_data rec (boot drv) o vo existing s).
Context (Hdata : bytes_ok data) (Hlen : len data = len existing).
Context (Hdir : st_is_directory s = false) (Hrun : st_data_runs s = [Resident existing]).

Lemma write_at_ok typ offset :
  ∃ d', NtfsInode_write_at {| ni_fs := l; ni_ino := n; ni_typ := typ |} offset data w =
      (<[l := (drv, d')]> w, Ok (len data)) ∧ holds drv {| record_number := n |} data d'.
Proof.
  destruct (write_file_ok drv d n rec s o vo existing data) as (d'&Hwr&Hd'&Hp'&_&d''&Hs&E); try done.
  exists d'. split.
  - unfold NtfsInode_write_at. apply (lock_run _ _ _ _ _ _ _ Hw). unfold to_ntfs_file. cbn [ni_ino].
    by rewrite (st_bind_Ok _ _ _ _ _ (st_map_err_Ok _ _ _ _ _ Hwr)).
  - eapply resident_holds; [done|done|by rewrite Hs|done|]. cbn. by rewrite Hrun.
Qed.

Lemma inode_metadata_ok typ :
  ∃ d' md, NtfsInode_metadata {| ni_fs := l; ni_ino := n; ni_typ := typ |} w =
      (<[l := (drv, d')]> w, Ok md) ∧ d ≡ d' ∧ md_size md = st_size s.
Proof.
  destruct (stat_stable drv n s d Hd Hp) with (d' := d) as (d'&Hs&E); [|done|].
  { destruct (read_mft_record_eq drv n d Hd Hp) as (d1&_&H1). unfold stat. cbn [record_number].
    destruct Hres as [_ _ _ _ _ _ _ _ Hst _]. rewrite H1 in Hread. cbn [snd] in Hread.
    rewrite Hread in H1. by rewrite (st_bind_Ok _ _ _ _ _ H1). }
  exists d'. eexists. split; [|split; [exact E|]].
  - unfold NtfsInode_metadata. apply (lock_run _ _ _ _ _ _ _ Hw). unfold to_ntfs_file. cbn [ni_ino].
    unfold stat_or_default. rewrite st_bind_assoc, (st_bind_Ok _ _ _ _ _ (st_try_run _ _ _ _ Hs)).
    cbn [try_]. srun. reflexivity.
  - done.
Qed.
End overwrite.

Section shared.
Context {D : Type} `{!BlockDevice D, !ByteDisk D}.
Implicit Types (w : Drivers D) (f : NtfsFileImpl).

(** An open file sees what is written through another reference to the
    same driver: after an inode of the file has overwritten it (the offset
    passed to [write_at] is ignored, the content is replaced whole), every
    handle opened before reads the new content from where its cursor is. *)
Theorem handle_sees_overwrite w f (drv : NtfsDriver) (d : D) (n : Z) (rec : list Z) (s : NtfsStat)
    (o vo : Z) (existing data : list Z) (offset : Z) (typ : InodeType) :
  w !! nf_driver f = Some (drv, d) → nf_file f = {| record_number := n |} →
  is_u64 (nf_offset f) → len data < 2 ^ 63 →
  disk_ok d → placed drv n d → (read_mft_record drv n d).2 = Ok rec →
  fixup_layout (sector_size drv) (raw_record drv n d) →
  uso_of rec + 2 * usc_of rec ≤ from_le (sub 20 2 rec) →
  resident_data rec (boot drv) o vo existing s → bytes_ok data → len data = len existing →
  st_is_directory s = false → st_data_runs s = [Resident existing] →
  ∃ w', write_at {| ni_fs := nf_driver f; ni_ino := n; ni_typ := typ |} offset data w = (w', Ok (len data)) ∧
    reader (w', f) {| content := data; pos := nf_offset f |}.
Proof.
  intros Hw Hf Ho Hl Hd Hp Hread Hlay Hfirst Hres Hdata Hlen Hdir Hrun.
  destruct (write_at_ok w (nf_driver f) drv d n rec s o vo existing data Hw Hd Hp Hread Hlay Hfirst Hres
    Hdata Hlen Hdir Hrun typ offset) as (d'&Hwr&Hh).
  eexists. split; [exact Hwr|]. exists drv, d'. cbn [fst snd content pos]. rewrite Hf.
  split_and!; try done; [|apply Ho..]. apply list_lookup_insert_eq. by apply lookup_lt_Some in Hw.
Qed.

(** Appending does not append: writing through a [File] opened with
    [WRITE] and [APPEND] over an NTFS inode puts the cursor at the end of the
    file, yet replaces the content by the data (which must be exactly as long
    as the content), and leaves the cursor past the end. *)
Theorem append_overwrites w (l : nat) (drv : NtfsDriver) (d : D) (n : Z) (rec : list Z) (s : NtfsStat)
    (o vo : Z) (existing data : list Z) (flags offset : Z) (typ : InodeType) :
  w !! l = Some (drv, d) →
  contains flags WRITE = true → contains flags APPEND = true →
  disk_ok d → placed drv n d → (read_mft_record drv n d).2 = Ok rec →
  fixup_layout (sector_size drv) (raw_record drv n d) →
  uso_of rec + 2 * usc_of rec ≤ from_le (sub 20 2 rec) →
  resident_data rec (boot drv) o vo existing s → bytes_ok data → len data = len existing →
  st_is_directory s = false → st_data_runs s = [Resident existing] →
  let i := {| ni_fs := l; ni_ino := n; ni_typ := typ |} in
  ∃ w' d', File_write data (w, {| f_inode := i; f_flags := flags; f_offset := offset |}) =
      ((w', {| f_inode := i; f_flags := flags; f_offset := st_size s +w len data |}), Ok (len data)) ∧
    w' !! l = Some (drv, d') ∧ holds drv {| record_number := n |} data d'.
Proof.
  intros Hw HW HA Hd Hp Hread Hlay Hfirst Hres Hdata Hlen Hdir Hrun i.
  destruct (inode_metadata_ok w l drv d n rec s o vo existing Hw Hd Hp Hread Hres typ)
    as (d1&md&Hmd&E&Hsz).
  set (w1 := <[l := (drv, d1)]> w) in *.
  assert (Hw1 : w1 !! l = Some (drv, d1)).
  { apply list_lookup_insert_eq. by apply lookup_lt_Some in Hw. }
  assert (Hp1 : placed drv n d1) by by eapply placed_equiv.
  assert (Hraw : raw_record drv n d1 = raw_record drv n d) by by apply raw_record_equiv.
  assert (Hread1 : (read_mft_record drv n d1).2 = Ok rec).
  { apply read_mft_record_inv in Hread as [? ?]; [|done|done].
    destruct (read_mft_record_ok drv n d1 rec) as (d2&->&_); rewrite ?Hraw; try done. by rewrite <- E. }
  destruct (write_at_ok w1 l drv d1 n rec s o vo existing data Hw1) with (typ := typ) (offset := st_size s)
    as (d'&Hwr&Hh); try done; [by rewrite <- E|by rewrite Hraw|].
  eexists _, d'. split; [|split; [|exact Hh]].
  - unfold File_write, get_file, put_file, on_world, mbind, st_bind. cbn [f_flags]. rewrite HW, HA.
    cbn [negb metadata write_at NtfsInode_Inode f_inode]. fold i in Hmd, Hwr. rewrite Hmd, Hsz.
    cbn [set_offset f_offset f_inode f_flags]. rewrite Hwr. reflexivity.
  - apply list_lookup_insert_eq. by apply lookup_lt_Some in Hw1.
Qed.
End shared.

(** ** A created file through the [Vfs] *)

Section create.
Context {D : Type} `{!BlockDevice D, !ByteDisk D}.
Context (drv : NtfsDriver).
Implicit Types (d : D) (v : Vfs NtfsFsImpl NtfsFileImpl).

(** [open] of a name in the root directory. *)
Lemma open_in_root d rec s ia vo alen es free name n s' :
  disk_ok d → placed drv 5 d → directory drv d 5 rec s ia vo alen es free →
  entry_named name es = Some n → name ≠ [] → 47 ∉ name → name ≠ [46; 46] →
  placed drv n d → (stat drv {| record_number := n |} d).2 = Ok s' →
  ∃ d', open drv (47 :: name) d = (d', Ok {| record_number := n |}) ∧ d ≡ d'.
Proof.
  intros Hd H5 Hdir He Hne H47 Hdd Hp Hs.
  destruct (dir_stat_ok drv d 5 rec s ia vo alen es free Hd H5 Hdir d) as (d1&Hr1&E1); [done|].
  destruct (open_file_stable drv n s' d Hd Hp Hs d1 E1) as (d2&Hr2&E2).
  exists d2. split; [|done].
  assert (Hc : NtfsDriverFacts.components (47 :: name) = [name]).
  { unfold NtfsDriverFacts.components. rewrite split_on_cons_sep, split_on_none by done.
    rewrite !filter_cons. by destruct name. }
  rewrite open_walks, Hc. cbn [open_walk]. rewrite bool_decide_false by done. unfold root_directory.
  rewrite (st_bind_Ok _ _ _ _ _ Hr1), (dir_isdir _ _ _ _ _ _ _ _ _ _ Hdir). cbn [negb].
  unfold get_index_data. rewrite (dir_index_value drv d 5 rec s ia vo alen es free Hd H5 Hdir). srun.
  rewrite (proj2 (dir_value_listing drv d 5 rec s ia vo alen es free Hd H5 Hdir)), He. cbn [found]. srun.
  by rewrite (st_bind_Ok _ _ _ _ _ Hr2).
Qed.

Lemma open_ntfs_ok w (l : nat) d p n s data :
  w !! l = Some (drv, d) → disk_ok d → placed drv n d →
  (∃ d', open drv p d = (d', Ok {| record_number := n |}) ∧ d ≡ d') →
  (stat drv {| record_number := n |} d).2 = Ok s →
  st_is_directory s = false → st_data_runs s = [Resident data] → len data < 2 ^ 63 →
  ∃ w' f, open_ntfs l p w = (w', Ok f) ∧ reader (w', f) {| content := data; pos := 0 |}.
Proof.
  intros Hw Hd Hp (d1&Hr1&E1) Hs Hdir Hrun Hl.
  destruct (stat_stable drv n s d Hd Hp Hs d1 E1) as (d2&Hr2&E2).
  eexists _, _. split.
  - unfold open_ntfs. apply (lock_run _ _ _ _ _ d2 _ Hw).
    rewrite (st_bind_Ok _ _ _ _ _ (st_map_err_Ok _ _ _ _ _ Hr1)).
    rewrite (st_bind_Ok _ _ _ _ _ (st_map_err_Ok _ _ _ _ _ Hr2)), Hdir. reflexivity.
  - exists drv, d2. cbn [fst snd nf_driver nf_file nf_offset content pos].
    split; [apply list_lookup_insert_eq; by apply lookup_lt_Some in Hw|].
    split; [|done]. eapply holds_equiv; [exact E2|]. by eapply resident_holds.
Qed.

(** [Vfs::open] and [Vfs::read] through the interfaces. *)
Lemma vfs_open_read {W FS FL} `{!HalFs.File W FL, !FileSystem W FS FL, !Reads (W * FL) R}
    (u : Vfs FS FL) w w' fs p (f : FL) flags c text :
  Path_new text = Ok p → find_mount (mount_table u) p = Ok fs →
  fs_open fs (to_string p) w = (w', Ok f) → R (w', f) c →
  ∃ s1, Vfs_open text flags (w, u) = (s1, Ok (next_fd u)) ∧
    ∀ buf, ∃ s2, Vfs_read (next_fd u) buf s1 = (s2, Ok (cursor_read buf c).2).
Proof.
  intros Hp Hfs Ho HR. eexists. split.
  - unfold Vfs_open, find_fs_for_path. rewrite Hp, bind_Ok, Hfs, bind_Ok. cbn [mret outcome_ret].
    rewrite (st_map_err_Ok _ _ _ _ _ Ho). cbn [alloc_fd]. reflexivity.
  - intros buf. destruct (reads_cursor _ c buf HR) as ([w2 f2]&Hr&_). eexists.
    unfold Vfs_read, with_fd, insert_fd. cbn [fd_table next_fd mount_table].
    rewrite lookup_insert_eq. unfold FileHandle_read. cbn [inner]. by rewrite Hr.
Qed.

(** C1: from creation to reading back through every layer. After [create_file]
    has put a file into the root directory (under the hypotheses of that
    theorem), a [Vfs] with the volume mounted at [/] opens the path
    ["/" ++ name], answers its next descriptor, and a read of that descriptor
    returns the data the file was created with. *)
Theorem vfs_reads_created_file (d : D) (m n : Z) (rec : list Z) (s : NtfsStat) (ia vo alen : Z)
    (es : list (rstring * Z)) (free : Z) (name : rstring) (data : list Z) v (flags : OpenFlags) :
  disk_ok d → mft_room drv m d → 5 ≤ m → 16 ≤ n ≤ m → n < 100000 →
  directory drv d 5 rec s ia vo alen es free →
  (∀ j, 16 ≤ j < n → in_use drv j d) → ¬ in_use drv n d →
  ascii_name name → 1 ≤ len name ≤ 255 → entry_named name es = None → entry_len_of name ≤ free →
  bytes_ok data → len data ≤ 700 →
  56 ≤ sector_size drv → 2 * sector_size drv ≤ mft_record_size drv →
  record_end name false data + 4 ≤ mft_record_size drv →
  47 ∉ name → name ≠ [46; 46] →
  mounts (mount_table v) = {[ [47] := {| fsi_driver := 0 |} ]} →
  ∃ d' s1, create_file drv root_directory name {| co_is_directory := false; co_data := data |} d =
      (d', Ok {| record_number := n |}) ∧
    Vfs_open (47 :: name) flags ([(drv, d')], v) = (s1, Ok (next_fd v)) ∧
    ∀ buf, ∃ s2, Vfs_read (next_fd v) buf s1 =
      (s2, Ok (cursor_read buf {| content := data; pos := 0 |}).2).
Proof.
  intros Hd Hroom Hm Hnm Hn Hdir Huse Hfree Hname Hl Hnew Hfit Hdata Hdl Hss Hsz Hend H47 Hdd Hmt.
  destruct (create_file_ok drv d m 5 n rec s ia vo alen es free name false data)
    as (d'&rec'&Hc&Hd'&Hroom'&Hdir'&(d''&Hst&_)&_); try done.
  assert (Hp5 : placed drv 5 d') by (apply (room_placed drv m); [done|lia]).
  assert (Hpn : placed drv n d') by (apply (room_placed drv m); [done|lia]).
  assert (Hs : (stat drv {| record_number := n |} d').2 = Ok (built_stat (mft_record_size drv) name false data))
    by by rewrite Hst.
  assert (Hne : name ≠ []) by (intros ->; cbn in Hl; lia).
  destruct (open_ntfs_ok [(drv, d')] 0%nat d' (47 :: name) n (built_stat (mft_record_size drv) name false data)
    data eq_refl Hd' Hpn) as (w'&f&Ho&HR); [|exact Hs|done|done|lia|].
  { eapply open_in_root; [done|done|exact Hdir'| |done|done|done|done|exact Hs].
    rewrite entry_named_app, Hnew. cbn [entry_named]. by rewrite eq_ignore_ascii_case_refl. }
  set (p := {| components := [name]; absolute := true |}).
  assert (Hpath : Path_new (47 :: name) = Ok p).
  { unfold Path_new. cbn [is_empty]. rewrite starts_with_slash, split_on_cons_sep, split_on_none by done.
    rewrite !filter_cons. by destruct name. }
  assert (Hfind : find_mount (mount_table v) p = Ok {| fsi_driver := 0 |}).
  { pose proof (best_mount_table (mount_table v) (to_string p)) as Hb. rewrite Hmt in Hb.
    destruct (best_mount _ _ _ _) as [[m0 fs]|] eqn:Hbm; rewrite <- Hmt in Hbm.
    - destruct Hb as ([rest Hrest]&[<- <-]%lookup_singleton_Some&_).
      by destruct (resolve_eq _ p _ _ rest Hbm Hrest).
    - destruct (Hb [47]); [by rewrite lookup_singleton_eq|]. by exists name. }
  assert (Ho' : fs_open (W:=Drivers D) {| fsi_driver := 0 |} (to_string p) [(drv, d')] = (w', Ok f)) by exact Ho.
  destruct (vfs_open_read v [(drv, d')] w' {| fsi_driver := 0 |} p f flags _ (47 :: name) Hpath Hfind Ho' HR)
    as (s1&Hop&Hrd).
  exists d', s1. by split_and!.
Qed.
End create.
