(* ===== verification/VfsDemo.v ===== *)
(** * The file system layers on a volume in memory

    The volume of [NtfsDemo] behind the [Vfs]: the hypotheses of the
    properties of the layers hold there. *)

From S2P Require Import Prelude Bytes Text BlockDev NtfsTypes NtfsBoot NtfsRuns NtfsAttr NtfsFixups.
From S2P Require Import NtfsRecord NtfsRecordFacts NtfsIndex NtfsIndexFacts NtfsStatFacts NtfsDriver.
From S2P Require Import NtfsDriverFacts NtfsWriteFacts NtfsCreateFacts NtfsDemo.
From S2P Require Import HalFs VfsPath Vfs VfsFacts NtfsVfs NtfsVfsFacts.

(** The volume with a file in it, and the driver all objects share. *)
Definition full_volume : RamDisk :=
  (create_file demo_drv root_directory demo_name {| co_is_directory := false; co_data := [1; 2; 3] |}
     dir_volume).1.
Definition demo_world : Drivers RamDisk := [(demo_drv, full_volume)].
Definition demo_path : rstring := 47 :: demo_name.
Definition demo_vfs : Vfs NtfsFsImpl NtfsFileImpl :=
  {| mount_table := {| mounts := {[ [47] := {| fsi_driver := 0 |} ]} |}; fd_table := ∅; next_fd := 0 |}.

Definition s0 : Drivers RamDisk * Vfs NtfsFsImpl NtfsFileImpl := (demo_world, Vfs_new).
Definition demo_mount := Vfs_mount {| fsi_driver := 0 |} {| components := []; absolute := true |} s0.
Definition demo_open := Vfs_open demo_path READ demo_mount.1.
Definition demo_read := Vfs_read 0 [9; 9; 9; 9; 9] demo_open.1.
Definition demo_close := Vfs_close 0 demo_read.1.

Lemma did_mount : step s0 (Mounted demo_mount.2) demo_mount.1.
Proof. unfold demo_mount. econstructor. apply surjective_pairing. Qed.
Lemma did_open : step demo_mount.1 (Opened demo_open.2) demo_open.1.
Proof. unfold demo_open. generalize demo_mount.1. intros s. econstructor. apply surjective_pairing. Qed.
Lemma did_read : step demo_open.1 (DidRead 0 demo_read.2) demo_read.1.
Proof. unfold demo_read. generalize demo_open.1. intros s. econstructor. apply surjective_pairing. Qed.
Lemma did_close : step demo_read.1 (Closed 0 demo_close.2) demo_close.1.
Proof. unfold demo_close. generalize demo_read.1. intros s. econstructor. apply surjective_pairing. Qed.

(** The file of [NtfsDemo.file_volume], opened. *)
Definition file_world : Drivers RamDisk := [(demo_drv, file_volume)].
Definition demo_handle : NtfsFileImpl :=
  {| nf_driver := 0; nf_file := {| record_number := 16 |}; nf_offset := 1; nf_path := demo_path; nf_size := 3 |}.

Lemma demo_reader : reader (file_world, demo_handle) {| content := [1; 2; 3]; pos := 1 |}.
Proof.
  exists demo_drv, file_volume. split; [done|]. split; [|done].
  apply (resident_holds demo_drv 16 (mem_stat 16 file_volume)).
  - apply demo_disk_ok.
  - by apply demo_placed.
  - by vm_compute.
  - by vm_compute.
  - by vm_compute.
Qed.

(** ** Witnesses *)


Lemma vfs_handles_independent_witness : demo_open.2 = Ok 0 ∧ 0 = next_fd demo_mount.1.2.
Proof.
  refine (vfs_handles_independent demo_mount.1 (Opened demo_open.2) demo_open.1 0
    did_open _).
  by vm_compute.
Defined.

Lemma ntfs_file_refines_cursor_witness :
  ∃ s', read [9; 9; 9] (file_world, demo_handle) = (s', Ok (2, [2; 3; 9])).
Proof.
  destruct (proj1 (ntfs_file_refines_cursor (file_world, demo_handle) {| content := [1; 2; 3]; pos := 1 |}
    demo_reader) [9; 9; 9]) as (s'&H&_).
  exists s'. exact H.
Defined.

Lemma ntfs_read_exact_witness :
  ∃ s', read_exact [9; 9; 9] (file_world, demo_handle) = (s', Err Io_UnexpectedEof).
Proof.
  destruct (ntfs_read_exact (file_world, demo_handle) {| content := [1; 2; 3]; pos := 1 |} [9; 9; 9]
    demo_reader) as (s'&H&_).
  exists s'. exact H.
Defined.

Lemma seek_before_end_saturates_witness :
  ∃ s', seek (End (-1)) (file_world, demo_handle) = (s', Ok (2 ^ 64 - 1)) ∧
    (read [9; 9] s').2 = Ok (0, [9; 9]).
Proof.
  refine (seek_before_end_saturates file_world demo_handle {| content := [1; 2; 3]; pos := 1 |} (-1) [9; 9]
    demo_reader _ _ _); by vm_compute.
Defined.

Lemma handle_sees_overwrite_witness :
  ∃ w', write_at {| ni_fs := 0; ni_ino := 16; ni_typ := It_File |} 2 [7; 8; 9] file_world = (w', Ok 3) ∧
    reader (w', demo_handle) {| content := [7; 8; 9]; pos := 1 |}.
Proof.
  refine (handle_sees_overwrite file_world demo_handle demo_drv file_volume 16 (mem_record 16 file_volume)
    (mem_stat 16 file_volume) 256 24 [1; 2; 3] [7; 8; 9] 2 It_File eq_refl eq_refl _ _
    (demo_disk_ok _ _) (demo_placed _ _ 16 _) file_volume_read _ _ file_volume_data _ _ _ _).
  - by vm_compute.
  - by vm_compute.
  - by vm_compute.
  - split; [|by vm_compute]. apply bytes_ok_check. by vm_compute.
  - by vm_compute.
  - by repeat constructor.
  - reflexivity.
  - by vm_compute.
  - by vm_compute.
Defined.

Lemma append_overwrites_witness :
  ∃ w', File_write [7; 8; 9] (file_world,
      {| f_inode := {| ni_fs := 0; ni_ino := 16; ni_typ := It_File |}; f_flags := 10; f_offset := 0 |}) =
    ((w', {| f_inode := {| ni_fs := 0; ni_ino := 16; ni_typ := It_File |}; f_flags := 10; f_offset := 6 |}),
     Ok 3).
Proof.
  destruct (append_overwrites file_world 0 demo_drv file_volume 16 (mem_record 16 file_volume)
    (mem_stat 16 file_volume) 256 24 [1; 2; 3] [7; 8; 9] 10 0 It_File) as (w'&d'&H&_).
  - reflexivity.
  - reflexivity.
  - reflexivity.
  - apply demo_disk_ok.
  - by apply demo_placed.
  - exact file_volume_read.
  - split; [|by vm_compute]. apply bytes_ok_check. by vm_compute.
  - by vm_compute.
  - exact file_volume_data.
  - by repeat constructor.
  - reflexivity.
  - by vm_compute.
  - by vm_compute.
  - exists w'. replace (st_size (mem_stat 16 file_volume) +w len [7; 8; 9]) with 6 in H by by vm_compute.
    exact H.
Defined.

Lemma vfs_reads_created_file_witness :
  ∃ s1, Vfs_open demo_path READ (demo_world, demo_vfs) = (s1, Ok 0) ∧
    ∃ s2, Vfs_read 0 [9; 9; 9; 9] s1 = (s2, Ok (3, [1; 2; 3; 9])).
Proof.
  destruct (vfs_reads_created_file demo_drv dir_volume 16 16 (mem_record 5 dir_volume)
    (mem_stat 5 dir_volume) 56 24 272 [] 200 demo_name [1; 2; 3] demo_vfs READ) as (d'&s1&Hc&Ho&Hr).
  - apply demo_disk_ok.
  - apply demo_room.
  - by vm_compute.
  - by vm_compute.
  - by vm_compute.
  - exact dir_volume_directory.
  - intros j Hj. lia.
  - unfold in_use. intros [H|H]; by vm_compute in H.
  - exact (proj1 demo_name_ok).
  - exact (proj2 demo_name_ok).
  - reflexivity.
  - by vm_compute.
  - by repeat constructor.
  - by vm_compute.
  - by vm_compute.
  - by vm_compute.
  - by vm_compute.
  - intros H. apply (bool_decide_eq_true_2 _) in H. by vm_compute in H.
  - done.
  - reflexivity.
  - assert (E : full_volume = d') by (unfold full_volume; by rewrite Hc).
    exists s1. split; [unfold demo_world; rewrite E; exact Ho|]. exact (Hr [9; 9; 9; 9]).
Defined.
