(* ===== verification/Frames.v ===== *)
(** * Physical frames

    [kernel/src/memory/mod.rs] (the frame allocator over the firmware's memory
    map) and [kernel/src/memory/dma_alloc.rs] (DMA buffers made of its frames).

    [frame_of] stands for the [x86_64] crate's
    [PhysFrame::containing_address(PhysAddr::new(addr))]: the start address of
    the frame, or [None] for the panic of [PhysAddr::new] on an address of more
    than 52 bits. [mem] is the byte at a physical address the boot code has
    mapped. *)

From S2P Require Import Prelude Bytes.

Inductive MemoryRegionKind :=
| Mrk_Unknown | Mrk_Usable | Mrk_Reserved | Mrk_AcpiReclaimable | Mrk_AcpiNvs | Mrk_BadMemory
| Mrk_Bootloader | Mrk_FrameBuffer.

#[global] Instance MemoryRegionKind_eq_dec : EqDecision MemoryRegionKind.
Proof. solve_decision. Defined.

Record MemoryRegion := { mr_start : Z; mr_end : Z; mr_kind : MemoryRegionKind }.

Record BootInfoFrameAllocator := { memory_map : list MemoryRegion; fa_next : Z }.

(** ** Reading the memory map *)

Section raw.
Variable mem : Z → Z.

(** [core::ptr::read_unaligned] of an [n]-byte integer. *)
Definition read_unaligned (n a : Z) : Z := from_le (mem <$> seqZ a n).

Definition region_kind (entry_type : Z) : MemoryRegionKind :=
  if entry_type =? 1 then Mrk_Usable else
  if entry_type =? 2 then Mrk_Reserved else
  if entry_type =? 3 then Mrk_AcpiReclaimable else
  if entry_type =? 4 then Mrk_AcpiNvs else
  if entry_type =? 5 then Mrk_BadMemory else Mrk_Unknown.

(** [for i in i..i + n], with the regions written so far. *)
Fixpoint raw_loop (n : nat) (ptr i : Z) (regions : list MemoryRegion) : list MemoryRegion :=
  match n with
  | O => regions
  | S n =>
      let base := read_unaligned 8 (ptr +w i *w 24) in
      let length_ := read_unaligned 8 (ptr +w i *w 24 +w 8) in
      let entry_type := read_unaligned 4 (ptr +w i *w 24 +w 16) in
      if 256 <=? len regions then regions else
      if length_ =? 0 then raw_loop n ptr (i + 1) regions else
      raw_loop n ptr (i + 1)
        (regions ++ [{| mr_start := base; mr_end := base +w length_; mr_kind := region_kind entry_type |}])
  end.

Definition init_from_raw (ptr len_ : Z) : BootInfoFrameAllocator :=
  {| memory_map := raw_loop (Z.to_nat len_) ptr 0 []; fa_next := 0 |}.
End raw.

(** ** Handing out frames *)

Definition ALLOC_START : Z := 0x2000000.

(** [(start..end).step_by(4096)] *)
Definition step_by_page (start end_ : Z) : list Z :=
  (λ i, start + 4096 * i) <$> seqZ 0 ((end_ - start + 4095) / 4096).

Definition region_addrs (r : MemoryRegion) : list Z :=
  let start := Z.max (mr_start r) ALLOC_START in
  if mr_end r <=? start then [] else step_by_page start (mr_end r).

(** The addresses behind [usable_frames], before they become frames. *)
Definition usable_addrs (map : list MemoryRegion) : list Z :=
  mbind region_addrs (filter (λ r, mr_kind r = Mrk_Usable) map).

Section frames.
Variable frame_of : Z → option Z.

(** [iter.map(f).nth(n)] maps every element it passes. *)
Fixpoint nth_mapped {E} (addrs : list Z) (n : nat) : outcome E (option Z) :=
  match addrs with
  | [] => mret None
  | a :: addrs =>
      f ← unwrap (frame_of a);
      match n with O => mret (Some f) | S n => nth_mapped addrs n end
  end.

Definition allocate_frame {E} : st BootInfoFrameAllocator E (option Z) := λ a,
  match nth_mapped (usable_addrs (memory_map a)) (Z.to_nat (fa_next a)) with
  | Ok frame => ({| memory_map := memory_map a; fa_next := fa_next a +w 1 |}, Ok frame)
  | Err e => (a, Err e)
  | Panic => (a, Panic)
  | Diverge => (a, Diverge)
  end.

(** ** DMA buffers *)

Record KernelDmaAllocator := { phys_mem_offset : Z }.
Record DmaBuffer := { db_phys : Z; db_virt : Z; db_size : Z }.

(** The statics: the frame allocator (once it is set) and the tracker. *)
Record DmaState := { FRAME_ALLOC : option BootInfoFrameAllocator; ALLOC_TRACKER : gmap Z Z }.

Definition init_frame_allocator {E} (alloc : BootInfoFrameAllocator) : st DmaState E () := λ s,
  ({| FRAME_ALLOC := Some alloc; ALLOC_TRACKER := ALLOC_TRACKER s |}, Ok ()).

(** [for _ in 0..pages { frames.push(alloc.allocate_frame()?) }]: [None] when
    the frames run out. *)
Fixpoint take_frames {E} (pages : nat) (frames : list Z) : st BootInfoFrameAllocator E (option (list Z)) :=
  match pages with
  | O => mret (Some frames)
  | S pages =>
      frame ← allocate_frame;
      match frame with
      | Some f => take_frames pages (frames ++ [f])
      | None => mret None
      end
  end.

Definition dma_alloc {E} (self : KernelDmaAllocator) (size align : Z) : st DmaState E (option DmaBuffer) :=
  λ s,
  let pages := (size +w 4095) / 4096 in
  match FRAME_ALLOC s with
  | None => (s, Ok None)
  | Some alloc =>
      let '(alloc, r) := take_frames (Z.to_nat pages) [] alloc in
      let s := {| FRAME_ALLOC := Some alloc; ALLOC_TRACKER := ALLOC_TRACKER s |} in
      match r with
      | Ok None => (s, Ok None)
      | Ok (Some frames) =>
          match frames with
          | [] => (s, Panic)
          | base_phys :: _ =>
              ({| FRAME_ALLOC := Some alloc; ALLOC_TRACKER := <[base_phys := pages]> (ALLOC_TRACKER s) |},
               Ok (Some {| db_phys := base_phys; db_virt := base_phys +w phys_mem_offset self;
                           db_size := pages *w 4096 |}))
          end
      | Err e => (s, Err e)
      | Panic => (s, Panic)
      | Diverge => (s, Diverge)
      end
  end.
End frames.
