(* ===== verification/FramesFacts.v ===== *)
(** * What the frame allocator promises

    Frames are handed out once each and lie in usable memory, when the memory
    map is page aligned; what happens when it is not; DMA buffers that span
    regions. *)

From S2P Require Import Prelude Bytes Frames.

(** ** The addresses of a map *)

(** What the sound behaviour relies on: usable regions that start and end on
    page boundaries, below 2^52, and do not overlap. *)
Definition region_ok (r : MemoryRegion) : Prop :=
  0 ≤ mr_start r ∧ mr_start r mod 4096 = 0 ∧ mr_end r mod 4096 = 0 ∧ mr_end r ≤ 2 ^ 52.
Definition apart (r r' : MemoryRegion) : Prop := mr_end r ≤ mr_start r' ∨ mr_end r' ≤ mr_start r.
Definition map_ok (map : list MemoryRegion) : Prop :=
  let usable := filter (λ r, mr_kind r = Mrk_Usable) map in
  Forall region_ok usable ∧ ForallOrdPairs apart usable.

(** The page at [f] lies in a usable region, above the memory of the boot
    loader. *)
Definition usable_page (map : list MemoryRegion) (f : Z) : Prop :=
  f mod 4096 = 0 ∧ ALLOC_START ≤ f ∧
  ∃ r, r ∈ map ∧ mr_kind r = Mrk_Usable ∧ mr_start r ≤ f ∧ f + 4096 ≤ mr_end r.

Lemma elem_of_step_by_page start end_ a :
  a ∈ step_by_page start end_ ↔ ∃ i, a = start + 4096 * i ∧ 0 ≤ i ∧ a < end_.
Proof.
  unfold step_by_page. rewrite list_elem_of_fmap. split.
  - intros (i&->&Hi%elem_of_seqZ). exists i. split; [done|]. dlia.
  - intros (i&->&Hi&Ha). exists i. split; [done|]. apply elem_of_seqZ. dlia.
Qed.

Lemma step_by_page_NoDup start end_ : NoDup (step_by_page start end_).
Proof. apply NoDup_fmap; [intros i j; lia|apply NoDup_seqZ]. Qed.

Lemma elem_of_region_addrs r a :
  region_ok r → a ∈ region_addrs r → a mod 4096 = 0 ∧ ALLOC_START ≤ a ∧ mr_start r ≤ a ∧ a + 4096 ≤ mr_end r.
Proof.
  intros (H0&H1&H2&H3). unfold region_addrs. case_match eqn:Hc; [intros []%elem_of_nil|].
  rewrite elem_of_step_by_page. intros (i&->&Hi&Ha). unfold ALLOC_START in *. dlia.
Qed.

Lemma usable_addrs_page map a : map_ok map → a ∈ usable_addrs map → usable_page map a.
Proof.
  intros [Hok _] (r&Ha&Hr)%list_elem_of_bind.
  rewrite Forall_forall in Hok.
  destruct (elem_of_region_addrs r a) as (?&?&?&?); [by apply Hok|done|].
  apply list_elem_of_filter in Hr as [??]. split_and!; [done..|]. by exists r.
Qed.

Lemma usable_addrs_NoDup map : map_ok map → NoDup (usable_addrs map).
Proof.
  unfold map_ok, usable_addrs. set (rs := filter _ map). clearbody rs. intros [Hok Hap].
  induction Hap as [|r rs Hr _ IH]; [constructor|]. apply Forall_cons in Hok as [Hrok Hok].
  specialize (IH Hok). rewrite Forall_forall in Hok, Hr.
  cbn [mbind list_bind]. apply NoDup_app. split_and!; [| |done].
  - unfold region_addrs. case_match; [constructor|apply step_by_page_NoDup].
  - intros a Ha (r'&Ha'&Hr')%list_elem_of_bind.
    destruct (elem_of_region_addrs r a Hrok Ha) as (_&_&?&?).
    destruct (elem_of_region_addrs r' a) as (_&_&?&?); [by apply Hok|done|].
    destruct (Hr r' Hr'); lia.
Qed.

(** ** The allocator *)

Section frames.
Variable frame_of : Z → option Z.
Hypothesis frame_of_spec : ∀ a, 0 ≤ a < 2 ^ 52 → frame_of a = Some (a / 4096 * 4096).

Lemma nth_mapped_aligned {E} addrs n :
  Forall (λ a, 0 ≤ a < 2 ^ 52 ∧ a mod 4096 = 0) addrs →
  nth_mapped (E:=E) frame_of addrs n = Ok (addrs !! n).
Proof.
  intros H. revert n. induction H as [|a addrs [Ha Hm] _ IH]; intros n; cbn [nth_mapped]; [done|].
  rewrite frame_of_spec by done. cbn [unwrap]. rewrite bind_Ok.
  replace (a / 4096 * 4096) with a by dlia. by destruct n.
Qed.

Lemma usable_addrs_aligned map :
  map_ok map → Forall (λ a, 0 ≤ a < 2 ^ 52 ∧ a mod 4096 = 0) (usable_addrs map).
Proof.
  intros Hok. apply Forall_forall. intros a Ha.
  destruct (usable_addrs_page map a Hok Ha) as (?&?&r&Hr&Hk&?&?).
  destruct Hok as [Hok _]. eapply Forall_forall in Hok; [|apply list_elem_of_filter; done].
  destruct Hok as (?&?&?&?). unfold ALLOC_START in *. lia.
Qed.

Lemma allocate_frame_ok {E} map n :
  map_ok map → is_u64 n →
  allocate_frame (E:=E) frame_of {| memory_map := map; fa_next := n |} =
    ({| memory_map := map; fa_next := n +w 1 |}, Ok (usable_addrs map !! Z.to_nat n)).
Proof.
  intros Hok Hn. unfold allocate_frame. cbn [memory_map fa_next].
  by rewrite nth_mapped_aligned by by apply usable_addrs_aligned.
Qed.

(** [k] calls in a row. *)
Fixpoint allocate_many {E} (k : nat) : st BootInfoFrameAllocator E (list (option Z)) :=
  match k with
  | O => mret []
  | S k => fs ← allocate_many k; f ← allocate_frame frame_of; mret (fs ++ [f])
  end.

Lemma allocate_many_ok {E} map k :
  map_ok map → Z.of_nat k < 2 ^ 64 →
  allocate_many (E:=E) k {| memory_map := map; fa_next := 0 |} =
    ({| memory_map := map; fa_next := Z.of_nat k |}, Ok ((λ i, usable_addrs map !! i) <$> seq 0 k)).
Proof.
  intros Hok. induction k as [|k IH]; intros Hk; [done|]. cbn [allocate_many].
  rewrite (st_bind_Ok _ _ _ _ _ (IH ltac:(lia))).
  rewrite (st_bind_Ok _ _ _ _ _ (allocate_frame_ok map (Z.of_nat k) Hok ltac:(unfold is_u; lia))).
  rewrite wrap_small by lia. rewrite Nat2Z.id, seq_S, fmap_app.
  by replace (Z.of_nat k + 1) with (Z.of_nat (S k)) by lia.
Qed.

Lemma omap_lookup_take {A} (l : list A) k :
  omap (λ o, o) ((λ i, l !! i) <$> seq 0 k) = take k l.
Proof.
  induction k as [|k IH]; [done|]. rewrite seq_S, fmap_app, omap_app, IH. cbn.
  destruct (l !! k) as [x|] eqn:E.
  - by rewrite (take_S_r l k x).
  - rewrite app_nil_r. apply lookup_ge_None in E. by rewrite !take_ge by lia.
Qed.

(** C34: on a page-aligned memory map without overlaps, any number of calls of
    [allocate_frame] hands out the usable pages above 32 MiB in map order,
    each exactly once, each wholly inside a usable region, and then [None]
    for good; no call panics. *)
Theorem frames_once_and_usable map (k : nat) :
  map_ok map → Z.of_nat k < 2 ^ 64 →
  ∃ fs, allocate_many (E:=()) k {| memory_map := map; fa_next := 0 |} =
      ({| memory_map := map; fa_next := Z.of_nat k |}, Ok fs) ∧
    omap (λ o, o) fs = take k (usable_addrs map) ∧
    NoDup (omap (λ o, o) fs) ∧ Forall (usable_page map) (omap (λ o, o) fs) ∧
    ∀ i j, (i ≤ j)%nat → fs !! i = Some None → (j < k)%nat → fs !! j = Some None.
Proof.
  intros Hok Hk. eexists. split; [by apply allocate_many_ok|]. rewrite omap_lookup_take.
  split; [done|]. split_and!.
  - eapply sublist_NoDup; [by apply usable_addrs_NoDup|apply sublist_take].
  - apply Forall_take, Forall_forall. intros a. by apply usable_addrs_page.
  - intros i j Hij Hi Hj. rewrite list_lookup_fmap in *.
    assert (i < k)%nat by lia. assert (j < k)%nat by lia.
    rewrite lookup_seq_lt in * by done. cbn in *. injection Hi as Hi%lookup_ge_None. f_equal.
    apply lookup_ge_None. lia.
Qed.

(** A usable region that does not start on a page boundary gives a frame
    that starts before it: the first address is rounded down to its page, so
    the frame also covers memory in front of the region. *)
Theorem unaligned_region_leaks_frame (s e : Z) :
  ALLOC_START ≤ s < e → e ≤ 2 ^ 52 → s mod 4096 ≠ 0 →
  ∃ a' f, allocate_frame (E:=()) frame_of
      {| memory_map := [{| mr_start := s; mr_end := e; mr_kind := Mrk_Usable |}]; fa_next := 0 |} =
      (a', Ok (Some f)) ∧ f < s < f + 4096.
Proof.
  intros Hs He Hm. unfold allocate_frame. cbn [memory_map fa_next]. unfold usable_addrs.
  rewrite filter_cons, decide_True, filter_nil by done. cbn [mbind list_bind app].
  unfold region_addrs. cbn [mr_start mr_end]. unfold ALLOC_START in *.
  rewrite (proj2 (Z.leb_gt _ _)) by lia. rewrite Z.max_l by lia. unfold step_by_page.
  rewrite seqZ_cons by dlia. cbn [fmap list_fmap app nth_mapped].
  rewrite frame_of_spec by lia. cbn [unwrap]. rewrite bind_Ok. change (Z.to_nat 0) with 0%nat. cbv iota.
  eexists _, _. split; [done|]. dlia.
Qed.

(** ** DMA buffers *)

Lemma take_frames_ok {E} map pages n frames :
  map_ok map → 0 ≤ n → n + Z.of_nat pages < 2 ^ 64 → n + Z.of_nat pages ≤ len (usable_addrs map) →
  take_frames (E:=E) frame_of pages frames {| memory_map := map; fa_next := n |} =
    ({| memory_map := map; fa_next := n + Z.of_nat pages |},
     Ok (Some (frames ++ take pages (drop (Z.to_nat n) (usable_addrs map))))).
Proof.
  intros Hok. revert n frames. induction pages as [|pages IH]; intros n frames Hn Hp Hl; cbn [take_frames].
  - by rewrite take_0, app_nil_r, Z.add_0_r.
  - rewrite (st_bind_Ok _ _ _ _ _ (allocate_frame_ok map n Hok ltac:(unfold is_u; lia))).
    destruct (lookup_lt_is_Some_2 (usable_addrs map) (Z.to_nat n)) as [f Hf]; [lia|]. rewrite Hf.
    rewrite wrap_small, IH by lia. rewrite (drop_S _ f (Z.to_nat n)) by done. cbn [take].
    rewrite <- app_assoc. cbn [app]. replace (Z.to_nat (n + 1)) with (S (Z.to_nat n)) by lia.
    by replace (n + 1 + Z.of_nat pages) with (n + Z.of_nat (S pages)) by lia.
Qed.

(** A DMA allocation that finds all its frames. *)
Lemma dma_alloc_ok {E} self map n tracker size align_ frames base :
  map_ok map → 0 ≤ n → 0 < size < 2 ^ 60 → n < 2 ^ 60 →
  frames = take (Z.to_nat ((size + 4095) / 4096)) (drop (Z.to_nat n) (usable_addrs map)) →
  len frames = (size + 4095) / 4096 → head frames = Some base →
  ∃ s', dma_alloc (E:=E) frame_of self size align_
      {| FRAME_ALLOC := Some {| memory_map := map; fa_next := n |}; ALLOC_TRACKER := tracker |} =
    (s', Ok (Some {| db_phys := base; db_virt := base +w phys_mem_offset self;
                     db_size := (size + 4095) / 4096 * 4096 |})).
Proof.
  intros Hok Hn Hs Hn' Hfr Hlen Hhd. unfold dma_alloc. cbn [FRAME_ALLOC].
  rewrite (wrap_small 64 (size + 4095)) by lia. set (pages := (size + 4095) / 4096) in *.
  assert (Hpg : 1 ≤ pages < 2 ^ 49) by (unfold pages; dlia).
  assert (Hl : n + pages ≤ len (usable_addrs map)).
  { apply (f_equal length) in Hfr. rewrite length_take, length_drop in Hfr. lia. }
  rewrite take_frames_ok by (done || lia). rewrite <- Hfr. cbn [app].
  destruct frames as [|b frames]; [done|]. injection Hhd as ->.
  rewrite (wrap_small 64 (pages * 4096)) by lia. by eexists.
Qed.

(** A DMA buffer is contiguous only by luck: [alloc] collects as many
    frames as it needs and describes them by the address of the first one. When
    the first region has a single frame left, a two-page buffer covers a page
    that lies in no usable region, although the second frame it took is one in
    the next region. *)
Theorem dma_buffer_spans_hole self (a b c : Z) tracker align_ :
  ALLOC_START ≤ a → a mod 4096 = 0 → b mod 4096 = 0 → c mod 4096 = 0 →
  a + 4096 < b → b < c → c ≤ 2 ^ 52 →
  let map := [{| mr_start := a; mr_end := a + 4096; mr_kind := Mrk_Usable |};
              {| mr_start := b; mr_end := c; mr_kind := Mrk_Usable |}] in
  ∃ s' buf, dma_alloc (E:=()) frame_of self 8192 align_
      {| FRAME_ALLOC := Some {| memory_map := map; fa_next := 0 |}; ALLOC_TRACKER := tracker |} =
      (s', Ok (Some buf)) ∧
    db_phys buf = a ∧ db_size buf = 8192 ∧ usable_page map a ∧ ¬ usable_page map (a + 4096).
Proof.
  intros Ha Ham Hbm Hcm Hab Hbc Hc map.
  assert (Hok : map_ok map).
  { unfold map_ok, map. rewrite !filter_cons, !decide_True, filter_nil by done.
    unfold region_ok, ALLOC_START in *.
    split; [by repeat constructor; cbn; dlia|].
    constructor; [constructor; [left; cbn; lia|constructor]|]. constructor; constructor. }
  assert (Hua : ∃ rest, usable_addrs map = a :: b :: rest).
  { unfold usable_addrs, map. rewrite !filter_cons, !decide_True, filter_nil by done.
    cbn [mbind list_bind app]. unfold region_addrs. cbn [mr_start mr_end]. unfold ALLOC_START in *.
    rewrite !(proj2 (Z.leb_gt _ _)), !Z.max_l by lia. unfold step_by_page.
    rewrite !(seqZ_cons 0) by dlia. rewrite (seqZ_nil (Z.succ 0)) by dlia.
    cbn [fmap list_fmap app]. rewrite !Z.mul_0_r, !Z.add_0_r. by eexists. }
  destruct Hua as (rest&Hua).
  destruct (dma_alloc_ok (E:=()) self map 0 tracker 8192 align_ [a; b] a) as (s'&H); try done; try lia.
  { by rewrite Hua. }
  exists s'. eexists. split; [exact H|]. cbn [db_phys db_size]. split_and!; [done|done| |].
  - split_and!; [done|done|]. eexists. split; [by left|]. cbn. split_and!; [done|lia|lia].
  - intros (_&_&r&Hr&_&H1&H2). apply elem_of_cons in Hr as [->|Hr]; [cbn in *; lia|].
    apply list_elem_of_singleton in Hr as ->. cbn in *. lia.
Qed.
End frames.

(** ** Witnesses *)

Definition demo_frame_of (a : Z) : option Z := if a <? 2 ^ 52 then Some (a / 4096 * 4096) else None.
Lemma demo_frame_of_spec a : 0 ≤ a < 2 ^ 52 → demo_frame_of a = Some (a / 4096 * 4096).
Proof. intros. unfold demo_frame_of. by rewrite (proj2 (Z.ltb_lt _ _)) by lia. Qed.

Definition demo_map : list MemoryRegion :=
  [{| mr_start := 0; mr_end := 0x2002000; mr_kind := Mrk_Usable |};
   {| mr_start := 0x2002000; mr_end := 0x2003000; mr_kind := Mrk_Reserved |}].

Lemma frames_once_and_usable_witness :
  ∃ fs, allocate_many (E:=()) demo_frame_of 3 {| memory_map := demo_map; fa_next := 0 |} =
      ({| memory_map := demo_map; fa_next := 3 |}, Ok fs) ∧
    omap (λ o, o) fs = [0x2000000; 0x2001000].
Proof.
  destruct (frames_once_and_usable demo_frame_of demo_frame_of_spec demo_map 3) as (fs&H&Hf&_).
  - split; [repeat constructor; by vm_compute|]. repeat constructor.
  - done.
  - exists fs. split; [exact H|]. rewrite Hf. by vm_compute.
Defined.

Lemma unaligned_region_leaks_frame_witness :
  ∃ a' f, allocate_frame (E:=()) demo_frame_of
      {| memory_map := [{| mr_start := 0x2000010; mr_end := 0x2002000; mr_kind := Mrk_Usable |}];
         fa_next := 0 |} = (a', Ok (Some f)) ∧ f < 0x2000010 < f + 4096.
Proof.
  refine (unaligned_region_leaks_frame demo_frame_of demo_frame_of_spec 0x2000010 0x2002000 _ _ _);
    by vm_compute.
Defined.

Lemma dma_buffer_spans_hole_witness :
  ∃ s' buf, dma_alloc (E:=()) demo_frame_of {| phys_mem_offset := 0 |} 8192 4096
      {| FRAME_ALLOC := Some {| memory_map :=
           [{| mr_start := 0x2000000; mr_end := 0x2000000 + 4096; mr_kind := Mrk_Usable |};
            {| mr_start := 0x2005000; mr_end := 0x2006000; mr_kind := Mrk_Usable |}]; fa_next := 0 |};
         ALLOC_TRACKER := ∅ |} = (s', Ok (Some buf)) ∧ db_phys buf = 0x2000000 ∧ db_size buf = 8192.
Proof.
  destruct (dma_buffer_spans_hole demo_frame_of demo_frame_of_spec {| phys_mem_offset := 0 |}
    0x2000000 0x2005000 0x2006000 ∅ 4096) as (s'&buf&H&Hp&Hs&_); [by vm_compute..|].
  exists s', buf. split; [exact H|]. split; [exact Hp|exact Hs].
Defined.
