(* ===== verification/Heap.v ===== *)
(** * The kernel heap

    [kernel/src/memory/alloc.rs] and [bump.rs] (the bump allocator, the lock
    around an allocator), [memory/types/linked_list] (the free-list allocator)
    and [memory/types/fixed_size_block] (the global allocator).

    An address is a [Z]; the null pointer is 0. Every method holds the lock of
    [Locked<A>] for the whole call, so a call is one step on the allocator's
    state. [x86_align_up] stands for [x86_64::align_up] ([None]: it panics), the
    class [FirstFit] for the heap of the [linked_list_allocator] crate. *)

From S2P Require Import Prelude Bytes.

(** ** [core::alloc::Layout] *)

Record Layout := { ly_size : Z; ly_align : Z }.

#[global] Instance Layout_eq_dec : EqDecision Layout.
Proof. solve_decision. Defined.

Definition isize_MAX : Z := 2 ^ 63 - 1.
Definition is_power_of_two (a : Z) : bool := (0 <? a) && (Z.land a (a - 1) =? 0).

Definition from_size_align (size align : Z) : option Layout :=
  if is_power_of_two align && (size <=? isize_MAX + 1 - align)
  then Some {| ly_size := size; ly_align := align |} else None.
Definition align_to (l : Layout) (align : Z) : option Layout :=
  from_size_align (ly_size l) (Z.max (ly_align l) align).
Definition pad_to_align (l : Layout) : Layout :=
  {| ly_size := (ly_size l + ly_align l - 1) / ly_align l * ly_align l; ly_align := ly_align l |}.

(** [GlobalAlloc]: neither method returns a [Result]. *)
Class GlobalAlloc (A : Type) := {
  alloc : Layout → st A Empty_set Z;
  dealloc : Z → Layout → st A Empty_set ();
}.

Definition ptr_null : Z := 0.

(** ** The bump allocator *)

Module Bump.
Record BumpAllocator := { heap_start : Z; heap_end : Z; next : Z; allocations : Z }.

Definition bump_new : BumpAllocator := {| heap_start := 0; heap_end := 0; next := 0; allocations := 0 |}.

Definition bump_init (start size : Z) (a : BumpAllocator) : BumpAllocator :=
  {| heap_start := start; heap_end := start +w size; next := start; allocations := allocations a |}.

Definition align_up (addr align : Z) : Z :=
  Z.land (addr +w align -w 1) (wrap 64 (Z.lnot (align -w 1))).

Definition bump_alloc (layout : Layout) : st BumpAllocator Empty_set Z := λ bump,
  let alloc_start := align_up (next bump) (ly_align layout) in
  match checked_add64 alloc_start (ly_size layout) with
  | None => (bump, Ok ptr_null)
  | Some alloc_end =>
      if heap_end bump <? alloc_end then (bump, Ok ptr_null)
      else ({| heap_start := heap_start bump; heap_end := heap_end bump; next := alloc_end;
               allocations := allocations bump +w 1 |}, Ok alloc_start)
  end.

Definition bump_dealloc (_ptr : Z) (_layout : Layout) : st BumpAllocator Empty_set () := λ bump,
  let n := allocations bump -w 1 in
  ({| heap_start := heap_start bump; heap_end := heap_end bump;
      next := if n =? 0 then heap_start bump else next bump; allocations := n |}, Ok ()).

#[export] Instance BumpAllocator_GlobalAlloc : GlobalAlloc BumpAllocator :=
  {| alloc := bump_alloc; dealloc := bump_dealloc |}.
End Bump.

(** ** The linked list allocator *)

Module LinkedList.
(** A node lives at the start of the free region it describes; the list is the
    chain that hangs off [head.next]. *)
Record ListNode := { start_addr : Z; node_size : Z }.
Definition end_addr (n : ListNode) : Z := start_addr n +w node_size n.
Definition size_of_ListNode : Z := 16.
Definition align_of_ListNode : Z := 8.

Record LinkedListAllocator := { head : list ListNode }.
Definition ll_new : LinkedListAllocator := {| head := [] |}.

Definition size_align {E} (layout : Layout) : outcome E (Z * Z) :=
  layout ← unwrap (align_to layout align_of_ListNode);
  let layout := pad_to_align layout in
  mret (Z.max (ly_size layout) size_of_ListNode, ly_align layout).

Section alloc.
Variable x86_align_up : Z → Z → option Z.

Definition add_free_region {E} (addr size : Z) : st LinkedListAllocator E () :=
  a ← lift (unwrap (x86_align_up addr align_of_ListNode));
  lift (assert_ (a =? addr));;
  lift (assert_ (size_of_ListNode <=? size));;
  modify (λ self, {| head := {| start_addr := addr; node_size := size |} :: head self |}).

Definition ll_init {E} (heap_start heap_size : Z) : st LinkedListAllocator E () :=
  add_free_region heap_start heap_size.

(** [None] for [Err(())]. *)
Definition alloc_from_region {E} (region : ListNode) (size align : Z) : outcome E (option Z) :=
  alloc_start ← unwrap (x86_align_up (start_addr region) align);
  match checked_add64 alloc_start size with
  | None => mret None
  | Some alloc_end =>
      if end_addr region <? alloc_end then mret None else
      let excess_size := end_addr region -w alloc_end in
      if (0 <? excess_size) && (excess_size <? size_of_ListNode) then mret None
      else mret (Some alloc_start)
  end.

(** The region found, the start of the allocation in it, and the list without
    the region. *)
Fixpoint find_in {E} (nodes : list ListNode) (size align : Z) :
    outcome E (option (ListNode * Z * list ListNode)) :=
  match nodes with
  | [] => mret None
  | region :: nodes =>
      r ← alloc_from_region region size align;
      match r with
      | Some alloc_start => mret (Some (region, alloc_start, nodes))
      | None =>
          r ← find_in nodes size align;
          mret (option_map (λ '(found, alloc_start, rest), (found, alloc_start, region :: rest)) r)
      end
  end.

Definition find_region {E} (size align : Z) : st LinkedListAllocator E (option (ListNode * Z)) := λ self,
  match find_in (head self) size align with
  | Ok (Some (region, alloc_start, rest)) => ({| head := rest |}, Ok (Some (region, alloc_start)))
  | Ok None => (self, Ok None)
  | Err e => (self, Err e)
  | Panic => (self, Panic)
  | Diverge => (self, Diverge)
  end.

Definition ll_alloc (layout : Layout) : st LinkedListAllocator Empty_set Z :=
  '(size, align) ← lift (size_align layout);
  r ← find_region size align;
  match r with
  | Some (region, alloc_start) =>
      alloc_end ← lift (unwrap (checked_add64 alloc_start size));
      let excess_size := end_addr region -w alloc_end in
      (if 0 <? excess_size then add_free_region alloc_end excess_size else mret ());;
      mret alloc_start
  | None => mret ptr_null
  end.

Definition ll_dealloc (ptr : Z) (layout : Layout) : st LinkedListAllocator Empty_set () :=
  '(size, _) ← lift (size_align layout);
  add_free_region ptr size.

#[export] Instance LinkedListAllocator_GlobalAlloc : GlobalAlloc LinkedListAllocator :=
  {| alloc := ll_alloc; dealloc := ll_dealloc |}.
End alloc.
End LinkedList.

(** ** The fixed-size block allocator *)

(** [linked_list_allocator::Heap]: [None] when nothing fits. *)
Class FirstFit (H : Type) := {
  heap_empty : H;
  heap_init : Z → Z → st H Empty_set ();
  allocate_first_fit : Layout → st H Empty_set (option Z);
  deallocate : Z → Layout → st H Empty_set ();
}.

Module FixedSize.
Definition BLOCK_SIZES : list Z := [8; 16; 32; 64; 128; 256; 512; 1024; 2048].

(** [iter().position(..)] *)
Fixpoint position (p : Z → bool) (l : list Z) : option nat :=
  match l with
  | [] => None
  | x :: l => if p x then Some 0%nat else S <$> position p l
  end.

Definition list_index (layout : Layout) : option nat :=
  let required_block_size := Z.max (ly_size layout) (ly_align layout) in
  position (λ s, required_block_size <=? s) BLOCK_SIZES.

(** A [ListNode] is one pointer. *)
Definition fs_size_of_ListNode : Z := 8.
Definition fs_align_of_ListNode : Z := 8.

Section alloc.
Context {H : Type} {heap_first_fit : FirstFit H}.

(** The free blocks of each size, the one at the head of the list first. *)
Record FixedSizeBlockAllocator := { list_heads : list (list Z); fallback_allocator : H }.

Definition fs_new : FixedSizeBlockAllocator :=
  {| list_heads := replicate (length BLOCK_SIZES) []; fallback_allocator := heap_empty |}.

Definition on_fallback {A} (m : st H Empty_set A) : st FixedSizeBlockAllocator Empty_set A := λ self,
  let '(h, r) := m (fallback_allocator self) in
  ({| list_heads := list_heads self; fallback_allocator := h |}, r).

Definition set_head (index : nat) (l : list Z) : st FixedSizeBlockAllocator Empty_set () :=
  modify (λ self,
    {| list_heads := <[index := l]> (list_heads self); fallback_allocator := fallback_allocator self |}).

Definition fs_init (heap_start heap_size : Z) : st FixedSizeBlockAllocator Empty_set () :=
  on_fallback (heap_init heap_start heap_size).

Definition fallback_alloc (layout : Layout) : st H Empty_set Z :=
  r ← allocate_first_fit layout; mret (default ptr_null r).

Definition fs_alloc (layout : Layout) : st FixedSizeBlockAllocator Empty_set Z :=
  match list_index layout with
  | Some index =>
      allocator ← get_st;
      l ← lift (unwrap (list_heads allocator !! index));
      match l with
      | node :: next => set_head index next;; mret node
      | [] =>
          block_size ← lift (unwrap (BLOCK_SIZES !! index));
          layout ← lift (unwrap (from_size_align block_size block_size));
          on_fallback (fallback_alloc layout)
      end
  | None => on_fallback (fallback_alloc layout)
  end.

Definition fs_dealloc (ptr : Z) (layout : Layout) : st FixedSizeBlockAllocator Empty_set () :=
  match list_index layout with
  | Some index =>
      allocator ← get_st;
      l ← lift (unwrap (list_heads allocator !! index));
      block_size ← lift (unwrap (BLOCK_SIZES !! index));
      lift (assert_ (fs_size_of_ListNode <=? block_size));;
      lift (assert_ (fs_align_of_ListNode <=? block_size));;
      set_head index (ptr :: l)
  | None =>
      lift (assert_ (negb (ptr =? ptr_null)));;
      on_fallback (deallocate ptr layout)
  end.

#[export] Instance FixedSizeBlockAllocator_GlobalAlloc : GlobalAlloc FixedSizeBlockAllocator :=
  {| alloc := fs_alloc; dealloc := fs_dealloc |}.
End alloc.
Arguments FixedSizeBlockAllocator : clear implicits.
End FixedSize.
