(* ===== verification/HeapFacts.v ===== *)
(** * What the allocators promise

    The contract of [GlobalAlloc] as a class over the calls of an allocator
    and the live blocks of its client, the soundness that follows from it for
    every sequence of calls, and proofs of the contract for the bump, the
    linked list and (over any first-fit heap that keeps it) the fixed-size
    block allocator. *)

From stdpp Require Import relations.
From S2P Require Import Prelude Bytes Heap.

(** ** The contract *)

(** A layout the client may ask for: [Layout]'s own invariant, a size that is
    not zero, and room for rounding the size up to a multiple of 8. *)
Definition layout_ok (l : Layout) : Prop :=
  (∃ k, 0 ≤ k ∧ ly_align l = 2 ^ k) ∧ 0 < ly_size l ∧ ly_size l + Z.max (ly_align l) 8 ≤ 2 ^ 63.

(** Blocks of [n] bytes at [p] and [m] bytes at [q] do not overlap. *)
Definition apart (p n q m : Z) : Prop := p + n ≤ q ∨ q + m ≤ p.

(** A block for [l] at [p]: aligned, in the heap [lo, hi), apart from the live ones. *)
Definition fresh (lo hi : Z) (live : gmap Z Layout) (p : Z) (l : Layout) : Prop :=
  0 < p ∧ p mod ly_align l = 0 ∧ lo ≤ p ∧ p + ly_size l ≤ hi ∧
  ∀ q l', live !! q = Some l' → apart p (ly_size l) q (ly_size l').

Definition live_ok (lo hi : Z) (live : gmap Z Layout) : Prop :=
  ∀ p l, live !! p = Some l → layout_ok l ∧ fresh lo hi (delete p live) p l.

Section contract.
Context {A : Type} (alloc : Layout → st A Empty_set Z) (dealloc : Z → Layout → st A Empty_set ()).

(** One call of a client that frees only blocks it holds, with their layout. *)
Inductive call : A * gmap Z Layout → A * gmap Z Layout → Prop :=
| call_alloc a live l a' p :
    layout_ok l → alloc l a = (a', Ok p) → p ≠ ptr_null → call (a, live) (a', <[p := l]> live)
| call_alloc_null a live l a' :
    layout_ok l → alloc l a = (a', Ok ptr_null) → call (a, live) (a', live)
| call_dealloc a live p l a' :
    live !! p = Some l → dealloc p l a = (a', Ok ()) → call (a, live) (a', delete p live).

(** The promise: in every run from [a0] the live blocks are aligned, in the
    heap and disjoint, and no allowed call panics. *)
Definition sound (lo hi : Z) (a0 : A) : Prop :=
  ∀ a live, rtc call (a0, ∅) (a, live) →
    live_ok lo hi live ∧
    (∀ l, layout_ok l → ∃ a' p, alloc l a = (a', Ok p)) ∧
    (∀ p l, live !! p = Some l → ∃ a', dealloc p l a = (a', Ok ())).

(** What one call has to keep, for an invariant that relates the allocator to
    the live blocks. *)
Class AllocatorSpec (lo hi : Z) (inv : A → gmap Z Layout → Prop) : Prop := {
  alloc_spec a live l : inv a live → layout_ok l →
    ∃ a' p, alloc l a = (a', Ok p) ∧
      (p = ptr_null ∧ inv a' live ∨ fresh lo hi live p l ∧ inv a' (<[p := l]> live));
  dealloc_spec a live p l : inv a live → live !! p = Some l →
    ∃ a', dealloc p l a = (a', Ok ()) ∧ inv a' (delete p live);
}.
End contract.

Lemma apart_sym p n q m : apart p n q m → apart q m p n.
Proof. unfold apart. lia. Qed.

Lemma live_ok_empty lo hi : live_ok lo hi ∅.
Proof. intros p l. by rewrite lookup_empty. Qed.

Lemma live_ok_delete lo hi live p : live_ok lo hi live → live_ok lo hi (delete p live).
Proof.
  intros Hl q l [Hq H]%lookup_delete_Some. destruct (Hl q l H) as (Hlo&?&?&?&?&Hap).
  split; [done|]. split_and!; [done..|]. intros r l'.
  rewrite delete_delete. intros [_ ?]%lookup_delete_Some. by apply Hap.
Qed.

Lemma fresh_not_live lo hi live p l :
  live_ok lo hi live → layout_ok l → fresh lo hi live p l → live !! p = None.
Proof.
  intros Hl (_&Hs&_) (_&_&_&_&Hap). destruct (live !! p) as [l'|] eqn:E; [|done].
  destruct (Hl p l' E) as ((_&Hs'&_)&_). destruct (Hap p l' E); lia.
Qed.

Lemma live_ok_insert lo hi live p l :
  live_ok lo hi live → layout_ok l → fresh lo hi live p l → live_ok lo hi (<[p := l]> live).
Proof.
  intros Hl Hlo Hf. pose proof (fresh_not_live _ _ _ _ _ Hl Hlo Hf) as Hnone.
  intros q m [[-> <-]|[Hq Hm]]%lookup_insert_Some.
  - by rewrite delete_insert_id.
  - destruct (Hl q m Hm) as (Hmo&?&?&?&?&Hap). split; [done|]. split_and!; [done..|].
    intros r l' [Hr [[-> <-]|[Hr' Hl']]%lookup_insert_Some]%lookup_delete_Some.
    + destruct Hf as (_&_&_&_&Hf). by apply apart_sym, Hf.
    + apply Hap. by apply lookup_delete_Some.
Qed.

(** The contract makes the allocator sound. *)
Section sound.
Context {A : Type} {alloc : Layout → st A Empty_set Z} {dealloc : Z → Layout → st A Empty_set ()}.
Context {lo hi : Z} (inv : A → gmap Z Layout → Prop) {Spec : AllocatorSpec alloc dealloc lo hi inv}.

Lemma spec_reach a0 a live :
  inv a0 ∅ → rtc (call alloc dealloc) (a0, ∅) (a, live) → live_ok lo hi live ∧ inv a live.
Proof using Spec.
  intros H0 Hrun. destruct Spec as [Hal Hde].
  refine (rtc_ind_r (λ s, live_ok lo hi s.2 ∧ inv s.1 s.2) _ _ _ _ Hrun).
  { split; [apply live_ok_empty|done]. }
  clear Hrun a live. intros s1 s2 _ Hc [Hl Hi].
  destruct Hc as [a live l a' p Hlo Ha Hp|a live l a' Hlo Ha|a live p l a' Hp Hd]; cbn [fst snd] in *.
  - destruct (Hal a live l Hi Hlo) as (a1&p1&Ha1&Hcase).
    rewrite Ha in Ha1. injection Ha1 as <- <-. destruct Hcase as [[??]|[Hf Hi']]; [done|].
    split; [by apply live_ok_insert|done].
  - destruct (Hal a live l Hi Hlo) as (a1&p1&Ha1&Hcase).
    rewrite Ha in Ha1. injection Ha1 as <- <-.
    destruct Hcase as [[_ ?]|[(?&_) _]]; [done|unfold ptr_null in *; lia].
  - destruct (Hde a live p l Hi Hp) as (a1&Hd1&Hi').
    rewrite Hd in Hd1. injection Hd1 as <-. split; [by apply live_ok_delete|done].
Qed.

Lemma spec_sound a0 : inv a0 ∅ → sound alloc dealloc lo hi a0.
Proof using Spec.
  intros H0 a live Hrun. destruct (spec_reach a0 a live H0 Hrun) as [Hl Hi].
  destruct Spec as [Hal Hde]. split; [done|]. split.
  - intros l Hlo. destruct (Hal a live l Hi Hlo) as (a'&p&?&_). eauto.
  - intros p l Hp. destruct (Hde a live p l Hi Hp) as (a'&?&_). eauto.
Qed.
End sound.

(** ** Powers of two *)

Lemma layout_align_ok l :
  layout_ok l → ∃ k, 0 ≤ k < 63 ∧ ly_align l = 2 ^ k ∧ 0 < ly_size l ∧ ly_size l + 2 ^ k ≤ 2 ^ 63.
Proof.
  intros ((k&Hk&Ha)&Hs&Hm). rewrite Ha in Hm. exists k. split_and!; [done| |done|done|lia].
  apply (Z.pow_lt_mono_r_iff 2); lia.
Qed.

Lemma pow2_lt k n : 0 ≤ k < n → 0 < 2 ^ k < 2 ^ n.
Proof. intros. split; [by apply Z.pow_pos_nonneg; lia|by apply Z.pow_lt_mono_r; lia]. Qed.

(** [addr] rounded up to a multiple of [a]. *)
Definition round_up (addr a : Z) : Z := (addr + a - 1) / a * a.

Lemma round_up_bounds addr a : 0 < a → addr ≤ round_up addr a < addr + a.
Proof. unfold round_up. intros. dlia. Qed.
Lemma round_up_mod addr a : 0 < a → round_up addr a mod a = 0.
Proof. intros. apply Z.mod_mul. lia. Qed.

(** Clearing the low bits. *)
Lemma land_high_mask x k :
  0 ≤ k ≤ 64 → 0 ≤ x < 2 ^ 64 → Z.land x (wrap 64 (Z.lnot (2 ^ k - 1))) = x / 2 ^ k * 2 ^ k.
Proof.
  intros Hk Hx. rewrite lnot_mask by done.
  rewrite <- !Z.shiftl_mul_pow2, <- Z.shiftr_div_pow2 by lia.
  replace (2 ^ (64 - k) - 1) with (Z.ones (64 - k)) by (rewrite Z.ones_equiv; lia).
  apply Z.bits_inj'. intros n Hn. rewrite Z.land_spec, !Z.shiftl_spec by done.
  destruct (decide (n < k)); [by rewrite !(Z.testbit_neg_r _ (n - k)), andb_false_r by lia|].
  rewrite Z.shiftr_spec, Z.testbit_ones_nonneg by lia.
  replace (n - k + k) with n by lia. destruct (Z.ltb_spec (n - k) (64 - k)); [apply andb_true_r|].
  rewrite (is_u_high 64 x n) by (done || lia). done.
Qed.

Lemma pow2_multiple p j k : 0 ≤ j ≤ k → p mod 2 ^ k = 0 → p mod 2 ^ j = 0.
Proof.
  intros Hj Hp. pose proof (Z.pow_pos_nonneg 2 j). pose proof (Z.pow_pos_nonneg 2 k).
  apply Z.mod_divide in Hp; [|lia]. apply Z.mod_divide; [lia|].
  etrans; [|done]. exists (2 ^ (k - j)). rewrite <- Z.pow_add_r by lia. f_equal. lia.
Qed.
