(* ===== verification/HeapBump.v ===== *)
(** * The bump allocator keeps the contract

    Its soundness for every sequence of calls, the reclaiming of the whole heap
    by the last free, and what its unchecked rounding does at the top of the
    address space. *)

From stdpp Require Import relations.
From S2P Require Import Prelude Bytes Heap HeapFacts.

Import Bump.

Lemma align_up_round addr k :
  0 ≤ k ≤ 63 → 0 ≤ addr → addr + 2 ^ k - 1 < 2 ^ 64 → align_up addr (2 ^ k) = round_up addr (2 ^ k).
Proof.
  intros Hk Ha Hs. pose proof (pow2_lt k 64).
  unfold align_up, round_up. rewrite (wrap_small 64 (2 ^ k - 1)) by lia.
  assert (wrap 64 (wrap 64 (addr + 2 ^ k) - 1) = addr + 2 ^ k - 1) as ->.
  { unfold wrap. rewrite Zminus_mod_idemp_l. by rewrite Z.mod_small by lia. }
  by rewrite land_high_mask by lia.
Qed.

Section heap.
Variables lo hi : Z.
Hypothesis heap_range : 0 < lo ≤ hi ∧ hi ≤ 2 ^ 63.

(** Live blocks end below [next]; there are as many as [allocations]; without
    any, [next] is back at the start. *)
Definition bump_inv (b : BumpAllocator) (live : gmap Z Layout) : Prop :=
  heap_start b = lo ∧ heap_end b = hi ∧ lo ≤ next b ≤ hi ∧ allocations b = Z.of_nat (size live) ∧
  Z.of_nat (size live) ≤ next b - lo ∧
  (live = ∅ → next b = lo) ∧ ∀ p l, live !! p = Some l → 0 < ly_size l ∧ p + ly_size l ≤ next b.

(** Whether a block fits behind [next], and what the call then does. *)
Lemma bump_alloc_eq b l k :
  0 ≤ next b ≤ 2 ^ 63 → heap_end b = hi → 0 ≤ k < 63 → ly_align l = 2 ^ k → 0 < ly_size l →
  bump_alloc l b =
    let p := round_up (next b) (2 ^ k) in
    if decide (p + ly_size l ≤ hi)
    then ({| heap_start := heap_start b; heap_end := heap_end b; next := p + ly_size l;
             allocations := allocations b +w 1 |}, Ok p)
    else (b, Ok ptr_null).
Proof using heap_range.
  intros Hn He Hk Ha Hs. unfold bump_alloc. pose proof (pow2_lt k 63 Hk).
  rewrite Ha, align_up_round by lia. cbv zeta. unfold checked_add64.
  case_decide as Hd.
  - rewrite (proj2 (Z.ltb_lt _ (2 ^ 64))) by lia. by rewrite He, (proj2 (Z.ltb_ge _ _)) by lia.
  - destruct (_ <? 2 ^ 64); [|done]. by rewrite He, (proj2 (Z.ltb_lt _ _)) by lia.
Qed.

#[export] Instance bump_spec : AllocatorSpec bump_alloc bump_dealloc lo hi bump_inv.
Proof using heap_range.
  split.
  - intros b live l Hinv Hlo. pose proof Hinv as (Hs&He&Hn&Ha&Hsz&Hemp&Hl).
    destruct (layout_align_ok l Hlo) as (k&Hk&Hal&Hls&_). pose proof (pow2_lt k 63 Hk).
    rewrite (bump_alloc_eq b l k) by (done || lia). cbv zeta.
    pose proof (round_up_bounds (next b) (2 ^ k)) as Hr. case_decide as Hfit.
    + eexists _, _. split; [done|]. right.
      assert (Hap : ∀ q l', live !! q = Some l' →
        apart (round_up (next b) (2 ^ k)) (ly_size l) q (ly_size l')).
      { intros q l' [??]%Hl. right. lia. }
      assert (Hnone : live !! round_up (next b) (2 ^ k) = None).
      { apply eq_None_not_Some. intros [l' H']. destruct (Hl _ _ H'). destruct (Hap _ _ H'); lia. }
      split; [split_and!; [lia|rewrite Hal; apply round_up_mod; lia|lia|done|exact Hap]|].
      unfold bump_inv. cbn [heap_start heap_end next allocations].
      rewrite map_size_insert_None, Nat2Z.inj_succ, wrap_small by (done || lia).
      split_and!; try done; try lia.
      * intros He'. exfalso. exact (insert_non_empty _ _ _ He').
      * intros q l' [[<- <-]|[_ ?%Hl]]%lookup_insert_Some; lia.
    + eexists _, _. split; [done|]. left. by split.
  - intros b live p l (Hs&He&Hn&Ha&Hsz&Hemp&Hl) Hp. eexists. split; [done|].
    assert (Hd : size live = S (size (delete p live))).
    { rewrite <- (insert_delete_id live p l) at 1 by done. apply map_size_insert_None, lookup_delete_eq. }
    unfold bump_inv. cbn [heap_start heap_end next allocations].
    rewrite Ha, wrap_small by lia.
    replace (Z.of_nat (size live) - 1) with (Z.of_nat (size (delete p live))) by lia.
    destruct (decide (delete p live = ∅)) as [E|E].
    + rewrite E, map_size_empty. change (Z.of_nat 0 =? 0) with true. cbv iota. split_and!; done || lia.
    + assert (size (delete p live) ≠ 0%nat) by by rewrite map_size_empty_iff.
      rewrite (proj2 (Z.eqb_neq _ _)) by lia. split_and!; [done|done|lia|lia|done|lia|done|].
      intros q l' [_ ?]%lookup_delete_Some. by apply Hl.
Qed.

(** In every run of a client that frees what it holds, the blocks the bump
    allocator has handed out are aligned, inside the heap and disjoint, and no
    call panics; whenever the client holds nothing, the allocator is back in
    its initial state, with the whole heap free. *)
Theorem bump_sound :
  let b0 := bump_init lo (hi - lo) bump_new in
  sound bump_alloc bump_dealloc lo hi b0 ∧
  ∀ b, rtc (call bump_alloc bump_dealloc) (b0, ∅) (b, ∅) → b = b0.
Proof using heap_range.
  intros b0. assert (Hb0 : b0 = {| heap_start := lo; heap_end := hi; next := lo; allocations := 0 |}).
  { unfold b0, bump_init. rewrite wrap_small by lia. f_equal. lia. }
  assert (H0 : bump_inv b0 ∅).
  { rewrite Hb0. unfold bump_inv. rewrite map_size_empty.
    split_and!; first [done|cbn; lia|intros p l; by rewrite lookup_empty]. }
  split; [by apply (spec_sound bump_inv)|].
  intros b Hrun. destruct (spec_reach bump_inv b0 b ∅ H0 Hrun) as [_ (Hs&He&_&Ha&_&Hemp&_)].
  rewrite Hb0. destruct b as [s e n a]. cbn in *. rewrite Hs, He, Ha, (Hemp eq_refl). done.
Qed.
End heap.

(** The rounding of [align_up] wraps around: asked for an alignment it cannot
    reach below 2^64, it answers 0, and a heap that ends near the top of the
    address space hands out the addresses below its own start. *)
Lemma align_up_wraps addr k :
  0 ≤ k ≤ 63 → 2 ^ 64 - 2 ^ k < addr < 2 ^ 64 → align_up addr (2 ^ k) = 0.
Proof.
  intros Hk Ha. pose proof (pow2_lt k 64). unfold align_up.
  rewrite (wrap_small 64 (2 ^ k - 1)) by lia.
  assert (wrap 64 (wrap 64 (addr + 2 ^ k) - 1) = addr + 2 ^ k - 1 - 2 ^ 64) as ->.
  { unfold wrap. rewrite Zminus_mod_idemp_l. symmetry. apply Z.mod_unique with (q := 1); lia. }
  rewrite land_high_mask by lia. rewrite Z.div_small; lia.
Qed.

Lemma bump_sound_witness :
  let b0 := bump_init 0x2000000 0x1000000 bump_new in
  sound bump_alloc bump_dealloc 0x2000000 0x3000000 b0 ∧
  (bump_alloc {| ly_size := 24; ly_align := 4096 |} b0).2 = Ok 0x2000000.
Proof.
  split; [|by vm_compute].
  exact (proj1 (bump_sound 0x2000000 0x3000000 ltac:(by vm_compute))).
Defined.
