(* ===== verification/HeapLinked.v ===== *)
(** * The linked list allocator keeps the contract

    Free nodes and live blocks together never overlap: the allocator's moves
    are permutations of that collection and splits of one of its members.
    Memory is lost in one way only, by the alignment padding in front of a
    block. *)

From stdpp Require Import relations.
From S2P Require Import Prelude Bytes Heap HeapFacts.

Import LinkedList.

(** ** Collections of disjoint nodes *)

Lemma FOP_perm {A} (R : A → A → Prop) (l l' : list A) :
  (∀ x y, R x y → R y x) → l ≡ₚ l' → ForallOrdPairs R l → ForallOrdPairs R l'.
Proof.
  intros Hs. induction 1 as [|x l l' Hp IH|x y l|l1 l2 l3 _ IH1 _ IH2]; intros H.
  - done.
  - inversion H; subst. constructor; [by rewrite <- Hp|by apply IH].
  - inversion H as [|? ? Hy Hl]; subst. inversion Hl as [|? ? Hx Hl']; subst.
    apply Forall_cons in Hy as [Hyx Hy]. repeat constructor; auto.
  - auto.
Qed.

Definition napart (n m : ListNode) : Prop := apart (start_addr n) (node_size n) (start_addr m) (node_size m).

Section heap.
Variables lo hi : Z.
Hypothesis heap_range : 0 < lo ∧ hi ≤ 2 ^ 63.

Definition node_ok (n : ListNode) : Prop :=
  lo ≤ start_addr n ∧ start_addr n mod 8 = 0 ∧ 16 ≤ node_size n ∧ start_addr n + node_size n ≤ hi.

(** Nodes in the heap that do not overlap. *)
Definition nodes_ok (L : list ListNode) : Prop := Forall node_ok L ∧ ForallOrdPairs napart L.

#[global] Instance nodes_ok_proper : Proper ((≡ₚ) ==> iff) nodes_ok.
Proof.
  assert (H : ∀ l l', l ≡ₚ l' → nodes_ok l → nodes_ok l').
  { intros l l' Hp [Hok Hap]. split; [by rewrite <- Hp|].
    eapply FOP_perm; [|done..]. intros x y. apply apart_sym. }
  intros l l' Hp. split; by apply H.
Qed.

(** [m] is a part of [n]. *)
Definition part (m n : ListNode) : Prop :=
  start_addr n ≤ start_addr m ∧ start_addr m + node_size m ≤ start_addr n + node_size n.

Lemma napart_part m n x : part m n → napart n x → napart m x.
Proof. unfold part, napart, apart. lia. Qed.

(** A node may be replaced by disjoint parts of it. *)
Lemma nodes_ok_shrink n m L : node_ok m → part m n → nodes_ok (n :: L) → nodes_ok (m :: L).
Proof.
  intros Hm Hp [[Hn HL]%Forall_cons Hap]. inversion Hap as [|? ? Hx HLa]; subst.
  split; [by constructor|]. constructor; [|done]. eapply Forall_impl; [exact Hx|].
  intros x. by apply napart_part.
Qed.

Lemma nodes_ok_split n m m' L :
  node_ok m → node_ok m' → part m n → part m' n → napart m m' → nodes_ok (n :: L) → nodes_ok (m' :: m :: L).
Proof.
  intros Hm Hm' Hp Hp' Hap Hok. pose proof (nodes_ok_shrink n m L Hm Hp Hok) as [Hall Hf].
  destruct Hok as [_ Hok]. inversion Hok as [|? ? Hx _]; subst.
  split; [by constructor|]. constructor; [|done]. constructor; [by apply apart_sym|].
  eapply Forall_impl; [exact Hx|]. intros x. by apply napart_part.
Qed.

(** ** The layout adjustment *)

(** The size and the alignment a layout is served with. *)
Definition served_align (l : Layout) : Z := Z.max (ly_align l) 8.
Definition served_size (l : Layout) : Z := Z.max (round_up (ly_size l) (served_align l)) 16.

Lemma is_power_of_two_pow k : 0 ≤ k → is_power_of_two (2 ^ k) = true.
Proof.
  intros Hk. unfold is_power_of_two. pose proof (Z.pow_pos_nonneg 2 k).
  rewrite (proj2 (Z.ltb_lt _ _)) by lia. replace (2 ^ k - 1) with (Z.ones k) by (rewrite Z.ones_equiv; lia).
  rewrite Z.land_ones by done. by rewrite Z_mod_same_full.
Qed.

Lemma served_align_pow l : layout_ok l → ∃ k, 3 ≤ k < 63 ∧ served_align l = 2 ^ k ∧ ly_size l + 2 ^ k ≤ 2 ^ 63.
Proof.
  intros Hl. destruct (layout_align_ok l Hl) as (k&Hk&Ha&Hs&Hm). unfold served_align. rewrite Ha.
  destruct Hl as (_&_&H8). rewrite Ha in H8.
  destruct (decide (k < 3)).
  - pose proof (pow2_lt k 3). exists 3. change (2 ^ 3) with 8 in *. split_and!; lia.
  - pose proof (Z.pow_le_mono_r 2 3 k). change (2 ^ 3) with 8 in *. exists k. split_and!; lia.
Qed.

Lemma size_align_ok {E} l : layout_ok l → size_align (E:=E) l = Ok (served_size l, served_align l).
Proof.
  intros Hl. destruct (served_align_pow l Hl) as (k&Hk&Ha&Hm).
  unfold size_align, align_to, from_size_align. change align_of_ListNode with 8.
  change (Z.max (ly_align l) 8) with (served_align l). rewrite Ha, is_power_of_two_pow by lia.
  unfold isize_MAX. rewrite (proj2 (Z.leb_le _ _)) by lia. cbn. unfold served_size. by rewrite Ha.
Qed.

Lemma served_size_ok l :
  layout_ok l → ly_size l ≤ served_size l ∧ 16 ≤ served_size l ≤ 2 ^ 63 ∧ served_size l mod 8 = 0.
Proof.
  intros Hl. destruct (served_align_pow l Hl) as (k&Hk&Ha&Hm). unfold served_size. rewrite Ha.
  pose proof (pow2_lt k 63). pose proof (round_up_bounds (ly_size l) (2 ^ k)).
  destruct Hl as (_&?&_). split_and!; [lia|lia|lia|].
  destruct (Z.max_spec (round_up (ly_size l) (2 ^ k)) 16) as [[_ ->]|[_ ->]]; [done|].
  apply (pow2_multiple _ 3 k); [lia|]. apply round_up_mod. lia.
Qed.

(** Larger sizes, which [Layout] itself allows, panic instead of returning null. *)
Lemma size_align_panics {E} (l : Layout) :
  0 < ly_align l < 8 → 2 ^ 63 - 8 < ly_size l → size_align (E:=E) l = Panic.
Proof.
  intros Ha Hs. unfold size_align, align_to, from_size_align. change align_of_ListNode with 8.
  rewrite Z.max_r by lia. unfold isize_MAX. rewrite (proj2 (Z.leb_gt _ _)) by lia. by rewrite andb_false_r.
Qed.

(** ** The calls *)

Variable x86_align_up : Z → Z → option Z.
(** [x86_64::align_up] rounds up to the power of two when the result fits. *)
Hypothesis x86_align_up_spec : ∀ a k, 0 ≤ k < 64 → 0 ≤ a →
  round_up a (2 ^ k) < 2 ^ 64 → x86_align_up a (2 ^ k) = Some (round_up a (2 ^ k)).

Lemma round_up_id a b : 0 < b → a mod b = 0 → round_up a b = a.
Proof.
  unfold round_up. intros Hb [q ->]%Z.mod_divide; [|lia]. f_equal. symmetry.
  apply Z.div_unique with (r := b - 1); lia.
Qed.

Lemma add_free_region_ok {E} addr size self :
  node_ok {| start_addr := addr; node_size := size |} →
  add_free_region (E:=E) x86_align_up addr size self =
    ({| head := {| start_addr := addr; node_size := size |} :: head self |}, Ok ()).
Proof using heap_range x86_align_up_spec.
  intros (H1&H2&H3&H4). cbn in *. unfold add_free_region. change align_of_ListNode with (2 ^ 3).
  assert (Hr : round_up addr (2 ^ 3) = addr) by by apply round_up_id.
  rewrite x86_align_up_spec by lia. rewrite Hr. cbn [unwrap]. rewrite bind_lift_Ok, Z.eqb_refl. cbn [assert_]. rewrite bind_lift_Ok.
  unfold size_of_ListNode. rewrite (proj2 (Z.leb_le _ _)) by lia. done.
Qed.

(** Where an allocation would start in a region, and whether it may be taken
    from it: it fits and leaves nothing or room for a node. *)
Definition fits (n : ListNode) (size align : Z) : Prop :=
  let s := round_up (start_addr n) align in
  let e := start_addr n + node_size n in
  s + size ≤ e ∧ (s + size = e ∨ s + size + 16 ≤ e).
#[global] Instance fits_dec n size align : Decision (fits n size align).
Proof. unfold fits. apply _. Defined.

Lemma end_addr_ok n : node_ok n → end_addr n = start_addr n + node_size n.
Proof using heap_range. intros (?&_&?&?). unfold end_addr. apply wrap_small. lia. Qed.

Lemma alloc_from_region_ok {E} n size k :
  node_ok n → 3 ≤ k < 63 → 16 ≤ size ≤ 2 ^ 63 →
  alloc_from_region (E:=E) x86_align_up n size (2 ^ k) =
    Ok (if decide (fits n size (2 ^ k)) then Some (round_up (start_addr n) (2 ^ k)) else None).
Proof using heap_range x86_align_up_spec.
  intros Hn Hk Hs. pose proof (pow2_lt k 63 ltac:(lia)). pose proof Hn as (?&?&?&?).
  pose proof (round_up_bounds (start_addr n) (2 ^ k)). unfold alloc_from_region.
  rewrite x86_align_up_spec by lia. cbn [unwrap]. rewrite bind_Ok. unfold checked_add64, fits.
  rewrite end_addr_ok by done. set (s := round_up (start_addr n) (2 ^ k)) in *. cbv zeta.
  destruct (Z.ltb_spec (s + size) (2 ^ 64)); [|by rewrite decide_False by lia].
  destruct (Z.ltb_spec (start_addr n + node_size n) (s + size)); [by rewrite decide_False by lia|].
  rewrite wrap_small by lia. unfold size_of_ListNode.
  destruct (Z.ltb_spec 0 (start_addr n + node_size n - (s + size)));
    destruct (Z.ltb_spec (start_addr n + node_size n - (s + size)) 16); cbn [andb];
    first [by rewrite decide_True by lia|by rewrite decide_False by lia].
Qed.

(** First fit: the first region that fits is taken out; none does when the
    search fails. *)
Lemma find_in_ok {E} nodes size k :
  Forall node_ok nodes → 3 ≤ k < 63 → 16 ≤ size ≤ 2 ^ 63 →
  (find_in (E:=E) x86_align_up nodes size (2 ^ k) = Ok None ∧ Forall (λ n, ¬ fits n size (2 ^ k)) nodes) ∨
  (∃ before n after, nodes = before ++ n :: after ∧ fits n size (2 ^ k) ∧
     Forall (λ n, ¬ fits n size (2 ^ k)) before ∧
     find_in (E:=E) x86_align_up nodes size (2 ^ k) =
       Ok (Some (n, round_up (start_addr n) (2 ^ k), before ++ after))).
Proof using heap_range x86_align_up_spec.
  intros Hok Hk Hs. induction Hok as [|n nodes Hn Hok IH]; cbn [find_in]; [by left|].
  rewrite alloc_from_region_ok by done. rewrite bind_Ok. case_decide as Hfit.
  { right. by exists [], n, nodes. }
  destruct IH as [[-> IH]|(before&m&after&->&Hm&Hb&->)].
  - left. rewrite bind_Ok. split; [done|by constructor].
  - right. rewrite bind_Ok. exists (n :: before), m, after. split_and!; [done|done|by constructor|done].
Qed.

(** What a call of [alloc] does. *)
Definition rest_of (n : ListNode) (p size : Z) : list ListNode :=
  if decide (p + size = start_addr n + node_size n) then []
  else [{| start_addr := p + size; node_size := start_addr n + node_size n - (p + size) |}].

Lemma ll_alloc_ok l self :
  layout_ok l → Forall node_ok (head self) →
  (ll_alloc x86_align_up l self = (self, Ok ptr_null) ∧
   Forall (λ n, ¬ fits n (served_size l) (served_align l)) (head self)) ∨
  (∃ before n after p, head self = before ++ n :: after ∧ fits n (served_size l) (served_align l) ∧
     p = round_up (start_addr n) (served_align l) ∧
     ll_alloc x86_align_up l self = ({| head := rest_of n p (served_size l) ++ before ++ after |}, Ok p)).
Proof using heap_range x86_align_up_spec.
  intros Hl Hok. pose proof (served_size_ok l Hl) as (_&Hs&Hs8).
  destruct (served_align_pow l Hl) as (k&Hk&Ha&_). pose proof (pow2_lt k 63 ltac:(lia)).
  unfold ll_alloc. rewrite size_align_ok by done. rewrite bind_lift_Ok, Ha.
  destruct (find_in_ok (E:=Empty_set) (head self) (served_size l) k Hok Hk Hs)
    as [[Hf Hno]|(before&n&after&Heq&Hfit&_&Hf)].
  - left. split; [|done]. rewrite st_bind_unfold. unfold find_region. by rewrite Hf.
  - right. exists before, n, after, (round_up (start_addr n) (2 ^ k)). split_and!; [done|done|done|].
    rewrite st_bind_unfold. unfold find_region. rewrite Hf.
    rewrite Heq in Hok. apply Forall_app in Hok as [_ [Hn _]%Forall_cons].
    pose proof Hn as (?&?&?&?). pose proof (round_up_bounds (start_addr n) (2 ^ k)).
    destruct Hfit as [Hle Hor]. unfold rest_of. set (p := round_up (start_addr n) (2 ^ k)) in *.
    unfold checked_add64. rewrite (proj2 (Z.ltb_lt _ _)) by lia. cbn [unwrap]. rewrite bind_lift_Ok.
    rewrite end_addr_ok by done. rewrite wrap_small by lia. cbv zeta. case_decide as Hd.
    + rewrite (proj2 (Z.ltb_ge _ _)) by lia. done.
    + rewrite (proj2 (Z.ltb_lt _ _)) by lia. rewrite st_bind_unfold.
      rewrite add_free_region_ok; [done|]. split_and!; cbn; [lia| |lia|lia].
      assert (p mod 8 = 0).
      { apply (pow2_multiple _ 3 k); [lia|]. apply round_up_mod. lia. }
      dlia.
Qed.

(** ** The contract *)

Definition block (p : Z) (l : Layout) : ListNode := {| start_addr := p; node_size := served_size l |}.
Definition blocks (live : gmap Z Layout) : list ListNode := (λ '(p, l), block p l) <$> map_to_list live.

Lemma blocks_insert live p l : live !! p = None → blocks (<[p := l]> live) ≡ₚ block p l :: blocks live.
Proof. intros H. unfold blocks. by rewrite map_to_list_insert. Qed.

Lemma blocks_delete live p l : live !! p = Some l → blocks live ≡ₚ block p l :: blocks (delete p live).
Proof. intros H. unfold blocks. by rewrite <- (map_to_list_delete live p l). Qed.

Lemma elem_of_blocks live p l : live !! p = Some l → block p l ∈ blocks live.
Proof. intros H%elem_of_map_to_list. unfold blocks. apply list_elem_of_fmap. by exists (p, l). Qed.

Definition ll_inv (self : LinkedListAllocator) (live : gmap Z Layout) : Prop :=
  nodes_ok (head self ++ blocks live) ∧ ∀ p l, live !! p = Some l → layout_ok l.

(** A node served from a region stays within it, and so does what is left. *)
Lemma carve n l L (p := round_up (start_addr n) (served_align l)) :
  layout_ok l → fits n (served_size l) (served_align l) → nodes_ok (n :: L) →
  part (block p l) n ∧ p mod ly_align l = 0 ∧ nodes_ok (block p l :: rest_of n p (served_size l) ++ L).
Proof using heap_range.
  intros Hl Hfit Hok. pose proof (served_size_ok l Hl) as (_&Hs&Hs8).
  destruct (served_align_pow l Hl) as (k&Hk&Ha&_). pose proof (pow2_lt k 63 ltac:(lia)) as Hpk.
  pose proof (round_up_bounds (start_addr n) (2 ^ k) ltac:(lia)) as Hb.
  pose proof (round_up_mod (start_addr n) (2 ^ k) ltac:(lia)) as Hpm.
  pose proof Hok as [[Hn _]%Forall_cons _]. pose proof Hn as (?&?&?&?).
  unfold fits in Hfit. subst p. rewrite Ha in *. set (p := round_up (start_addr n) (2 ^ k)) in *.
  destruct Hfit as [Hle Hor]. assert (Hp8 : p mod 8 = 0) by (apply (pow2_multiple _ 3 k); [lia|done]).
  assert (Hm : node_ok (block p l)) by (split_and!; cbn; (done || lia)).
  assert (Hpart : part (block p l) n) by (split; cbn; lia).
  split_and!; [done| |].
  - destruct (layout_align_ok l Hl) as (j&Hj&Hal&_). rewrite Hal. apply (pow2_multiple _ j k); [|done].
    split; [lia|]. apply (Z.pow_le_mono_r_iff 2); [lia..|]. rewrite <- Hal, <- Ha. unfold served_align. lia.
  - unfold rest_of. case_decide; [by apply (nodes_ok_shrink n)|]. cbn [app].
    rewrite (Permutation_swap _ _ L). apply (nodes_ok_split n); try done; try (split; cbn; lia).
    + split_and!; cbn; [lia| |lia|lia]. dlia.
    + left. cbn. lia.
Qed.

#[export] Instance linked_list_spec :
  AllocatorSpec (ll_alloc x86_align_up) (ll_dealloc x86_align_up) lo hi ll_inv.
Proof using heap_range x86_align_up_spec.
  split.
  - intros self live l [Hok Hlo] Hl. pose proof Hok as [[Hhd _]%Forall_app _].
    destruct (ll_alloc_ok l self Hl Hhd) as [[-> _]|(before&n&after&p&Heq&Hfit&->&->)].
    { eexists _, _. split; [done|]. by left. }
    eexists _, _. split; [done|]. right. set (p := round_up _ _).
    assert (Hperm : head self ++ blocks live ≡ₚ n :: (before ++ after) ++ blocks live).
    { rewrite Heq. by rewrite <- Permutation_middle. }
    rewrite Hperm in Hok. destruct (carve n l _ Hl Hfit Hok) as ([Hp1 Hp2]&Hpm&Hok'). fold p in Hp1, Hp2, Hpm, Hok'.
    pose proof Hok' as [[(Hb1&_&_&Hb4) _]%Forall_cons _]. cbn in Hp1, Hp2, Hb1, Hb4.
    pose proof (served_size_ok l Hl) as (Hsz&_&_).
    assert (Hf : fresh lo hi live p l).
    { split_and!; [lia|done|lia|lia|]. intros q l' Hq. destruct Hok as [_ Hok].
      inversion Hok as [|? ? Hx _]; subst. apply Forall_app in Hx as [_ Hx]. rewrite Forall_forall in Hx.
      pose proof (Hx _ (elem_of_blocks live q l' Hq)) as Hq'.
      pose proof (served_size_ok l' (Hlo q l' Hq)) as (?&_&_).
      unfold napart, apart in *. cbn in Hq'. lia. }
    split; [done|]. assert (Hnone : live !! p = None).
    { apply eq_None_not_Some. intros [l' Hp]. destruct Hf as (_&_&_&_&Hf). specialize (Hf _ _ Hp).
      destruct (Hlo _ _ Hp) as (_&?&_). destruct Hl as (_&?&_). unfold apart in Hf. lia. }
    split.
    + cbn [head]. rewrite blocks_insert by done. rewrite <- Permutation_middle, <- app_assoc. exact Hok'.
    + intros q l' [[_ <-]|[_ ?%Hlo]]%lookup_insert_Some; done.
  - intros self live p l [Hok Hlo] Hp. unfold ll_dealloc. rewrite size_align_ok by by apply (Hlo p).
    rewrite bind_lift_Ok. rewrite blocks_delete, <- Permutation_middle in Hok by done.
    rewrite add_free_region_ok by (by destruct Hok as [[??]%Forall_cons _]).
    eexists. split; [done|]. split; [exact Hok|]. intros q l' [_ ?]%lookup_delete_Some. by apply (Hlo q).
Qed.


(** The bytes on the free list. *)
Fixpoint free_bytes (nodes : list ListNode) : Z :=
  match nodes with [] => 0 | n :: nodes => node_size n + free_bytes nodes end.

Lemma free_bytes_app a b : free_bytes (a ++ b) = free_bytes a + free_bytes b.
Proof. induction a; cbn; lia. Qed.

(** Allocating a block and freeing it again loses memory: the bytes between
    the start of the region it was cut from and its aligned start are on no
    list afterwards, and nothing ever brings them back. *)
Theorem linked_list_leaks_padding self l s1 p s2 :
  Forall node_ok (head self) → layout_ok l →
  ll_alloc x86_align_up l self = (s1, Ok p) → p ≠ ptr_null →
  ll_dealloc x86_align_up p l s1 = (s2, Ok ()) →
  ∃ n, n ∈ head self ∧ p = round_up (start_addr n) (served_align l) ∧
    free_bytes (head s2) = free_bytes (head self) - (p - start_addr n).
Proof using heap_range x86_align_up_spec.
  intros Hok Hl Ha Hp Hd.
  destruct (ll_alloc_ok l self Hl Hok) as [[Hn _]|(before&n&after&q&Heq&Hfit&Hq&Ha')].
  { rewrite Ha in Hn. by injection Hn as _ ->. }
  rewrite Ha in Ha'. injection Ha' as -> <-. exists n.
  split; [rewrite Heq; apply elem_of_app; right; by left|]. split; [done|].
  unfold ll_dealloc in Hd. rewrite size_align_ok, bind_lift_Ok in Hd by done.
  assert (Hb : node_ok {| start_addr := p; node_size := served_size l |}).
  { rewrite Heq in Hok. apply Forall_app in Hok as [_ [Hn _]%Forall_cons].
    destruct (carve n l [] Hl Hfit) as (_&_&[[? _]%Forall_cons _]); [|by rewrite Hq].
    split; [by constructor|by repeat constructor]. }
  rewrite add_free_region_ok in Hd by done. injection Hd as <-. rewrite Heq. cbn [head free_bytes].
  rewrite !free_bytes_app. cbn [free_bytes]. unfold rest_of. case_decide; cbn; lia.
Qed.
End heap.

(** ** A concrete heap *)

(** [x86_64::align_up], as far as the contract fixes it. *)
Definition demo_align_up (addr align : Z) : option Z :=
  if round_up addr align <? 2 ^ 64 then Some (round_up addr align) else None.

Lemma demo_align_up_spec a k :
  0 ≤ k < 64 → 0 ≤ a → round_up a (2 ^ k) < 2 ^ 64 → demo_align_up a (2 ^ k) = Some (round_up a (2 ^ k)).
Proof. intros. unfold demo_align_up. by rewrite (proj2 (Z.ltb_lt _ _)) by lia. Qed.

Lemma demo_layout_ok size k :
  0 ≤ k ≤ 20 → 0 < size ≤ 2 ^ 20 → layout_ok {| ly_size := size; ly_align := 2 ^ k |}.
Proof.
  intros Hk Hs. pose proof (pow2_lt k 21). split_and!; [exists k; cbn; lia|cbn; lia|cbn; lia].
Qed.


(** A page-aligned block cut from a region that starts 16 bytes behind a page
    boundary costs 4080 bytes. *)
Definition page_layout : Layout := {| ly_size := 64; ly_align := 2 ^ 12 |}.
Definition padded_heap : LinkedListAllocator :=
  {| head := [{| start_addr := 0x2000010; node_size := 0x4000 |}] |}.
Definition padded_heap_rest : LinkedListAllocator :=
  {| head := [{| start_addr := 0x2002000; node_size := 0x2010 |}] |}.
Definition padded_heap_after : LinkedListAllocator :=
  {| head := [{| start_addr := 0x2001000; node_size := 0x1000 |};
              {| start_addr := 0x2002000; node_size := 0x2010 |}] |}.

Lemma linked_list_leaks_padding_witness :
  ∃ n, n ∈ head padded_heap ∧ 0x2001000 = round_up (start_addr n) (served_align page_layout) ∧
    free_bytes (head padded_heap_after) = free_bytes (head padded_heap) - (0x2001000 - start_addr n).
Proof.
  apply (linked_list_leaks_padding 0x2000000 0x3000000 ltac:(by vm_compute) demo_align_up demo_align_up_spec
    padded_heap page_layout padded_heap_rest 0x2001000 padded_heap_after).
  - by constructor.
  - by apply demo_layout_ok.
  - by vm_compute.
  - done.
  - by vm_compute.
Defined.
