(* ===== verification/HeapBlocks.v ===== *)
(** * The global allocator keeps the contract

    The fixed-size block allocator over any first-fit heap that keeps the
    contract of [HeapFacts]: the blocks on its free lists are blocks it still
    holds from the heap below it. *)

From stdpp Require Import relations.
From S2P Require Import Prelude Bytes Heap HeapFacts HeapLinked.

Import FixedSize.

(** ** Size classes *)

Lemma position_Some p l i :
  position p l = Some i → ∃ x, l !! i = Some x ∧ p x = true ∧ Forall (λ y, p y = false) (take i l).
Proof.
  revert i. induction l as [|y l IH]; intros i; cbn; [done|]. destruct (p y) eqn:Hy.
  - intros [= <-]. by exists y.
  - intros (j&Hj&->)%fmap_Some. destruct (IH j Hj) as (x&?&?&?). exists x. split_and!; [done..|by constructor].
Qed.

Lemma position_None p l : position p l = None → Forall (λ y, p y = false) l.
Proof.
  induction l as [|y l IH]; cbn; [by constructor|]. destruct (p y) eqn:Hy; [done|].
  intros ?%fmap_None. constructor; auto.
Qed.

Lemma block_size_pow i b : BLOCK_SIZES !! i = Some b → ∃ j, 3 ≤ j ≤ 11 ∧ b = 2 ^ j.
Proof.
  intros H. exists (3 + Z.of_nat i). revert H.
  do 9 (destruct i as [|i]; [intros [= <-]; by vm_compute|]). done.
Qed.

Lemma block_size_inj i j b : BLOCK_SIZES !! i = Some b → BLOCK_SIZES !! j = Some b → i = j.
Proof. intros Hi Hj. eapply NoDup_lookup; [|done..]. unfold BLOCK_SIZES. by apply (bool_decide_unpack _). Qed.

(** The block a layout is served with. *)
Definition backing (l : Layout) : Layout :=
  match list_index l with
  | Some i => match BLOCK_SIZES !! i with Some b => {| ly_size := b; ly_align := b |} | None => l end
  | None => l
  end.

Lemma list_index_Some l i :
  list_index l = Some i → ∃ b, BLOCK_SIZES !! i = Some b ∧ Z.max (ly_size l) (ly_align l) ≤ b ∧
    backing l = {| ly_size := b; ly_align := b |}.
Proof.
  intros H. unfold backing. rewrite H. apply position_Some in H as (b&Hb&Hle%Z.leb_le&_).
  exists b. by rewrite Hb.
Qed.

Lemma block_layout_ok i b :
  BLOCK_SIZES !! i = Some b →
  layout_ok {| ly_size := b; ly_align := b |} ∧ from_size_align b b = Some {| ly_size := b; ly_align := b |}.
Proof.
  intros (j&Hj&->)%block_size_pow. pose proof (pow2_lt j 12 ltac:(lia)). split.
  - split_and!; [exists j; cbn; lia|cbn; lia|cbn; lia].
  - unfold from_size_align. rewrite is_power_of_two_pow by lia. unfold isize_MAX.
    by rewrite (proj2 (Z.leb_le _ _)) by lia.
Qed.

Lemma backing_ok l : layout_ok l → layout_ok (backing l) ∧ ly_size l ≤ ly_size (backing l).
Proof.
  intros Hl. destruct (list_index l) as [i|] eqn:E.
  - destruct (list_index_Some l i E) as (b&Hb&Hle&->). destruct (block_layout_ok i b Hb) as [? _].
    split; [done|]. cbn. lia.
  - unfold backing. by rewrite E.
Qed.

(** A block aligned for the backing layout is aligned for the layout. *)
Lemma backing_aligned l p : layout_ok l → p mod ly_align (backing l) = 0 → p mod ly_align l = 0.
Proof.
  intros Hl. destruct (list_index l) as [i|] eqn:E; [|unfold backing; by rewrite E].
  destruct (list_index_Some l i E) as (b&Hb&Hle&->). cbn. destruct (block_size_pow i b Hb) as (j&Hj&->).
  destruct (layout_align_ok l Hl) as (k&Hk&Ha&_). rewrite Ha in *. apply (pow2_multiple _ k j).
  split; [lia|]. apply (Z.pow_le_mono_r_iff 2); lia.
Qed.

(** ** The invariant *)

Section heap.
Context {H : Type} {heap_first_fit : FirstFit H} {lo hi : Z} (heap_inv : H → gmap Z Layout → Prop).
Context {heap_spec : AllocatorSpec fallback_alloc deallocate lo hi heap_inv}.

(** [held]: the blocks held from the heap. They serve the live blocks and fill
    the free lists, each block in one place. *)
Definition fs_inv (self : FixedSizeBlockAllocator H) (live : gmap Z Layout) : Prop :=
  ∃ held, heap_inv (fallback_allocator self) held ∧ live_ok lo hi held ∧
    length (list_heads self) = length BLOCK_SIZES ∧
    (∀ p l, live !! p = Some l → layout_ok l ∧ held !! p = Some (backing l)) ∧
    ∀ i free b, list_heads self !! i = Some free → BLOCK_SIZES !! i = Some b →
      NoDup free ∧ ∀ p, p ∈ free → held !! p = Some {| ly_size := b; ly_align := b |} ∧ live !! p = None.

Lemma held_fresh held live p l :
  live_ok lo hi held → (∀ q l', live !! q = Some l' → layout_ok l' ∧ held !! q = Some (backing l')) →
  layout_ok l → held !! p = Some (backing l) → live !! p = None → fresh lo hi live p l.
Proof.
  intros Hh Hlive Hl Hp Hnone. destruct (Hh p _ Hp) as (_&H0&Hm&Hlo&Hhi&Hap).
  destruct (backing_ok l Hl) as [_ Hsz]. split_and!; [done|by apply backing_aligned|done|lia|].
  intros q l' Hq. destruct (Hlive q l' Hq) as [Hl' Hq']. destruct (backing_ok l' Hl') as [_ Hsz'].
  assert (q ≠ p) by congruence.
  assert (Hd : delete p held !! q = Some (backing l')) by by rewrite lookup_delete_ne.
  pose proof (Hap q _ Hd). unfold apart in *. lia.
Qed.

(** A layout served by the heap below. *)
Lemma serve_from_heap self live l :
  fs_inv self live → layout_ok l →
  ∃ self' p, on_fallback (fallback_alloc (backing l)) self = (self', Ok p) ∧
    (p = ptr_null ∧ fs_inv self' live ∨ fresh lo hi live p l ∧ fs_inv self' (<[p := l]> live)).
Proof using heap_spec.
  intros (held&Hi&Hh&Hlen&Hlive&Hfree) Hl. destruct (backing_ok l Hl) as [Hbl _].
  destruct heap_spec as [Hal _]. destruct (Hal _ held _ Hi Hbl) as (h'&p&Ha&Hcase).
  unfold on_fallback. rewrite Ha. eexists _, p. split; [done|]. destruct Hcase as [[-> Hi']|[Hf Hi']].
  - left. split; [done|]. by exists held.
  - right. pose proof (fresh_not_live _ _ _ _ _ Hh Hbl Hf) as Hnone.
    assert (Hnew : live !! p = None).
    { apply eq_None_not_Some. intros [l' [_ ?]%Hlive]. congruence. }
    pose proof (live_ok_insert _ _ _ _ _ Hh Hbl Hf) as Hh'.
    assert (Hlive' : ∀ q l', live !! q = Some l' → layout_ok l' ∧ <[p := backing l]> held !! q = Some (backing l')).
    { intros q l' Hq. destruct (Hlive q l' Hq) as [? Hq']. split; [done|].
      rewrite lookup_insert_ne; [done|]. congruence. }
    split; [eapply held_fresh; try done; apply lookup_insert_eq|].
    exists (<[p := backing l]> held). split_and!; [done|done|done| |].
    + intros q l' [[<- <-]|[_ ?]]%lookup_insert_Some; [|by apply Hlive'].
      split; [done|apply lookup_insert_eq].
    + intros i free b Hfr Hb. destruct (Hfree i free b Hfr Hb) as [Hnd Hq]. split; [done|].
      intros q Hin. destruct (Hq q Hin) as [Hq1 Hq2]. assert (q ≠ p) by congruence.
      by rewrite !lookup_insert_ne.
Qed.

(** A layout served from its free list. *)
Lemma serve_from_list self live l i node next :
  fs_inv self live → layout_ok l → list_index l = Some i → list_heads self !! i = Some (node :: next) →
  fresh lo hi live node l ∧
  fs_inv {| list_heads := <[i := next]> (list_heads self); fallback_allocator := fallback_allocator self |}
    (<[node := l]> live).
Proof.
  intros (held&Hi&Hh&Hlen&Hlive&Hfree) Hl Hidx Hhead.
  destruct (list_index_Some l i Hidx) as (b&Hb&_&Hback).
  destruct (Hfree i _ b Hhead Hb) as [[Hnin Hnd]%NoDup_cons Hin].
  destruct (Hin node) as [Hnode Hnone]; [by left|].
  split; [eapply held_fresh; try done; by rewrite Hback|].
  exists held. cbn [list_heads fallback_allocator]. split_and!; [done|done|by rewrite length_insert| |].
  - intros q l' [[<- <-]|[_ ?]]%lookup_insert_Some; [by rewrite Hback|by apply Hlive].
  - intros j free b' Hj Hb'. destruct (decide (j = i)) as [->|Hne].
    + rewrite list_lookup_insert_eq in Hj by (by apply lookup_lt_Some in Hhead). injection Hj as <-.
      split; [done|]. intros p Hp. assert (b' = b) as -> by congruence.
      destruct (Hin p) as [??]; [by right|]. rewrite lookup_insert_ne by (by intros ->). done.
    + rewrite list_lookup_insert_ne in Hj by done. destruct (Hfree j free b' Hj Hb') as [? Hp].
      split; [done|]. intros p Hpin. destruct (Hp p Hpin) as [Hp1 Hp2]. split; [done|].
      rewrite lookup_insert_ne; [done|]. intros ->. rewrite Hnode in Hp1. injection Hp1 as ->.
      by destruct Hne; eapply block_size_inj.
Qed.

Lemma fs_alloc_spec self live l :
  fs_inv self live → layout_ok l →
  ∃ self' p, fs_alloc l self = (self', Ok p) ∧
    (p = ptr_null ∧ fs_inv self' live ∨ fresh lo hi live p l ∧ fs_inv self' (<[p := l]> live)).
Proof using heap_spec.
  intros Hinv Hl. unfold fs_alloc. destruct (list_index l) as [i|] eqn:Hidx.
  - destruct (list_index_Some l i Hidx) as (b&Hb&_&Hback). rewrite bind_get_st.
    destruct (list_heads self !! i) as [[|node next]|] eqn:Hhead.
    + cbn [unwrap]. rewrite bind_lift_Ok, Hb. cbn [unwrap]. rewrite bind_lift_Ok.
      destruct (block_layout_ok i b Hb) as [_ ->]. cbn [unwrap]. rewrite bind_lift_Ok, <- Hback.
      by apply serve_from_heap.
    + cbn [unwrap]. rewrite bind_lift_Ok. eexists _, _. split; [done|]. right.
      by eapply serve_from_list.
    + exfalso. destruct Hinv as (_&_&_&Hlen&_). apply lookup_ge_None in Hhead. apply lookup_lt_Some in Hb. lia.
  - pose proof (serve_from_heap self live l Hinv Hl) as Hs. unfold backing in Hs. by rewrite Hidx in Hs.
Qed.

Lemma fs_dealloc_spec self live p l :
  fs_inv self live → live !! p = Some l →
  ∃ self', fs_dealloc p l self = (self', Ok ()) ∧ fs_inv self' (delete p live).
Proof using heap_spec.
  intros (held&Hi&Hh&Hlen&Hlive&Hfree) Hp. destruct (Hlive p l Hp) as [Hl Hheld].
  assert (Hlive' : ∀ q l', delete p live !! q = Some l' → layout_ok l' ∧ held !! q = Some (backing l')).
  { intros q l' [_ ?]%lookup_delete_Some. by apply Hlive. }
  unfold fs_dealloc. destruct (list_index l) as [i|] eqn:Hidx.
  - destruct (list_index_Some l i Hidx) as (b&Hb&_&Hback). rewrite bind_get_st.
    destruct (lookup_lt_is_Some_2 (list_heads self) i) as [free Hhead].
    { rewrite Hlen. by eapply lookup_lt_Some. }
    rewrite Hhead. cbn [unwrap]. rewrite bind_lift_Ok, Hb. cbn [unwrap]. rewrite bind_lift_Ok.
    destruct (block_size_pow i b Hb) as (j&Hj&Hbj). pose proof (Z.pow_le_mono_r 2 3 j ltac:(lia) ltac:(lia)) as H8.
    change (2 ^ 3) with 8 in H8. unfold fs_size_of_ListNode, fs_align_of_ListNode.
    rewrite (proj2 (Z.leb_le 8 b)) by lia. cbn [assert_]. rewrite !bind_lift_Ok.
    eexists. split; [done|]. exists held. cbn [list_heads fallback_allocator].
    split_and!; [done|done|by rewrite length_insert|done|].
    intros k free' b' Hk Hb'. destruct (decide (k = i)) as [->|Hne].
    + rewrite list_lookup_insert_eq in Hk by (by apply lookup_lt_Some in Hhead). injection Hk as <-.
      destruct (Hfree i free b' Hhead Hb') as [Hnd Hin]. assert (b' = b) as -> by congruence. split.
      * constructor; [|done]. intros Hpin. destruct (Hin p Hpin). congruence.
      * intros q [->|Hq]%elem_of_cons; [rewrite lookup_delete_eq, Hheld; by rewrite Hback|].
        destruct (Hin q Hq). split; [done|]. by apply lookup_delete_None; right.
    + rewrite list_lookup_insert_ne in Hk by done. destruct (Hfree k free' b' Hk Hb') as [? Hin].
      split; [done|]. intros q Hq. destruct (Hin q Hq). split; [done|]. by apply lookup_delete_None; right.
  - assert (Hback : backing l = l) by (unfold backing; by rewrite Hidx).
    destruct (Hh p _ Hheld) as (_&Hp0&_). unfold ptr_null. rewrite (proj2 (Z.eqb_neq _ _)) by lia.
    cbn [negb assert_]. rewrite bind_lift_Ok. destruct heap_spec as [_ Hde].
    rewrite Hback in Hheld. destruct (Hde _ held p l Hi Hheld) as (h'&Hd&Hi').
    unfold on_fallback. rewrite Hd. eexists. split; [done|]. exists (delete p held).
    cbn [list_heads fallback_allocator]. split_and!; [done|by apply live_ok_delete|done| |].
    + intros q l' Hq. destruct (Hlive' q l' Hq). split; [done|]. rewrite lookup_delete_ne; [done|].
      intros ->. by rewrite lookup_delete_eq in Hq.
    + intros i free b Hfr Hb. destruct (Hfree i free b Hfr Hb) as [? Hin]. split; [done|].
      intros q Hq. destruct (Hin q Hq) as [? Hq2]. assert (q ≠ p) by congruence.
      by rewrite !lookup_delete_ne.
Qed.

#[export] Instance fixed_size_spec : AllocatorSpec fs_alloc fs_dealloc lo hi fs_inv :=
  {| alloc_spec := fs_alloc_spec; dealloc_spec := fs_dealloc_spec |}.

(** A freed block is the next one handed out for its size class, whatever
    the two layouts are within the class: the second call undoes the first and
    the heap below is not touched. *)
Theorem freed_block_recycled self s1 p l l' :
  list_index l = list_index l' → list_index l ≠ None →
  fs_dealloc p l self = (s1, Ok ()) → fs_alloc l' s1 = (self, Ok p).
Proof.
  intros Hl Hsome Hd. unfold fs_dealloc, fs_alloc in *. rewrite <- Hl.
  destruct (list_index l) as [i|]; [|done]. rewrite bind_get_st in Hd.
  destruct (list_heads self !! i) as [free|] eqn:Hi; [|done]. cbn [unwrap] in Hd. rewrite bind_lift_Ok in Hd.
  destruct (BLOCK_SIZES !! i) as [b|] eqn:Hb; [|done]. cbn [unwrap] in Hd. rewrite bind_lift_Ok in Hd.
  destruct (fs_size_of_ListNode <=? b); [|by cbn [assert_] in Hd; rewrite ?bind_lift_Ok, bind_lift_Panic in Hd].
  destruct (fs_align_of_ListNode <=? b); cbn [assert_] in Hd; rewrite bind_lift_Ok in Hd;
    [rewrite bind_lift_Ok in Hd|by rewrite bind_lift_Panic in Hd].
  injection Hd as <-. rewrite bind_get_st. cbn [list_heads].
  rewrite list_lookup_insert_eq by by eapply lookup_lt_Some. cbn [unwrap]. rewrite bind_lift_Ok.
  unfold set_head. rewrite bind_modify. cbn [list_heads fallback_allocator].
  rewrite list_insert_insert_eq, list_insert_id by done. by destruct self.
Qed.

(** C8: the kernel's global allocator, over any first-fit heap that keeps the
    allocator contract: after [init], in every run of a client that frees what
    it holds, the live blocks are aligned, inside the heap and disjoint, and no
    call panics, whatever mix of size classes and large layouts it asks for. *)
Theorem global_allocator_sound (h0 : H) size :
  heap_init lo size heap_empty = (h0, Ok ()) → heap_inv h0 ∅ →
  ∃ a0, fs_init lo size fs_new = (a0, Ok ()) ∧ sound fs_alloc fs_dealloc lo hi a0.
Proof using heap_spec.
  intros Hinit Hh0. eexists. split; [unfold fs_init, on_fallback; cbn [fs_new fallback_allocator]; by rewrite Hinit|].
  apply (spec_sound fs_inv). exists ∅. cbn [fallback_allocator list_heads].
  split_and!; [done|apply live_ok_empty|done|intros p l; by rewrite lookup_empty|].
  intros i free b [-> _]%lookup_replicate _. split; [constructor|]. by intros p ?%elem_of_nil.
Qed.
End heap.

(** ** A concrete heap below *)

(** The linked list allocator of this kernel in the place of the crate's. *)
#[export] Instance demo_first_fit : FirstFit LinkedList.LinkedListAllocator := {|
  heap_empty := LinkedList.ll_new;
  heap_init := LinkedList.ll_init demo_align_up;
  allocate_first_fit := λ l,
    p ← LinkedList.ll_alloc demo_align_up l; mret (if p =? ptr_null then None else Some p);
  deallocate := LinkedList.ll_dealloc demo_align_up;
|}.

Lemma demo_fallback_alloc l a : fallback_alloc l a = LinkedList.ll_alloc demo_align_up l a.
Proof.
  unfold fallback_alloc. cbn. rewrite st_bind_assoc, st_bind_unfold.
  destruct (LinkedList.ll_alloc demo_align_up l a) as [a' [p|[]| |]]; [|done..].
  rewrite bind_mret_st. destruct (Z.eqb_spec p ptr_null) as [->|]; done.
Qed.

Definition demo_lo : Z := 0x2000000.
Definition demo_hi : Z := 0x3000000.

#[export] Instance demo_heap_spec :
  AllocatorSpec fallback_alloc deallocate demo_lo demo_hi (ll_inv demo_lo demo_hi).
Proof.
  destruct (linked_list_spec demo_lo demo_hi ltac:(by vm_compute) demo_align_up demo_align_up_spec) as [Ha Hd].
  split; [|exact Hd]. intros a live l. rewrite demo_fallback_alloc. apply Ha.
Qed.

Definition demo_heap : LinkedList.LinkedListAllocator :=
  {| LinkedList.head := [{| LinkedList.start_addr := demo_lo; LinkedList.node_size := 0x1000000 |}] |}.

Lemma demo_heap_ok : ll_inv demo_lo demo_hi demo_heap ∅.
Proof.
  split; [|intros p l; by rewrite lookup_empty]. unfold blocks. rewrite map_to_list_empty.
  split; [|by repeat constructor]. by repeat constructor.
Qed.

Lemma global_allocator_sound_witness :
  ∃ a0, fs_init demo_lo 0x1000000 fs_new = (a0, Ok ()) ∧ sound fs_alloc fs_dealloc demo_lo demo_hi a0.
Proof.
  exact (global_allocator_sound (ll_inv demo_lo demo_hi) demo_heap 0x1000000 ltac:(by vm_compute) demo_heap_ok).
Defined.

(** A 24-byte block is freed into the class of 32 bytes and given out for 17. *)
Definition demo_blocks : FixedSizeBlockAllocator LinkedList.LinkedListAllocator :=
  {| list_heads := [[]; []; [0x2000040]; []; []; []; []; []; []]; fallback_allocator := demo_heap |}.

Lemma freed_block_recycled_witness :
  let s1 := {| list_heads := [[]; []; [0x2000080; 0x2000040]; []; []; []; []; []; []];
               fallback_allocator := demo_heap |} in
  fs_alloc {| ly_size := 17; ly_align := 1 |} s1 = (demo_blocks, Ok 0x2000080).
Proof.
  intros s1. apply (freed_block_recycled demo_blocks s1 0x2000080 {| ly_size := 24; ly_align := 8 |});
    by vm_compute.
Defined.
