(* ===== verification/HeapInit.v ===== *)
(** * Bringing up the heap

    [init_heap] of [kernel/src/memory/alloc.rs]: a frame for every page of the
    heap, then the global allocator over the mapped range. The page tables are
    the [x86_64] crate's [Mapper], a parameter: [map_to] maps a page (by its
    number) to a frame and may take further frames for the tables themselves. *)

From S2P Require Import Prelude Bytes Frames FramesFacts Heap HeapFacts HeapLinked HeapBlocks.

Definition HEAP_START : Z := 0x2000000.
Definition HEAP_SIZE : Z := 16 * 1024 * 1024.

Section init.
Context {M F MapToError H : Type} {heap_first_fit : FirstFit H}.
Variable frame_of : Z → option Z.
Variable FrameAllocationFailed : MapToError.
Variable present_writable : F.
Variable map_to : Z → Z → F → st (M * BootInfoFrameAllocator) MapToError ().

(** [Page::range_inclusive] from the page of the first byte to that of the last. *)
Definition heap_pages : list Z :=
  let heap_end := HEAP_START + HEAP_SIZE - 1 in
  seqZ (HEAP_START / 4096) (heap_end / 4096 - HEAP_START / 4096 + 1).

Fixpoint map_pages (pages : list Z) : st (M * BootInfoFrameAllocator) MapToError () :=
  match pages with
  | [] => mret ()
  | page :: pages =>
      frame ← on_snd (allocate_frame frame_of);
      frame ← lift (ok_or frame FrameAllocationFailed);
      map_to page frame present_writable;;
      map_pages pages
  end.

Definition init_heap :
    st ((M * BootInfoFrameAllocator) * FixedSize.FixedSizeBlockAllocator H) MapToError () := λ '(s, g),
  match map_pages heap_pages s with
  | (s, Ok _) =>
      let '(g, r) := FixedSize.fs_init HEAP_START HEAP_SIZE g in
      ((s, g), match r with Ok u => Ok u | Err e => match e with end | Panic => Panic | Diverge => Diverge end)
  | (s, Err e) => ((s, g), Err e)
  | (s, Panic) => ((s, g), Panic)
  | (s, Diverge) => ((s, g), Diverge)
  end.

(** ** What a successful start gives *)

Lemma heap_pages_eq : heap_pages = seqZ 8192 4096.
Proof. unfold heap_pages. f_equal. Qed.

Hypothesis frame_of_spec : ∀ a, 0 ≤ a < 2 ^ 52 → frame_of a = Some (a / 4096 * 4096).

(** What [map_to] promises when it succeeds: the page is mapped, no other
    mapping changes, the frames it took are gone. *)
Variable translate : M → Z → option (Z * F).
Hypothesis map_to_spec : ∀ page frame m fa m' fa', is_u64 (fa_next fa) →
  map_to page frame present_writable (m, fa) = ((m', fa'), Ok ()) →
  translate m' page = Some (frame, present_writable) ∧
  (∀ q, q ≠ page → translate m' q = translate m q) ∧
  memory_map fa' = memory_map fa ∧ fa_next fa ≤ fa_next fa' < 2 ^ 64.

Lemma map_pages_ok map pages m fa m' fa' :
  map_ok map → len (usable_addrs map) < 2 ^ 64 → NoDup pages → memory_map fa = map → is_u64 (fa_next fa) →
  map_pages pages (m, fa) = ((m', fa'), Ok ()) →
  ∃ frames, length frames = length pages ∧ NoDup frames ∧
    Forall (.∈ drop (Z.to_nat (fa_next fa)) (usable_addrs map)) frames ∧
    (∀ i p f, pages !! i = Some p → frames !! i = Some f → translate m' p = Some (f, present_writable)) ∧
    (∀ q, q ∉ pages → translate m' q = translate m q) ∧
    memory_map fa' = map ∧ fa_next fa ≤ fa_next fa' < 2 ^ 64 ∧
    Forall (.∉ drop (Z.to_nat (fa_next fa')) (usable_addrs map)) frames.
Proof using frame_of_spec map_to_spec.
  intros Hok Hlen. revert m fa. induction pages as [|page pages IH]; intros m [mp n] Hnd Hmap Hn Hrun.
  { injection Hrun as <- <-. exists []. unfold is_u in Hn. split_and!; try done; try constructor; cbn in *; lia. }
  cbn [memory_map fa_next] in *. subst mp. apply NoDup_cons in Hnd as [Hnin Hnd]. cbn [map_pages] in Hrun.
  rewrite (st_bind_Ok _ _ _ _ _ (on_snd_run _ m _ _ _ (allocate_frame_ok frame_of frame_of_spec map n Hok Hn))) in Hrun.
  destruct (usable_addrs map !! Z.to_nat n) as [f|] eqn:Hf; [|done].
  pose proof (lookup_lt_Some _ _ _ Hf) as Hlt. cbn [ok_or] in Hrun. rewrite bind_lift_Ok in Hrun.
  unfold is_u in Hn. rewrite wrap_small in Hrun by lia.
  apply st_bind_Ok_inv in Hrun as ([m1 fa1]&[]&Hm&Hrun).
  edestruct map_to_spec as (Ht&Hne&Hmap1&Hle); [|exact Hm|]; [unfold is_u; cbn; lia|].
  cbn [memory_map fa_next] in *.
  destruct (IH m1 fa1 Hnd Hmap1) as (frames&Hl&Hfnd&Hfr&Htr&Hout&Hmap'&Hle'&Haway);
    [unfold is_u; lia|done|].
  assert (Hdrop : ∀ x, x ∈ drop (Z.to_nat (fa_next fa1)) (usable_addrs map) →
    x ∈ drop (S (Z.to_nat n)) (usable_addrs map)).
  { intros x Hx. replace (Z.to_nat (fa_next fa1)) with (S (Z.to_nat n) + (Z.to_nat (fa_next fa1) - S (Z.to_nat n)))%nat
      in Hx by lia. rewrite <- drop_drop in Hx. eapply elem_of_sublist; [exact Hx|apply sublist_drop]. }
  assert (Hfn : f ∉ drop (S (Z.to_nat n)) (usable_addrs map)).
  { assert (Hnd' : NoDup (f :: drop (S (Z.to_nat n)) (usable_addrs map)))
      by (rewrite <- drop_S by done; eapply sublist_NoDup; [by apply usable_addrs_NoDup|apply sublist_drop]).
    by apply NoDup_cons in Hnd' as [? _]. }
  assert (Hsplit : drop (Z.to_nat n) (usable_addrs map) = f :: drop (S (Z.to_nat n)) (usable_addrs map))
    by by apply drop_S.
  exists (f :: frames). split_and!.
  - cbn. by rewrite Hl.
  - constructor; [|done]. intros Hin. rewrite Forall_forall in Hfr. by apply Hfn, Hdrop, Hfr.
  - rewrite Hsplit. constructor; [by left|]. eapply Forall_impl; [exact Hfr|]. intros x Hx. right. by apply Hdrop.
  - intros [|i] p g Hp Hg; cbn in Hp, Hg; [|by eapply Htr]. injection Hp as <-. injection Hg as <-.
    by rewrite Hout.
  - intros q Hq. apply not_elem_of_cons in Hq as [??]. rewrite Hout by done. by apply Hne.
  - done.
  - lia.
  - lia.
  - constructor; [|done]. intros Hin. apply Hfn.
    replace (Z.to_nat (fa_next fa')) with (S (Z.to_nat n) + (Z.to_nat (fa_next fa') - S (Z.to_nat n)))%nat in Hin by lia.
    rewrite <- drop_drop in Hin. eapply elem_of_sublist; [exact Hin|apply sublist_drop].
Qed.

(** The frame behind every page of the heap, and the frames still to be given out. *)
Lemma init_heap_pages map m fa g m' fa' g' :
  map_ok map → len (usable_addrs map) < 2 ^ 64 → memory_map fa = map → is_u64 (fa_next fa) →
  init_heap ((m, fa), g) = (((m', fa'), g'), Ok ()) →
  (∃ frame : Z → Z, ∀ a, HEAP_START ≤ a < HEAP_START + HEAP_SIZE →
    translate m' (a / 4096) = Some (frame (a / 4096), present_writable) ∧
    frame (a / 4096) ∈ usable_addrs map ∧
    frame (a / 4096) ∉ drop (Z.to_nat (fa_next fa')) (usable_addrs map) ∧
    ∀ b, HEAP_START ≤ b < HEAP_START + HEAP_SIZE → frame (a / 4096) = frame (b / 4096) → a / 4096 = b / 4096) ∧
  (∀ q, q ∉ heap_pages → translate m' q = translate m q) ∧
  memory_map fa' = map ∧ fa_next fa ≤ fa_next fa' < 2 ^ 64 ∧
  FixedSize.fs_init HEAP_START HEAP_SIZE g = (g', Ok ()).
Proof using frame_of_spec map_to_spec.
  intros Hok Hlen Hmap Hn Hrun. unfold init_heap in Hrun.
  destruct (map_pages heap_pages (m, fa)) as [[m1 fa1] [[]| | |]] eqn:Hp; [|done..].
  destruct (FixedSize.fs_init HEAP_START HEAP_SIZE g) as [g1 [[]|[]| |]] eqn:Hi; [|done..].
  injection Hrun as -> -> ->.
  destruct (map_pages_ok map heap_pages m fa m' fa' Hok Hlen) as (frames&Hl&Hnd&Hfr&Htr&Hout&Hmap'&Hle&Haway);
    [apply NoDup_seqZ|done..|]. rewrite Forall_forall in Hfr, Haway. split; [|done].
  exists (λ p, default 0 (frames !! Z.to_nat (p - HEAP_START / 4096))).
  assert (Hidx : ∀ a, HEAP_START ≤ a < HEAP_START + HEAP_SIZE →
    ∃ f, heap_pages !! Z.to_nat (a / 4096 - HEAP_START / 4096) = Some (a / 4096) ∧
      frames !! Z.to_nat (a / 4096 - HEAP_START / 4096) = Some f).
  { intros a Ha. unfold HEAP_START, HEAP_SIZE in *.
    assert (Hr : 0 ≤ a / 4096 - 0x2000000 / 4096 < 4096) by dlia.
    destruct (lookup_lt_is_Some_2 frames (Z.to_nat (a / 4096 - 0x2000000 / 4096))) as [f Hf].
    { rewrite Hl, heap_pages_eq, length_seqZ. lia. }
    exists f. split; [|done]. rewrite heap_pages_eq. apply lookup_seqZ. change (0x2000000 / 4096) with 8192 in *. lia. }
  intros a Ha. destruct (Hidx a Ha) as (f&Hpa&Hfa). rewrite Hfa. cbn [default id from_option].
  pose proof (list_elem_of_lookup_2 _ _ _ Hfa) as Hin. split_and!; [by eapply Htr| |by apply Haway|].
  - eapply elem_of_sublist; [by apply Hfr|apply sublist_drop].
  - intros b Hb. destruct (Hidx b Hb) as (f'&Hpb&Hfb). rewrite Hfb. cbn [default id from_option]. intros <-.
    assert (Z.to_nat (a / 4096 - HEAP_START / 4096) = Z.to_nat (b / 4096 - HEAP_START / 4096)) as E
      by by eapply NoDup_lookup. rewrite E in Hpa. congruence.
Qed.

(** When [init_heap] succeeds, every page of the heap is mapped, writable, to
    a frame of its own out of usable memory, no other mapping has changed, and
    the global allocator has been started over exactly that range. *)
Theorem init_heap_maps_heap map m fa g m' fa' g' :
  map_ok map → len (usable_addrs map) < 2 ^ 64 → memory_map fa = map → is_u64 (fa_next fa) →
  init_heap ((m, fa), g) = (((m', fa'), g'), Ok ()) →
  (∃ frame : Z → Z, ∀ a, HEAP_START ≤ a < HEAP_START + HEAP_SIZE →
    translate m' (a / 4096) = Some (frame (a / 4096), present_writable) ∧
    usable_page map (frame (a / 4096)) ∧
    ∀ b, HEAP_START ≤ b < HEAP_START + HEAP_SIZE → frame (a / 4096) = frame (b / 4096) → a / 4096 = b / 4096) ∧
  (∀ q, q ∉ heap_pages → translate m' q = translate m q) ∧
  FixedSize.fs_init HEAP_START HEAP_SIZE g = (g', Ok ()).
Proof using frame_of_spec map_to_spec.
  intros Hok Hlen Hmap Hn Hrun.
  destruct (init_heap_pages map m fa g m' fa' g' Hok Hlen Hmap Hn Hrun) as ([frame Hf]&Hout&_&_&Hi).
  split_and!; [|done|done]. exists frame. intros a Ha. destruct (Hf a Ha) as (Ht&Hu&_&Hinj).
  split_and!; [done|by apply usable_addrs_page|done].
Qed.
End init.

(** ** A concrete start *)

Definition demo_tables := gmap Z (Z * Z).
Definition demo_map_to (page frame flags : Z) : st (demo_tables * BootInfoFrameAllocator) () () :=
  modify (λ '(m, fa), (<[page := (frame, flags)]> m, fa)).
Definition demo_memory : list MemoryRegion :=
  [{| mr_start := 0x100000; mr_end := 0x4000000; mr_kind := Mrk_Usable |}].

Lemma demo_memory_ok : map_ok demo_memory ∧ len (usable_addrs demo_memory) = 8192.
Proof.
  split; [|by vm_compute]. split; [by repeat constructor|]. by repeat constructor.
Qed.

Lemma demo_map_pages pages m n :
  0 ≤ n → n + len pages ≤ 8192 →
  ∃ m', map_pages demo_frame_of () 3 demo_map_to pages (m, {| memory_map := demo_memory; fa_next := n |}) =
    ((m', {| memory_map := demo_memory; fa_next := n + len pages |}), Ok ()).
Proof.
  destruct demo_memory_ok as [Hok Hlen]. revert m n.
  induction pages as [|page pages IH]; intros m n Hn Hp; cbn [length] in *.
  { exists m. cbn [map_pages]. by rewrite Z.add_0_r. }
  cbn [map_pages].
  erewrite st_bind_Ok
    by (apply on_snd_run, (allocate_frame_ok demo_frame_of demo_frame_of_spec demo_memory n Hok); unfold is_u; lia).
  destruct (lookup_lt_is_Some_2 (usable_addrs demo_memory) (Z.to_nat n)) as [f ->]; [lia|].
  cbn [ok_or]. rewrite bind_lift_Ok, wrap_small by lia.
  erewrite st_bind_Ok by reflexivity. cbn [fst snd].
  destruct (IH (<[page := (f, 3)]> m) (n + 1)) as [m' ->]; [lia|lia|]. exists m'.
  by replace (n + 1 + len pages) with (n + len (page :: pages)) by (cbn; lia).
Qed.

Lemma demo_init_heap :
  ∃ s' g', init_heap demo_frame_of () 3 demo_map_to
      ((∅, {| memory_map := demo_memory; fa_next := 0 |}), FixedSize.fs_new) = ((s', g'), Ok ()).
Proof.
  destruct (demo_map_pages heap_pages ∅ 0) as [m' Hm]; [done|rewrite heap_pages_eq, length_seqZ; lia|].
  unfold init_heap. rewrite Hm. by eexists _, _.
Qed.

Lemma demo_map_to_spec page frame (m : demo_tables) fa (m' : demo_tables) fa' :
  is_u64 (fa_next fa) → demo_map_to page frame 3 (m, fa) = ((m', fa'), Ok ()) →
  m' !! page = Some (frame, 3) ∧ (∀ q, q ≠ page → m' !! q = m !! q) ∧
  memory_map fa' = memory_map fa ∧ fa_next fa ≤ fa_next fa' < 2 ^ 64.
Proof.
  intros [??] [= <- <-]. split_and!; [apply lookup_insert_eq| |done|lia|done].
  intros q Hq. by apply lookup_insert_ne.
Qed.

Lemma init_heap_maps_heap_witness :
  ∃ m' fa' g', init_heap demo_frame_of () 3 demo_map_to
      ((∅, {| memory_map := demo_memory; fa_next := 0 |}), FixedSize.fs_new) = (((m', fa'), g'), Ok ()) ∧
    ∃ frame, (m' : demo_tables) !! (0x2001000 / 4096) = Some (frame, 3) ∧ usable_page demo_memory frame.
Proof.
  destruct demo_init_heap as ([m' fa']&g'&Hrun). exists m', fa', g'. split; [exact Hrun|].
  destruct (init_heap_maps_heap demo_frame_of () 3 demo_map_to demo_frame_of_spec (λ m p, (m : demo_tables) !! p)
    demo_map_to_spec demo_memory ∅ {| memory_map := demo_memory; fa_next := 0 |} FixedSize.fs_new m' fa' g'
    (proj1 demo_memory_ok) ltac:(rewrite (proj2 demo_memory_ok); lia) eq_refl
    (conj (Z.le_refl 0) eq_refl) Hrun)
    as [[frame Hf] _].
  destruct (Hf 0x2001000 ltac:(clear; by vm_compute)) as (Ht&Hu&_). exists (frame (0x2001000 / 4096)).
  split; [exact Ht|exact Hu].
Defined.
