(* ===== verification/PageTables.v ===== *)
(** * Address translation

    [translate_addr] of [kernel/src/memory/mod.rs]: the walk over the four levels
    of the active page tables.

    Parameters from the [x86_64] crate: [Cr3_read] (the start of the level-4
    table's frame), [virt_add] and [phys_add] (the additions of an offset to an
    address, [None] when they panic), the index and offset fields of an address,
    and [entry_frame] (the frame an entry points to, or why there is none).
    [table_entry t i] is the entry at index [i] of the table at address [t]. *)

From S2P Require Import Prelude Bytes Frames.

Inductive FrameError := FrameNotPresent | HugeFrame.

Section walk.
Variable Cr3_read : Z.
Variable virt_add phys_add : Z → Z → option Z.
Variable p4_index p3_index p2_index p1_index page_offset : Z → Z.
Variable entry_frame : Z → Z + FrameError.
Variable table_entry : Z → Z → Z.

Definition active_level_4_table {E} (physical_memory_offset : Z) : outcome E Z :=
  unwrap (virt_add physical_memory_offset Cr3_read).

(** The loop over the table indexes. *)
Fixpoint walk_tables {E} (table_indexes : list Z) (physical_memory_offset frame : Z) : outcome E (option Z) :=
  match table_indexes with
  | [] => mret (Some frame)
  | index :: table_indexes =>
      virt ← unwrap (virt_add physical_memory_offset frame);
      match entry_frame (table_entry virt index) with
      | inl frame => walk_tables table_indexes physical_memory_offset frame
      | inr FrameNotPresent => mret None
      | inr HugeFrame => Panic
      end
  end.

Definition translate_addr_inner {E} (addr physical_memory_offset : Z) : outcome E (option Z) :=
  let table_indexes := [p4_index addr; p3_index addr; p2_index addr; p1_index addr] in
  frame ← walk_tables table_indexes physical_memory_offset Cr3_read;
  match frame with
  | None => mret None
  | Some frame => p ← unwrap (phys_add frame (page_offset addr)); mret (Some p)
  end.

Definition translate_addr {E} (addr physical_memory_offset : Z) : outcome E (option Z) :=
  translate_addr_inner addr physical_memory_offset.

(** ** What a walk gives *)

Hypothesis index_spec : ∀ a, 0 ≤ a < 2 ^ 64 →
  p4_index a = a / 2 ^ 39 mod 512 ∧ p3_index a = a / 2 ^ 30 mod 512 ∧
  p2_index a = a / 2 ^ 21 mod 512 ∧ p1_index a = a / 2 ^ 12 mod 512 ∧ page_offset a = a mod 4096.
(** Frames are page aligned and below 2^52; the memory behind them is mapped. *)
Hypothesis entry_frame_aligned : ∀ e f, entry_frame e = inl f → f mod 4096 = 0 ∧ 0 ≤ f < 2 ^ 52.
Hypothesis Cr3_aligned : Cr3_read mod 4096 = 0 ∧ 0 ≤ Cr3_read < 2 ^ 52.
Hypothesis phys_add_spec : ∀ p n, 0 ≤ p → 0 ≤ n → p + n < 2 ^ 52 → phys_add p n = Some (p + n).

(** The page tables as a map: the four entries a page is mapped by. *)
Definition step_to (off t i f : Z) : Prop :=
  ∃ v, virt_add off t = Some v ∧ entry_frame (table_entry v i) = inl f.
Definition maps_page (off page f : Z) : Prop :=
  ∃ t3 t2 t1, step_to off Cr3_read (page / 2 ^ 27 mod 512) t3 ∧ step_to off t3 (page / 2 ^ 18 mod 512) t2 ∧
    step_to off t2 (page / 2 ^ 9 mod 512) t1 ∧ step_to off t1 (page mod 512) f.

Lemma walk_cons {E} i ixs off t f :
  walk_tables (E:=E) (i :: ixs) off t = Ok (Some f) ↔ ∃ t', step_to off t i t' ∧ walk_tables (E:=E) ixs off t' = Ok (Some f).
Proof.
  cbn [walk_tables]. unfold step_to. split.
  - destruct (virt_add off t) as [v|] eqn:Hv; [|done]. cbn. destruct (entry_frame _) as [t'|[]] eqn:He; try done. eauto 6.
  - intros (t'&(v&Hv&He)&Hw). rewrite Hv. cbn. by rewrite He.
Qed.
Lemma walk_nil {E} off t f : walk_tables (E:=E) [] off t = Ok (Some f) ↔ t = f.
Proof. cbn. split; [by intros [= ->]|by intros ->]. Qed.

Lemma page_indexes a : 0 ≤ a < 2 ^ 64 →
  [p4_index a; p3_index a; p2_index a; p1_index a] =
  [a / 4096 / 2 ^ 27 mod 512; a / 4096 / 2 ^ 18 mod 512; a / 4096 / 2 ^ 9 mod 512; a / 4096 mod 512] ∧
  page_offset a = a mod 4096.
Proof using index_spec.
  intros Ha. destruct (index_spec a Ha) as (->&->&->&->&->). by rewrite !Z.div_div by lia.
Qed.

(** [translate_addr] implements the map from pages to frames that the tables hold:
    an address is translated exactly when its page is mapped, to the frame of
    the page at the same offset; two addresses of a page go to one frame. *)
Theorem translate_addr_maps {E} addr off p :
  0 ≤ addr < 2 ^ 64 →
  translate_addr (E:=E) addr off = Ok (Some p) ↔
  ∃ f, maps_page off (addr / 4096) f ∧ p = f + addr mod 4096 ∧ f mod 4096 = 0 ∧ f = p / 4096 * 4096.
Proof using index_spec entry_frame_aligned phys_add_spec.
  clear Cr3_aligned. intros Ha. unfold translate_addr, translate_addr_inner. destruct (page_indexes addr Ha) as [-> ->].
  assert (Hframe : ∀ f, maps_page off (addr / 4096) f → f mod 4096 = 0 ∧ 0 ≤ f < 2 ^ 52).
  { intros f (?&?&?&_&_&_&v&_&He). by eapply entry_frame_aligned. }
  assert (Hw : ∀ f, walk_tables (E:=E)
    [addr / 4096 / 2 ^ 27 mod 512; addr / 4096 / 2 ^ 18 mod 512; addr / 4096 / 2 ^ 9 mod 512; addr / 4096 mod 512]
    off Cr3_read = Ok (Some f) ↔ maps_page off (addr / 4096) f).
  { intros f. unfold maps_page. repeat setoid_rewrite walk_cons. setoid_rewrite walk_nil. naive_solver. }
  destruct (walk_tables _ _ _) as [[f|]|e| |] eqn:Hr; cbn.
  2-5: split; [done|intros (f&Hf&_); apply Hw in Hf; by simplify_eq].
  pose proof (proj1 (Hw f) eq_refl) as Hf. destruct (Hframe f Hf) as [Hal Hrange].
  rewrite phys_add_spec by dlia. cbn. split.
  - intros [= <-]. exists f. split_and!; [done..|dlia].
  - intros (f'&Hf'&->&_&_). apply Hw in Hf'. by simplify_eq.
Qed.

(** Without huge pages, and with the tables in mapped memory, a walk never
    panics. *)
Theorem translate_addr_safe {E} addr off :
  0 ≤ addr < 2 ^ 64 → (∀ f, 0 ≤ f < 2 ^ 52 → is_Some (virt_add off f)) → (∀ e, entry_frame e ≠ inr HugeFrame) →
  ∃ o, translate_addr (E:=E) addr off = Ok o.
Proof using index_spec entry_frame_aligned phys_add_spec Cr3_aligned.
  intros Ha Hoff Hhuge. unfold translate_addr, translate_addr_inner. destruct (page_indexes addr Ha) as [-> ->].
  assert (Hw : ∀ ixs t, 0 ≤ t < 2 ^ 52 → t mod 4096 = 0 →
    ∃ o, walk_tables (E:=E) ixs off t = Ok o ∧ ∀ f, o = Some f → f mod 4096 = 0 ∧ 0 ≤ f < 2 ^ 52).
  { induction ixs as [|i ixs IH]; intros t Ht Hal; cbn [walk_tables]; [eexists; split; [done|by intros ? [= <-]]|].
    destruct (Hoff t Ht) as [v ->]. cbn. destruct (entry_frame (table_entry v i)) as [t'|[]] eqn:He.
    - destruct (entry_frame_aligned _ _ He). by apply IH.
    - eexists. by split.
    - by destruct (Hhuge (table_entry v i)). }
  destruct Cr3_aligned as [??]. edestruct Hw as (o&->&Hf); [done..|]. cbn. destruct o as [f|]; [|by eexists].
  destruct (Hf f eq_refl). rewrite phys_add_spec by dlia. by eexists.
Qed.
End walk.

(** ** A page table in memory *)

(** Bit 0 of an entry is PRESENT, bit 7 HUGE_PAGE, bits 12 to 51 the frame. *)
Definition demo_entry_frame (e : Z) : Z + FrameError :=
  if negb (Z.testbit e 0) then inr FrameNotPresent else
  if Z.testbit e 7 then inr HugeFrame else inl (Z.land e 0xFFFFFFFFFF000).
Definition demo_virt_add (a n : Z) : option Z := if a + n <? 2 ^ 47 then Some (a + n) else None.
Definition demo_phys_add (a n : Z) : option Z := if a + n <? 2 ^ 52 then Some (a + n) else None.

(** The page of 32 MiB, 0x2000, behind the tables at 0x1000, 0x3000, 0x4000 and 0x5000. *)
Definition demo_table_entry (t i : Z) : Z :=
  if (t =? 0x1000) && (i =? 0) then 0x3003 else
  if (t =? 0x3000) && (i =? 0) then 0x4003 else
  if (t =? 0x4000) && (i =? 16) then 0x5003 else
  if (t =? 0x5000) && (i =? 1) then 0x7003 else 0.

Local Abbreviation demo_translate :=
  (translate_addr 0x1000 demo_virt_add demo_phys_add (λ a, a / 2 ^ 39 mod 512) (λ a, a / 2 ^ 30 mod 512)
    (λ a, a / 2 ^ 21 mod 512) (λ a, a / 2 ^ 12 mod 512) (λ a, a mod 4096) demo_entry_frame demo_table_entry).

Lemma demo_entry_frame_aligned e f : demo_entry_frame e = inl f → f mod 4096 = 0 ∧ 0 ≤ f < 2 ^ 52.
Proof.
  unfold demo_entry_frame. destruct (negb _); [done|]. destruct (Z.testbit e 7); [done|]. intros [= <-].
  change 0xFFFFFFFFFF000 with (Z.shiftl (Z.ones 40) 12).
  assert (H : Z.land e (Z.shiftl (Z.ones 40) 12) = e / 2 ^ 12 mod 2 ^ 40 * 2 ^ 12).
  { rewrite <- Z.land_ones, <- Z.shiftr_div_pow2, <- Z.shiftl_mul_pow2 by lia. apply Z.bits_inj'. intros n Hn.
    rewrite Z.land_spec, !Z.shiftl_spec, Z.land_spec by lia. destruct (decide (n < 12)).
    - rewrite (Z.testbit_neg_r (Z.ones 40)), (Z.testbit_neg_r (Z.shiftr _ _)) by lia. by rewrite andb_false_r.
    - rewrite Z.shiftr_spec by lia. by replace (n - 12 + 12) with n by lia. }
  rewrite H. split; [by apply Z.mod_mul|]. pose proof (Z.mod_pos_bound (e / 2 ^ 12) (2 ^ 40)). lia.
Qed.

Lemma translate_addr_maps_witness :
  (∃ f, maps_page 0x1000 demo_virt_add demo_entry_frame demo_table_entry 0 (0x2001234 / 4096) f ∧
    0x7234 = f + 0x2001234 mod 4096 ∧ f mod 4096 = 0 ∧ f = 0x7234 / 4096 * 4096) ∧
  demo_translate 0x2002234 0 = Ok (E:=()) None.
Proof.
  split; [|by vm_compute].
  refine (proj1 (translate_addr_maps (E:=()) 0x1000 demo_virt_add demo_phys_add _ _ _ _ _ demo_entry_frame demo_table_entry
    (λ a _, conj eq_refl (conj eq_refl (conj eq_refl (conj eq_refl eq_refl)))) demo_entry_frame_aligned _ 0x2001234 0 0x7234 _) _).
  - intros p n Hp Hn Hs. unfold demo_phys_add. by rewrite (proj2 (Z.ltb_lt _ _)).
  - lia.
  - by vm_compute.
Defined.
