(* ===== verification/Mmio.v ===== *)
(** * Memory-mapped registers

    The volatile accesses of the drivers: [read_volatile n a] reads the [n]-byte
    register at address [a] and may change the hardware, [write_volatile n a v]
    writes it. [W] is the state of the hardware behind them. *)

From S2P Require Import Prelude Bytes.

Class Mmio (W : Type) := {
  read_volatile : Z → Z → W → W * Z;
  write_volatile : Z → Z → Z → W → W;
}.

Section mmio.
Context {W : Type} {mmio : Mmio W}.

Definition mread {E} (n a : Z) : st W E Z := λ w, let '(w, v) := read_volatile n a w in (w, Ok v).
Definition mwrite {E} (n a v : Z) : st W E () := λ w, (write_volatile n a v w, Ok ()).
End mmio.

(** Complement of a [w]-bit value, and the bits of a mask cleared. *)
Definition not_ (w x : Z) : Z := wrap w (Z.lnot x).

Lemma not_eq w x : 0 ≤ x < 2 ^ w → not_ w x = 2 ^ w - 1 - x.
Proof.
  intros Hx. unfold not_, wrap, Z.lnot. replace (Z.pred (- x)) with (2 ^ w - 1 - x + (-1) * 2 ^ w) by lia.
  rewrite Z.mod_add by lia. apply Z.mod_small. lia.
Qed.

(** Clearing the low [k] bits. *)
Lemma land_not_ones w x k : 0 ≤ k ≤ w → 0 ≤ x < 2 ^ w → Z.land x (not_ w (2 ^ k - 1)) = x - x mod 2 ^ k.
Proof.
  intros Hk Hx. assert (Hp : 0 < 2 ^ k) by (apply Z.pow_pos_nonneg; lia).
  transitivity (x / 2 ^ k * 2 ^ k); [|pose proof (Z.div_mod x (2 ^ k)); lia].
  rewrite <- Z.shiftl_mul_pow2, <- Z.shiftr_div_pow2 by lia.
  apply Z.bits_inj'. intros n Hn. unfold not_, wrap.
  rewrite Z.land_spec, Z.shiftl_spec by done.
  destruct (decide (n < w)).
  - rewrite Z.mod_pow2_bits_low, Z.lnot_spec by lia. replace (2 ^ k - 1) with (Z.ones k) by (rewrite Z.ones_equiv; lia).
    destruct (decide (n < k)).
    + rewrite Z.ones_spec_low, (Z.testbit_neg_r _ (n - k)) by lia. by rewrite andb_false_r.
    + rewrite Z.ones_spec_high by lia. rewrite Z.shiftr_spec by lia. replace (n - k + k) with n by lia.
      by rewrite andb_true_r.
  - rewrite Z.shiftr_spec by lia. replace (n - k + k) with n by lia.
    destruct (decide (0 < w)); [by rewrite (is_u_high w x n) by (done || lia)|].
    replace w with 0 in Hx by lia. replace x with 0 by lia. by rewrite !Z.bits_0.
Qed.
