(* ===== verification/Pci.v ===== *)
(** * PCI configuration space

    [lib/hal/src/pci]: the memory-mapped configuration space ([ecam.rs]), the
    base address registers ([bar.rs]) and the walk over all functions
    ([mod.rs]). *)

From S2P Require Import Prelude Bytes Mmio.

Record PciAddress := { pa_bus : Z; pa_device : Z; pa_function : Z }.

#[global] Instance PciAddress_eq_dec : EqDecision PciAddress.
Proof. solve_decision. Defined.

(** [hal::PhysAddr] is its address. *)
Inductive Bar :=
| Bar_Memory (base size : Z) (prefetchable : bool)
| Bar_Io (port size : Z)
| Bar_Empty.

#[global] Instance Bar_eq_dec : EqDecision Bar.
Proof. solve_decision. Defined.

Definition mmio_phys (b : Bar) : option Z := match b with Bar_Memory base _ _ => Some base | _ => None end.
Definition io_port (b : Bar) : option Z := match b with Bar_Io port _ => Some port | _ => None end.
Definition Bar_size (b : Bar) : Z :=
  match b with Bar_Memory _ size _ => size | Bar_Io _ size => size | Bar_Empty => 0 end.

Record PciDeviceInfo := {
  pi_address : PciAddress;
  vendor_id : Z;
  device_id : Z;
  class : Z;
  subclass : Z;
  prog_if : Z;
  revision : Z;
  bars : list Bar;
  irq_line : option Z;
}.

Definition bar_mmio (info : PciDeviceInfo) (idx : nat) : option Z := bars info !! idx ≫= mmio_phys.
Definition bar_io (info : PciDeviceInfo) (idx : nat) : option Z := bars info !! idx ≫= io_port.

(** The statics of [ecam.rs] and the hardware. *)
Record Ecam (W : Type) := { ECAM_PHYS_BASE : Z; PHYS_OFFSET : Z; hw : W }.
Arguments Build_Ecam {W}. Arguments ECAM_PHYS_BASE {W}. Arguments PHYS_OFFSET {W}. Arguments hw {W}.

Section pci.
Context {W : Type} {mmio : Mmio W}.

(** ** [ecam.rs] *)

Definition init_ecam {E} (ecam_phys phys_offset : Z) : st (Ecam W) E () :=
  modify (λ e, {| ECAM_PHYS_BASE := ecam_phys; PHYS_OFFSET := phys_offset; hw := hw e |}).

Definition is_ready (e : Ecam W) : bool := negb (ECAM_PHYS_BASE e =? 0).

Definition on_hw {E A} (m : st W E A) : st (Ecam W) E A := λ e,
  let '(w, r) := m (hw e) in
  ({| ECAM_PHYS_BASE := ECAM_PHYS_BASE e; PHYS_OFFSET := PHYS_OFFSET e; hw := w |}, r).

Definition ecam_ptr (e : Ecam W) (bus device func offset : Z) : Z :=
  let phys := ECAM_PHYS_BASE e +w Z.shiftl bus 20 +w Z.shiftl device 15 +w Z.shiftl func 12
              +w Z.land offset 0xFFC in
  phys +w PHYS_OFFSET e.

Definition read32 {E} (bus dev func off : Z) : st (Ecam W) E Z :=
  e ← get_st; on_hw (mread 4 (ecam_ptr e bus dev func off)).
Definition write32 {E} (bus dev func off val : Z) : st (Ecam W) E () :=
  e ← get_st; on_hw (mwrite 4 (ecam_ptr e bus dev func off) val).

Definition read16 {E} (bus dev func off : Z) : st (Ecam W) E Z :=
  w ← read32 bus dev func (Z.land off (not_ 16 3));
  mret (wrap 16 (Z.shiftr w (Z.land off 2 * 8))).
Definition read8 {E} (bus dev func off : Z) : st (Ecam W) E Z :=
  w ← read32 bus dev func (Z.land off (not_ 16 3));
  mret (wrap 8 (Z.shiftr w (Z.land off 3 * 8))).

Definition write16 {E} (bus dev func off val : Z) : st (Ecam W) E () :=
  cur ← read32 bus dev func (Z.land off (not_ 16 3));
  let shift := Z.land off 2 * 8 in
  let new := Z.lor (Z.land cur (not_ 32 (wrap 32 (Z.shiftl 0xFFFF shift)))) (wrap 32 (Z.shiftl val shift)) in
  write32 bus dev func (Z.land off (not_ 16 3)) new.
Definition write8 {E} (bus dev func off val : Z) : st (Ecam W) E () :=
  cur ← read32 bus dev func (Z.land off (not_ 16 3));
  let shift := Z.land off 3 * 8 in
  let new := Z.lor (Z.land cur (not_ 32 (wrap 32 (Z.shiftl 0xFF shift)))) (wrap 32 (Z.shiftl val shift)) in
  write32 bus dev func (Z.land off (not_ 16 3)) new.

(** The accessors of [PciDeviceInfo]. *)
Definition info_read8 {E} (i : PciDeviceInfo) (off : Z) : st (Ecam W) E Z :=
  read8 (pa_bus (pi_address i)) (pa_device (pi_address i)) (pa_function (pi_address i)) off.
Definition info_read16 {E} (i : PciDeviceInfo) (off : Z) : st (Ecam W) E Z :=
  read16 (pa_bus (pi_address i)) (pa_device (pi_address i)) (pa_function (pi_address i)) off.
Definition info_read32 {E} (i : PciDeviceInfo) (off : Z) : st (Ecam W) E Z :=
  read32 (pa_bus (pi_address i)) (pa_device (pi_address i)) (pa_function (pi_address i)) off.
Definition info_write8 {E} (i : PciDeviceInfo) (off val : Z) : st (Ecam W) E () :=
  write8 (pa_bus (pi_address i)) (pa_device (pi_address i)) (pa_function (pi_address i)) off val.
Definition info_write32 {E} (i : PciDeviceInfo) (off val : Z) : st (Ecam W) E () :=
  write32 (pa_bus (pi_address i)) (pa_device (pi_address i)) (pa_function (pi_address i)) off val.
Definition info_write16 {E} (i : PciDeviceInfo) (off val : Z) : st (Ecam W) E () :=
  write16 (pa_bus (pi_address i)) (pa_device (pi_address i)) (pa_function (pi_address i)) off val.

Definition enable_bus_master {E} (i : PciDeviceInfo) : st (Ecam W) E () :=
  cmd ← info_read16 i 0x04; info_write16 i 0x04 (Z.lor cmd (Z.shiftl 1 2)).
Definition enable_mmio {E} (i : PciDeviceInfo) : st (Ecam W) E () :=
  cmd ← info_read16 i 0x04; info_write16 i 0x04 (Z.lor cmd (Z.shiftl 1 1)).

(** ** [bar.rs] *)

(** The size from the mask read back. *)
Definition size_of_mask (mask : Z) : Z := wrap 32 (not_ 32 (Z.land mask (not_ 32 0xF)) + 1).

(** The BAR and the slots it takes. *)
Definition probe {E} (bus dev func : Z) (idx : Z) : st (Ecam W) E (Bar * nat) :=
  let offset := wrap 16 (0x10 + idx * 4) in
  orig ← read32 bus dev func offset;
  if (orig =? 0) || (orig =? 0xFFFFFFFF) then mret (Bar_Empty, 1%nat) else
  if negb (Z.land orig 1 =? 0) then
    write32 bus dev func offset 0xFFFFFFFF;;
    mask ← read32 bus dev func offset;
    write32 bus dev func offset orig;;
    mret (Bar_Io (wrap 16 (Z.land orig 0xFFFC)) (size_of_mask mask), 1%nat)
  else
  let bar_type := Z.land (Z.shiftr orig 1) 0x3 in
  let prefetchable := negb (Z.land (Z.shiftr orig 3) 1 =? 0) in
  if bar_type =? 0 then
    write32 bus dev func offset 0xFFFFFFFF;;
    mask ← read32 bus dev func offset;
    write32 bus dev func offset orig;;
    mret (Bar_Memory (Z.land orig (not_ 64 0xF)) (size_of_mask mask) prefetchable, 1%nat)
  else if bar_type =? 2 then
    let offset_hi := wrap 16 (offset + 4) in
    orig_hi ← read32 bus dev func offset_hi;
    write32 bus dev func offset 0xFFFFFFFF;;
    write32 bus dev func offset_hi 0xFFFFFFFF;;
    mask_lo ← read32 bus dev func offset;
    mask_hi ← read32 bus dev func offset_hi;
    write32 bus dev func offset orig;;
    write32 bus dev func offset_hi orig_hi;;
    let mask64 := Z.lor (Z.land mask_lo (not_ 64 0xF)) (wrap 64 (Z.shiftl mask_hi 32)) in
    let size := wrap 64 (not_ 64 mask64 + 1) in
    mret (Bar_Memory (Z.lor (Z.land orig (not_ 64 0xF)) (wrap 64 (Z.shiftl orig_hi 32))) size prefetchable, 2%nat)
  else mret (Bar_Empty, 1%nat).

(** [while i < 6]: [fuel] passes; six are enough, since every pass consumes a slot. *)
Fixpoint parse_loop {E} (fuel : nat) (bus dev func : Z) (i : nat) (bars : list Bar) : st (Ecam W) E (list Bar) :=
  if (i <? 6)%nat then
    match fuel with
    | O => lift Diverge
    | S fuel =>
        '(bar, consumed) ← probe bus dev func (Z.of_nat i);
        parse_loop fuel bus dev func (i + consumed)%nat (<[i := bar]> bars)
    end
  else mret bars.
Definition parse_all {E} (bus dev func : Z) : st (Ecam W) E (list Bar) :=
  parse_loop 6 bus dev func 0 (replicate 6 Bar_Empty).

(** ** [mod.rs] *)

Definition HEADER_TYPE_MF : Z := 0x80.

(** The body of the loop over the functions: the information handed to the
    callback, [None] when the function is absent. *)
Definition probe_function {E} (bus device func : Z) : st (Ecam W) E (option PciDeviceInfo) :=
  val ← read32 bus device func 0x00;
  if Z.land val 0xFFFF =? 0xFFFF then mret None else
  class_dw ← read32 bus device func 0x08;
  ht ← read8 bus device func 0x0E;
  bars ← (if Z.land ht (not_ 8 HEADER_TYPE_MF) =? 0 then parse_all bus device func
          else mret (replicate 6 Bar_Empty));
  v ← read8 bus device func 0x3C;
  mret (Some {|
    pi_address := {| pa_bus := bus; pa_device := device; pa_function := func |};
    vendor_id := wrap 16 (Z.land val 0xFFFF);
    device_id := wrap 16 (Z.shiftr val 16);
    class := wrap 8 (Z.land (Z.shiftr class_dw 24) 0xFF);
    subclass := wrap 8 (Z.land (Z.shiftr class_dw 16) 0xFF);
    prog_if := wrap 8 (Z.land (Z.shiftr class_dw 8) 0xFF);
    revision := wrap 8 (Z.land class_dw 0xFF);
    bars := bars;
    irq_line := if v =? 0xFF then None else Some v |}).

Section walk.
(** The callback and its own state [R]. *)
Context {R E : Type} (f : PciDeviceInfo → st (R * Ecam W) E ()).

Definition walk_function (bus device func : Z) : st (R * Ecam W) E () :=
  info ← on_snd (probe_function bus device func);
  match info with Some info => f info | None => mret () end.

Definition walk_device (bus device : Z) : st (R * Ecam W) E () :=
  val0 ← on_snd (read32 bus device 0 0x00);
  if Z.land val0 0xFFFF =? 0xFFFF then mret () else
  ht0 ← on_snd (read8 bus device 0 0x0E);
  let funcs := if negb (Z.land ht0 HEADER_TYPE_MF =? 0) then 8 else 1 in
  for_ (seqZ 0 funcs) (walk_function bus device).

Definition enumerate : st (R * Ecam W) E () :=
  s ← get_st;
  lift (assert_ (is_ready s.2));;
  for_ (seqZ 0 256) (λ bus, for_ (seqZ 0 32) (λ device, walk_device bus device)).
End walk.
End pci.
