(* ===== verification/PciFacts.v ===== *)
(** * What the PCI layer promises

    The laws of the configuration space as a class over the hardware, the
    address calculation, sizing of base address registers, and what the
    read-modify-write accessors do to registers with write-one-to-clear bits. *)

From S2P Require Import Prelude Bytes Mmio Pci.

Definition valid (a : PciAddress) : Prop :=
  0 ≤ pa_bus a < 256 ∧ 0 ≤ pa_device a < 32 ∧ 0 ≤ pa_function a < 8.
Definition dword (off : Z) : Prop := 0 ≤ off < 4096 ∧ off mod 4 = 0.

(** ** Addresses *)

(** [x] occupies bits [lo..] below [hi]. *)
Lemma land_ffc off : dword off → Z.land off 0xFFC = off.
Proof.
  intros [Ho Hm]. change 0xFFC with (Z.land 0xFFF (not_ 64 (2 ^ 2 - 1))).
  rewrite Z.land_assoc. change 0xFFF with (Z.ones 12). rewrite Z.land_ones by lia.
  rewrite Z.mod_small by (change (2 ^ 12) with 4096; lia).
  rewrite land_not_ones by lia. change (2 ^ 2) with 4. lia.
Qed.

Lemma land_1 x : Z.land x 1 = x mod 2.
Proof. exact (Z.land_ones x 1 ltac:(lia)). Qed.
Lemma land_3 x : Z.land x 3 = x mod 4.
Proof. exact (Z.land_ones x 2 ltac:(lia)). Qed.

Lemma mod_mod_pow2 x j k : 0 ≤ j ≤ k → (x mod 2 ^ k) mod 2 ^ j = x mod 2 ^ j.
Proof.
  intros Hj. apply Z.mod_mod_divide. exists (2 ^ (k - j)). rewrite <- Z.pow_add_r by lia. f_equal. lia.
Qed.

Section facts.
Context {W : Type} {mmio : Mmio W}.
Variables base poff : Z.

Definition at_ (w : W) : Ecam W := {| ECAM_PHYS_BASE := base; PHYS_OFFSET := poff; hw := w |}.
Definition ptr (a : PciAddress) (off : Z) : Z :=
  wrap 64 (base + pa_bus a * 2 ^ 20 + pa_device a * 2 ^ 15 + pa_function a * 2 ^ 12 + off + poff).

Lemma ecam_ptr_eq w a off :
  valid a → dword off → ecam_ptr (at_ w) (pa_bus a) (pa_device a) (pa_function a) off = ptr a off.
Proof.
  intros Ha Ho. unfold ecam_ptr, ptr. rewrite !Z.shiftl_mul_pow2, land_ffc by (done || lia).
  cbn [at_ ECAM_PHYS_BASE PHYS_OFFSET]. unfold wrap.
  rewrite Zplus_mod_idemp_l. do 3 rewrite <- Z.add_assoc, Zplus_mod_idemp_l. by rewrite !Z.add_assoc.
Qed.

(** Distinct registers have distinct addresses, wherever the window lies. *)
Lemma ptr_inj a off a' off' :
  valid a → valid a' → dword off → dword off' → ptr a off = ptr a' off' → a = a' ∧ off = off'.
Proof.
  intros (Hb&Hd&Hf) (Hb'&Hd'&Hf') [Ho _] [Ho' _] H. unfold ptr, wrap in H.
  set (x := pa_bus a * 2 ^ 20 + pa_device a * 2 ^ 15 + pa_function a * 2 ^ 12 + off).
  set (y := pa_bus a' * 2 ^ 20 + pa_device a' * 2 ^ 15 + pa_function a' * 2 ^ 12 + off').
  assert (Hxy : x = y).
  { assert ((base + poff + x) mod 2 ^ 64 = (base + poff + y) mod 2 ^ 64) as E.
    { unfold x, y. rewrite !Z.add_assoc in *. etrans; [|etrans; [exact H|]]; f_equal; lia. }
    apply (f_equal (λ z, (z - (base + poff)) mod 2 ^ 64)) in E. rewrite !Zminus_mod_idemp_l in E.
    rewrite !Z.add_simpl_l in E. rewrite !Z.mod_small in E; unfold x, y in *; lia. }
  unfold x, y in Hxy. destruct a, a'; cbn in *.
  assert (pa_bus = pa_bus0) as -> by lia. assert (pa_device = pa_device0) as -> by lia.
  assert (pa_function = pa_function0) as -> by lia. split; [done|lia].
Qed.

(** The laws of the hardware: reading a configuration register has no effect,
    writing one changes no other register. *)
Class ConfigSpace := {
  cfg : W → PciAddress → Z → Z;
  cfg_range w a off : is_u32 (cfg w a off);
  cfg_read w a off : valid a → dword off → read_volatile 4 (ptr a off) w = (w, cfg w a off);
  cfg_write_other w a off v a' off' : valid a → dword off → (a', off') ≠ (a, off) →
    cfg (write_volatile 4 (ptr a off) v w) a' off' = cfg w a' off';
}.
Context {config : ConfigSpace}.

(** Hardware states that show the same registers. *)
Definition same_cfg (w w' : W) : Prop := ∀ a off, cfg w' a off = cfg w a off.
#[export] Instance same_cfg_equivalence : Equivalence same_cfg.
Proof.
  split; [by intros w a off|by intros w w' H a off; rewrite H|by intros w w' w'' H H' a off; rewrite H', H].
Qed.

Definition written (a : PciAddress) (off v : Z) (w : W) : W := write_volatile 4 (ptr a off) v w.

Lemma read32_ok {E} a off w :
  valid a → dword off →
  read32 (E:=E) (pa_bus a) (pa_device a) (pa_function a) off (at_ w) = (at_ w, Ok (cfg w a off)).
Proof.
  intros Ha Ho. unfold read32. rewrite bind_get_st. unfold on_hw, mread.
  by rewrite ecam_ptr_eq, cfg_read by done.
Qed.

Lemma write32_ok {E} a off v w :
  valid a → dword off →
  write32 (E:=E) (pa_bus a) (pa_device a) (pa_function a) off v (at_ w) = (at_ (written a off v w), Ok ()).
Proof.
  intros Ha Ho. unfold write32. rewrite bind_get_st. unfold on_hw, mwrite. by rewrite ecam_ptr_eq by done.
Qed.

Lemma written_other a off v w a' off' :
  valid a → dword off → (a', off') ≠ (a, off) → cfg (written a off v w) a' off' = cfg w a' off'.
Proof. intros. by apply cfg_write_other. Qed.

(** The dword around a byte offset. *)
Lemma dword_of off : 0 ≤ off < 4096 → Z.land off (not_ 16 3) = off - off mod 4 ∧ dword (off - off mod 4).
Proof.
  intros Ho. change 3 with (2 ^ 2 - 1). rewrite land_not_ones by lia. change (2 ^ 2) with 4.
  split; [done|]. split; dlia.
Qed.

Lemma read8_ok {E} a off w :
  valid a → 0 ≤ off < 4096 →
  read8 (E:=E) (pa_bus a) (pa_device a) (pa_function a) off (at_ w) =
    (at_ w, Ok (cfg w a (off - off mod 4) / 2 ^ (off mod 4 * 8) mod 2 ^ 8)).
Proof.
  intros Ha Ho. destruct (dword_of off Ho) as [Hd Hdw]. unfold read8. rewrite Hd.
  rewrite (st_bind_Ok _ _ _ _ _ (read32_ok a _ w Ha Hdw)). rewrite land_3, Z.shiftr_div_pow2 by dlia. done.
Qed.

Lemma land_2 x : Z.land x 2 = x mod 4 - x mod 2.
Proof.
  change 2 with (Z.land 3 2) at 1. rewrite Z.land_assoc, land_3.
  replace (x mod 2) with (x mod 4 mod 2) by dlia. pose proof (Z.mod_pos_bound x 4 ltac:(lia)) as Hr. generalize dependent (x mod 4). intros y Hy.
  assert (y = 0 ∨ y = 1 ∨ y = 2 ∨ y = 3) as [->|[->|[->| ->]]] by lia; done.
Qed.

Lemma read16_ok {E} a off w :
  valid a → 0 ≤ off < 4096 → off mod 2 = 0 →
  read16 (E:=E) (pa_bus a) (pa_device a) (pa_function a) off (at_ w) =
    (at_ w, Ok (cfg w a (off - off mod 4) / 2 ^ (off mod 4 * 8) mod 2 ^ 16)).
Proof.
  intros Ha Ho Hm. destruct (dword_of off Ho) as [Hd Hdw]. unfold read16. rewrite Hd.
  rewrite (st_bind_Ok _ _ _ _ _ (read32_ok a _ w Ha Hdw)). rewrite land_2, Hm, Z.sub_0_r.
  by rewrite Z.shiftr_div_pow2 by dlia.
Qed.

(** ** Sizing *)

(** A register in which the bits below [2 ^ k] are hardwired to [flags]: the
    behaviour the specification asks of a BAR of [2 ^ k] bytes. *)
Definition sized (a : PciAddress) (off k flags : Z) : Prop :=
  ∀ w v, is_u32 v → cfg (written a off v w) a off = v - v mod 2 ^ k + flags.

Lemma orig_bits x fl :
  0 ≤ fl < 16 → x mod 16 = fl → is_u32 x →
  Z.land x 1 = fl mod 2 ∧ Z.land (Z.shiftr x 1) 3 = fl / 2 mod 4 ∧
  Z.land (Z.shiftr x 3) 1 = fl / 8 ∧ Z.land x (not_ 64 15) = x - fl.
Proof.
  intros Hf Hx [Hr1 Hr2]. rewrite !land_1, land_3, !Z.shiftr_div_pow2 by lia.
  change 15 with (2 ^ 4 - 1). rewrite land_not_ones by lia.
  change (2 ^ 1) with 2. change (2 ^ 3) with 8. change (2 ^ 4) with 16. split_and!; dlia.
Qed.

Lemma ones_mod k : 0 ≤ k ≤ 32 → 0xFFFFFFFF - 0xFFFFFFFF mod 2 ^ k = 2 ^ 32 - 2 ^ k.
Proof.
  intros Hk. assert (2 ^ k * 2 ^ (32 - k) = 2 ^ 32) by (rewrite <- Z.pow_add_r by lia; f_equal; lia).
  assert (0 < 2 ^ k) by (apply Z.pow_pos_nonneg; lia). assert (0 < 2 ^ (32 - k)) by (apply Z.pow_pos_nonneg; lia).
  assert (0xFFFFFFFF mod 2 ^ k = 2 ^ k - 1); [|lia].
  symmetry. apply Z.mod_unique with (q := 2 ^ (32 - k) - 1); lia.
Qed.

Lemma size_of_mask_ok k fl :
  4 ≤ k ≤ 31 → 0 ≤ fl < 16 → size_of_mask (0xFFFFFFFF - 0xFFFFFFFF mod 2 ^ k + fl) = 2 ^ k.
Proof.
  intros Hk Hf. assert (Hdiv : 2 ^ k = 16 * 2 ^ (k - 4)).
  { change 16 with (2 ^ 4). rewrite <- Z.pow_add_r by lia. f_equal. lia. }
  assert (Hp : 0 < 2 ^ (k - 4)) by (apply Z.pow_pos_nonneg; lia).
  assert (Hlt : 2 ^ k < 2 ^ 32) by (apply Z.pow_lt_mono_r; lia).
  rewrite ones_mod by lia. unfold size_of_mask. change 0xF with (2 ^ 4 - 1). rewrite land_not_ones by lia.
  assert (Hq : (2 ^ 32 - 2 ^ k + fl) mod 2 ^ 4 = fl).
  { change (2 ^ 4) with 16. symmetry. apply Z.mod_unique with (q := 2 ^ 28 - 2 ^ (k - 4)); lia. }
  rewrite Hq, not_eq by lia. rewrite wrap_small by lia. lia.
Qed.

(** Sizing by writing ones and restoring leaves the registers as they were. *)
Lemma sized_restores a off k fl w w' :
  sized a off k fl → cfg w a off mod 2 ^ k = fl → cfg (written a off (cfg w a off) w') a off = cfg w a off.
Proof. intros Hs Hm. rewrite Hs by apply cfg_range. lia. Qed.

Lemma bar_dword idx : 0 ≤ idx < 7 → wrap 16 (0x10 + idx * 4) = 0x10 + idx * 4 ∧ dword (0x10 + idx * 4).
Proof. intros. split; [apply wrap_small; lia|]. split; dlia. Qed.

(** One register sized and restored. *)
Lemma size_and_restore a off k fl w :
  valid a → dword off → sized a off k fl → 0 ≤ k ≤ 32 → cfg w a off mod 2 ^ k = fl →
  let w1 := written a off 0xFFFFFFFF w in
  let w2 := written a off (cfg w a off) w1 in
  cfg w1 a off = 2 ^ 32 - 2 ^ k + fl ∧ same_cfg w w2.
Proof.
  intros Ha Hd Hs Hk Hm w1 w2. split.
  - unfold w1. rewrite Hs by (unfold is_u; lia). by rewrite ones_mod.
  - intros a' off'. destruct (decide ((a', off') = (a, off))) as [[= -> ->]|Hne].
    + by eapply sized_restores.
    + unfold w2, w1. by rewrite !written_other.
Qed.

Lemma probe_mem32 {E} a idx w k fl :
  valid a → 0 ≤ idx < 6 → let off := 0x10 + idx * 4 in
  sized a off k fl → 4 ≤ k ≤ 31 → 0 ≤ fl < 16 → fl mod 2 = 0 → fl / 2 mod 4 = 0 →
  cfg w a off mod 2 ^ k = fl → cfg w a off ≠ 0 →
  ∃ w', same_cfg w w' ∧
    probe (E:=E) (pa_bus a) (pa_device a) (pa_function a) idx (at_ w) =
      (at_ w', Ok (Bar_Memory (cfg w a off - fl) (2 ^ k) (negb (fl / 8 =? 0)), 1%nat)).
Proof.
  intros Ha Hi off Hs Hk Hf H2 H24 Hm H0. destruct (bar_dword idx) as [Hw Hd]; [lia|].
  fold off in Hw, Hd. pose proof (cfg_range w a off) as Hr. set (x := cfg w a off) in *.
  assert (Hx16 : x mod 16 = fl).
  { change 16 with (2 ^ 4). rewrite <- (mod_mod_pow2 x 4 k), Hm by lia. apply Z.mod_small. done. }
  destruct (orig_bits x fl Hf Hx16 Hr) as (B1&B2&B3&B4).
  destruct (size_and_restore a off k fl w Ha Hd Hs ltac:(lia) Hm) as [Hmask Hsame]. fold x in Hsame.
  exists (written a off x (written a off 0xFFFFFFFF w)). split; [exact Hsame|].
  unfold probe. fold off. rewrite Hw. cbv zeta. rewrite (st_bind_Ok _ _ _ _ _ (read32_ok a off w Ha Hd)). fold x.
  rewrite (proj2 (Z.eqb_neq x 0)) by done. rewrite (proj2 (Z.eqb_neq x 0xFFFFFFFF)) by dlia. cbn [orb].
  rewrite B1, H2, B2, H24, B3, B4. cbn [Z.eqb negb].
  rewrite (st_bind_Ok _ _ _ _ _ (write32_ok a off _ w Ha Hd)).
  rewrite (st_bind_Ok _ _ _ _ _ (read32_ok a off _ Ha Hd)).
  rewrite (st_bind_Ok _ _ _ _ _ (write32_ok a off x _ Ha Hd)).
  rewrite Hmask, <- ones_mod, size_of_mask_ok by lia. done.
Qed.

Lemma flags_low x k fl :
  4 ≤ k → 0 ≤ fl < 16 → x mod 2 ^ k = fl → x mod 16 = fl.
Proof.
  intros Hk Hf Hm. change 16 with (2 ^ 4). rewrite <- (mod_mod_pow2 x 4 k), Hm by lia. by apply Z.mod_small.
Qed.

Lemma size64_ok k :
  4 ≤ k ≤ 63 →
  wrap 64 (not_ 64 (2 ^ 32 - 2 ^ Z.min k 32 + (2 ^ 32 - 2 ^ Z.max 0 (k - 32)) * 2 ^ 32) + 1) = 2 ^ k.
Proof.
  intros Hk. assert (Hp : 0 < 2 ^ k < 2 ^ 64) by (split; [apply Z.pow_pos_nonneg|apply Z.pow_lt_mono_r]; lia).
  assert (2 ^ 32 - 2 ^ Z.min k 32 + (2 ^ 32 - 2 ^ Z.max 0 (k - 32)) * 2 ^ 32 = 2 ^ 64 - 2 ^ k) as ->.
  { destruct (decide (k ≤ 32)).
    - rewrite Z.min_l, Z.max_l by lia. change (2 ^ 0) with 1. lia.
    - rewrite Z.min_r, Z.max_r by lia. assert (2 ^ (k - 32) * 2 ^ 32 = 2 ^ k) by (rewrite <- Z.pow_add_r by lia; f_equal; lia).
      lia. }
  rewrite not_eq, wrap_small by lia. lia.
Qed.

Lemma probe_mem64 {E} a idx w k fl :
  valid a → 0 ≤ idx < 6 → let off := 0x10 + idx * 4 in
  sized a off (Z.min k 32) fl → sized a (off + 4) (Z.max 0 (k - 32)) 0 → 4 ≤ k ≤ 63 →
  0 ≤ fl < 16 → fl mod 2 = 0 → fl / 2 mod 4 = 2 →
  cfg w a off mod 2 ^ Z.min k 32 = fl → cfg w a (off + 4) mod 2 ^ Z.max 0 (k - 32) = 0 →
  ∃ w', same_cfg w w' ∧
    probe (E:=E) (pa_bus a) (pa_device a) (pa_function a) idx (at_ w) =
      (at_ w', Ok (Bar_Memory (cfg w a off - fl + cfg w a (off + 4) * 2 ^ 32) (2 ^ k) (negb (fl / 8 =? 0)), 2%nat)).
Proof.
  intros Ha Hi off Hs Hs' Hk Hf H2 H24 Hm Hm'. destruct (bar_dword idx) as [Hw Hd]; [lia|].
  assert (Hw' : wrap 16 (off + 4) = off + 4 ∧ dword (off + 4)).
  { destruct (bar_dword (idx + 1)) as [Hw1 Hd1]; [lia|]. by replace (off + 4) with (0x10 + (idx + 1) * 4) by lia. }
  destruct Hw' as [Hw' Hd']. fold off in Hw, Hd.
  assert (Hoff : 0x10 + idx * 4 = off) by done. clearbody off.
  pose proof (cfg_range w a off) as Hr. pose proof (cfg_range w a (off + 4)) as Hr'.
  assert (Hx16 : cfg w a off mod 16 = fl) by (eapply (flags_low _ (Z.min k 32)); lia).
  set (x := cfg w a off) in *. set (y := cfg w a (off + 4)) in *.
  destruct (orig_bits x fl Hf Hx16 Hr) as (B1&B2&B3&B4).
  set (w1 := written a off 0xFFFFFFFF w). set (w2 := written a (off + 4) 0xFFFFFFFF w1).
  assert (Hlo : cfg w2 a off = 2 ^ 32 - 2 ^ Z.min k 32 + fl).
  { unfold w2, w1. rewrite written_other by (done || (intros [=]; lia)). rewrite Hs by (unfold is_u; lia).
    by rewrite ones_mod by lia. }
  assert (Hhi : cfg w2 a (off + 4) = 2 ^ 32 - 2 ^ Z.max 0 (k - 32)).
  { unfold w2. rewrite Hs' by (unfold is_u; lia). rewrite ones_mod by lia. lia. }
  exists (written a (off + 4) y (written a off x w2)). split.
  { intros a' o'. destruct (decide ((a', o') = (a, off + 4))) as [[= -> ->]|Hne].
    - rewrite Hs' by done. fold y. lia.
    - rewrite written_other by done. destruct (decide ((a', o') = (a, off))) as [[= -> ->]|Hne'].
      + rewrite Hs by done. fold x. lia.
      + unfold w2, w1. by rewrite !written_other. }
  unfold probe. rewrite Hoff, Hw. cbv zeta. rewrite (st_bind_Ok _ _ _ _ _ (read32_ok a off w Ha Hd)). fold x.
  rewrite (proj2 (Z.eqb_neq x 0)) by dlia. rewrite (proj2 (Z.eqb_neq x 0xFFFFFFFF)) by dlia. cbn [orb].
  rewrite B1, H2, B2, H24, B3, B4, Hw'. cbn [Z.eqb negb]. change (2 =? 2)%positive with true. cbv iota.
  rewrite (st_bind_Ok _ _ _ _ _ (read32_ok a _ w Ha Hd')). fold y.
  rewrite (st_bind_Ok _ _ _ _ _ (write32_ok a off _ w Ha Hd)).
  rewrite (st_bind_Ok _ _ _ _ _ (write32_ok a _ _ _ Ha Hd')). fold w1 w2.
  rewrite (st_bind_Ok _ _ _ _ _ (read32_ok a off w2 Ha Hd)).
  rewrite (st_bind_Ok _ _ _ _ _ (read32_ok a _ w2 Ha Hd')).
  rewrite (st_bind_Ok _ _ _ _ _ (write32_ok a off x _ Ha Hd)).
  rewrite (st_bind_Ok _ _ _ _ _ (write32_ok a _ y _ Ha Hd')).
  assert (Hlo16 : (2 ^ 32 - 2 ^ Z.min k 32 + fl) mod 16 = fl).
  { apply (flags_low _ 4); [lia|done|]. change (2 ^ 4) with 16. symmetry.
    assert (2 ^ (Z.min k 32 - 4) * 2 ^ 4 = 2 ^ Z.min k 32) by (rewrite <- Z.pow_add_r by lia; f_equal; lia).
    apply Z.mod_unique with (q := 2 ^ 28 - 2 ^ (Z.min k 32 - 4)); lia. }
  assert (0 < 2 ^ Z.min k 32 ≤ 2 ^ 32) by (split; [apply Z.pow_pos_nonneg|apply Z.pow_le_mono_r]; lia).
  assert (0 < 2 ^ Z.max 0 (k - 32) ≤ 2 ^ 32) by (split; [apply Z.pow_pos_nonneg|apply Z.pow_le_mono_r]; lia).
  destruct Hr, Hr'. assert (0 ≤ x - fl) by dlia. rewrite Hlo, Hhi. change 0xF with (2 ^ 4 - 1). rewrite land_not_ones by lia.
  change (2 ^ 4) with 16. rewrite Hlo16, !Z.shiftl_mul_pow2 by lia.
  rewrite (wrap_small 64 (y * 2 ^ 32)), (wrap_small 64 (_ * 2 ^ 32)), !lor_shift_add by lia.
  replace (2 ^ 32 - 2 ^ Z.min k 32 + fl - fl) with (2 ^ 32 - 2 ^ Z.min k 32) by lia.
  by rewrite size64_ok.
Qed.

(** ** The shapes of a BAR *)

(** A 32-bit memory BAR of [2 ^ k] bytes with flags [fl], assigned. *)
Definition mem32_bar (w : W) (a : PciAddress) (off k fl : Z) : Prop :=
  sized a off k fl ∧ 4 ≤ k ≤ 31 ∧ 0 ≤ fl < 16 ∧ fl mod 2 = 0 ∧ fl / 2 mod 4 = 0 ∧
  cfg w a off mod 2 ^ k = fl ∧ cfg w a off ≠ 0.
(** A 64-bit memory BAR in the registers at [off] and [off + 4]. *)
Definition mem64_bar (w : W) (a : PciAddress) (off k fl : Z) : Prop :=
  sized a off (Z.min k 32) fl ∧ sized a (off + 4) (Z.max 0 (k - 32)) 0 ∧ 4 ≤ k ≤ 63 ∧
  0 ≤ fl < 16 ∧ fl mod 2 = 0 ∧ fl / 2 mod 4 = 2 ∧
  cfg w a off mod 2 ^ Z.min k 32 = fl ∧ cfg w a (off + 4) mod 2 ^ Z.max 0 (k - 32) = 0.
(** An I/O BAR of [2 ^ k] ports. *)
Definition io_bar (w : W) (a : PciAddress) (off k : Z) : Prop :=
  sized a off k 1 ∧ 2 ≤ k ≤ 31 ∧ cfg w a off mod 2 ^ k = 1 ∧ cfg w a off ≠ 0xFFFFFFFF.

(** Sizing a memory BAR reports its base, its size and its prefetch bit, for
    32-bit BARs of 16 bytes to 2 GiB and 64-bit BARs of 16 bytes to 2^63, the
    latter as two slots, and leaves every configuration register as it was. *)
Theorem probe_memory_bars {E} a idx w k fl :
  valid a → 0 ≤ idx < 6 → let off := 0x10 + idx * 4 in
  (mem32_bar w a off k fl → ∃ w', same_cfg w w' ∧
     probe (E:=E) (pa_bus a) (pa_device a) (pa_function a) idx (at_ w) =
       (at_ w', Ok (Bar_Memory (cfg w a off - fl) (2 ^ k) (negb (fl / 8 =? 0)), 1%nat))) ∧
  (mem64_bar w a off k fl → ∃ w', same_cfg w w' ∧
     probe (E:=E) (pa_bus a) (pa_device a) (pa_function a) idx (at_ w) =
       (at_ w', Ok (Bar_Memory (cfg w a off - fl + cfg w a (off + 4) * 2 ^ 32) (2 ^ k) (negb (fl / 8 =? 0)), 2%nat))).
Proof.
  intros Ha Hi off. split.
  - intros (?&?&?&?&?&?&?). by apply probe_mem32.
  - intros (?&?&?&?&?&?&?&?). by apply probe_mem64.
Qed.

Lemma io_mask k : 2 ≤ k ≤ 31 → size_of_mask (2 ^ 32 - 2 ^ k + 1) = 2 ^ Z.max k 4.
Proof.
  intros Hk. destruct (decide (k = 2)) as [->|]; [by vm_compute|].
  destruct (decide (k = 3)) as [->|]; [by vm_compute|].
  rewrite Z.max_l by lia. rewrite <- ones_mod by lia. apply size_of_mask_ok; lia.
Qed.

(** Sizing an I/O BAR clears four low bits of the mask, as for memory, where
    the specification has two: a BAR of 4 or 8 ports is reported with 16. *)
Theorem io_bar_rounded_up {E} a idx w k :
  valid a → 0 ≤ idx < 6 → let off := 0x10 + idx * 4 in io_bar w a off k →
  ∃ w' port, same_cfg w w' ∧
    probe (E:=E) (pa_bus a) (pa_device a) (pa_function a) idx (at_ w) =
      (at_ w', Ok (Bar_Io port (2 ^ Z.max k 4), 1%nat)).
Proof.
  intros Ha Hi off (Hs&Hk&Hm&Hones). destruct (bar_dword idx) as [Hw Hd]; [lia|]. fold off in Hw, Hd.
  destruct (size_and_restore a off k 1 w Ha Hd Hs ltac:(lia) Hm) as [Hmask Hsame].
  eexists (written a off (cfg w a off) (written a off 0xFFFFFFFF w)), _. split; [exact Hsame|].
  assert (H2 : cfg w a off mod 2 = 1).
  { change 2 with (2 ^ 1). by rewrite <- (mod_mod_pow2 _ 1 k), Hm by lia. }
  unfold probe. fold off. rewrite Hw. cbv zeta. rewrite (st_bind_Ok _ _ _ _ _ (read32_ok a off w Ha Hd)).
  rewrite (proj2 (Z.eqb_neq _ 0)) by dlia. rewrite (proj2 (Z.eqb_neq _ 0xFFFFFFFF)) by done. cbn [orb].
  rewrite land_1, H2. cbn [Z.eqb negb].
  rewrite (st_bind_Ok _ _ _ _ _ (write32_ok a off _ w Ha Hd)).
  rewrite (st_bind_Ok _ _ _ _ _ (read32_ok a off _ Ha Hd)).
  rewrite (st_bind_Ok _ _ _ _ _ (write32_ok a off _ _ Ha Hd)).
  by rewrite Hmask, io_mask.
Qed.

(** ** The command register *)

(** Command and status share a dword. The command half is plain; the status
    bits in [rw1c] are cleared by writing ones to them, the others are
    read-only. *)
Definition command_status (a : PciAddress) (rw1c : Z) : Prop :=
  ∀ w v, is_u32 v → cfg (written a 4 v w) a 4 =
    v mod 2 ^ 16 + Z.ldiff (cfg w a 4 / 2 ^ 16) (Z.land (v / 2 ^ 16) rw1c) * 2 ^ 16.

Lemma write16_low {E} a val w :
  valid a → is_u16 val →
  write16 (E:=E) (pa_bus a) (pa_device a) (pa_function a) 4 val (at_ w) =
    (at_ (written a 4 (val + cfg w a 4 / 2 ^ 16 * 2 ^ 16) w), Ok ()).
Proof.
  intros Ha [Hv1 Hv2]. destruct (dword_of 4 ltac:(lia)) as [Hd Hdw]. change (4 mod 4) with 0 in *.
  rewrite Z.sub_0_r in *. unfold write16. rewrite Hd.
  rewrite (st_bind_Ok _ _ _ _ _ (read32_ok a _ w Ha Hdw)). change (Z.land 4 2 * 8) with 0.
  rewrite !Z.shiftl_0_r. destruct (cfg_range w a 4) as [Hc1 Hc2].
  rewrite !wrap_small by lia. change 0xFFFF with (2 ^ 16 - 1). rewrite land_not_ones by lia.
  replace (cfg w a 4 - cfg w a 4 mod 2 ^ 16) with (cfg w a 4 / 2 ^ 16 * 2 ^ 16)
    by (pose proof (Z.div_mod (cfg w a 4) (2 ^ 16)); lia).
  rewrite Z.lor_comm, lor_shift_add by lia. by rewrite write32_ok.
Qed.

(** Enabling bus mastering sets its bit in the command register and keeps
    the others, but the write goes out as a whole dword, so every pending
    write-one-to-clear bit of the status register (the error bits) is lost. *)
Theorem enable_bus_master_clears_status {E} info rw1c w :
  let a := pi_address info in
  valid a → command_status a rw1c →
  ∃ w', enable_bus_master (E:=E) info (at_ w) = (at_ w', Ok ()) ∧
    cfg w' a 4 mod 2 ^ 16 = Z.lor (cfg w a 4 mod 2 ^ 16) 4 ∧
    cfg w' a 4 / 2 ^ 16 = Z.ldiff (cfg w a 4 / 2 ^ 16) rw1c.
Proof.
  intros a Ha Hcs. unfold enable_bus_master, info_read16, info_write16. fold a.
  rewrite (st_bind_Ok _ _ _ _ _ (read16_ok a 4 w Ha ltac:(lia) ltac:(done))). change (Z.shiftl 1 2) with 4.
  change (4 - 4 mod 4) with 4. change (4 mod 4 * 8) with 0. rewrite Z.pow_0_r, Z.div_1_r.
  pose proof (Z.mod_pos_bound (cfg w a 4) (2 ^ 16) ltac:(lia)) as Hcmd.
  set (cmd := cfg w a 4 mod 2 ^ 16) in *. destruct (cfg_range w a 4) as [Hc1 Hc2].
  assert (Hv : is_u16 (Z.lor cmd 4)) by (apply is_u_lor; unfold is_u; lia). destruct Hv as [Hv1 Hv2].
  assert (Hs : 0 ≤ cfg w a 4 / 2 ^ 16 < 2 ^ 16) by dlia. set (s := cfg w a 4 / 2 ^ 16) in *.
  eexists. split; [by apply write16_low|]. fold s.
  assert (Hvd : (Z.lor cmd 4 + s * 2 ^ 16) / 2 ^ 16 = s) by (rewrite Z.div_add by lia; rewrite Z.div_small; lia).
  assert (Hvm : (Z.lor cmd 4 + s * 2 ^ 16) mod 2 ^ 16 = Z.lor cmd 4) by (rewrite Z.mod_add by lia; apply Z.mod_small; lia).
  rewrite Hcs by (unfold is_u; lia). fold s. rewrite Hvd, Hvm. split.
  - rewrite Z.mod_add by lia. apply Z.mod_small. lia.
  - rewrite Z.div_add by lia. rewrite Z.div_small by lia. rewrite Z.add_0_l.
    apply Z.bits_inj'. intros n Hn. rewrite !Z.ldiff_spec, Z.land_spec. by destruct (Z.testbit s n), (Z.testbit rw1c n).
Qed.
End facts.
