(* ===== verification/PciWalk.v ===== *)
(** * The walk over the PCI functions

    [enumerate] hands exactly the functions that are present to its callback,
    in bus, device, function order, with the identification read from their
    configuration headers, and leaves the configuration space as it found it. *)

From S2P Require Import Prelude Bytes Mmio Pci PciFacts.

(** ** What is there to be found *)

Section walk.
Context {W : Type} {mmio : Mmio W} (base poff : Z) {config : ConfigSpace base poff}.
Local Abbreviation at_ := (at_ base poff).
Local Abbreviation same := (same_cfg base poff).

Definition present (w : W) (a : PciAddress) : bool := negb (cfg base poff w a 0 mod 2 ^ 16 =? 0xFFFF).
Definition multifunction (w : W) (a : PciAddress) : bool :=
  negb (Z.land (cfg base poff w a 0x0C / 2 ^ 16 mod 2 ^ 8) 0x80 =? 0).
Definition addr (bus device func : Z) : PciAddress :=
  {| pa_bus := bus; pa_device := device; pa_function := func |}.

(** The functions of a device: none without a function 0, the others only when
    function 0 says there are several. *)
Definition device_functions (w : W) (bus device : Z) : list PciAddress :=
  if present w (addr bus device 0) then
    filter (λ a, present w a = true)
      (addr bus device <$> seqZ 0 (if multifunction w (addr bus device 0) then 8 else 1))
  else [].
Definition functions (w : W) : list PciAddress :=
  bus ← seqZ 0 256; device ← seqZ 0 32; device_functions w bus device.

(** The information reported for the function at [a]. *)
Definition info_ok (w : W) (a : PciAddress) (info : PciDeviceInfo) : Prop :=
  let id := cfg base poff w a 0 in
  let class_dw := cfg base poff w a 8 in
  let irq := cfg base poff w a 0x3C mod 2 ^ 8 in
  pi_address info = a ∧ vendor_id info = id mod 2 ^ 16 ∧ device_id info = id / 2 ^ 16 ∧
  class info = class_dw / 2 ^ 24 ∧ subclass info = class_dw / 2 ^ 16 mod 2 ^ 8 ∧
  prog_if info = class_dw / 2 ^ 8 mod 2 ^ 8 ∧ revision info = class_dw mod 2 ^ 8 ∧
  irq_line info = (if irq =? 0xFF then None else Some irq) ∧ length (bars info) = 6%nat.

(** What the walk asks of the hardware: writing back the value a BAR holds
    gives it that value again. *)
Definition bars_restore (w : W) : Prop :=
  ∀ a idx w', valid a → 0 ≤ idx ≤ 6 →
    cfg base poff (written base poff a (0x10 + idx * 4) (cfg base poff w a (0x10 + idx * 4)) w') a (0x10 + idx * 4) =
    cfg base poff w a (0x10 + idx * 4).

#[local] Instance present_proper a : Proper (same ==> eq) (λ w, present w a).
Proof. intros w w' H. unfold present. by rewrite H. Qed.

Lemma bars_restore_same w w' : same w w' → bars_restore w → bars_restore w'.
Proof. intros Hs Hr a idx w1 Ha Hi. rewrite !Hs. by apply Hr. Qed.

(** ** One function *)

(** A register written over and over and then set back. *)
Lemma same_after a off w w1 v :
  valid a → dword off → (∀ a' o', (a', o') ≠ (a, off) → cfg base poff w1 a' o' = cfg base poff w a' o') →
  cfg base poff (written base poff a off v w1) a off = cfg base poff w a off →
  same w (written base poff a off v w1).
Proof.
  intros Ha Hd Hother Hat a' o'. destruct (decide ((a', o') = (a, off))) as [[= -> ->]|Hne]; [done|].
  rewrite written_other by done. by apply Hother.
Qed.

Lemma probe_same {E} a idx w :
  valid a → 0 ≤ idx < 6 → bars_restore w →
  ∃ w' bar n, probe (E:=E) (pa_bus a) (pa_device a) (pa_function a) idx (at_ w) = (at_ w', Ok (bar, n)) ∧
    (1 ≤ n ≤ 2)%nat ∧ same w w'.
Proof.
  intros Ha Hi Hr. destruct (bar_dword idx) as [Hw Hd]; [lia|].
  destruct (bar_dword (idx + 1)) as [Hw' Hd']; [lia|].
  pose proof (λ w', Hr a idx w' Ha ltac:(lia)) as Hback. pose proof (λ w', Hr a (idx + 1) w' Ha ltac:(lia)) as Hback'.
  replace (0x10 + (idx + 1) * 4) with (0x10 + idx * 4 + 4) in * by lia.
  unfold probe. rewrite Hw. set (off := 0x10 + idx * 4) in *. clearbody off. cbv zeta.
  rewrite (st_bind_Ok _ _ _ _ _ (read32_ok base poff a off w Ha Hd)).
  set (x := cfg base poff w a off) in *. case_match; [eexists w, _, _; split; [done|]; split; [lia|reflexivity]|].
  assert (Hone : same w (written base poff a off x (written base poff a off 0xFFFFFFFF w))).
  { apply same_after; [done..| |by apply Hback]. intros a' o' Hne. by apply written_other. }
  case_match.
  { rewrite (st_bind_Ok _ _ _ _ _ (write32_ok base poff a off _ w Ha Hd)).
    rewrite (st_bind_Ok _ _ _ _ _ (read32_ok base poff a off _ Ha Hd)).
    rewrite (st_bind_Ok _ _ _ _ _ (write32_ok base poff a off x _ Ha Hd)).
    eexists _, _, _. split; [done|]. split; [lia|done]. }
  case_match.
  { rewrite (st_bind_Ok _ _ _ _ _ (write32_ok base poff a off _ w Ha Hd)).
    rewrite (st_bind_Ok _ _ _ _ _ (read32_ok base poff a off _ Ha Hd)).
    rewrite (st_bind_Ok _ _ _ _ _ (write32_ok base poff a off x _ Ha Hd)).
    eexists _, _, _. split; [done|]. split; [lia|done]. }
  case_match; [|eexists w, _, _; split; [done|]; split; [lia|reflexivity]]. rewrite Hw'.
  rewrite (st_bind_Ok _ _ _ _ _ (read32_ok base poff a _ w Ha Hd')).
  rewrite (st_bind_Ok _ _ _ _ _ (write32_ok base poff a off _ w Ha Hd)).
  rewrite (st_bind_Ok _ _ _ _ _ (write32_ok base poff a _ _ _ Ha Hd')).
  rewrite (st_bind_Ok _ _ _ _ _ (read32_ok base poff a off _ Ha Hd)).
  rewrite (st_bind_Ok _ _ _ _ _ (read32_ok base poff a _ _ Ha Hd')).
  rewrite (st_bind_Ok _ _ _ _ _ (write32_ok base poff a off x _ Ha Hd)).
  rewrite (st_bind_Ok _ _ _ _ _ (write32_ok base poff a _ _ _ Ha Hd')).
  eexists _, _, _. split; [done|]. split; [lia|]. apply same_after; [done..| |by apply Hback'].
  intros a' o' Hne. destruct (decide ((a', o') = (a, off))) as [[= -> ->]|Hne']; [by apply Hback|].
  by rewrite !written_other.
Qed.

(** The loop over the BARs ends within its six passes. *)
Lemma parse_loop_same {E} a fuel i bs w :
  valid a → (6 ≤ fuel + i)%nat → bars_restore w → length bs = 6%nat →
  ∃ w' bs', parse_loop (E:=E) fuel (pa_bus a) (pa_device a) (pa_function a) i bs (at_ w) = (at_ w', Ok bs') ∧
    length bs' = 6%nat ∧ same w w'.
Proof.
  intros Ha. revert i bs w. induction fuel as [|fuel IH]; intros i bs w Hf Hr Hl; cbn [parse_loop].
  - rewrite (proj2 (Nat.ltb_ge i 6)) by lia. by exists w, bs.
  - destruct (Nat.ltb_spec i 6); [|by exists w, bs].
    destruct (probe_same (E:=E) a (Z.of_nat i) w Ha ltac:(lia) Hr) as (w1&bar&n&Hp&Hn&Hs).
    rewrite (st_bind_Ok _ _ _ _ _ Hp).
    destruct (IH (i + n)%nat (<[i := bar]> bs) w1) as (w2&bs'&Hrun&Hl'&Hs');
      [lia|by eapply bars_restore_same|by rewrite length_insert|].
    exists w2, bs'. split_and!; [done|done|by etrans].
Qed.

Lemma parse_all_same {E} a w :
  valid a → bars_restore w →
  ∃ w' bs, parse_all (E:=E) (pa_bus a) (pa_device a) (pa_function a) (at_ w) = (at_ w', Ok bs) ∧
    length bs = 6%nat ∧ same w w'.
Proof. intros Ha Hr. apply parse_loop_same; [done|lia|done|done]. Qed.

Lemma land_ffff x : Z.land x 0xFFFF = x mod 2 ^ 16.
Proof. exact (Z.land_ones x 16 ltac:(lia)). Qed.
Lemma land_ff x : Z.land x 0xFF = x mod 2 ^ 8.
Proof. exact (Z.land_ones x 8 ltac:(lia)). Qed.

Lemma probe_function_ok {E} a w :
  valid a → bars_restore w →
  ∃ w' r, probe_function (E:=E) (pa_bus a) (pa_device a) (pa_function a) (at_ w) = (at_ w', Ok r) ∧ same w w' ∧
    if present w a then ∃ info, r = Some info ∧ info_ok w a info else r = None.
Proof.
  intros Ha Hr. unfold probe_function, present.
  rewrite (st_bind_Ok _ _ _ _ _ (read32_ok base poff a 0 w Ha ltac:(done))).
  pose proof (cfg_range base poff w a 0) as [Hid1 Hid2]. pose proof (cfg_range base poff w a 8) as [Hcl1 Hcl2].
  set (id := cfg base poff w a 0) in *. rewrite land_ffff.
  destruct (id mod 2 ^ 16 =? 0xFFFF) eqn:Hp; cbn [negb]; [eexists w, _; split; [done|]; by split|].
  rewrite (st_bind_Ok _ _ _ _ _ (read32_ok base poff a 8 w Ha ltac:(done))).
  rewrite (st_bind_Ok _ _ _ _ _ (read8_ok base poff a 0x0E w Ha ltac:(done))).
  set (dw := cfg base poff w a 8) in *.
  assert (Hbars : ∃ w1 bs, (if Z.land (cfg base poff w a (0x0E - 0x0E mod 4) / 2 ^ (0x0E mod 4 * 8) mod 2 ^ 8)
      (not_ 8 HEADER_TYPE_MF) =? 0 then parse_all (pa_bus a) (pa_device a) (pa_function a)
      else mret (replicate 6 Bar_Empty)) (at_ w) = (at_ w1, Ok (E:=E) bs) ∧ length bs = 6%nat ∧ same w w1).
  { case_match; [by apply parse_all_same|]. eexists w, _. split; [done|]. by split. }
  destruct Hbars as (w1&bs&Hb&Hl&Hs). rewrite (st_bind_Ok _ _ _ _ _ Hb).
  rewrite (st_bind_Ok _ _ _ _ _ (read8_ok base poff a 0x3C w1 Ha ltac:(done))).
  eexists w1, _. split; [done|]. split; [done|]. eexists. split; [done|].
  change (0x3C - 0x3C mod 4) with 0x3C. change (0x3C mod 4 * 8) with 0.
  rewrite !Hs, Z.pow_0_r, Z.div_1_r, !Z.shiftr_div_pow2, !land_ff by lia. unfold info_ok, wrap. fold id dw.
  destruct a as [b d f]. cbn [pi_address vendor_id device_id class subclass prog_if revision irq_line bars].
  rewrite !Zmod_mod. split_and!; try done; apply Z.mod_small; dlia.
Qed.

(** ** The walk with a callback *)

Context {R E : Type} (f : PciDeviceInfo → st (R * Ecam W) E ()) (step : PciDeviceInfo → R → R → Prop).
Variable w0 : W.
Hypothesis Hrestore : bars_restore w0.
(** What the walk asks of the callback: given the right information it returns,
    leaves the configuration space alone and changes its own state by [step]. *)
Hypothesis f_ok : ∀ a info r w, same w0 w → valid a → present w0 a = true → info_ok w0 a info →
  ∃ r' w', f info (r, at_ w) = ((r', at_ w'), Ok ()) ∧ same w0 w' ∧ step info r r'.

(** The callback's steps for the functions of a list. *)
Fixpoint reported (l : list PciAddress) (r r' : R) : Prop :=
  match l with
  | [] => r' = r
  | a :: l => ∃ info r1, info_ok w0 a info ∧ step info r r1 ∧ reported l r1 r'
  end.

Lemma reported_app l1 l2 r r1 r2 : reported l1 r r1 → reported l2 r1 r2 → reported (l1 ++ l2) r r2.
Proof.
  revert r. induction l1 as [|a l1 IH]; intros r; cbn; [by intros ->|].
  intros (info&r3&Hi&Hs&H1) H2. exists info, r3. eauto.
Qed.

(** A computation that reports the functions of [l]. *)
Definition reports (m : st (R * Ecam W) E ()) (l : list PciAddress) : Prop :=
  ∀ r w, same w0 w → ∃ r' w', m (r, at_ w) = ((r', at_ w'), Ok ()) ∧ same w0 w' ∧ reported l r r'.

Lemma for_reports {A} (l : list A) body (g : A → list PciAddress) :
  (∀ x, x ∈ l → reports (body x) (g x)) → reports (for_ l body) (mbind g l).
Proof.
  induction l as [|x l IH]; intros Hb r w Hs; cbn [for_ mbind list_bind].
  - exists r, w. by split_and!.
  - destruct (Hb x) with (r := r) (w := w) as (r1&w1&H1&Hs1&Hr1); [by left|done|].
    destruct (IH (λ y Hy, Hb y (list_elem_of_further _ _ _ Hy)) r1 w1 Hs1) as (r2&w2&H2&Hs2&Hr2).
    exists r2, w2. rewrite (st_bind_Ok _ _ _ _ _ H1). split_and!; [done|done|by eapply reported_app].
Qed.

Lemma walk_function_reports bus device func :
  valid (addr bus device func) →
  reports (walk_function f bus device func) (if present w0 (addr bus device func) then [addr bus device func] else []).
Proof using Hrestore f_ok.
  intros Ha r w Hs. unfold walk_function.
  destruct (probe_function_ok (E:=E) _ w Ha (bars_restore_same w0 w Hs Hrestore)) as (w1&o&Hp&Hs1&Ho).
  cbn [addr pa_bus pa_device pa_function] in Hp.
  rewrite (st_bind_Ok _ _ _ _ _ (on_snd_run _ r _ _ _ Hp)).
  rewrite (present_proper _ _ _ Hs). assert (Hs01 : same w0 w1) by by etrans.
  destruct (present w (addr bus device func)) eqn:Hpr.
  - destruct Ho as (info&->&Hi).
    assert (Hi0 : info_ok w0 (addr bus device func) info) by (unfold info_ok in *; by rewrite !Hs in Hi).
    destruct (f_ok (addr bus device func) info r w1) as (r'&w'&Hf&Hs'&Hst);
      [done|done|by rewrite (present_proper _ _ _ Hs)|done|].
    exists r', w'. split_and!; [done|done|]. by exists info, r'.
  - subst o. exists r, w1. by split_and!.
Qed.

Lemma filter_present l bus device :
  (l ≫= λ func, if present w0 (addr bus device func) then [addr bus device func] else []) =
  filter (λ a, present w0 a = true) (addr bus device <$> l).
Proof.
  induction l as [|x l IH]; cbn [mbind list_bind fmap list_fmap] in *; [done|]. rewrite filter_cons, IH.
  destruct (present w0 (addr bus device x)); [by rewrite decide_True by done|]. by rewrite decide_False by done.
Qed.

Lemma walk_device_reports bus device :
  0 ≤ bus < 256 → 0 ≤ device < 32 → reports (walk_device f bus device) (device_functions w0 bus device).
Proof using Hrestore f_ok.
  intros Hb Hd r w Hs. set (a0 := addr bus device 0). assert (Ha : valid a0) by (split_and!; cbn; lia).
  unfold walk_device, device_functions. fold a0.
  rewrite (st_bind_Ok _ _ _ _ _ (on_snd_run _ r _ _ _ (read32_ok base poff a0 0 w Ha ltac:(done)))).
  rewrite land_ffff, Hs. change (negb (cfg base poff w0 a0 0 mod 2 ^ 16 =? 65535)) with (present w0 a0).
  destruct (cfg base poff w0 a0 0 mod 2 ^ 16 =? 0xFFFF) eqn:Hp.
  { replace (present w0 a0) with false by (unfold present; by rewrite Hp). exists r, w. by split_and!. }
  replace (present w0 a0) with true by (unfold present; by rewrite Hp).
  rewrite (st_bind_Ok _ _ _ _ _ (on_snd_run _ r _ _ _ (read8_ok base poff a0 0x0E w Ha ltac:(done)))).
  change (0x0E - 0x0E mod 4) with 0x0C. change (0x0E mod 4 * 8) with 16. rewrite Hs.
  change (negb (Z.land (cfg base poff w0 a0 12 / 2 ^ 16 mod 2 ^ 8) HEADER_TYPE_MF =? 0)) with (multifunction w0 a0).
  set (n := if multifunction w0 a0 then 8 else 1). assert (Hn : 0 ≤ n ≤ 8) by (unfold n; case_match; lia).
  destruct (for_reports (seqZ 0 n) (walk_function f bus device)
    (λ func, if present w0 (addr bus device func) then [addr bus device func] else [])) with (r := r) (w := w)
    as (r'&w'&Hrun&Hs'&Hrep); [|done|].
  { intros func Hf%elem_of_seqZ. apply walk_function_reports. split_and!; cbn; lia. }
  exists r', w'. split_and!; [done|done|]. by rewrite <- filter_present.
Qed.

(** The walk calls its callback for exactly the functions that answer with a
    vendor id, once each, in bus, device, function order, skipping the other
    functions of a device whose function 0 is absent or single-function; the
    information is what their configuration headers hold, and probing the BARs
    on the way leaves the configuration space as it was. *)
Theorem enumerate_reports_functions r :
  base ≠ 0 →
  ∃ r' w', enumerate f (r, at_ w0) = ((r', at_ w'), Ok ()) ∧ same w0 w' ∧ reported (functions w0) r r'.
Proof using Hrestore f_ok.
  intros Hbase. unfold enumerate. rewrite bind_get_st. unfold is_ready. cbn [snd ECAM_PHYS_BASE PciFacts.at_].
  rewrite (proj2 (Z.eqb_neq base 0)) by done. cbn [negb assert_]. rewrite bind_lift_Ok.
  apply (for_reports (seqZ 0 256) _ (λ bus, seqZ 0 32 ≫= device_functions w0 bus)); [|done].
  intros bus Hb%elem_of_seqZ. apply for_reports. intros device Hd%elem_of_seqZ.
  apply walk_device_reports; lia.
Qed.
End walk.
