(* ===== verification/Devices.v ===== *)
(** * The device registry

    [lib/device]: the [Device] trait as a class over the hardware state [W], the
    registry with its name index, and device ids from a global counter. The
    registry is shown to implement a map from names to devices; its two maps
    are behind separate locks, and the steps of [register] between them are
    definitions of their own. *)

From S2P Require Import Prelude Text BlockDev.

Inductive DeviceType :=
| Dt_Block | Dt_Character | Dt_Network | Dt_Display | Dt_Bus | Dt_Platform | Dt_Unknown.

#[global] Instance DeviceType_eq_dec : EqDecision DeviceType.
Proof. solve_decision. Defined.

Inductive DeviceError :=
| AlreadyRegistered | Dev_NotFound | ProbeFailed | Dev_Unsupported | Dev_Io (e : IoError).

(** [DeviceError::as_str] *)
Definition DeviceError_as_str (e : DeviceError) : rstring :=
  match e with
  | AlreadyRegistered => lit "device already registered"
  | Dev_NotFound => lit "device not found"
  | ProbeFailed => lit "device probe failed"
  | Dev_Unsupported => lit "unsupported operation"
  | Dev_Io _ => lit "I/O error"
  end.

Class Device (W D : Type) := {
  name : D → rstring;
  device_type : D → DeviceType;
  dev_probe : D → st W DeviceError ();
  remove : D → st W Empty_set ();
}.

(** A method that returns no [Result], called inside a function that does. *)
Definition infallible {S E A} (m : st S Empty_set A) : st S E A := λ s,
  match m s with
  | (s, Ok a) => (s, Ok a)
  | (s, Err e) => match e with end
  | (s, Panic) => (s, Panic)
  | (s, Diverge) => (s, Diverge)
  end.

Section registry.
Context {W D : Type} {device : Device W D}.

Record Entry := { en_name : rstring; en_device : D }.
Record DeviceHandle := { dh_id : Z; dh_inner : D }.

(** The registry's two maps and the counter behind [DeviceId::allocate]. *)
Record DeviceRegistry := {
  devices : gmap Z Entry;
  name_index : gmap rstring Z;
  NEXT_ID : Z;
}.

Definition DeviceRegistry_new (next_id : Z) : DeviceRegistry :=
  {| devices := ∅; name_index := ∅; NEXT_ID := next_id |}.

Abbreviation world := (DeviceRegistry * W)%type.

(** [NEXT_ID.fetch_add(1)] *)
Definition allocate {E} : st world E Z :=
  s ← get_st;
  modify (λ s, ({| devices := devices s.1; name_index := name_index s.1; NEXT_ID := NEXT_ID s.1 +w 1 |}, s.2));;
  mret (NEXT_ID s.1).

(** The steps of [register]; each takes one lock, or none. *)
Definition reg_check (n : rstring) : st world DeviceError () :=
  s ← get_st;
  match name_index s.1 !! n with Some _ => fail AlreadyRegistered | None => mret () end.
Definition reg_probe (d : D) : st world DeviceError () :=
  st_map_err (λ _, ProbeFailed) (on_snd (dev_probe d)).
Definition reg_insert_device (id : Z) (n : rstring) (d : D) : st world DeviceError () :=
  modify (λ s, ({| devices := <[id := {| en_name := n; en_device := d |}]> (devices s.1);
                   name_index := name_index s.1; NEXT_ID := NEXT_ID s.1 |}, s.2)).
Definition reg_insert_name (id : Z) (n : rstring) : st world DeviceError () :=
  modify (λ s, ({| devices := devices s.1; name_index := <[n := id]> (name_index s.1);
                   NEXT_ID := NEXT_ID s.1 |}, s.2)).

(** [register] after its look at the name index. *)
Definition register_rest (d : D) : st world DeviceError DeviceHandle :=
  reg_probe d;;
  id ← allocate;
  reg_insert_device id (name d) d;;
  reg_insert_name id (name d);;
  mret {| dh_id := id; dh_inner := d |}.

Definition register (d : D) : st world DeviceError DeviceHandle :=
  reg_check (name d);; register_rest d.

Definition unregister (id : Z) : st world DeviceError () :=
  s ← get_st;
  entry ← lift (ok_or (devices s.1 !! id) Dev_NotFound);
  modify (λ s, ({| devices := delete id (devices s.1); name_index := name_index s.1; NEXT_ID := NEXT_ID s.1 |}, s.2));;
  modify (λ s, ({| devices := devices s.1; name_index := delete (en_name entry) (name_index s.1);
                   NEXT_ID := NEXT_ID s.1 |}, s.2));;
  on_snd (infallible (remove (en_device entry))).

Definition get (s : DeviceRegistry) (id : Z) : option D := en_device <$> devices s !! id.
Definition get_by_name (s : DeviceRegistry) (n : rstring) : option D := id ← name_index s !! n; get s id.

(** In id order, as a [BTreeMap] iterates. *)
Definition by_type (s : DeviceRegistry) (ty : DeviceType) : list (Z * D) :=
  (λ '(id, e), (id, en_device e)) <$>
    filter (λ '(_, e), device_type (en_device e) = ty) (bt_iter Z.le (devices s)).

Definition registry_len (s : DeviceRegistry) : Z := Z.of_nat (size (devices s)).

(** ** The registry as a map from names *)

(** Both maps describe the same registrations, and ids are below the counter. *)
Definition reg_ok (s : DeviceRegistry) : Prop :=
  (∀ n id, name_index s !! n = Some id ↔ ∃ e, devices s !! id = Some e ∧ en_name e = n) ∧
  (∀ id e, devices s !! id = Some e → en_name e = name (en_device e)) ∧
  (∀ id, is_Some (devices s !! id) → 0 ≤ id < NEXT_ID s) ∧ 0 ≤ NEXT_ID s < 2 ^ 64.

(** What the registry stands for. *)
Definition names (s : DeviceRegistry) : gmap rstring D := omap (get s) (name_index s).

Lemma names_lookup s n : names s !! n = get_by_name s n.
Proof. unfold names, get_by_name. by rewrite lookup_omap. Qed.

Lemma names_None s n : reg_ok s → names s !! n = None ↔ name_index s !! n = None.
Proof.
  intros (Hix&_). rewrite names_lookup. unfold get_by_name, get.
  destruct (name_index s !! n) as [id|] eqn:E; [|done]. cbn. apply Hix in E as (e&->&_). done.
Qed.

Lemma DeviceRegistry_new_ok next_id : 0 ≤ next_id < 2 ^ 64 → reg_ok (DeviceRegistry_new next_id).
Proof.
  intros. unfold reg_ok, DeviceRegistry_new. cbn [devices name_index NEXT_ID].
  split_and!; try lia.
  - intros n id. rewrite !lookup_empty. split; [done|]. by intros (e&He&_).
  - intros id e. by rewrite lookup_empty.
  - intros id. rewrite lookup_empty. by intros [].
Qed.

(** The state after a registration. *)
Definition registered (s : DeviceRegistry) (d : D) : DeviceRegistry :=
  {| devices := <[NEXT_ID s := {| en_name := name d; en_device := d |}]> (devices s);
     name_index := <[name d := NEXT_ID s]> (name_index s); NEXT_ID := NEXT_ID s + 1 |}.

Lemma registered_ok s d :
  reg_ok s → name_index s !! name d = None → NEXT_ID s < 2 ^ 64 - 1 →
  reg_ok (registered s d) ∧ names (registered s d) = <[name d := d]> (names s).
Proof.
  intros Hok Hnone Hmax. pose proof Hok as (Hix&Hnm&Hid&Hn). assert (Hfresh : devices s !! NEXT_ID s = None).
  { apply eq_None_not_Some. intros ?%Hid. lia. }
  unfold registered. split.
  - split_and!; cbn [devices name_index NEXT_ID]; try lia.
    + intros n id. rewrite !lookup_insert_Some. split.
      * intros [[<- <-]|[Hne (e&He&<-)%Hix]].
        -- exists {| en_name := name d; en_device := d |}. by rewrite lookup_insert_eq.
        -- exists e. rewrite lookup_insert_ne; [done|]. congruence.
      * intros (e&[[<- <-]|[Hne He]]%lookup_insert_Some&<-); [by left|]. right. split.
        -- cbn. intros Heq. assert (name_index s !! name d = Some id); [|congruence].
           rewrite Heq. apply Hix. by exists e.
        -- apply Hix. by exists e.
    + intros id e [[_ <-]|[_ ?%Hnm]]%lookup_insert_Some; done.
    + intros id [e [[<- _]|[_ He]]%lookup_insert_Some]; [lia|].
      assert (is_Some (devices s !! id)) as ?%Hid by by eexists. lia.
  - apply map_eq. intros n. rewrite names_lookup. unfold get_by_name, get. cbn [name_index devices].
    destruct (decide (n = name d)) as [->|Hne].
    + by rewrite !lookup_insert_eq; cbn; rewrite lookup_insert_eq.
    + rewrite !lookup_insert_ne by done. rewrite names_lookup. unfold get_by_name, get.
      destruct (name_index s !! n) as [id|] eqn:E; [|done]. cbn. rewrite lookup_insert_ne; [done|].
      intros <-. apply Hix in E as (e&He&_). congruence.
Qed.

Lemma reg_check_free s w n : name_index s !! n = None → reg_check n (s, w) = ((s, w), Ok ()).
Proof. intros H. unfold reg_check. rewrite bind_get_st. cbn [fst]. by rewrite H. Qed.

Lemma register_rest_run s w w' d :
  0 ≤ NEXT_ID s < 2 ^ 64 - 1 → dev_probe d w = (w', Ok ()) →
  register_rest d (s, w) = ((registered s d, w'), Ok {| dh_id := NEXT_ID s; dh_inner := d |}).
Proof.
  intros Hn Hp. unfold register_rest, reg_probe. rewrite st_bind_unfold. unfold st_map_err, on_snd. cbn [snd]. rewrite Hp. cbn [map_err].
  unfold allocate. rewrite st_bind_assoc, bind_get_st, st_bind_assoc, bind_modify, bind_mret_st. cbn [fst snd].
  unfold reg_insert_device, reg_insert_name. rewrite !bind_modify. cbn [fst snd devices name_index NEXT_ID].
  unfold registered. by rewrite wrap_small by lia.
Qed.

Lemma register_run s w w' d :
  name_index s !! name d = None → 0 ≤ NEXT_ID s < 2 ^ 64 - 1 → dev_probe d w = (w', Ok ()) →
  register d (s, w) = ((registered s d, w'), Ok {| dh_id := NEXT_ID s; dh_inner := d |}).
Proof.
  intros Hnone Hn Hp. unfold register. rewrite (st_bind_Ok _ _ _ _ _ (reg_check_free s w _ Hnone)).
  by apply register_rest_run.
Qed.

(** The look at the name index and the insertion are separate critical
    sections. When two registrations of one name both look before either
    inserts, both succeed, two devices share the name, and removing the first
    takes the name away from the second. *)
Theorem register_race_loses_name s w w1 w2 (d1 d2 : D) :
  names s !! name d1 = None → reg_ok s → NEXT_ID s < 2 ^ 64 - 2 →
  name d1 = name d2 → dev_probe d1 w = (w1, Ok ()) → dev_probe d2 w1 = (w2, Ok ()) →
  remove d1 w2 = (w2, Ok ()) →
  ∃ s' s'' h1 h2,
    (reg_check (name d1);; reg_check (name d2);;
     h1 ← register_rest d1; h2 ← register_rest d2; mret (h1, h2)) (s, w) = ((s', w2), Ok (h1, h2)) ∧
    get s' (dh_id h1) = Some d1 ∧ get s' (dh_id h2) = Some d2 ∧ dh_id h1 ≠ dh_id h2 ∧
    unregister (dh_id h1) (s', w2) = ((s'', w2), Ok ()) ∧
    get s'' (dh_id h2) = Some d2 ∧ get_by_name s'' (name d2) = None.
Proof.
  intros Hn Hok Hmax Heq Hp1 Hp2 Hr. apply (names_None s _ Hok) in Hn. destruct Hok as (_&_&_&Hid).
  set (s1 := registered s d1). set (s2 := registered s1 d2).
  set (h1 := {| dh_id := NEXT_ID s; dh_inner := d1 |}). set (h2 := {| dh_id := NEXT_ID s + 1; dh_inner := d2 |}).
  eexists s2, _, h1, h2. cbn [h1 h2 dh_id].
  rewrite (st_bind_Ok _ _ _ _ _ (reg_check_free s w _ Hn)). rewrite Heq in Hn.
  rewrite (st_bind_Ok _ _ _ _ _ (reg_check_free s w _ Hn)).
  rewrite (st_bind_Ok _ _ _ _ _ (register_rest_run s w w1 d1 ltac:(lia) Hp1)). fold s1 h1.
  rewrite (st_bind_Ok _ _ _ _ _ (register_rest_run s1 w1 w2 d2 ltac:(cbn; lia) Hp2)). fold s2.
  assert (G1 : devices s2 !! NEXT_ID s = Some {| en_name := name d1; en_device := d1 |}).
  { unfold s2, s1, registered. cbn [devices NEXT_ID]. by rewrite lookup_insert_ne, lookup_insert_eq by lia. }
  assert (G2 : devices s2 !! (NEXT_ID s + 1) = Some {| en_name := name d2; en_device := d2 |}).
  { unfold s2, s1, registered. cbn [devices NEXT_ID]. by rewrite lookup_insert_eq. }
  split; [done|]. unfold get. rewrite G1, G2. split_and!; [done|done|lia| | |].
  - unfold unregister. rewrite bind_get_st. cbn [fst]. rewrite G1. cbn [ok_or].
    rewrite bind_lift_Ok, !bind_modify. cbn [fst snd devices name_index NEXT_ID en_name en_device].
    apply on_snd_run. unfold infallible. by rewrite Hr.
  - cbn [devices]. by rewrite lookup_delete_ne, G2 by lia.
  - unfold get_by_name. cbn [name_index]. by rewrite Heq, lookup_delete_eq.
Qed.

(** The state after a removal. *)
Definition unregistered (s : DeviceRegistry) (id : Z) (e : Entry) : DeviceRegistry :=
  {| devices := delete id (devices s); name_index := delete (en_name e) (name_index s); NEXT_ID := NEXT_ID s |}.

Lemma unregistered_ok s id e :
  reg_ok s → devices s !! id = Some e →
  reg_ok (unregistered s id e) ∧ names (unregistered s id e) = delete (en_name e) (names s) ∧
  get (unregistered s id e) id = None.
Proof.
  intros (Hix&Hnm&Hid&Hn) E. unfold unregistered, get.
  split_and!; cbn [devices name_index NEXT_ID]; [|apply map_eq|by rewrite lookup_delete_eq].
  - split_and!; cbn [devices name_index NEXT_ID]; try lia.
    + intros n' id'. rewrite lookup_delete_Some. setoid_rewrite lookup_delete_Some. split.
      * intros (Hne&(e'&He'&<-)%Hix). exists e'. split_and!; [|done|done]. congruence.
      * intros (e'&[Hne He']&<-). split; [|apply Hix; by exists e'].
        intros Heq. assert (name_index s !! en_name e = Some id) by (apply Hix; by exists e).
        assert (name_index s !! en_name e = Some id') by (rewrite Heq; apply Hix; by exists e'). congruence.
    + intros id' e' [_ ?]%lookup_delete_Some. by apply (Hnm id').
    + intros id' [e' [_ He']%lookup_delete_Some]. apply Hid. by eexists.
  - intros n'. rewrite names_lookup. unfold get_by_name, get. cbn [name_index devices].
    destruct (decide (n' = en_name e)) as [->|Hne]; [by rewrite !lookup_delete_eq|].
    rewrite !lookup_delete_ne by done. rewrite names_lookup. unfold get_by_name, get.
    destruct (name_index s !! n') as [i|] eqn:Ei; [|done]. cbn. rewrite lookup_delete_ne; [done|].
    intros ->. apply Hix in Ei as (e'&He'&<-). congruence.
Qed.

(** C30: the registry implements a map from names to devices. On a registry whose
    two maps agree, [register] refuses a name that is taken, reports a failed
    probe without registering anything, and otherwise adds the device under a
    fresh id; [unregister] removes exactly the device of the id; the lookups
    read the map; and the two maps still agree afterwards. *)
Theorem registry_refines_names s w (d : D) (id : Z) n :
  reg_ok s → NEXT_ID s < 2 ^ 64 - 1 →
  match names s !! name d, dev_probe d w with
  | Some _, _ => register d (s, w) = ((s, w), Err AlreadyRegistered)
  | None, (w', Ok _) =>
      ∃ s', register d (s, w) = ((s', w'), Ok {| dh_id := NEXT_ID s; dh_inner := d |}) ∧ reg_ok s' ∧
        names s' = <[name d := d]> (names s) ∧ get s' (NEXT_ID s) = Some d ∧ get s (NEXT_ID s) = None
  | None, (w', Err _) => register d (s, w) = ((s, w'), Err ProbeFailed)
  | None, (w', Panic) => register d (s, w) = ((s, w'), Panic)
  | None, (w', Diverge) => register d (s, w) = ((s, w'), Diverge)
  end ∧
  match get s id with
  | None => unregister id (s, w) = ((s, w), Err Dev_NotFound)
  | Some d' => ∃ s', unregister id (s, w) = on_snd (infallible (remove d')) (s', w) ∧ reg_ok s' ∧
      names s' = delete (name d') (names s) ∧ get s' id = None
  end ∧
  get_by_name s n = names s !! n.
Proof.
  intros Hok Hmax. pose proof Hok as (Hix&Hnm&Hid&Hn). split_and!; [| |by rewrite names_lookup].
  - destruct (names s !! name d) as [d'|] eqn:En.
    + destruct (name_index s !! name d) as [i|] eqn:Ei; [|by apply (names_None s _ Hok) in Ei; congruence].
      unfold register, reg_check. rewrite st_bind_assoc, bind_get_st. cbn [fst]. by rewrite Ei.
    + apply (names_None s _ Hok) in En. destruct (dev_probe d w) as [w' [[]|e| |]] eqn:Hp;
        [|unfold register; rewrite (st_bind_Ok _ _ _ _ _ (reg_check_free s w _ En));
          unfold register_rest, reg_probe; rewrite st_bind_unfold; unfold st_map_err, on_snd; cbn [snd];
          by rewrite Hp..].
      exists (registered s d). rewrite (register_run s w w' d En) by (done || lia).
      destruct (registered_ok s d Hok En Hmax) as [Hok' Hnames].
      split_and!; [done|done|done| |].
      * unfold get, registered. cbn [devices]. by rewrite lookup_insert_eq.
      * unfold get. destruct (devices s !! NEXT_ID s) eqn:E; [|done].
        assert (is_Some (devices s !! NEXT_ID s)) as ?%Hid by by eexists. lia.
  - unfold get. destruct (devices s !! id) as [e|] eqn:E; cbn [fmap option_fmap option_map].
    + eexists. unfold unregister. rewrite bind_get_st. cbn [fst]. rewrite E. cbn [ok_or].
      rewrite bind_lift_Ok, !bind_modify. cbn [fst snd devices name_index NEXT_ID]. split; [done|].
      rewrite <- (Hnm id e E). by apply unregistered_ok.
    + unfold unregister. rewrite bind_get_st. cbn [fst]. by rewrite E.
Qed.
End registry.
Arguments DeviceRegistry : clear implicits.
Arguments Entry : clear implicits.
Arguments DeviceHandle : clear implicits.
