(* ===== verification/PciBus.v ===== *)
(** * PCI functions as devices

    [lib/bus/src/pci]: the capability list of a function ([caps.rs]), the device
    it is registered as ([device.rs]), and the bus that registers every function
    found ([mod.rs]). *)

From S2P Require Import Prelude Bytes Text BlockDev Mmio Pci Devices.

(** ** [caps.rs] *)

Inductive CapabilityId :=
| Cap_Msi | Cap_MsiX | Cap_Pcie | Cap_VendorSpecific | Cap_PowerManagement | Cap_Unknown (v : Z).

#[global] Instance CapabilityId_eq_dec : EqDecision CapabilityId.
Proof. solve_decision. Defined.

Definition CapabilityId_from_u8 (v : Z) : CapabilityId :=
  if v =? 0x01 then Cap_PowerManagement else
  if v =? 0x05 then Cap_Msi else
  if v =? 0x10 then Cap_Pcie else
  if v =? 0x11 then Cap_MsiX else
  if v =? 0x09 then Cap_VendorSpecific else Cap_Unknown v.

Record Capability := { cap_id : CapabilityId; cap_offset : Z }.

Inductive BusError := NotInitialized | EnumerationFailed | ResourceConflict | DeviceRegistrationFailed.

(** [BusError::as_str] *)
Definition BusError_as_str (e : BusError) : rstring :=
  match e with
  | NotInitialized => lit "bus not initialized"
  | EnumerationFailed => lit "bus enumeration failed"
  | ResourceConflict => lit "resource conflict"
  | DeviceRegistrationFailed => lit "device registration failed"
  end.

(** ** [device.rs] *)

Record PciBusDevice := { pbd_info : PciDeviceInfo; pbd_name : rstring; pbd_caps : list Capability }.

Definition is_storage (d : PciBusDevice) : bool := class (pbd_info d) =? 0x01.
Definition is_network (d : PciBusDevice) : bool := class (pbd_info d) =? 0x02.
Definition id_pair (d : PciBusDevice) : Z * Z := (vendor_id (pbd_info d), device_id (pbd_info d)).

(** [format!("pci:{:02x}:{:02x}.{}", ..)] *)
Definition pci_name (a : PciAddress) : rstring :=
  lit "pci:" ++ hex 2 (pa_bus a) ++ lit ":" ++ hex 2 (pa_device a) ++ lit "." ++ dec (pa_function a).

Section bus.
Context {W : Type} {mmio : Mmio W}.

(** [for _ in 0..48]. *)
Fixpoint caps_loop {E} (n : nat) (dev : PciDeviceInfo) (offset : Z) (caps : list Capability) :
    st (Ecam W) E (list Capability) :=
  match n with
  | O => mret caps
  | S n =>
      if (offset <? 0x40) || (0xFC <? offset) then mret caps else
      id ← info_read8 dev offset;
      next ← info_read8 dev (wrap 16 (offset + 1));
      let next := Z.land next (not_ 8 0x3) in
      let caps := caps ++ [{| cap_id := CapabilityId_from_u8 id; cap_offset := offset |}] in
      if next =? 0 then mret caps else caps_loop n dev next caps
  end.

Definition parse_capabilities {E} (dev : PciDeviceInfo) : st (Ecam W) E (list Capability) :=
  status ← info_read16 dev 0x06;
  if Z.land status (Z.shiftl 1 4) =? 0 then mret [] else
  offset ← info_read8 dev 0x34;
  caps_loop 48 dev (Z.land offset (not_ 8 0x3)) [].

Definition find_capability {E} (dev : PciDeviceInfo) (id : CapabilityId) : st (Ecam W) E (option Z) :=
  caps ← parse_capabilities dev;
  mret (cap_offset <$> head (filter (λ c, cap_id c = id) caps)).

Definition PciBusDevice_new {E} (info : PciDeviceInfo) : st (Ecam W) E PciBusDevice :=
  caps ← parse_capabilities info;
  mret {| pbd_info := info; pbd_name := pci_name (pi_address info); pbd_caps := caps |}.

Definition enable_dma {E} (d : PciBusDevice) : st (Ecam W) E () := enable_bus_master (pbd_info d).

Definition pci_probe (d : PciBusDevice) : st (Ecam W) DeviceError () :=
  if vendor_id (pbd_info d) =? 0xFFFF then fail ProbeFailed else mret ().

#[export] Instance PciBusDevice_Device : Device (Ecam W) PciBusDevice := {|
  name := pbd_name;
  device_type := λ _, Dt_Bus;
  dev_probe := pci_probe;
  remove := λ _, mret ();
|}.

(** ** [mod.rs] *)

(** The callback: register the function, whatever comes of it. *)
Definition register_function (info : PciDeviceInfo) : st (DeviceRegistry PciBusDevice * Ecam W) BusError () :=
  dev ← on_snd (PciBusDevice_new info);
  _ ← st_try (register dev);
  mret ().

Definition PciBus_enumerate : st (DeviceRegistry PciBusDevice * Ecam W) BusError () :=
  s ← get_st;
  if negb (is_ready s.2) then fail NotInitialized else
  enumerate register_function.
End bus.
