(* ===== verification/PciBusFacts.v ===== *)
(** * The PCI bus fills the device registry

    Capability lists, names of functions, and the composition of the walk over
    the bus with the registry: one device per function. *)

From S2P Require Import Prelude Bytes Text BlockDev Mmio Pci PciFacts PciWalk Devices PciBus.

(** ** Capability lists *)

Section bus.
Context {W : Type} {mmio : Mmio W} (base poff : Z) {config : ConfigSpace base poff}.
Local Abbreviation at_ := (at_ base poff).
Local Abbreviation same := (same_cfg base poff).

(** The configuration byte at [off]. *)
Definition byte_at (w : W) (a : PciAddress) (off : Z) : Z :=
  cfg base poff w a (off - off mod 4) / 2 ^ (off mod 4 * 8) mod 2 ^ 8.

Lemma info_read8_ok {E} info off w :
  valid (pi_address info) → 0 ≤ off < 4096 →
  info_read8 (E:=E) info off (at_ w) = (at_ w, Ok (byte_at w (pi_address info) off)).
Proof. intros. by apply read8_ok. Qed.

Lemma byte_at_range w a off : is_u8 (byte_at w a off).
Proof. unfold byte_at, is_u. apply Z.mod_pos_bound. lia. Qed.

(** A pointer of the list: the low two bits are reserved. *)
Definition cap_ptr (x : Z) : Z := x - x mod 4.
Lemma land_cap_ptr x : is_u8 x → Z.land x (not_ 8 0x3) = cap_ptr x ∧ is_u8 (cap_ptr x) ∧ cap_ptr x mod 4 = 0.
Proof.
  intros [Hx1 Hx2]. change 0x3 with (2 ^ 2 - 1). rewrite land_not_ones by lia. change (2 ^ 2) with 4.
  unfold cap_ptr, is_u. split_and!; [done|dlia..].
Qed.

(** The entries from [off] on, as the code walks them. *)
Fixpoint cap_walk (n : nat) (rd : Z → Z) (off : Z) : list Capability :=
  match n with
  | O => []
  | S n =>
      if (off <? 0x40) || (0xFC <? off) then [] else
      {| cap_id := CapabilityId_from_u8 (rd off); cap_offset := off |} ::
      let next := cap_ptr (rd (off + 1)) in
      if next =? 0 then [] else cap_walk n rd next
  end.

Lemma caps_loop_walk {E} n info off caps w :
  valid (pi_address info) → is_u8 off →
  caps_loop (E:=E) n info off caps (at_ w) =
    (at_ w, Ok (caps ++ cap_walk n (byte_at w (pi_address info)) off)).
Proof.
  intros Ha. revert off caps. induction n as [|n IH]; intros off caps [Ho1 Ho2]; cbn [caps_loop cap_walk].
  { by rewrite app_nil_r. }
  destruct ((off <? 0x40) || (0xFC <? off)) eqn:Hr; [by rewrite app_nil_r|].
  apply orb_false_iff in Hr as [?%Z.ltb_ge ?%Z.ltb_ge].
  rewrite (st_bind_Ok _ _ _ _ _ (info_read8_ok info off w Ha ltac:(lia))). rewrite wrap_small by lia.
  rewrite (st_bind_Ok _ _ _ _ _ (info_read8_ok info (off + 1) w Ha ltac:(lia))). cbv zeta.
  destruct (land_cap_ptr _ (byte_at_range w (pi_address info) (off + 1))) as (->&Hu&_).
  case_match; [done|]. rewrite IH by done. by rewrite <- app_assoc.
Qed.

Definition has_caps (w : W) (a : PciAddress) : bool := negb (Z.land (cfg base poff w a 4 / 2 ^ 16 mod 2 ^ 16) 16 =? 0).

Lemma parse_capabilities_walk {E} info w :
  valid (pi_address info) →
  parse_capabilities (E:=E) info (at_ w) =
    (at_ w, Ok (if has_caps w (pi_address info)
                then cap_walk 48 (byte_at w (pi_address info)) (cap_ptr (byte_at w (pi_address info) 0x34)) else [])).
Proof.
  intros Ha. unfold parse_capabilities, info_read16, has_caps.
  rewrite (st_bind_Ok _ _ _ _ _ (read16_ok base poff _ 6 w Ha ltac:(lia) ltac:(done))).
  change (6 - 6 mod 4) with 4. change (6 mod 4 * 8) with 16. change (Z.shiftl 1 4) with 16.
  case_match; [done|]. rewrite (st_bind_Ok _ _ _ _ _ (info_read8_ok info 0x34 w Ha ltac:(lia))).
  destruct (land_cap_ptr _ (byte_at_range w (pi_address info) 0x34)) as (->&Hu&_). by apply caps_loop_walk.
Qed.

(** A well-formed list of (offset, id) pairs from [off] on, ended by a null pointer. *)
Fixpoint cap_list (rd : Z → Z) (off : Z) (l : list (Z * Z)) : Prop :=
  match l with
  | [] => off = 0
  | (o, i) :: l => off = o ∧ 0x40 ≤ o ≤ 0xFC ∧ rd o = i ∧ cap_list rd (cap_ptr (rd (o + 1))) l
  end.

Lemma cap_walk_list rd n off l :
  (length l ≤ n)%nat → cap_list rd off l →
  cap_walk n rd off = (λ '(o, i), {| cap_id := CapabilityId_from_u8 i; cap_offset := o |}) <$> l.
Proof.
  revert off n. induction l as [|[o i] l IH]; intros off n Hn; cbn [cap_list].
  { intros ->. by destruct n. }
  intros (->&Ho&Hi&Hl). destruct n as [|n]; [cbn in Hn; lia|]. cbn [cap_walk].
  rewrite (proj2 (Z.ltb_ge o 0x40)), (proj2 (Z.ltb_ge 0xFC o)) by lia. cbn [orb fmap list_fmap]. rewrite Hi. f_equal.
  cbn zeta. destruct (Z.eqb_spec (cap_ptr (rd (o + 1))) 0) as [E|].
  - destruct l as [|[o' i'] l]; [done|]. destruct Hl as (E'&Ho'&_). lia.
  - apply IH; [cbn in Hn; lia|done].
Qed.

Lemma cap_walk_range rd n off :
  off mod 4 = 0 → (length (cap_walk n rd off) ≤ n)%nat ∧
  Forall (λ c, 0x40 ≤ cap_offset c ≤ 0xFC ∧ cap_offset c mod 4 = 0) (cap_walk n rd off).
Proof.
  revert off. induction n as [|n IH]; intros off Hm; cbn [cap_walk]; [by split|].
  destruct ((off <? 0x40) || (0xFC <? off)) eqn:Hr; [split; [cbn; lia|constructor]|].
  apply orb_false_iff in Hr as [?%Z.ltb_ge ?%Z.ltb_ge]. cbn zeta. case_match.
  - split; [cbn; lia|]. repeat constructor; cbn; lia.
  - destruct (IH (cap_ptr (rd (off + 1)))) as [Hl Hf]; [unfold cap_ptr; dlia|].
    split; [cbn; lia|]. constructor; [cbn; lia|done].
Qed.

(** Reading the capabilities changes nothing and always ends with at most 48
    of them, each at an aligned offset of the capability area, whatever the
    pointers in the configuration space are (a cycle included); on a well-formed
    list it returns exactly that list, in order. *)
Theorem parse_capabilities_reads_list {E} info w l :
  valid (pi_address info) →
  let rd := byte_at w (pi_address info) in
  ∃ caps, parse_capabilities (E:=E) info (at_ w) = (at_ w, Ok caps) ∧ (length caps ≤ 48)%nat ∧
    Forall (λ c, 0x40 ≤ cap_offset c ≤ 0xFC ∧ cap_offset c mod 4 = 0) caps ∧
    (has_caps w (pi_address info) = false → caps = []) ∧
    (has_caps w (pi_address info) = true → cap_list rd (cap_ptr (rd 0x34)) l → (length l ≤ 48)%nat →
     caps = (λ '(o, i), {| cap_id := CapabilityId_from_u8 i; cap_offset := o |}) <$> l).
Proof.
  intros Ha rd. eexists. split; [by apply parse_capabilities_walk|]. fold rd.
  destruct (cap_walk_range rd 48 (cap_ptr (rd 0x34))) as [Hl Hf]; [unfold cap_ptr; dlia|].
  destruct (has_caps w (pi_address info)).
  - split_and!; [done|done|done|]. intros _ Hc Hn. by apply cap_walk_list.
  - split_and!; [cbn; lia|constructor|done|done].
Qed.

(** ** Names *)

Lemma pci_name_inj a b : valid a → valid b → pci_name a = pci_name b → a = b.
Proof.
  intros (Ha1&Ha2&Ha3) (Hb1&Hb2&Hb3) H. unfold pci_name in H.
  apply app_inv_head in H. apply app_inj_1 in H as [H1 H]; [|by rewrite !length_hex].
  apply app_inv_head in H. apply app_inj_1 in H as [H2 H]; [|by rewrite !length_hex].
  apply app_inv_head in H. unfold dec in H. cbn [dec_digits] in H.
  rewrite !(proj2 (Z.ltb_lt _ 10)) in H by lia. cbn [app] in H. injection H as H3.
  rewrite !Z.mod_small in H3 by lia.
  apply hex_inj in H1; [|change (16 ^ Z.of_nat 2) with 256; lia..].
  apply hex_inj in H2; [|change (16 ^ Z.of_nat 2) with 256; lia..].
  destruct a, b; cbn in *. f_equal; lia.
Qed.

Lemma device_functions_spec w bus device a :
  a ∈ device_functions base poff w bus device →
  pa_bus a = bus ∧ pa_device a = device ∧ 0 ≤ pa_function a < 8 ∧ present base poff w a = true.
Proof.
  unfold device_functions. case_match; [|by intros ?%elem_of_nil].
  intros [Hp (func&->&Hf%elem_of_seqZ)%list_elem_of_fmap]%list_elem_of_filter. cbn.
  split_and!; [done|done|lia| |done]. case_match; lia.
Qed.

Lemma functions_valid w a : a ∈ functions base poff w → valid a ∧ present base poff w a = true.
Proof.
  intros (bus&(device&Ha&Hd%elem_of_seqZ)%list_elem_of_bind&Hb%elem_of_seqZ)%list_elem_of_bind.
  apply device_functions_spec in Ha as (?&?&?&?). split; [|done]. split_and!; lia.
Qed.

Lemma functions_NoDup w : NoDup (functions base poff w).
Proof.
  unfold functions. apply NoDup_bind; [| |apply NoDup_seqZ].
  - intros b1 b2 a _ _ (d1&H1&_)%list_elem_of_bind (d2&H2&_)%list_elem_of_bind.
    apply device_functions_spec in H1 as (?&_), H2 as (?&_). congruence.
  - intros bus _. apply NoDup_bind; [| |apply NoDup_seqZ].
    + intros d1 d2 a _ _ H1 H2.
      apply device_functions_spec in H1 as (_&?&_), H2 as (_&?&_). congruence.
    + intros device _. unfold device_functions. case_match; [|constructor].
      apply NoDup_filter, NoDup_fmap; [|apply NoDup_seqZ]. by intros x y [=].
Qed.

Lemma length_bind_le {A B} (g : A → list B) n l :
  (∀ x, x ∈ l → (length (g x) ≤ n)%nat) → (length (l ≫= g) ≤ length l * n)%nat.
Proof.
  induction l as [|x l IH]; intros H; cbn [mbind list_bind]; [done|]. rewrite length_app.
  pose proof (H x (list_elem_of_here _ _)). specialize (IH (λ y Hy, H y (list_elem_of_further _ _ _ Hy))).
  cbn in *. lia.
Qed.

Lemma functions_length w : len (functions base poff w) ≤ 2 ^ 16.
Proof.
  assert (H : (length (functions base poff w) ≤ length (seqZ 0 256) * (length (seqZ 0 32) * 8))%nat).
  { apply length_bind_le. intros bus _. apply length_bind_le. intros device _. unfold device_functions.
    case_match; [|cbn; lia]. etrans; [apply length_filter|]. rewrite length_fmap, length_seqZ. case_match; lia. }
  rewrite !length_seqZ in H. lia.
Qed.

(** ** Registration *)

Implicit Types s r : DeviceRegistry PciBusDevice.

(** What the callback does to the registry. *)
Definition register_result (s : DeviceRegistry PciBusDevice) (d : PciBusDevice) : DeviceRegistry PciBusDevice :=
  match name_index s !! pbd_name d with
  | Some _ => s
  | None =>
      {| devices := <[NEXT_ID s := {| en_name := pbd_name d; en_device := d |}]> (devices s);
         name_index := <[pbd_name d := NEXT_ID s]> (name_index s); NEXT_ID := NEXT_ID s +w 1 |}
  end.
Definition registers (info : PciDeviceInfo) s s' : Prop :=
  ∃ caps, s' = register_result s {| pbd_info := info; pbd_name := pci_name (pi_address info); pbd_caps := caps |}.

Lemma register_function_run info s w :
  valid (pi_address info) → vendor_id info ≠ 0xFFFF →
  ∃ s', register_function info (s, at_ w) = ((s', at_ w), Ok ()) ∧ registers info s s'.
Proof.
  intros Ha Hv. unfold register_function, PciBusDevice_new.
  erewrite (st_bind_Ok (on_snd _)).
  2: { apply on_snd_run. rewrite (st_bind_Ok _ _ _ _ _ (parse_capabilities_walk info w Ha)). reflexivity. }
  set (d := {| pbd_info := info; pbd_name := _; pbd_caps := _ |}).
  exists (register_result s d). split; [|by eexists].
  rewrite st_bind_unfold. unfold st_try, register, reg_check. rewrite st_bind_assoc, bind_get_st. cbn [fst].
  change (name d) with (pbd_name d). unfold register_result.
  destruct (name_index s !! pbd_name d); [done|]. rewrite bind_mret_st.
  unfold register_rest, reg_probe. rewrite st_bind_unfold. unfold st_map_err, on_snd. cbn [snd fst].
  change (dev_probe d) with (pci_probe (W:=W) d). unfold pci_probe. cbn [d pbd_info].
  by rewrite (proj2 (Z.eqb_neq _ _)) by done.
Qed.

(** What a registry holds for the functions of a list. *)
Definition holds_functions (w : W) (l : list PciAddress) s : Prop :=
  (∀ a, a ∈ l → ∃ d, get_by_name s (pci_name a) = Some d ∧ info_ok base poff w a (pbd_info d)) ∧
  (∀ n d, get_by_name s n = Some d → ∃ a, a ∈ l ∧ n = pci_name a) ∧
  registry_len s = len l.

Lemma reported_holds w l k s s' :
  NoDup (k ++ l) → Forall valid (k ++ l) → reg_ok (W:=Ecam W) s → NEXT_ID s + len l < 2 ^ 64 →
  holds_functions w k s → reported base poff registers w l s s' →
  reg_ok (W:=Ecam W) s' ∧ holds_functions w (k ++ l) s'.
Proof.
  revert k s. induction l as [|a l IH]; intros k s Hnd Hv Hok Hn Hk; cbn [reported].
  { intros ->. by rewrite app_nil_r. }
  intros (info&s1&Hi&(caps&->)&Hrep). pose proof Hi as (Hia&_). rewrite Hia in Hrep.
  set (d := {| pbd_info := info; pbd_name := pci_name a; pbd_caps := caps |}) in *.
  assert (Hva : valid a) by (rewrite Forall_app, Forall_cons in Hv; tauto).
  assert (Hnew : name_index s !! pci_name a = None).
  { apply (names_None (W:=Ecam W) s); [done|]. rewrite names_lookup. apply eq_None_not_Some.
    intros [d' (b&Hb&Heq)%(proj1 (proj2 Hk))]. rewrite Forall_app, Forall_forall in Hv.
    apply pci_name_inj in Heq; [|done|by apply Hv]. subst b.
    apply NoDup_app in Hnd as (_&Hnd&_). by apply (Hnd a Hb), list_elem_of_here. }
  cbn [length] in Hn. pose proof Hok as (_&_&Hid&Hnid).
  assert (Hres : register_result s d = registered (W:=Ecam W) s d).
  { unfold register_result. cbn [d pbd_name]. rewrite Hnew. unfold registered. by rewrite wrap_small by lia. }
  rewrite Hres in Hrep.
  destruct (registered_ok (W:=Ecam W) s d Hok Hnew ltac:(lia)) as [Hok' Hnames].
  assert (Hlook : ∀ n, get_by_name (registered (W:=Ecam W) s d) n = if decide (n = pci_name a) then Some d else get_by_name s n).
  { intros n. rewrite <- !names_lookup, Hnames. change (name d) with (pci_name a).
    case_decide as Hd; [by rewrite Hd, lookup_insert_eq|]. by rewrite lookup_insert_ne. }
  replace (k ++ a :: l) with ((k ++ [a]) ++ l) in * by by rewrite <- app_assoc.
  apply (IH (k ++ [a]) (registered (W:=Ecam W) s d)); [done|done|done|cbn; lia| |done].
  destruct Hk as (Hk1&Hk2&Hk3). split_and!.
  - intros b Hb. rewrite Hlook. case_decide as Hd.
    + exists d. split; [done|]. enough (a = b) as <- by done. apply pci_name_inj; [done| |done].
      rewrite Forall_forall in Hv. apply Hv. apply elem_of_app. by left.
    + apply elem_of_app in Hb as [Hb| ->%list_elem_of_singleton]; [by apply Hk1|done].
  - intros n d'. rewrite Hlook. case_decide as Hd.
    + intros _. exists a. split; [|done]. apply elem_of_app. right. by left.
    + intros (b&Hb&->)%Hk2. exists b. split; [|done]. apply elem_of_app. by left.
  - unfold registry_len, registered in *. cbn [devices].
    assert (Hfresh : devices s !! NEXT_ID s = None).
    { apply eq_None_not_Some. intros ?%Hid. lia. }
    rewrite map_size_insert_None, length_app by done. cbn. lia.
Qed.

(** C29: enumerating the bus into an empty registry succeeds and registers exactly
    one device for every function present, under the name made of its bus,
    device and function number and with the identification of its
    configuration header; it leaves the configuration space as it was. Without
    an ECAM base it fails and registers nothing. *)
Theorem pci_enumerate_fills_registry w n0 :
  bars_restore base poff w → 0 ≤ n0 < 2 ^ 64 - 2 ^ 16 →
  let s0 := DeviceRegistry_new n0 in
  (base ≠ 0 → ∃ s' w', PciBus_enumerate (s0, at_ w) = ((s', at_ w'), Ok ()) ∧ same w w' ∧
     reg_ok (W:=Ecam W) s' ∧ holds_functions w (functions base poff w) s') ∧
  (base = 0 → PciBus_enumerate (s0, at_ w) = ((s0, at_ w), Err NotInitialized)).
Proof.
  intros Hr Hn s0. unfold PciBus_enumerate. rewrite !bind_get_st. unfold is_ready. cbn [snd ECAM_PHYS_BASE PciFacts.at_].
  split; [|by intros ->]. intros Hb. rewrite (proj2 (Z.eqb_neq base 0)) by done. cbn [negb].
  destruct (enumerate_reports_functions base poff register_function registers w Hr) with (r := s0)
    as (s'&w'&Hrun&Hs&Hrep); [|done|].
  { intros a info r w1 Hs Ha Hp Hi. pose proof Hi as (Hia&Hv&_). rewrite <- Hia in Ha.
    destruct (register_function_run info r w1 Ha) as (r'&Hf&Hreg).
    { rewrite Hv. unfold present in Hp. intros E. by rewrite E in Hp. }
    exists r', w1. by split_and!. }
  exists s', w'. split; [done|]. split; [done|].
  apply (reported_holds w (functions base poff w) [] s0 s').
  - apply functions_NoDup.
  - apply Forall_forall. intros a Ha. by apply (functions_valid w).
  - apply DeviceRegistry_new_ok. lia.
  - pose proof (functions_length w). cbn. lia.
  - split_and!; [by intros a ?%elem_of_nil| |done]. intros n d. unfold get_by_name. cbn. by rewrite lookup_empty.
  - done.
Qed.
End bus.
