(* ===== verification/Drivers.v ===== *)
(** * Drivers and their bindings

    [lib/driver]: match rules ([match.rs]), bindings ([binding.rs]) and the
    driver registry ([registry.rs]).

    [W] is the hardware, [D] the registered devices, [St] the private state of a
    driver ([Box<dyn DriverState>]) and [B] a block device taken out of it. *)

From S2P Require Import Prelude Text BlockDev Pci Devices PciBus.

(** ** [match.rs] *)

Inductive MatchRule :=
| Mr_PciId (vendor device : Z)
| Mr_PciClass (class subclass : Z)
| Mr_Name (n : rstring).

Definition matches_pci (r : MatchRule) (vendor device class subclass : Z) : bool :=
  match r with
  | Mr_PciId v d => (v =? vendor) && (d =? device)
  | Mr_PciClass c s => (c =? class) && (s =? subclass)
  | Mr_Name _ => false
  end.

Definition matches_name (r : MatchRule) (n : rstring) : bool :=
  match r with Mr_Name m => bool_decide (m = n) | _ => false end.

Inductive DriverError :=
| BindFailed | AlreadyBound | NotBound | NoDriverFound | Drv_Unsupported | Drv_Io (e : IoError).

(** [DriverError::as_str] *)
Definition DriverError_as_str (e : DriverError) : rstring :=
  match e with
  | BindFailed => lit "driver bind failed"
  | AlreadyBound => lit "device already has a driver bound"
  | NotBound => lit "no driver bound to device"
  | NoDriverFound => lit "no matching driver found"
  | Drv_Unsupported => lit "unsupported operation"
  | Drv_Io _ => lit "I/O error"
  end.

(** [device.as_any().downcast_ref::<PciBusDevice>()] *)
Class DowncastPci (D : Type) := downcast_pci : D → option PciBusDevice.
#[global] Instance PciBusDevice_downcast : DowncastPci PciBusDevice := Some.

(** ** [binding.rs] *)

Class DriverState (W St B : Type) := {
  stop : St → st W Empty_set ();
  as_block_device : St → option B;
  into_block_devices : St → list B;
  (** The device behind [as_block_device_ptr], and the state with it changed. *)
  as_block_device_ptr : St → option (B * (B → St));
}.

Section drivers.
Context {W D St B : Type} {device : Device W D} {downcast : DowncastPci D} {driver_state : DriverState W St B}.

Record Driver := {
  drv_name : rstring;
  rules : list MatchRule;
  bind : Z → D → st W DriverError St;
  priority : Z;
}.

Record Binding := {
  b_device_id : Z;
  b_device : D;
  driver_name : rstring;
  b_state : option St;
}.

Definition Binding_new (id : Z) (d : D) (n : rstring) (s : St) : Binding :=
  {| b_device_id := id; b_device := d; driver_name := n; b_state := Some s |}.

(** [Drop for Binding]: only a state that is still there is stopped. *)
Definition Binding_drop (b : Binding) : st W Empty_set () :=
  match b_state b with Some s => stop s | None => mret () end.

Definition take_state (b : Binding) : Binding :=
  {| b_device_id := b_device_id b; b_device := b_device b; driver_name := driver_name b; b_state := None |}.

Definition into_block_device (b : Binding) : st W Empty_set (option B) :=
  match b_state b with
  | None => Binding_drop b;; mret None
  | Some s => Binding_drop (take_state b);; mret (as_block_device s)
  end.

Definition Binding_into_block_devices (b : Binding) : st W Empty_set (list B) :=
  match b_state b with
  | Some s => Binding_drop (take_state b);; mret (into_block_devices s)
  | None => Binding_drop b;; mret []
  end.

(** ** [registry.rs] *)

Record DriverRegistry := { drivers : list Driver; bindings : gmap Z Binding }.
Abbreviation world := (DriverRegistry * W)%type.

Definition DriverRegistry_new : DriverRegistry := {| drivers := []; bindings := ∅ |}.

Definition register_driver {E} (d : Driver) : st world E () :=
  modify (λ s, ({| drivers := drivers s.1 ++ [d]; bindings := bindings s.1 |}, s.2)).

Definition set_bindings {E} (b : gmap Z Binding) : st world E () :=
  modify (λ s, ({| drivers := drivers s.1; bindings := b |}, s.2)).

(** The loop of [find_driver] with its best driver so far. *)
Fixpoint best_driver (ds : list Driver) (vendor dev_id class subclass : Z) (best : option Driver)
    (best_priority : Z) : option Driver :=
  match ds with
  | [] => best
  | d :: ds =>
      let matches := existsb (λ r, matches_pci r vendor dev_id class subclass) (rules d) in
      if matches && (best_priority <? priority d)
      then best_driver ds vendor dev_id class subclass (Some d) (priority d)
      else best_driver ds vendor dev_id class subclass best best_priority
  end.

Definition i32_MIN : Z := - 2 ^ 31.

Definition find_driver (ds : list Driver) (d : D) : outcome DriverError Driver :=
  let best :=
    match downcast_pci d with
    | Some pci_dev =>
        let info := pbd_info pci_dev in
        best_driver ds (vendor_id info) (device_id info) (class info) (subclass info) None i32_MIN
    | None => None
    end in
  ok_or best NoDriverFound.

Definition try_bind (id : Z) (d : D) : st world DriverError () :=
  s ← get_st;
  match bindings s.1 !! id with
  | Some _ => fail AlreadyBound
  | None =>
      driver ← lift (find_driver (drivers s.1) d);
      state ← on_snd (bind driver id d);
      s ← get_st;
      set_bindings (<[id := Binding_new id d (drv_name driver) state]> (bindings s.1));;
      match bindings s.1 !! id with
      | Some old => on_snd (infallible (Binding_drop old))
      | None => mret ()
      end
  end.

(** The device registry is only read. *)
Definition bind_all {E} (devices : DeviceRegistry D) : st world E () :=
  for_ (by_type (W:=W) devices Dt_Bus) (λ '(id, d), _ ← st_try (try_bind id d); mret ()).

Definition unbind (id : Z) : st world DriverError () :=
  s ← get_st;
  b ← lift (ok_or (bindings s.1 !! id) NotBound);
  set_bindings (delete id (bindings s.1));;
  on_snd (infallible (Binding_drop b)).

Definition binding_for (s : DriverRegistry) (id : Z) : option Z :=
  match bindings s !! id with Some _ => Some id | None => None end.
Definition bound_count (s : DriverRegistry) : Z := Z.of_nat (size (bindings s)).

Fixpoint take_loop (ids : list Z) : st world Empty_set (option (Z * B)) :=
  match ids with
  | [] => mret None
  | id :: ids =>
      s ← get_st;
      match bindings s.1 !! id with
      | Some b =>
          set_bindings (delete id (bindings s.1));;
          r ← on_snd (into_block_device b);
          match r with Some block_dev => mret (Some (id, block_dev)) | None => take_loop ids end
      | None => take_loop ids
      end
  end.
Definition take_block_device : st world Empty_set (option (Z * B)) :=
  s ← get_st; take_loop (bt_keys Z.le (bindings s.1)).

Fixpoint take_all_loop (ids : list Z) (result : list (Z * B)) : st world Empty_set (list (Z * B)) :=
  match ids with
  | [] => mret result
  | id :: ids =>
      s ← get_st;
      match bindings s.1 !! id with
      | Some b =>
          set_bindings (delete id (bindings s.1));;
          devs ← on_snd (Binding_into_block_devices b);
          take_all_loop ids (result ++ ((λ dev, (id, dev)) <$> devs))
      | None => take_all_loop ids result
      end
  end.
Definition take_all_block_devices : st world Empty_set (list (Z * B)) :=
  s ← get_st; take_all_loop (bt_keys Z.le (bindings s.1)) [].

(** The block devices of the bindings, visited in id order. The pointers are
    collected first; [f] then changes each device in place. *)
Definition for_each_block {E} (f : Z → rstring → B → st W E B) : st world E () :=
  s ← get_st;
  let entries := filter (λ e, is_Some (b_state e.2 ≫= as_block_device_ptr)) (bt_iter Z.le (bindings s.1)) in
  for_ entries (λ '(id, b),
    match b_state b ≫= as_block_device_ptr with
    | Some (dev, put) =>
        dev ← on_snd (f id (driver_name b) dev);
        s ← get_st;
        set_bindings (<[id := Binding_new (b_device_id b) (b_device b) (driver_name b) (put dev)]> (bindings s.1))
    | None => mret ()
    end).
End drivers.
Arguments Driver : clear implicits.
Arguments Binding : clear implicits.
Arguments DriverRegistry : clear implicits.
