(* ===== verification/DriversFacts.v ===== *)
(** * What the driver registry promises

    The choice of a driver, what one binding attempt and the pass over all
    devices do, and how block devices are taken out. *)

From S2P Require Import Prelude Text BlockDev Pci Devices PciBus Drivers.

Section drivers.
Context {W D St B : Type} {device : Device W D} {downcast : DowncastPci D} {driver_state : DriverState W St B}.
Implicit Types (ds : list (Driver W D St)) (s : DriverRegistry W D St).

(** ** Choosing a driver *)

(** The driver offers a rule that matches, at a priority above [i32::MIN]. *)
Definition candidate (i : PciDeviceInfo) (d : Driver W D St) : Prop :=
  existsb (λ r, matches_pci r (vendor_id i) (device_id i) (class i) (subclass i)) (rules d) = true ∧
  i32_MIN < priority d.

(** [best] is the first candidate of the highest priority. *)
Definition is_best (i : PciDeviceInfo) ds (best : Driver W D St) : Prop :=
  ∃ l1 l2, ds = l1 ++ best :: l2 ∧ candidate i best ∧
    (∀ d, d ∈ l1 → candidate i d → priority d < priority best) ∧
    (∀ d, d ∈ l2 → candidate i d → priority d ≤ priority best).

Lemma best_driver_spec i ds done_ best bp :
  (match best with Some b => is_best i done_ b ∧ bp = priority b
   | None => bp = i32_MIN ∧ ∀ d, d ∈ done_ → ¬ candidate i d end) →
  match best_driver ds (vendor_id i) (device_id i) (class i) (subclass i) best bp with
  | Some b => is_best i (done_ ++ ds) b
  | None => ∀ d, d ∈ done_ ++ ds → ¬ candidate i d
  end.
Proof.
  revert done_ best bp. induction ds as [|d ds IH]; intros done_ best bp H; cbn [best_driver].
  { rewrite app_nil_r. destruct best; by destruct H. }
  replace (done_ ++ d :: ds) with ((done_ ++ [d]) ++ ds) by by rewrite <- app_assoc.
  destruct (existsb _ (rules d) && (bp <? priority d)) eqn:Hc.
  - apply andb_true_iff in Hc as [Hm Hlt%Z.ltb_lt]. apply IH. split; [|done].
    assert (Hcand : candidate i d).
    { split; [done|]. destruct best as [b|]; [destruct H as [(?&?&_&[_ ?]&_) ->]; lia|by destruct H as [-> _]]. }
    exists done_, []. split_and!; [done|done| |by intros ? ?%elem_of_nil].
    intros e He Hce. destruct best as [b|]; [|by destruct (proj2 H e He)].
    destruct H as [(l1&l2&->&_&H1&H2) ->]. apply elem_of_app in He as [He|[->|He]%elem_of_cons]; [|done|].
    + specialize (H1 e He Hce). lia.
    + specialize (H2 e He Hce). lia.
  - apply IH. destruct best as [b|].
    + destruct H as [(l1&l2&->&Hb&H1&H2) ->]. split; [|done]. exists l1, (l2 ++ [d]).
      rewrite <- app_assoc. split_and!; [done|done|done|].
      intros e [He| ->%list_elem_of_singleton]%elem_of_app [Hm Hp]; [by apply H2|].
      unfold candidate in *. rewrite Hm in Hc. by apply Z.ltb_ge in Hc.
    + destruct H as [-> H]. split; [done|]. intros e [He| ->%list_elem_of_singleton]%elem_of_app; [by apply H|].
      intros [Hm Hp]. rewrite Hm in Hc. apply Z.ltb_ge in Hc. lia.
Qed.

(** The driver chosen for a PCI device is the first of those with the highest
    priority among the drivers one of whose rules matches it; the search fails
    exactly when no driver matches (a priority of [i32::MIN] never does), and
    always for devices that are not PCI functions. *)
Theorem find_driver_best ds (d : D) :
  match downcast_pci d with
  | Some p =>
      match find_driver ds d with
      | Ok b => is_best (pbd_info p) ds b
      | Err e => e = NoDriverFound ∧ ∀ b, b ∈ ds → ¬ candidate (pbd_info p) b
      | _ => False
      end
  | None => find_driver ds d = Err NoDriverFound
  end.
Proof.
  unfold find_driver. destruct (downcast_pci d) as [p|]; [|done].
  pose proof (best_driver_spec (pbd_info p) ds [] None i32_MIN) as H. cbn [app] in H.
  destruct (best_driver _ _ _ _ _ _ _); cbn [ok_or].
  - apply H. split; [done|]. by intros ? ?%elem_of_nil.
  - split; [done|]. apply H. split; [done|]. by intros ? ?%elem_of_nil.
Qed.

(** ** Binding *)

Lemma try_bind_eq s w id d :
  try_bind id d (s, w) =
    match bindings s !! id with
    | Some _ => ((s, w), Err AlreadyBound)
    | None =>
        match find_driver (drivers s) d with
        | Ok drv =>
            match bind drv id d w with
            | (w, Ok st) =>
                (({| drivers := drivers s;
                     bindings := <[id := Binding_new id d (drv_name drv) st]> (bindings s) |}, w), Ok ())
            | (w, Err e) => ((s, w), Err e)
            | (w, Panic) => ((s, w), Panic)
            | (w, Diverge) => ((s, w), Diverge)
            end
        | Err e => ((s, w), Err e)
        | Panic => ((s, w), Panic)
        | Diverge => ((s, w), Diverge)
        end
    end.
Proof.
  unfold try_bind. rewrite bind_get_st. cbn [fst]. destruct (bindings s !! id) eqn:Hb; [done|].
  destruct (find_driver (drivers s) d) as [drv|e| |]; try done. rewrite bind_lift_Ok, st_bind_unfold.
  unfold on_snd. cbn [snd fst]. destruct (bind drv id d w) as [w' [st|e| |]]; try done.
  rewrite bind_get_st. cbn [fst]. unfold set_bindings. rewrite bind_modify. by rewrite Hb.
Qed.

(** Drivers whose answer to a device does not depend on the hardware's state. *)
Definition answers ds (answer : Driver W D St → Z → D → St + DriverError) : Prop :=
  ∀ drv, drv ∈ ds → ∀ id d w, ∃ w', bind drv id d w =
    (w', match answer drv id d with inl st => Ok st | inr e => Err e end).

(** The binding a device gets. *)
Definition binding_of ds (answer : Driver W D St → Z → D → St + DriverError) (id : Z) (d : D) : option (Binding D St) :=
  match find_driver ds d with
  | Ok drv => match answer drv id d with inl st => Some (Binding_new id d (drv_name drv) st) | inr _ => None end
  | _ => None
  end.

Lemma find_driver_elem ds d drv : find_driver ds d = Ok drv → drv ∈ ds.
Proof.
  unfold find_driver. destruct (downcast_pci d) as [p|]; [|done]. intros H%ok_or_Ok_inv.
  pose proof (best_driver_spec (pbd_info p) ds [] None i32_MIN) as Hb. rewrite H in Hb.
  destruct Hb as (l1&l2&Hds&_); [split; [done|by intros ? ?%elem_of_nil]|].
  cbn [app] in Hds. rewrite Hds. apply elem_of_app. right. by left.
Qed.

Lemma elem_of_by_type (r : DeviceRegistry D) ty id d :
  (id, d) ∈ by_type (W:=W) r ty ↔ get r id = Some d ∧ device_type d = ty.
Proof.
  unfold by_type, get. rewrite list_elem_of_fmap. split.
  - intros ([i e]&[= -> ->]&[Ht Hin%elem_of_bt_iter]%list_elem_of_filter). by rewrite Hin.
  - intros [(e&He&->)%fmap_Some Ht]. exists (id, e). split; [done|].
    apply list_elem_of_filter. split; [done|]. by apply elem_of_bt_iter.
Qed.

Lemma by_type_keys_NoDup (r : DeviceRegistry D) ty : NoDup (by_type (W:=W) r ty).*1.
Proof.
  unfold by_type. rewrite <- list_fmap_compose.
  eapply sublist_NoDup; [apply (bt_keys_NoDup Z.le (devices r))|]. unfold bt_keys.
  etrans; [|apply fmap_sublist, (sublist_filter (λ '(_, e), device_type (en_device e) = ty))].
  match goal with |- ?a `sublist_of` ?b => enough (a = b) as -> by done end.
  apply list_fmap_ext. by intros _ [? ?] _.
Qed.

(** One pass of the loop of [bind_all]. *)
Lemma bind_step {E} s w id d answer :
  answers (drivers s) answer →
  ∃ s' w', (_ ← st_try (try_bind id d); mret ()) (s, w) = ((s', w'), Ok (E:=E) ()) ∧
    drivers s' = drivers s ∧ ∀ i, bindings s' !! i =
      if decide (i = id) then match bindings s !! id with Some b => Some b | None => binding_of (drivers s) answer id d end
      else bindings s !! i.
Proof.
  intros Hans. rewrite st_bind_unfold. unfold st_try. rewrite try_bind_eq.
  destruct (bindings s !! id) as [b|] eqn:Hs.
  { eexists s, w. split_and!; [done|done|]. intros i. case_decide as Hi; [by rewrite Hi|done]. }
  unfold binding_of. destruct (find_driver (drivers s) d) as [drv|e| |] eqn:Hf;
    [|eexists s, w; split_and!; [done|done|]; intros i; case_decide as Hi; [by rewrite Hi|done]| |].
  2, 3: unfold find_driver in Hf; by destruct (match downcast_pci d with Some _ => _ | None => None end).
  destruct (Hans drv (find_driver_elem _ _ _ Hf) id d w) as [w' ->].
  destruct (answer drv id d) as [st|e]; [eexists _, w'|eexists s, w']; (split_and!; [done|done|]).
  - intros i. cbn [bindings]. case_decide as Hi; [by rewrite Hi, lookup_insert_eq|].
    by rewrite lookup_insert_ne by done.
  - intros i. case_decide as Hi; [by rewrite Hi|done].
Qed.


(** ** Taking a block device out *)

(** The bindings from a list of ids that hold a state without a block device. *)
Definition other_states s (ids : list Z) : Prop :=
  ∀ id, id ∈ ids → ∃ b st, bindings s !! id = Some b ∧ b_state b = Some st ∧ as_block_device (DriverState := driver_state) st = None.

Lemma take_step s w id rest b st :
  bindings s !! id = Some b → b_state b = Some st →
  take_loop (id :: rest) (s, w) =
    let s1 := {| drivers := drivers s; bindings := delete id (bindings s) |} in
    match as_block_device (DriverState := driver_state) st with
    | Some blk => ((s1, w), Ok (Some (id, blk)))
    | None => take_loop rest (s1, w)
    end.
Proof.
  intros Hb Hst. cbn [take_loop]. rewrite bind_get_st. cbn [fst]. rewrite Hb. unfold set_bindings.
  rewrite bind_modify. rewrite st_bind_unfold. unfold on_snd, into_block_device. rewrite Hst. cbn [fst snd].
  by destruct (as_block_device st).
Qed.

Lemma take_loop_skip s w ids rest :
  NoDup ids → other_states s ids →
  ∃ s', take_loop (ids ++ rest) (s, w) = take_loop rest (s', w) ∧ drivers s' = drivers s ∧
    ∀ i, bindings s' !! i = if decide (i ∈ ids) then None else bindings s !! i.
Proof.
  revert s. induction ids as [|id ids IH]; intros s Hnd Ho; cbn [app].
  { exists s. split_and!; [done|done|]. intros i. by rewrite decide_False by by intros ?%elem_of_nil. }
  apply NoDup_cons in Hnd as [Hnin Hnd]. destruct (Ho id) as (b&st&Hb&Hst&Has); [by left|].
  rewrite (take_step s w id _ b st Hb Hst), Has. cbv zeta.
  destruct (IH {| drivers := drivers s; bindings := delete id (bindings s) |} Hnd) as (s'&Hrun&Hd&Hi).
  { intros i Hin. destruct (Ho i) as (b'&st'&?&?&?); [by right|]. exists b', st'. cbn [bindings].
    rewrite lookup_delete_ne; [done|]. intros ->. done. }
  exists s'. split_and!; [done|done|]. intros i. rewrite Hi. cbn [bindings].
  destruct (decide (i = id)) as [->|Hne].
  - rewrite lookup_delete_eq, (decide_True (P := id ∈ id :: ids)) by by left. by case_decide.
  - rewrite lookup_delete_ne by done. destruct (decide (i ∈ ids)) as [Hin|Hout].
    + by rewrite decide_True by by right.
    + rewrite decide_False; [done|]. by intros [|]%elem_of_cons.
Qed.

(** [take_block_device] hands out the first block device in id order, but the
    bindings it passes over on the way are removed with it, and neither they
    nor the one it returns are stopped: the hardware is not touched, where
    [unbind] of the same binding calls its driver's [stop]. *)
Theorem take_block_device_drops_others s w before id after b st blk :
  bt_keys Z.le (bindings s) = before ++ id :: after → other_states s before →
  bindings s !! id = Some b → b_state b = Some st → as_block_device st = Some blk →
  (∃ s', take_block_device (s, w) = ((s', w), Ok (Some (id, blk))) ∧
     ∀ i, bindings s' !! i = if decide (i ∈ before ++ [id]) then None else bindings s !! i) ∧
  ∀ i b' st', bindings s !! i = Some b' → b_state b' = Some st' →
    unbind i (s, w) =
      on_snd (infallible (stop st')) ({| drivers := drivers s; bindings := delete i (bindings s) |}, w).
Proof.
  intros Hk Ho Hb Hst Has. split.
  - unfold take_block_device. rewrite bind_get_st. cbn [fst]. rewrite Hk.
    pose proof (bt_keys_NoDup Z.le (bindings s)) as Hnd. rewrite Hk in Hnd.
    apply NoDup_app in Hnd as (Hnd&Hnin&_).
    destruct (take_loop_skip s w before (id :: after) Hnd Ho) as (s1&->&Hd&Hi).
    assert (Hid : id ∉ before) by (intros Hin; apply (Hnin id Hin); by left).
    rewrite (take_step s1 w id after b st) by (done || by rewrite Hi, decide_False by done).
    rewrite Has. eexists. split; [done|]. intros i. cbn [bindings].
    destruct (decide (i = id)) as [->|Hne].
    + rewrite lookup_delete_eq, decide_True; [done|]. apply elem_of_app. right. by left.
    + rewrite lookup_delete_ne, Hi by done. destruct (decide (i ∈ before)) as [Hin|Hout].
      * by rewrite decide_True by (apply elem_of_app; by left).
      * rewrite decide_False; [done|]. by intros [|?%list_elem_of_singleton]%elem_of_app.
  - intros i b' st' Hb' Hst'. unfold unbind. rewrite bind_get_st. cbn [fst]. rewrite Hb'. cbn [ok_or].
    rewrite bind_lift_Ok. unfold set_bindings. rewrite bind_modify. cbn [fst snd].
    unfold Binding_drop. by rewrite Hst'.
Qed.
End drivers.
