(* ===== verification/PciDemo.v ===== *)
(** * A machine with one storage controller

    A concrete configuration space with a function at 00:03.0, and the witnesses
    of the properties of the PCI layer and of the registries over it. *)

From S2P Require Import Prelude Bytes Text BlockDev Mmio Pci PciFacts PciWalk Devices PciBus PciBusFacts.
From S2P Require Import Drivers DriversFacts.

Definition demo_base : Z := 0xB0000000.
Definition demo_addr : PciAddress := {| pa_bus := 0; pa_device := 3; pa_function := 0 |}.
Definition demo_reg (off : Z) : Z := demo_base + 0x18000 + off.

(** The registers at reset; everything else reads as ones. *)
Definition demo_init (k : Z) : Z :=
  if k =? demo_reg 0x00 then 0x29228086 else
  if k =? demo_reg 0x04 then 0x81100003 else
  if k =? demo_reg 0x08 then 0x01060102 else
  if k =? demo_reg 0x0C then 0 else
  if k =? demo_reg 0x10 then 0xFE00000C else
  if k =? demo_reg 0x14 then 1 else
  if k =? demo_reg 0x18 then 0xFEB00000 else
  if k =? demo_reg 0x1C then 0xC041 else
  if k =? demo_reg 0x20 then 0 else
  if k =? demo_reg 0x24 then 0 else
  if k =? demo_reg 0x34 then 0x40 else
  if k =? demo_reg 0x3C then 0x10B else
  if k =? demo_reg 0x40 then 0x5005 else
  if k =? demo_reg 0x50 then 0x11 else 0xFFFFFFFF.

(** What a register holds after a write of [v] over [old]: the command and
    status registers, a 64-bit BAR of 16 KiB, a 32-bit BAR of 4 KiB and 8 ports
    of I/O; the others are read-only. *)
Definition demo_write (k old v : Z) : Z :=
  if k =? demo_reg 0x04 then v mod 2 ^ 16 + Z.ldiff (old / 2 ^ 16) (Z.land (v / 2 ^ 16) 0xF900) * 2 ^ 16 else
  if k =? demo_reg 0x10 then v - v mod 2 ^ 14 + 0xC else
  if k =? demo_reg 0x14 then v else
  if k =? demo_reg 0x18 then v - v mod 2 ^ 12 else
  if k =? demo_reg 0x1C then v - v mod 2 ^ 3 + 1 else demo_init k.

Record demo_hw := { demo_regs : gmap Z Z }.
Definition demo_reset : demo_hw := {| demo_regs := ∅ |}.
Definition demo_value (k : Z) (w : demo_hw) : Z := wrap 32 (default (demo_init k) (demo_regs w !! k)).

#[export] Instance demo_mmio : Mmio demo_hw := {|
  read_volatile _ k w := (w, demo_value k w);
  write_volatile _ k v w := {| demo_regs := <[k := demo_write k (demo_value k w) v]> (demo_regs w) |};
|}.

Definition demo_valid (a : PciAddress) (off : Z) : bool :=
  bool_decide (0 ≤ pa_bus a < 256 ∧ 0 ≤ pa_device a < 32 ∧ 0 ≤ pa_function a < 8 ∧ 0 ≤ off < 4096 ∧ off mod 4 = 0).
Definition demo_cfg (w : demo_hw) (a : PciAddress) (off : Z) : Z :=
  if demo_valid a off then demo_value (ptr demo_base 0 a off) w else 0xFFFFFFFF.

Lemma demo_valid_spec a off : demo_valid a off = true ↔ valid a ∧ dword off.
Proof. unfold demo_valid. rewrite bool_decide_eq_true. unfold valid, dword. tauto. Qed.

#[export] Instance demo_config : ConfigSpace (mmio := demo_mmio) demo_base 0.
Proof.
  refine {| cfg := demo_cfg |}.
  - intros w a off. unfold demo_cfg. destruct (demo_valid a off); [|done].
    unfold demo_value. apply wrap_range. lia.
  - intros w a off Ha Ho. unfold demo_cfg. by rewrite (proj2 (demo_valid_spec a off)).
  - intros w a off v a' off' Ha Ho Hne. unfold demo_cfg.
    destruct (demo_valid a' off') eqn:Hv; [|done]. apply demo_valid_spec in Hv as [Ha' Ho'].
    unfold demo_value. cbn [write_volatile demo_mmio demo_regs].
    rewrite lookup_insert_ne; [done|]. intros E. apply ptr_inj in E as [-> ->]; done.
Defined.

Lemma demo_written a off v w :
  valid a → dword off →
  demo_cfg (written demo_base 0 a off v w) a off =
    wrap 32 (demo_write (ptr demo_base 0 a off) (demo_value (ptr demo_base 0 a off) w) v).
Proof.
  intros Ha Ho. unfold demo_cfg. rewrite (proj2 (demo_valid_spec a off)) by done.
  unfold demo_value at 1, written. cbn [write_volatile demo_mmio demo_regs]. by rewrite lookup_insert_eq.
Qed.

Lemma demo_addr_valid : valid demo_addr.
Proof. split_and!; by vm_compute. Qed.

(** A register of the demo function with the low bits below [2 ^ k] hardwired. *)
Lemma demo_sized off k fl :
  dword off → (∀ old v, is_u32 v → demo_write (ptr demo_base 0 demo_addr off) old v = v - v mod 2 ^ k + fl) →
  (∀ v, is_u32 v → is_u32 (v - v mod 2 ^ k + fl)) → sized demo_base 0 demo_addr off k fl.
Proof.
  intros Ho Hw Hr w v Hv. change (cfg demo_base 0) with demo_cfg.
  rewrite demo_written by (done || apply demo_addr_valid). rewrite Hw by done. apply wrap_small. by apply Hr.
Qed.

Lemma sized_range v k fl : 0 ≤ fl < 2 ^ k → 0 ≤ k ≤ 32 → is_u32 v → is_u32 (v - v mod 2 ^ k + fl).
Proof.
  intros Hf Hk [Hv1 Hv2]. assert (Hp : 2 ^ 32 = 2 ^ (32 - k) * 2 ^ k) by (rewrite <- Z.pow_add_r by lia; f_equal; lia).
  pose proof (Z.div_mod v (2 ^ k) ltac:(lia)). pose proof (Z.mod_pos_bound v (2 ^ k) ltac:(lia)).
  assert (0 ≤ v / 2 ^ k < 2 ^ (32 - k)) by (split; [apply Z.div_pos|apply Z.div_lt_upper_bound]; lia).
  split; nia.
Qed.

Lemma demo_bar0 : mem64_bar demo_base 0 demo_reset demo_addr 0x10 14 0xC.
Proof.
  split; [|split; [|split_and!; by vm_compute]].
  - apply demo_sized; [by vm_compute|done|]. intros v. by apply sized_range.
  - apply demo_sized; [by vm_compute| |].
    + intros old v Hv. change (demo_write _ old v) with v. change (2 ^ Z.max 0 (14 - 32)) with 1. dlia.
    + intros v. apply (sized_range v 0 0); by vm_compute.
Qed.

Lemma demo_bar2 : mem32_bar demo_base 0 demo_reset demo_addr 0x18 12 0.
Proof.
  split; [|split_and!; by vm_compute]. apply demo_sized; [by vm_compute| |].
  - intros old v Hv. change (demo_write _ old v) with (v - v mod 2 ^ 12). lia.
  - intros v. by apply (sized_range v 12 0).
Qed.

Lemma demo_bar3 : io_bar demo_base 0 demo_reset demo_addr 0x1C 3.
Proof.
  split; [|split_and!; by vm_compute]. apply demo_sized; [by vm_compute|done|].
  intros v. by apply (sized_range v 3 1).
Qed.

Lemma demo_write_init k old :
  k ≠ demo_reg 0x04 → wrap 32 (demo_write k old (wrap 32 (demo_init k))) = wrap 32 (demo_init k).
Proof.
  intros Hk. unfold demo_write. rewrite (proj2 (Z.eqb_neq _ _)) by done.
  destruct (Z.eqb_spec k (demo_reg 0x10)) as [->|]; [by vm_compute|].
  destruct (Z.eqb_spec k (demo_reg 0x14)) as [->|]; [by vm_compute|].
  destruct (Z.eqb_spec k (demo_reg 0x18)) as [->|]; [by vm_compute|].
  destruct (Z.eqb_spec k (demo_reg 0x1C)) as [->|]; [by vm_compute|]. done.
Qed.

Lemma demo_restore : bars_restore demo_base 0 demo_reset.
Proof.
  intros a idx w Ha Hi. assert (Hd : dword (0x10 + idx * 4)) by (split; dlia).
  change (cfg demo_base 0) with demo_cfg. rewrite demo_written by done. unfold demo_cfg.
  rewrite (proj2 (demo_valid_spec a _)) by done. unfold demo_value at 2 3. cbn [demo_reset demo_regs].
  rewrite lookup_empty. cbn [default from_option]. unfold id. apply demo_write_init. intros E.
  assert (E' : ptr demo_base 0 a (0x10 + idx * 4) = ptr demo_base 0 demo_addr 4) by exact E.
  apply ptr_inj in E' as [_ ?]; [lia|done|apply demo_addr_valid|done|by vm_compute].
Qed.

Lemma demo_command_status : command_status demo_base 0 demo_addr 0xF900.
Proof.
  intros w v [Hv1 Hv2]. change (cfg demo_base 0) with demo_cfg.
  rewrite demo_written by (apply demo_addr_valid || by vm_compute).
  change (demo_cfg w demo_addr 4) with (demo_value (ptr demo_base 0 demo_addr 4) w).
  change (demo_write (ptr demo_base 0 demo_addr 4) ?old v) with
    (v mod 2 ^ 16 + Z.ldiff (old / 2 ^ 16) (Z.land (v / 2 ^ 16) 0xF900) * 2 ^ 16).
  apply wrap_small. set (s := demo_value _ w).
  assert (Hs : is_u32 s) by (apply wrap_range; lia). destruct Hs as [Hs1 Hs2].
  assert (Hq : is_u16 (s / 2 ^ 16)) by (split; dlia).
  assert (Hl : is_u16 (Z.ldiff (s / 2 ^ 16) (Z.land (v / 2 ^ 16) 0xF900))).
  { by apply is_u_ldiff. }
  destruct Hl. dlia.
Qed.

(** ** The PCI layer *)

Lemma probe_memory_bars_witness :
  (∃ w', same_cfg demo_base 0 demo_reset w' ∧
    probe (E:=()) 0 3 0 0 (at_ demo_base 0 demo_reset) =
      (at_ demo_base 0 w', Ok (Bar_Memory 0x1FE000000 (2 ^ 14) true, 2%nat))) ∧
  (∃ w', same_cfg demo_base 0 demo_reset w' ∧
    probe (E:=()) 0 3 0 2 (at_ demo_base 0 demo_reset) =
      (at_ demo_base 0 w', Ok (Bar_Memory 0xFEB00000 (2 ^ 12) false, 1%nat))).
Proof.
  split.
  - exact (proj2 (probe_memory_bars demo_base 0 demo_addr 0 demo_reset 14 0xC demo_addr_valid ltac:(lia)) demo_bar0).
  - exact (proj1 (probe_memory_bars demo_base 0 demo_addr 2 demo_reset 12 0 demo_addr_valid ltac:(lia)) demo_bar2).
Defined.

Lemma io_bar_rounded_up_witness :
  ∃ w' port, same_cfg demo_base 0 demo_reset w' ∧
    probe (E:=()) 0 3 0 3 (at_ demo_base 0 demo_reset) = (at_ demo_base 0 w', Ok (Bar_Io port 16, 1%nat)).
Proof. exact (io_bar_rounded_up demo_base 0 demo_addr 3 demo_reset 3 demo_addr_valid ltac:(lia) demo_bar3). Defined.

Definition demo_info : PciDeviceInfo := {|
  pi_address := demo_addr; vendor_id := 0x8086; device_id := 0x2922; class := 1; subclass := 6; prog_if := 1;
  revision := 2; bars := replicate 6 Bar_Empty; irq_line := Some 11 |}.

Lemma enable_bus_master_clears_status_witness :
  ∃ w', enable_bus_master (E:=()) demo_info (at_ demo_base 0 demo_reset) = (at_ demo_base 0 w', Ok ()) ∧
    demo_cfg w' demo_addr 4 mod 2 ^ 16 = 0x7 ∧ demo_cfg w' demo_addr 4 / 2 ^ 16 = 0x10.
Proof.
  exact (enable_bus_master_clears_status demo_base 0 demo_info 0xF900 demo_reset demo_addr_valid demo_command_status).
Defined.

Lemma parse_capabilities_reads_list_witness :
  ∃ caps, parse_capabilities (E:=()) demo_info (at_ demo_base 0 demo_reset) = (at_ demo_base 0 demo_reset, Ok caps) ∧
    caps = [{| cap_id := Cap_Msi; cap_offset := 0x40 |}; {| cap_id := Cap_MsiX; cap_offset := 0x50 |}].
Proof.
  destruct (parse_capabilities_reads_list (E:=()) demo_base 0 demo_info demo_reset [(0x40, 5); (0x50, 0x11)] demo_addr_valid)
    as (caps&H&_&_&_&Hl).
  exists caps. split; [exact H|]. clear H; apply Hl; [by vm_compute|by vm_compute|cbn; lia].
Defined.

(** A callback that counts. *)
Definition demo_count (info : PciDeviceInfo) : st (Z * Ecam demo_hw) () () := modify (λ s, (s.1 + 1, s.2)).

Lemma enumerate_reports_functions_witness :
  ∃ n w', enumerate demo_count (0, at_ demo_base 0 demo_reset) = ((n, at_ demo_base 0 w'), Ok ()) ∧
    same_cfg demo_base 0 demo_reset w'.
Proof.
  destruct (enumerate_reports_functions demo_base 0 demo_count (λ _ n n', n' = n + 1) demo_reset demo_restore) with (r := 0)
    as (n&w'&H&Hs&_); [intros a info n w Hs _ _ _; by exists (n + 1), w|by vm_compute|].
  exists n, w'. split; [exact H|exact Hs].
Defined.

(** ** The registries *)

Lemma demo_functions : functions demo_base 0 demo_reset = [demo_addr].
Proof. by vm_compute. Qed.

Lemma pci_enumerate_fills_registry_witness :
  ∃ s' w' d, PciBus_enumerate (DeviceRegistry_new 1, at_ demo_base 0 demo_reset) = ((s', at_ demo_base 0 w'), Ok ()) ∧
    get_by_name s' (lit "pci:00:03.0") = Some d ∧ class (pbd_info d) = 1 ∧ registry_len s' = 1.
Proof.
  destruct (pci_enumerate_fills_registry demo_base 0 demo_reset 1 demo_restore ltac:(by vm_compute)) as [Hb _].
  destruct (Hb ltac:(by vm_compute)) as (s'&w'&Hrun&_&_&Hf&_&Hlen).
  destruct (Hf demo_addr) as (d&Hd&Hi); [rewrite demo_functions; by left|].
  exists s', w', d. split; [exact Hrun|]. split; [exact Hd|]. split.
  - destruct Hi as (_&_&_&Hc&_). rewrite Hc. clear. by vm_compute.
  - rewrite Hlen, demo_functions. reflexivity.
Defined.

Definition demo_device (a : PciAddress) : PciBusDevice :=
  {| pbd_info := demo_info; pbd_name := pci_name a; pbd_caps := [] |}.
Definition demo_ecam : Ecam demo_hw := at_ demo_base 0 demo_reset.

Lemma registry_refines_names_witness :
  let s := DeviceRegistry_new 1 in let d := demo_device demo_addr in
  (∃ s', register d (s, demo_ecam) = ((s', demo_ecam), Ok {| dh_id := 1; dh_inner := d |}) ∧
    get s' 1 = Some d) ∧
  unregister 7 (s, demo_ecam) = ((s, demo_ecam), Err Dev_NotFound).
Proof.
  intros s d.
  destruct (registry_refines_names s demo_ecam d 7 [] (DeviceRegistry_new_ok (W:=Ecam demo_hw) 1 ltac:(lia)) ltac:(by vm_compute))
    as ((s'&Hr&_&_&Hg&_)&Hu&_).
  split; [exists s'; split; [exact Hr|exact Hg]|exact Hu].
Defined.

Lemma register_race_loses_name_witness :
  let d := demo_device demo_addr in
  ∃ s' s'' h1 h2,
    (reg_check (W:=Ecam demo_hw) (name (W:=Ecam demo_hw) d);; reg_check (W:=Ecam demo_hw) (name (W:=Ecam demo_hw) d);;
     h1 ← register_rest d; h2 ← register_rest d; mret (h1, h2)) (DeviceRegistry_new 1, demo_ecam) =
      ((s', demo_ecam), Ok (h1, h2)) ∧
    get s' (dh_id h1) = Some d ∧ get s' (dh_id h2) = Some d ∧ ¬ dh_id h1 = dh_id h2 ∧
    unregister (dh_id h1) (s', demo_ecam) = ((s'', demo_ecam), Ok ()) ∧
    get s'' (dh_id h2) = Some d ∧ get_by_name s'' (name (W:=Ecam demo_hw) d) = None.
Proof.
  intros d. exact (register_race_loses_name (DeviceRegistry_new 1) demo_ecam demo_ecam demo_ecam d d eq_refl
    (DeviceRegistry_new_ok (W:=Ecam demo_hw) 1 ltac:(lia)) ltac:(by vm_compute) eq_refl eq_refl eq_refl eq_refl).
Defined.

(** Two drivers for the controller; the state of each is the id it is bound to,
    the second one's is a block device. *)
Inductive demo_state := Ds_plain (id : Z) | Ds_block (id : Z).

#[export] Instance demo_driver_state : DriverState (Ecam demo_hw) demo_state Z := {|
  stop _ := mret ();
  as_block_device s := match s with Ds_plain _ => None | Ds_block id => Some id end;
  into_block_devices s := match s with Ds_plain _ => [] | Ds_block id => [id] end;
  as_block_device_ptr _ := None;
|}.

Definition demo_driver (n : string) (prio : Z) (make : Z → demo_state) : Driver (Ecam demo_hw) PciBusDevice demo_state := {|
  drv_name := lit n; rules := [Mr_PciClass 1 6]; priority := prio; bind := λ id d, mret (make id) |}.

Definition demo_drivers : DriverRegistry (Ecam demo_hw) PciBusDevice demo_state :=
  {| drivers := [demo_driver "generic" 0 Ds_plain; demo_driver "ahci" 10 Ds_block]; bindings := ∅ |}.

Definition demo_answer (drv : Driver (Ecam demo_hw) PciBusDevice demo_state) (id : Z) (d : PciBusDevice) :
    demo_state + DriverError :=
  match bind drv id d demo_ecam with (_, Ok s) => inl s | (_, Err e) => inr e | _ => inr BindFailed end.

Lemma demo_answers : answers (drivers demo_drivers) demo_answer.
Proof.
  intros drv [->|[->|?%elem_of_nil]%elem_of_cons]%elem_of_cons id d w; [by exists w..|done].
Qed.

Definition demo_registry : DeviceRegistry PciBusDevice :=
  {| devices := {[ 4 := {| en_name := lit "pci:00:03.0"; en_device := demo_device demo_addr |} ]};
     name_index := {[ lit "pci:00:03.0" := 4 ]}; NEXT_ID := 5 |}.


(** A plain driver bound at 1 and block devices at 2 and 3. *)
Definition demo_bound : DriverRegistry (Ecam demo_hw) PciBusDevice demo_state :=
  let b := λ id s, Binding_new id (demo_device demo_addr) (lit "x") s in
  {| drivers := []; bindings := {[ 1 := b 1 (Ds_plain 1); 2 := b 2 (Ds_block 2); 3 := b 3 (Ds_block 3) ]} |}.

Lemma take_block_device_drops_others_witness :
  ∃ s', take_block_device (demo_bound, demo_ecam) = ((s', demo_ecam), Ok (Some (2, 2))) ∧
    bindings s' !! 1 = None ∧ is_Some (bindings s' !! 3).
Proof.
  destruct (take_block_device_drops_others demo_bound demo_ecam [1] 2 [3]
    (Binding_new 2 (demo_device demo_addr) (lit "x") (Ds_block 2)) (Ds_block 2) 2) as [(s'&Hrun&Hb) _].
  - by vm_compute.
  - intros id ->%list_elem_of_singleton.
    exists (Binding_new 1 (demo_device demo_addr) (lit "x") (Ds_plain 1)), (Ds_plain 1). by vm_compute.
  - reflexivity.
  - reflexivity.
  - reflexivity.
  - exists s'. split; [exact Hrun|]. rewrite !Hb. split; [reflexivity|]. by eexists.
Defined.
