(* ===== verification/Async.v ===== *)
(** * Tasks, wakers and interrupts

    [kernel/src/task/{mod,executor,sleep}.rs], [task/shell/scancodes.rs],
    [flags.rs] and the timer and keyboard handlers of [interrupts/mod.rs].

    The queues ([crossbeam_queue::ArrayQueue]) and the waker slots
    ([futures_util::task::AtomicWaker]) are the classes [ArrayQueue] and
    [AtomicWaker], with what their documentation says as laws. *)

From S2P Require Import Prelude Bytes Devices.

(** A bounded FIFO queue: [push] hands the element back when it is full. *)
Class ArrayQueue (X Q : Type) := {
  aq_new : Z → Q;
  aq_push : X → Q → Q * bool;
  aq_pop : Q → Q * option X;
  aq_is_empty : Q → bool;
}.

Class ArrayQueueSpec (X Q : Type) {aq : ArrayQueue X Q} := {
  contents : Q → list X;
  capacity : Q → Z;
  aq_bounded q : len (contents q) ≤ capacity q;
  aq_new_spec n : 0 < n → contents (aq_new n) = [] ∧ capacity (aq_new n) = n;
  aq_push_spec x q : len (contents q) < capacity q →
    ∃ q', aq_push x q = (q', true) ∧ contents q' = contents q ++ [x] ∧ capacity q' = capacity q;
  aq_push_full x q : len (contents q) = capacity q → aq_push x q = (q, false);
  aq_pop_nil q : contents q = [] → aq_pop q = (q, None);
  aq_pop_cons q x l : contents q = x :: l →
    ∃ q', aq_pop q = (q', Some x) ∧ contents q' = l ∧ capacity q' = capacity q;
  aq_is_empty_spec q : aq_is_empty q = bool_decide (contents q = []);
}.

(** A slot for one waker: [register] replaces what it holds, [take] empties
    it; [wake] is a [take] followed by waking what was in it. *)
Class AtomicWaker (A : Type) := {
  aw_new : A;
  aw_register : Z → A → A;
  aw_take : A → A * option Z;
}.

Class AtomicWakerSpec (A : Type) {aw : AtomicWaker A} := {
  held : A → option Z;
  aw_new_spec : held aw_new = None;
  aw_register_spec w a : held (aw_register w a) = Some w;
  aw_take_spec a : (aw_take a).2 = held a ∧ held (aw_take a).1 = None;
}.

(** [Future::poll] with the waker of task [w]: [None] is [Poll::Pending]. *)
Class Future (S F A : Type) := poll : Z → F → st S Empty_set (F * option A).

Section async.
Context {TQ SQ AW : Type} {tq : ArrayQueue Z TQ} {sq : ArrayQueue Z SQ} {aw : AtomicWaker AW}.

(** The statics of [flags.rs] that the tasks and the handlers share, the
    counter behind [TaskId::new], and the task queue, which the executor and
    all wakers share through an [Arc]. A waker is its [task_id]. *)
Record Flags := {
  TIMER_TICKS : Z;
  SHOULD_YIELD_FLAG : bool;
  SCANCODE_QUEUE : option SQ;
  KEYBOARD_WAKER : AW;
  KEYBOARD_EVENT_COUNT : Z;
  TIMER_WAKER : AW;
  TASK_NEXT_ID : Z;
  task_queue : TQ;
}.

Definition set_ticks (f : Flags) (t : Z) (y : bool) : Flags :=
  {| TIMER_TICKS := t; SHOULD_YIELD_FLAG := y; SCANCODE_QUEUE := SCANCODE_QUEUE f; KEYBOARD_WAKER := KEYBOARD_WAKER f;
     KEYBOARD_EVENT_COUNT := KEYBOARD_EVENT_COUNT f; TIMER_WAKER := TIMER_WAKER f; TASK_NEXT_ID := TASK_NEXT_ID f;
     task_queue := task_queue f |}.
Definition set_scancodes (f : Flags) (q : option SQ) : Flags :=
  {| TIMER_TICKS := TIMER_TICKS f; SHOULD_YIELD_FLAG := SHOULD_YIELD_FLAG f; SCANCODE_QUEUE := q;
     KEYBOARD_WAKER := KEYBOARD_WAKER f; KEYBOARD_EVENT_COUNT := KEYBOARD_EVENT_COUNT f; TIMER_WAKER := TIMER_WAKER f;
     TASK_NEXT_ID := TASK_NEXT_ID f; task_queue := task_queue f |}.
Definition set_keyboard (f : Flags) (w : AW) (n : Z) : Flags :=
  {| TIMER_TICKS := TIMER_TICKS f; SHOULD_YIELD_FLAG := SHOULD_YIELD_FLAG f; SCANCODE_QUEUE := SCANCODE_QUEUE f;
     KEYBOARD_WAKER := w; KEYBOARD_EVENT_COUNT := n; TIMER_WAKER := TIMER_WAKER f; TASK_NEXT_ID := TASK_NEXT_ID f;
     task_queue := task_queue f |}.
Definition set_timer_waker (f : Flags) (w : AW) : Flags :=
  {| TIMER_TICKS := TIMER_TICKS f; SHOULD_YIELD_FLAG := SHOULD_YIELD_FLAG f; SCANCODE_QUEUE := SCANCODE_QUEUE f;
     KEYBOARD_WAKER := KEYBOARD_WAKER f; KEYBOARD_EVENT_COUNT := KEYBOARD_EVENT_COUNT f; TIMER_WAKER := w;
     TASK_NEXT_ID := TASK_NEXT_ID f; task_queue := task_queue f |}.
Definition set_task_queue (f : Flags) (id : Z) (q : TQ) : Flags :=
  {| TIMER_TICKS := TIMER_TICKS f; SHOULD_YIELD_FLAG := SHOULD_YIELD_FLAG f; SCANCODE_QUEUE := SCANCODE_QUEUE f;
     KEYBOARD_WAKER := KEYBOARD_WAKER f; KEYBOARD_EVENT_COUNT := KEYBOARD_EVENT_COUNT f; TIMER_WAKER := TIMER_WAKER f;
     TASK_NEXT_ID := id; task_queue := q |}.

(** The statics as they are initialised, and the executor's empty queue. *)
Definition flags_init : Flags :=
  {| TIMER_TICKS := 0; SHOULD_YIELD_FLAG := false; SCANCODE_QUEUE := None; KEYBOARD_WAKER := aw_new;
     KEYBOARD_EVENT_COUNT := 0; TIMER_WAKER := aw_new; TASK_NEXT_ID := 0; task_queue := aq_new 100 |}.

(** ** Wakers *)

(** [TaskWaker::wake_task]: [.expect("task_queue full")]. *)
Definition wake_task {E} (task_id : Z) : st Flags E () := λ f,
  let '(q, ok) := aq_push task_id (task_queue f) in
  (set_task_queue f (TASK_NEXT_ID f) q, if ok : bool then Ok () else Panic).

Definition wake_opt {E} (w : option Z) : st Flags E () := match w with Some id => wake_task id | None => mret () end.

(** [TIMER_WAKER.wake()], [KEYBOARD_WAKER.wake()] *)
Definition wake_timer {E} : st Flags E () :=
  f ← get_st; let '(a, w) := aw_take (TIMER_WAKER f) in
  modify (λ f, set_timer_waker f a);; wake_opt w.
Definition wake_keyboard {E} : st Flags E () :=
  f ← get_st; let '(a, w) := aw_take (KEYBOARD_WAKER f) in
  modify (λ f, set_keyboard f a (KEYBOARD_EVENT_COUNT f));; wake_opt w.

(** ** Interrupt handlers

    Acknowledging the interrupt to the controller is in [Cpu]. *)

Definition timer_interrupt_handler {E} : st Flags E () :=
  modify (λ f, set_ticks f (wrap 64 (TIMER_TICKS f + 1)) true);;
  wake_timer.

(** [scancode] is what port 0x60 holds. *)
Definition keyboard_interrupt_handler {E} (scancode : Z) : st Flags E () :=
  f ← get_st;
  match SCANCODE_QUEUE f with
  | Some queue => modify (λ f, set_scancodes f (Some (aq_push scancode queue).1))
  | None => mret ()
  end;;
  modify (λ f, set_keyboard f (KEYBOARD_WAKER f) (wrap 64 (KEYBOARD_EVENT_COUNT f + 1)));;
  wake_keyboard.

(** ** The leaf futures *)

Record Sleep := { target : Z }.
Definition Sleep_new {E} (ticks : Z) : st Flags E Sleep :=
  f ← get_st; mret {| target := wrap 64 (TIMER_TICKS f + ticks) |}.
#[global] Instance Sleep_Future : Future Flags Sleep () := λ cx s,
  f ← get_st;
  if target s <=? TIMER_TICKS f then mret (s, Some ())
  else modify (λ f, set_timer_waker f (aw_register cx (TIMER_WAKER f)));; mret (s, None).

(** The future of the shell command [sleep] ([cmd_sleep] in
    [commands/sleep.rs]): not started, or waiting. *)
Inductive CmdSleep := Cs_start (ticks : option Z) | Cs_wait (s : Sleep).
#[global] Instance CmdSleep_Future : Future Flags CmdSleep () := λ cx c,
  match c with
  | Cs_start None => mret (c, Some ())
  | Cs_start (Some t) => s ← Sleep_new t; '(s, r) ← poll cx s; mret (Cs_wait s, r)
  | Cs_wait s => '(s, r) ← poll cx s; mret (Cs_wait s, r)
  end.

(** [ScancodeStream] has no state of its own. *)
Definition ScancodeStream_new {E} : st Flags E () :=
  f ← get_st;
  match SCANCODE_QUEUE f with
  | Some _ => lift Panic
  | None => modify (λ f, set_scancodes f (Some (aq_new 256)))
  end.

Definition pop_scancode {E} : st Flags E (option Z) :=
  f ← get_st;
  queue ← lift (unwrap (SCANCODE_QUEUE f));
  let '(q, code) := aq_pop queue in
  modify (λ f, set_scancodes f (Some q));; mret code.
Definition register_keyboard {E} (cx : Z) : st Flags E () :=
  modify (λ f, set_keyboard f (aw_register cx (KEYBOARD_WAKER f)) (KEYBOARD_EVENT_COUNT f)).
Definition take_keyboard {E} : st Flags E () :=
  modify (λ f, set_keyboard f (aw_take (KEYBOARD_WAKER f)).1 (KEYBOARD_EVENT_COUNT f)).

(** [Stream::poll_next]; the stream never ends, so that [Some code] stands for
    [Poll::Ready(Some(code))]. *)
Definition poll_next {E} (cx : Z) : st Flags E (option Z) :=
  code ← pop_scancode;
  match code with
  | Some code => mret (Some code)
  | None =>
      register_keyboard cx;;
      code ← pop_scancode;
      match code with
      | Some code => take_keyboard;; mret (Some code)
      | None => mret None
      end
  end.
End async.
Arguments Flags : clear implicits.
