(* ===== verification/Executor.v ===== *)
(** * The executor

    [kernel/src/task/executor.rs] and [task/mod.rs], and the kernel as a
    transition system: the executor's loop, and interrupts between its steps. *)

From S2P Require Import Prelude Bytes Devices Async.

Section executor.
Context {TQ SQ AW F : Type} {tq : ArrayQueue Z TQ} {sq : ArrayQueue Z SQ} {aw : AtomicWaker AW}.
Context {future : Future (Flags TQ SQ AW) F ()}.
Local Abbreviation Flags := (Flags TQ SQ AW).

Record Task := { task_id : Z; task_future : F }.

(** [Task::new], with [TaskId::new]. *)
Definition Task_new {E} (fut : F) : st Flags E Task :=
  f ← get_st;
  modify (λ f, set_task_queue f (wrap 64 (TASK_NEXT_ID f + 1)) (task_queue f));;
  mret {| task_id := TASK_NEXT_ID f; task_future := fut |}.

(** The task queue is part of [Flags]; a cached waker is its task id. *)
Record Executor := { tasks : gmap Z Task; waker_cache : gmap Z Z }.
Definition Executor_new : Executor := {| tasks := ∅; waker_cache := ∅ |}.

Local Abbreviation world := (Executor * Flags)%type.

Definition set_tasks {E} (t : gmap Z Task) (c : gmap Z Z) : st world E () :=
  modify (λ s, ({| tasks := t; waker_cache := c |}, s.2)).

Definition spawn {E} (task : Task) : st world E () :=
  s ← get_st;
  set_tasks (<[task_id task := task]> (tasks s.1)) (waker_cache s.1);;
  match tasks s.1 !! task_id task with
  | Some _ => lift Panic
  | None => on_snd (wake_task (task_id task))
  end.

(** [task_queue.pop()] *)
Definition pop_task {E} : st Flags E (option Z) :=
  f ← get_st;
  let '(q, id) := aq_pop (task_queue f) in
  modify (λ f, set_task_queue f (TASK_NEXT_ID f) q);; mret id.

(** The body of the loop of [run_ready_tasks] for a popped id. *)
Definition run_task {E} (id : Z) : st world E () :=
  s ← get_st;
  match tasks s.1 !! id with
  | None => mret ()
  | Some task =>
      let waker := default id (waker_cache s.1 !! id) in
      set_tasks (tasks s.1) (<[id := waker]> (waker_cache s.1));;
      '(fut, r) ← on_snd (infallible (poll waker (task_future task)));
      s ← get_st;
      match r with
      | Some _ => set_tasks (delete id (tasks s.1)) (delete id (waker_cache s.1))
      | None => set_tasks (<[id := {| task_id := task_id task; task_future := fut |}]> (tasks s.1)) (waker_cache s.1)
      end
  end.

(** [run_ready_tasks]; futures may wake themselves, so that it need not end. *)
Fixpoint run_ready_tasks {E} (fuel : nat) : st world E () :=
  match fuel with
  | O => lift Diverge
  | S fuel =>
      id ← on_snd pop_task;
      match id with
      | Some id => run_task id;; run_ready_tasks fuel
      | None => mret ()
      end
  end.

(** ** The kernel's main loop

    [run] alternates [run_ready_tasks] and [sleep_if_idle]. An interrupt may
    come before every step of the loop (and while the processor is halted);
    the check of [sleep_if_idle] and the halt are one step, since it disables
    interrupts. *)
Inductive cpu := Polling | Checking | Halted.

#[global] Instance cpu_eq_dec : EqDecision cpu.
Proof. solve_decision. Defined.

Definition sleep_if_idle (f : Flags) : cpu := if aq_is_empty (task_queue f) then Halted else Polling.

Record Kernel := { executor : Executor; flags : Flags; mode : cpu }.

Definition interrupted (k : Kernel) (f : Flags) : Kernel :=
  {| executor := executor k; flags := f; mode := match mode k with Halted => Polling | m => m end |}.

(** One step of the loop; [None] when the processor is halted. *)
Definition run_step (k : Kernel) : option (outcome Empty_set Kernel) :=
  match mode k with
  | Halted => None
  | Checking => Some (Ok {| executor := executor k; flags := flags k; mode := sleep_if_idle (flags k) |})
  | Polling => Some (
      let '((x, f), r) := (id ← on_snd pop_task;
                           match id with Some id => run_task id;; mret Polling | None => mret Checking end)
                          (executor k, flags k) in
      m ← r; Ok {| executor := x; flags := f; mode := m |})
  end.

Inductive event := Run | Tick | Key (scancode : Z).

#[global] Instance event_eq_dec : EqDecision event.
Proof. solve_decision. Defined.

Definition interrupt (e : event) : st Flags Empty_set () :=
  match e with
  | Run => mret ()
  | Tick => timer_interrupt_handler
  | Key c => keyboard_interrupt_handler c
  end.

Definition kernel_step (e : event) (k : Kernel) : option (outcome Empty_set Kernel) :=
  match e with
  | Run => run_step k
  | _ => Some (let '(f, r) := interrupt e (flags k) in _ ← r; Ok (interrupted k f))
  end.

(** A run of the kernel without panic. *)
Inductive kernel_run : list event → Kernel → Kernel → Prop :=
| run_nil k : kernel_run [] k k
| run_cons e es k k1 k2 : kernel_step e k = Some (Ok k1) → kernel_run es k1 k2 → kernel_run (e :: es) k k2.

Lemma kernel_run_app es1 es2 k k1 k2 : kernel_run es1 k k1 → kernel_run es2 k1 k2 → kernel_run (es1 ++ es2) k k2.
Proof. induction 1; [done|]. intros H2. econstructor; [done|]. by apply IHkernel_run. Qed.

(** [main]: one task, then the loop. *)
Definition boot (fut : F) : outcome Empty_set Kernel :=
  let '((x, f), r) := (t ← on_snd (Task_new fut); spawn t) (Executor_new, flags_init) in
  _ ← r; Ok {| executor := x; flags := f; mode := Polling |}.
End executor.
Arguments Task : clear implicits.
Arguments Executor : clear implicits.
Arguments Kernel : clear implicits.
