(* ===== verification/ExecutorFacts.v ===== *)
(** * The executor: invariants and liveness

    What the wakers and the handlers do to the queues, the invariant of every
    run of the kernel, and the sleeping tasks. *)

From S2P Require Import Prelude Bytes Devices Async Executor.

Section wakers.
Context {TQ SQ AW : Type} {tq : ArrayQueue Z TQ} {sq : ArrayQueue Z SQ} {aw : AtomicWaker AW}.
Context {tqs : ArrayQueueSpec Z TQ} {sqs : ArrayQueueSpec Z SQ} {aws : AtomicWakerSpec AW}.
Implicit Types f : Flags TQ SQ AW.

(** The ids in the task queue, and room for [n] more. *)
Definition ready f : list Z := contents (task_queue f).
Definition room f (n : Z) : Prop := len (ready f) + n ≤ capacity (task_queue f).

Lemma wake_task_ok {E} id f : room f 1 →
  ∃ q, wake_task (E:=E) id f = (set_task_queue f (TASK_NEXT_ID f) q, Ok ()) ∧
    contents q = ready f ++ [id] ∧ capacity q = capacity (task_queue f).
Proof.
  intros Hr. unfold room, ready in *. destruct (aq_push_spec id (task_queue f)) as (q&Hp&Hc&Hk); [lia|].
  exists q. unfold wake_task. by rewrite Hp.
Qed.

Lemma wake_opt_ok {E} w f : room f (if w is Some _ then 1 else 0) →
  ∃ q, wake_opt (E:=E) w f = (set_task_queue f (TASK_NEXT_ID f) q, Ok ()) ∧
    contents q = ready f ++ option_list w ∧ capacity q = capacity (task_queue f).
Proof.
  destruct w as [id|]; intros Hr; [by apply wake_task_ok|].
  exists (task_queue f). cbn. rewrite app_nil_r. split; [by destruct f|done].
Qed.

Lemma wake_full {E} id f : len (ready f) = capacity (task_queue f) → wake_task (E:=E) id f = (f, Panic).
Proof. intros H. unfold wake_task. rewrite aq_push_full by done. by destruct f. Qed.

(** How many ids a waker slot can add to the queue. *)
Definition pending (a : AW) : Z := if held a is Some _ then 1 else 0.

Lemma timer_run {E} f : room f (pending (TIMER_WAKER f)) →
  ∃ a q, timer_interrupt_handler (E:=E) f =
      (set_task_queue (set_timer_waker (set_ticks f (wrap 64 (TIMER_TICKS f + 1)) true) a) (TASK_NEXT_ID f) q, Ok ()) ∧
    held a = None ∧ contents q = ready f ++ option_list (held (TIMER_WAKER f)) ∧
    capacity q = capacity (task_queue f).
Proof.
  intros Hr. unfold timer_interrupt_handler, wake_timer. rewrite bind_modify, bind_get_st. cbn [TIMER_WAKER set_ticks].
  destruct (aw_take_spec (TIMER_WAKER f)) as [Hh Hn]. destruct (aw_take (TIMER_WAKER f)) as [a w]. cbn in Hh, Hn. subst w.
  rewrite bind_modify. destruct (wake_opt_ok (E:=E) (held (TIMER_WAKER f))
    (set_timer_waker (set_ticks f (wrap 64 (TIMER_TICKS f + 1)) true) a)) as (q&->&Hc&Hk); [done|].
  by exists a, q.
Qed.

Lemma store_scancode {E} c f :
  (match SCANCODE_QUEUE f with
   | Some queue => modify (λ f, set_scancodes f (Some (aq_push c queue).1))
   | None => mret ()
   end : st (Flags TQ SQ AW) E ()) f = (set_scancodes f ((λ x, (aq_push c x).1) <$> SCANCODE_QUEUE f), Ok ()).
Proof. destruct f as [? ? [q|] ? ? ? ? ?]; reflexivity. Qed.

Lemma keyboard_run {E} c f : room f (pending (KEYBOARD_WAKER f)) →
  ∃ a q, keyboard_interrupt_handler (E:=E) c f =
      (set_task_queue (set_keyboard (set_scancodes f ((λ x, (aq_push c x).1) <$> SCANCODE_QUEUE f)) a
         (wrap 64 (KEYBOARD_EVENT_COUNT f + 1))) (TASK_NEXT_ID f) q, Ok ()) ∧
    held a = None ∧ contents q = ready f ++ option_list (held (KEYBOARD_WAKER f)) ∧
    capacity q = capacity (task_queue f).
Proof.
  intros Hr. unfold keyboard_interrupt_handler. rewrite bind_get_st.
  set (f1 := set_scancodes f ((λ x, (aq_push c x).1) <$> SCANCODE_QUEUE f)).
  rewrite (st_bind_Ok _ _ _ _ _ (store_scancode c f)). fold f1. rewrite bind_modify. unfold wake_keyboard. rewrite bind_get_st.
  cbn [KEYBOARD_WAKER set_keyboard]. change (KEYBOARD_WAKER f1) with (KEYBOARD_WAKER f).
  destruct (aw_take_spec (KEYBOARD_WAKER f)) as [Hh Hn]. destruct (aw_take (KEYBOARD_WAKER f)) as [a w].
  cbn in Hh, Hn. subst w. rewrite bind_modify.
  destruct (wake_opt_ok (E:=E) (held (KEYBOARD_WAKER f))
    (set_keyboard (set_keyboard f1 (KEYBOARD_WAKER f) (wrap 64 (KEYBOARD_EVENT_COUNT f1 + 1))) a
       (wrap 64 (KEYBOARD_EVENT_COUNT f + 1)))) as (q&H&Hc&Hk); [done|].
  exists a, q. split; [exact H|]. done.
Qed.

(** When the handlers return, the wakers they found are in the queue. *)
Lemma wake_opt_inv {E} w f f' : wake_opt (E:=E) w f = (f', Ok ()) → room f (if w is Some _ then 1 else 0).
Proof.
  unfold room, ready. pose proof (aq_bounded (task_queue f)).
  destruct w as [id|]; [|intros _; lia]. intros Hw.
  destruct (decide (len (contents (task_queue f)) = capacity (task_queue f))) as [He|]; [|lia].
  cbn in Hw. by rewrite wake_full in Hw.
Qed.

Lemma timer_inv {E} f f' : timer_interrupt_handler (E:=E) f = (f', Ok ()) →
  ready f' = ready f ++ option_list (held (TIMER_WAKER f)) ∧ held (TIMER_WAKER f') = None ∧
  KEYBOARD_WAKER f' = KEYBOARD_WAKER f ∧ TIMER_TICKS f' = wrap 64 (TIMER_TICKS f + 1) ∧
  capacity (task_queue f') = capacity (task_queue f).
Proof.
  intros H. assert (Hr : room f (pending (TIMER_WAKER f))).
  { revert H. unfold timer_interrupt_handler, wake_timer. rewrite bind_modify, bind_get_st. cbn [TIMER_WAKER set_ticks].
    destruct (aw_take_spec (TIMER_WAKER f)) as [Hh _]. destruct (aw_take (TIMER_WAKER f)) as [a w]. cbn in Hh. subst w.
    rewrite bind_modify. intros H%wake_opt_inv. exact H. }
  destruct (timer_run (E:=E) f Hr) as (a&q&Ht&Ha&Hq&Hk). rewrite Ht in H. by injection H as <-.
Qed.

Lemma timer_scancodes {E} f f' r : timer_interrupt_handler (E:=E) f = (f', r) → SCANCODE_QUEUE f' = SCANCODE_QUEUE f.
Proof.
  unfold timer_interrupt_handler, wake_timer. rewrite bind_modify, bind_get_st.
  destruct (aw_take _) as [a [id|]]; rewrite bind_modify; [|by intros [= <- _]].
  unfold wake_opt, wake_task. destruct (aq_push _ _) as [q b]. by intros [= <- _].
Qed.

Lemma keyboard_inv {E} c f f' : keyboard_interrupt_handler (E:=E) c f = (f', Ok ()) →
  ready f' = ready f ++ option_list (held (KEYBOARD_WAKER f)) ∧ held (KEYBOARD_WAKER f') = None ∧
  TIMER_WAKER f' = TIMER_WAKER f ∧ TIMER_TICKS f' = TIMER_TICKS f ∧
  SCANCODE_QUEUE f' = ((λ x, (aq_push c x).1) <$> SCANCODE_QUEUE f) ∧
  capacity (task_queue f') = capacity (task_queue f).
Proof.
  intros H. assert (Hr : room f (pending (KEYBOARD_WAKER f))).
  { revert H. unfold keyboard_interrupt_handler. rewrite bind_get_st.
    rewrite (st_bind_Ok _ _ _ _ _ (store_scancode c f)), bind_modify. unfold wake_keyboard. rewrite bind_get_st.
    cbn [KEYBOARD_WAKER set_keyboard set_scancodes].
    destruct (aw_take_spec (KEYBOARD_WAKER f)) as [Hh _]. destruct (aw_take (KEYBOARD_WAKER f)) as [a w]. cbn in Hh. subst w.
    rewrite bind_modify. intros H%wake_opt_inv. exact H. }
  destruct (keyboard_run (E:=E) c f Hr) as (a&q&Ht&Ha&Hq&Hk). rewrite Ht in H. by injection H as <-.
Qed.

Lemma pop_task_nil {E} f : ready f = [] → pop_task (E:=E) f = (f, Ok None).
Proof. intros H. unfold pop_task. rewrite bind_get_st, (aq_pop_nil _ H), bind_modify. by destruct f. Qed.

Lemma pop_task_cons {E} f id l : ready f = id :: l →
  ∃ q, pop_task (E:=E) f = (set_task_queue f (TASK_NEXT_ID f) q, Ok (Some id)) ∧ contents q = l ∧
    capacity q = capacity (task_queue f).
Proof.
  intros H. destruct (aq_pop_cons _ _ _ H) as (q&Hp&Hc&Hk). exists q.
  unfold pop_task. by rewrite bind_get_st, Hp, bind_modify.
Qed.
End wakers.

Section kernel.
Context {TQ SQ AW F : Type} {tq : ArrayQueue Z TQ} {sq : ArrayQueue Z SQ} {aw : AtomicWaker AW}.
Context {tqs : ArrayQueueSpec Z TQ} {sqs : ArrayQueueSpec Z SQ} {aws : AtomicWakerSpec AW}.
Context {future : Future (Flags TQ SQ AW) F ()}.
Local Abbreviation Flags := (Flags TQ SQ AW).
Local Abbreviation Kernel := (Kernel TQ SQ AW F).
Implicit Types (f : Flags) (x : Executor F) (k : Kernel) (fut : F) (q : TQ).

(** Tasks are filed under their ids, wakers are cached for live tasks only and
    wake their own task. *)
Definition executor_ok x : Prop :=
  map_Forall (λ id t, task_id t = id) (tasks x) ∧
  map_Forall (λ id w, w = id ∧ is_Some (tasks x !! id)) (waker_cache x).

Lemma bind_set_tasks {E B} t c (k : () → st (Executor F * Flags) E B) s :
  (set_tasks t c ≫= k) s = k () ({| tasks := t; waker_cache := c |}, s.2).
Proof. reflexivity. Qed.

(** A popped task keeps the executor in order, and no task appears. *)
Lemma run_task_keeps {E} id x f x' f' r :
  executor_ok x → run_task (E:=E) id (x, f) = ((x', f'), r) →
  executor_ok x' ∧ dom (tasks x') ⊆ dom (tasks x) ∧
  (∀ i, i ≠ id → tasks x' !! i = tasks x !! i) ∧ (tasks x !! id = None → x' = x ∧ f' = f ∧ r = Ok ()).
Proof.
  intros [Ht Hw]. unfold run_task. rewrite bind_get_st. cbn [fst].
  destruct (tasks x !! id) as [t|] eqn:Hid; [|by intros [= <- <- <-]].
  cbv zeta. rewrite bind_set_tasks. cbn [fst snd].
  set (x1 := {| tasks := tasks x; waker_cache := <[id := default id (waker_cache x !! id)]> (waker_cache x) |}).
  assert (Hx1 : executor_ok x1).
  { split; [exact Ht|]. intros i w. cbn. destruct (decide (i = id)) as [->|Hi].
    - rewrite lookup_insert_eq. intros [= <-]. split; [|by rewrite Hid].
      destruct (waker_cache x !! id) as [w|] eqn:Hc; [|done]. by destruct (Hw _ _ Hc).
    - rewrite lookup_insert_ne by done. apply Hw. }
  rewrite st_bind_unfold. unfold on_snd, infallible. cbn [fst snd].
  destruct (poll _ _ f) as [f1 [[fut [u|]]|[]| |]];
    try (intros [= <- <- <-]; split; [exact Hx1|done]).
  - rewrite bind_get_st. unfold set_tasks. cbn [fst snd]. intros [= <- <- <-]. cbn [tasks waker_cache].
    destruct Hx1 as [H1 H2]. split; [split|split; [|split; [|done]]].
    + by apply map_Forall_delete.
    + intros i w Hl. cbn [waker_cache] in Hl. apply lookup_delete_Some in Hl as [Hi Hl]. destruct (H2 _ _ Hl) as [-> Hs]. split; [done|].
      cbn. by rewrite lookup_delete_ne.
    + cbn. rewrite dom_delete. set_solver.
    + intros i Hi. cbn. by rewrite lookup_delete_ne.
  - rewrite bind_get_st. unfold set_tasks. cbn [fst snd]. intros [= <- <- <-]. cbn [tasks waker_cache].
    destruct Hx1 as [H1 H2]. split; [split|split; [|split; [|done]]].
    + apply map_Forall_insert_2; [exact (Ht id t Hid)|done].
    + intros i w Hl. destruct (H2 _ _ Hl) as [-> Hs]. split; [done|]. cbn in Hs |- *.
      destruct (decide (i = id)) as [->|]; [by rewrite lookup_insert_eq|by rewrite lookup_insert_ne].
    + cbn. rewrite dom_insert. apply elem_of_dom_2 in Hid. set_solver.
    + intros i Hi. cbn. by rewrite lookup_insert_ne.
Qed.

(** What holds between any two steps of the kernel. *)
Definition kernel_ok k : Prop := executor_ok (executor k) ∧ (mode k = Halted → ready (flags k) = []).

Lemma kernel_step_keeps e k k' :
  kernel_ok k → kernel_step e k = Some (Ok k') → kernel_ok k' ∧ dom (tasks (executor k')) ⊆ dom (tasks (executor k)).
Proof.
  intros [Hx Hh]. unfold kernel_step.
  assert (Hint : ∀ m : st Flags Empty_set (), (let '(f, r) := m (flags k) in _ ← r; Ok (interrupted k f)) = Ok k' →
    kernel_ok k' ∧ dom (tasks (executor k')) ⊆ dom (tasks (executor k))).
  { intros m. destruct (m (flags k)) as [f [[]| | |]]; [|done..]. intros [= <-].
    split; [|done]. split; [exact Hx|]. cbn. by destruct (mode k). }
  destruct e; [|intros [= H]; by eapply Hint..].
  unfold run_step. destruct (mode k) eqn:Hm; [| |done].
  - rewrite st_bind_unfold. unfold on_snd at 1. cbn [fst snd].
    destruct (pop_task (flags k)) as [f [[id|]|[]| |]]; [|by intros [= <-]|done..].
    rewrite st_bind_unfold. destruct (run_task id (executor k, f)) as [[x1 f1] r] eqn:Hrun.
    destruct (run_task_keeps _ _ _ _ _ _ Hx Hrun) as (H1&H2&_).
    destruct r as [[]|[]| |]; [|done..]. by intros [= <-].
  - intros [= <-]. split; [|done]. split; [done|]. cbn. unfold sleep_if_idle.
    rewrite aq_is_empty_spec. case_bool_decide; done.
Qed.

Lemma kernel_run_keeps es k k' :
  kernel_ok k → kernel_run es k k' → kernel_ok k' ∧ dom (tasks (executor k')) ⊆ dom (tasks (executor k)).
Proof.
  intros Hk Hr. induction Hr as [|e es k k1 k2 Hs _ IH]; [done|].
  destruct (kernel_step_keeps _ _ _ Hk Hs) as [H1 H2]. destruct (IH H1). split; [done|set_solver].
Qed.

(** Every flag is as [flags_init] has it, except for the first task in the
    queue. *)
Lemma boot_run (fut : F) : ∃ q : TQ,
  boot fut = Ok {| executor := {| tasks := {[ 0 := {| task_id := 0; task_future := fut |} ]}; waker_cache := ∅ |};
                   flags := set_task_queue flags_init 1 q; mode := Polling |} :> outcome Empty_set Kernel ∧
  contents q = [0] ∧ capacity q = 100.
Proof.
  destruct (aq_new_spec (X:=Z) (Q:=TQ) 100 ltac:(lia)) as [Hc Hk].
  set (f := set_task_queue (flags_init (TQ:=TQ) (SQ:=SQ) (AW:=AW)) 1 (aq_new 100)).
  destruct (wake_task_ok (E:=Empty_set) 0 f) as (q&Hw&Hq&Hk'); [unfold room, ready; cbn; rewrite Hc, Hk; cbn; lia|].
  exists q. split; [|split; [by rewrite Hq; unfold ready; cbn; rewrite Hc|by rewrite Hk'; cbn]].
  unfold boot. rewrite st_bind_unfold.
  assert (H1 : on_snd (Task_new (E:=Empty_set) fut) (Executor_new, flags_init : Flags) =
    ((Executor_new (F:=F), f), Ok {| task_id := 0; task_future := fut |})) by reflexivity.
  rewrite H1. unfold spawn. rewrite bind_get_st. rewrite bind_set_tasks. cbn [fst snd tasks Executor_new task_id].
  rewrite lookup_empty. unfold on_snd. cbn [fst snd]. rewrite Hw. reflexivity.
Qed.

Lemma boot_ok fut k : boot fut = Ok k → kernel_ok k.
Proof.
  destruct (boot_run fut) as (q&->&_). intros [= <-]. split; [|done]. split.
  - apply map_Forall_singleton. done.
  - apply map_Forall_empty.
Qed.

Lemma run_poll id l k : mode k = Polling → ready (flags k) = id :: l →
  ∃ q, contents q = l ∧ capacity q = capacity (task_queue (flags k)) ∧
    run_step k = Some (let '((x, f), r) := run_task id (executor k, set_task_queue (flags k) (TASK_NEXT_ID (flags k)) q) in
      _ ← r; Ok {| executor := x; flags := f; mode := Polling |}).
Proof.
  intros Hm Hr. destruct (pop_task_cons (E:=Empty_set) _ _ _ Hr) as (q&Hp&Hq&Hk). exists q. split; [done|]. split; [done|].
  unfold run_step. rewrite Hm, st_bind_unfold. unfold on_snd. cbn [fst snd]. rewrite Hp, st_bind_unfold.
  by destruct (run_task _ _) as [[x f] [[]|[]| |]].
Qed.

Lemma run_poll_nil k : mode k = Polling → ready (flags k) = [] →
  run_step k = Some (Ok {| executor := executor k; flags := flags k; mode := Checking |}).
Proof.
  intros Hm Hr. unfold run_step. rewrite Hm, st_bind_unfold. unfold on_snd. cbn [fst snd].
  by rewrite (pop_task_nil _ Hr).
Qed.

Lemma run_check k : mode k = Checking →
  run_step k = Some (Ok {| executor := executor k; flags := flags k;
    mode := if bool_decide (ready (flags k) = []) then Halted else Polling |}).
Proof. intros Hm. unfold run_step, sleep_if_idle. by rewrite Hm, aq_is_empty_spec. Qed.

(** C13: In every run of the kernel from [main], whatever the future does and
    whenever interrupts come: tasks are filed under their ids, cached wakers
    belong to live tasks and wake them, no task appears that was not spawned,
    and the processor only halts when no task is ready; and when a task is
    ready, the next poll of the loop, at most one step away, is of the first
    task in the queue. *)
Theorem kernel_invariant fut k0 es k :
  boot fut = Ok k0 → kernel_run es k0 k →
  executor_ok (executor k) ∧ dom (tasks (executor k)) ⊆ dom (tasks (executor k0)) ∧
  (mode k = Halted → ready (flags k) = []) ∧
  ∀ id l, ready (flags k) = id :: l → ∃ n q,
    (n ≤ 1)%nat ∧ contents q = l ∧
    let k1 := {| executor := executor k; flags := flags k; mode := Polling |} in
    kernel_run (replicate n Run) k k1 ∧
    kernel_step Run k1 =
      Some (let '((x, f), r) := run_task id (executor k, set_task_queue (flags k) (TASK_NEXT_ID (flags k)) q) in
            _ ← r; Ok {| executor := x; flags := f; mode := Polling |}).
Proof.
  intros H0 Hr. destruct (kernel_run_keeps _ _ _ (boot_ok _ _ H0) Hr) as [[Hx Hh] Hd].
  split; [done|]. split; [done|]. split; [done|]. intros id l Hid.
  set (k1 := {| executor := executor k; flags := flags k; mode := Polling |}).
  destruct (run_poll id l k1 eq_refl Hid) as (q&Hq&_&Hs).
  destruct (mode k) eqn:Hm; [exists 0%nat, q|exists 1%nat, q|by rewrite Hid in Hh; specialize (Hh eq_refl)].
  - split; [lia|]. split; [done|]. cbn [replicate]. split; [|exact Hs].
    replace k1 with k; [constructor|]. destruct k; cbn in *. by subst.
  - split; [lia|]. split; [done|]. cbn [replicate]. split; [|exact Hs].
    econstructor; [|constructor]. cbn. rewrite (run_check _ Hm), Hid. reflexivity.
Qed.

(** When no poll wakes a task (and none panics), [run_ready_tasks] ends:
    fuel for one more pop than there are ids in the queue is enough, whichever
    tasks finish; the queue is empty afterwards, every task that was not in it
    is as before, and the kernel's loop takes the same way, poll by poll. *)
Theorem run_ready_tasks_ends x f fuel :
  (∀ w fut f f' r, poll w fut f = (f', r) → safe r ∧ ready f' = ready f) →
  executor_ok x → (length (ready f) < fuel)%nat →
  ∃ x' f', run_ready_tasks (E:=Empty_set) fuel (x, f) = ((x', f'), Ok ()) ∧ ready f' = [] ∧ executor_ok x' ∧
    (∀ i, i ∉ ready f → tasks x' !! i = tasks x !! i) ∧
    kernel_run (replicate (S (length (ready f))) Run) {| executor := x; flags := f; mode := Polling |}
      {| executor := x'; flags := f'; mode := Checking |}.
Proof.
  intros Hq. revert x f. induction fuel as [|fuel IH]; intros x f Hx Hf; [lia|].
  destruct (ready f) as [|id l] eqn:Hr.
  - exists x, f. cbn [run_ready_tasks]. rewrite st_bind_unfold. unfold on_snd. cbn [fst snd].
    rewrite (pop_task_nil _ Hr). split; [done|]. split; [exact Hr|]. split; [exact Hx|]. split; [done|].
    econstructor; [|constructor].
    exact (run_poll_nil {| executor := x; flags := f; mode := Polling |} eq_refl Hr).
  - destruct (pop_task_cons (E:=Empty_set) _ _ _ Hr) as (q&Hp&Hl&_).
    set (f1 := set_task_queue f (TASK_NEXT_ID f) q) in *.
    destruct (run_task (E:=Empty_set) id (x, f1)) as [[x2 f2] r2] eqn:Hrun.
    destruct (run_task_keeps _ _ _ _ _ _ Hx Hrun) as (Hx2&_&Hother&_).
    assert (Hok : r2 = Ok () ∧ ready f2 = l).
    { revert Hrun. unfold run_task. rewrite bind_get_st. cbn [fst].
      destruct (tasks x !! id) as [t|]; [|intros [= <- <- <-]; by split].
      cbv zeta. rewrite bind_set_tasks, st_bind_unfold. unfold on_snd, infallible. cbn [fst snd].
      destruct (poll _ _ f1) as [f3 r3] eqn:Hpoll. destruct (Hq _ _ _ _ _ Hpoll) as [Hs Hf3].
      destruct r3 as [[fut [u|]]|[]| |]; [| |done..];
        rewrite bind_get_st; unfold set_tasks, modify; intros [= _ <- <-]; (split; [done|by rewrite Hf3]). }
    destruct Hok as [-> Hl2]. destruct (IH x2 f2 Hx2) as (x'&f'&Hrec&He&Hx'&Hsame&Hk).
    { rewrite Hl2. cbn [length] in Hf. lia. }
    exists x', f'. split_and!; [|done|done| |].
    + cbn [run_ready_tasks]. rewrite st_bind_unfold. unfold on_snd at 1. cbn [fst snd]. rewrite Hp.
      fold f1. by rewrite (st_bind_Ok _ _ _ _ _ Hrun).
    + intros i [Hi Hil]%not_elem_of_cons. rewrite Hsame by (by rewrite Hl2). by apply Hother.
    + rewrite Hl2 in Hk. cbn [length]. cbn [replicate]. econstructor; [|exact Hk]. cbn.
      unfold run_step. cbn [mode executor flags]. rewrite st_bind_unfold. unfold on_snd at 1. cbn [fst snd]. rewrite Hp.
      fold f1. by rewrite (st_bind_Ok _ _ _ _ _ Hrun).
Qed.
End kernel.
