(* ===== verification/SleepFacts.v ===== *)
(** * Sleeping tasks

    A sleeping task is woken in time; with two of them the first is lost,
    because [TIMER_WAKER] holds one waker. *)

From S2P Require Import Prelude Bytes Devices Async Executor ExecutorFacts.

Definition is_tick (e : event) : Z := match e with Tick => 1 | _ => 0 end.
Fixpoint ticks (es : list event) : Z := match es with [] => 0 | e :: es => is_tick e + ticks es end.

Lemma ticks_nonneg es : 0 ≤ ticks es.
Proof. induction es as [|[]]; cbn in *; lia. Qed.
Lemma ticks_app es es' : ticks (es ++ es') = ticks es + ticks es'.
Proof. induction es as [|e es IH]; cbn [app ticks]; [done|]. rewrite IH. lia. Qed.

Lemma ticks_replicate n : ticks (replicate n Run) = 0.
Proof. induction n as [|n IH]; cbn [replicate ticks]; [done|]. by rewrite IH. Qed.

Section sleep.
Context {TQ SQ AW : Type} {tq : ArrayQueue Z TQ} {sq : ArrayQueue Z SQ} {aw : AtomicWaker AW}.
Context {tqs : ArrayQueueSpec Z TQ} {sqs : ArrayQueueSpec Z SQ} {aws : AtomicWakerSpec AW}.
Local Abbreviation Flags := (Flags TQ SQ AW).
Local Abbreviation Kernel := (Kernel TQ SQ AW CmdSleep).
Local Abbreviation Task := (Task CmdSleep).
Implicit Types (f : Flags) (k : Kernel) (x : Executor CmdSleep).

(** ** One poll *)

(** The target of a sleep command polled at tick [now]. *)
Definition wakes_at (now : Z) (c : CmdSleep) : Z :=
  match c with
  | Cs_start None => 0
  | Cs_start (Some t) => wrap 64 (now + t)
  | Cs_wait s => target s
  end.

Lemma sleep_poll cx c f : 0 ≤ TIMER_TICKS f →
  poll cx c f =
    (if decide (wakes_at (TIMER_TICKS f) c ≤ TIMER_TICKS f) then f
     else set_timer_waker f (aw_register cx (TIMER_WAKER f)),
     Ok (match c with Cs_start None => c | _ => Cs_wait {| target := wakes_at (TIMER_TICKS f) c |} end,
         if decide (wakes_at (TIMER_TICKS f) c ≤ TIMER_TICKS f) then Some () else None)).
Proof.
  intros Hp. destruct c as [[t|]|[T]]; unfold poll, CmdSleep_Future; cbn [wakes_at target].
  - unfold Sleep_new. srun. rewrite st_bind_unfold. unfold poll, Sleep_Future. rewrite bind_get_st. cbn [target].
    case_decide; [rewrite (proj2 (Z.leb_le _ _)) by done|rewrite (proj2 (Z.leb_gt _ _)) by lia]; done.
  - by rewrite !decide_True by done.
  - rewrite st_bind_unfold. unfold poll, Sleep_Future. rewrite bind_get_st. cbn [target].
    case_decide; [rewrite (proj2 (Z.leb_le _ _)) by done|rewrite (proj2 (Z.leb_gt _ _)) by lia]; done.
Qed.

(** The task a poll leaves behind. *)
Definition waiting (id T : Z) : Task := {| task_id := id; task_future := Cs_wait {| target := T |} |}.

Lemma run_sleep {E} id t x f x' f' r :
  executor_ok x → tasks x !! id = Some t → 0 ≤ TIMER_TICKS f →
  run_task (E:=E) id (x, f) = ((x', f'), r) →
  let T := wakes_at (TIMER_TICKS f) (task_future t) in
  r = Ok () ∧
  if decide (T ≤ TIMER_TICKS f) then f' = f ∧ tasks x' = delete id (tasks x)
  else f' = set_timer_waker f (aw_register id (TIMER_WAKER f)) ∧ tasks x' = <[id := waiting id T]> (tasks x).
Proof.
  intros [Ht Hw] Hid Hp. unfold run_task. rewrite bind_get_st. cbn [fst]. rewrite Hid. cbv zeta. rewrite bind_set_tasks. cbn [fst snd].
  assert (Hwk : default id (waker_cache x !! id) = id).
  { destruct (waker_cache x !! id) as [w|] eqn:H; [|done]. by destruct (Hw _ _ H). }
  rewrite Hwk, st_bind_unfold. unfold on_snd, infallible. cbn [fst snd]. rewrite sleep_poll by done.
  case_decide as Hd; rewrite bind_get_st; unfold set_tasks, modify; intros [= <- <- <-]; cbn [tasks fst snd]; [done|].
  split; [done|]. split; [done|]. rewrite (Ht _ _ Hid). unfold waiting.
  destruct (task_future t) as [[u|]|]; [done| |done]. cbn in Hd. lia.
Qed.

(** ** One sleeping task *)

(** The task waits for tick [T] and will be polled by then, or is gone after
    it. *)
Definition sleeping (T : Z) k : Prop :=
  let f := flags k in
  kernel_ok k ∧ 0 ≤ TIMER_TICKS f ∧ held (KEYBOARD_WAKER f) = None ∧ capacity (task_queue f) = 100 ∧
  ((tasks (executor k) = {[ 0 := waiting 0 T ]} ∧
    (ready f = [0] ∧ held (TIMER_WAKER f) = None ∨ ready f = [] ∧ held (TIMER_WAKER f) = Some 0 ∧ TIMER_TICKS f < T)) ∨
   (tasks (executor k) = ∅ ∧ ready f = [] ∧ held (TIMER_WAKER f) = None ∧ T ≤ TIMER_TICKS f)).

Lemma sleeping_run T k k' :
  sleeping T k → run_step k = Some (Ok k') → sleeping T k' ∧ TIMER_TICKS (flags k') = TIMER_TICKS (flags k).
Proof.
  intros (Hok&Hp&Hkb&Hcap&Hs) Hstep.
  destruct (kernel_step_keeps Run _ _ Hok Hstep) as [Hok' _].
  destruct (mode k) eqn:Hm; [| |unfold run_step in Hstep; by rewrite Hm in Hstep].
  - destruct Hs as [[Ht [[Hr Hh]|[Hr Hh]]]|(Ht&Hr&Hh&HT)];
      [|rewrite (run_poll_nil _ Hm Hr) in Hstep; injection Hstep as <-; cbn [flags];
        (split; [|done]); split_and!; try done; auto..].
    + destruct (run_poll _ _ _ Hm Hr) as (q&Hq&Hqc&Hrun). rewrite Hrun in Hstep. clear Hrun.
      set (f0 := set_task_queue _ _ q) in *.
      destruct (run_task 0 (executor k, f0)) as [[x f] r] eqn:E.
      destruct (run_sleep 0 (waiting 0 T) _ f0 _ _ _ (proj1 Hok) ltac:(by rewrite Ht, lookup_singleton_eq) Hp E) as [-> Hres].
      cbn [bind_Ok] in Hstep. injection Hstep as <-. cbn [wakes_at waiting task_future target flags] in *.
      unfold sleeping. cbn [flags executor mode].
      case_decide as Hd; destruct Hres as [-> Hx].
      * split; [|done]. split; [exact Hok'|]. split; [exact Hp|]. split; [exact Hkb|]. split; [by rewrite <- Hcap|].
        right. split_and!; [by rewrite Hx, Ht, delete_singleton_eq|done..].
      * split; [|done]. split; [exact Hok'|]. split; [exact Hp|]. split; [exact Hkb|]. split; [by rewrite <- Hcap|].
        left. split; [by rewrite Hx, Ht, insert_singleton_eq|].
        right. split; [done|]. split; [apply aw_register_spec|]. cbn in Hd |- *. lia.
  - rewrite (run_check _ Hm) in Hstep. injection Hstep as <-. done.
Qed.

Lemma sleeping_step T e k k' :
  sleeping T k → TIMER_TICKS (flags k) + is_tick e < 2 ^ 64 → kernel_step e k = Some (Ok k') →
  sleeping T k' ∧ TIMER_TICKS (flags k') = TIMER_TICKS (flags k) + is_tick e.
Proof.
  intros Hs Hmax Hstep. destruct e as [| |c]; cbn [is_tick] in *; rewrite ?Z.add_0_r.
  - by apply sleeping_run.
  - destruct Hs as (Hok&Hp&Hkb&Hcap&Hs). destruct (kernel_step_keeps Tick _ _ Hok Hstep) as [Hok' _].
    unfold kernel_step, interrupt in Hstep. destruct (timer_interrupt_handler (flags k)) as [f [[]| | |]] eqn:E; try done.
    injection Hstep as <-. destruct (timer_inv _ _ E) as (H1&H2&H3&H4&H5). rewrite wrap_small in H4 by (unfold is_u; lia).
    unfold sleeping. cbn [flags executor interrupted]. rewrite H1, H2, H3, H4, H5.
    split; [|done]. split; [exact Hok'|]. split; [lia|]. split; [exact Hkb|]. split; [exact Hcap|].
    destruct Hs as [[Ht [[Hr Hh]|(Hr&Hh&_)]]|(Ht&Hr&Hh&HT)]; rewrite Hr, Hh; cbn [option_list app].
    + left. auto.
    + left. auto.
    + right. split_and!; [done..|lia].
  - destruct Hs as (Hok&Hp&Hkb&Hcap&Hs). destruct (kernel_step_keeps (Key c) _ _ Hok Hstep) as [Hok' _].
    unfold kernel_step, interrupt in Hstep. destruct (keyboard_interrupt_handler c (flags k)) as [f [[]| | |]] eqn:E; try done.
    injection Hstep as <-. destruct (keyboard_inv _ _ _ E) as (H1&H2&H3&H4&_&H5).
    unfold sleeping. cbn [flags executor interrupted]. rewrite H1, H2, H3, H4, H5, Hkb, app_nil_r. done.
Qed.

Lemma sleeping_runs T es k k' :
  sleeping T k → TIMER_TICKS (flags k) + ticks es < 2 ^ 64 → kernel_run es k k' →
  sleeping T k' ∧ TIMER_TICKS (flags k') = TIMER_TICKS (flags k) + ticks es.
Proof.
  intros Hs Hmax Hrun. induction Hrun as [k|e es k k1 k2 Hstep _ IH]; cbn [ticks] in *; [split; [done|lia]|].
  pose proof (ticks_nonneg es).
  destruct (sleeping_step T e k k1 Hs ltac:(lia) Hstep) as [Hs1 Ht1].
  destruct (IH Hs1 ltac:(lia)). split; [done|lia].
Qed.

(** With nothing to do the kernel halts. *)
Lemma settle k : kernel_ok k → ready (flags k) = [] →
  ∃ n k', kernel_run (replicate n Run) k k' ∧ mode k' = Halted ∧ flags k' = flags k ∧ executor k' = executor k.
Proof.
  intros Hok Hr.
  assert (Hc : ∀ k, mode k = Checking → ready (flags k) = [] →
    ∃ n k', kernel_run (replicate n Run) k k' ∧ mode k' = Halted ∧ flags k' = flags k ∧ executor k' = executor k).
  { intros k1 Hm Hr1. exists 1%nat. eexists. split; [econstructor; [exact (run_check _ Hm)|constructor]|].
    by rewrite Hr1. }
  destruct (mode k) eqn:Hm; [|by apply Hc|exists 0%nat, k; by split; [constructor|]].
  destruct (Hc {| executor := executor k; flags := flags k; mode := Checking |} eq_refl Hr) as (n&k'&Hn&H1&H2&H3).
  exists (S n), k'. split; [|done]. econstructor; [exact (run_poll_nil _ Hm Hr)|exact Hn].
Qed.

(** The kernel polls the task when it is queued and then halts. *)
Lemma sleeping_settles T k : sleeping T k →
  ∃ n k', kernel_run (replicate n Run) k k' ∧ mode k' = Halted.
Proof.
  intros Hs. destruct (decide (ready (flags k) = [])) as [Hr|Hr].
  { destruct (settle k (proj1 Hs) Hr) as (n&k'&Hn&Hm&_). by exists n, k'. }
  assert (Hp : ∀ k, sleeping T k → mode k = Polling → ready (flags k) ≠ [] →
    ∃ n k', kernel_run (replicate n Run) k k' ∧ mode k' = Halted).
  { clear k Hs Hr. intros k Hs Hm Hr. destruct Hs as (Hok&Hp&Hkb&Hcap&Hs).
    destruct Hs as [[Ht [[Hr' Hh]|[Hr' _]]]|(_&Hr'&_)]; [|by rewrite Hr' in Hr..].
    destruct (run_poll _ _ _ Hm Hr') as (q&Hq&Hqc&Hrun). set (f0 := set_task_queue _ _ q) in *.
    destruct (run_task 0 (executor k, f0)) as [[x f] r] eqn:E.
    destruct (run_sleep 0 (waiting 0 T) _ f0 _ _ _ (proj1 Hok) ltac:(by rewrite Ht, lookup_singleton_eq) Hp E) as [-> Hres].
    rewrite bind_Ok in Hrun.
    destruct (kernel_step_keeps Run _ _ Hok Hrun) as [Hok1 _].
    destruct (settle _ Hok1) as (n&k'&Hn&Hm'&_).
    { cbn [flags]. case_decide; destruct Hres as [-> _]; exact Hq. }
    exists (S n), k'. split; [|done]. by econstructor. }
  destruct (mode k) eqn:Hm; [by apply Hp| |].
  - pose (k1 := {| executor := executor k; flags := flags k; mode := Polling |}).
    assert (Hstep : run_step k = Some (Ok k1)) by (rewrite (run_check _ Hm); by rewrite bool_decide_eq_false_2).
    destruct (sleeping_run _ _ _ Hs Hstep) as [Hs1 _].
    destruct (Hp k1 Hs1 eq_refl Hr) as (n&k'&Hn&Hm'). exists (S n), k'. split; [|done]. by econstructor.
  - by destruct (Hr (proj2 (proj1 Hs) Hm)).
Qed.

(** Nothing panics: the task queue holds at most one id. *)
Lemma sleeping_no_panic T e k : sleeping T k → kernel_step e k ≠ Some Panic.
Proof.
  intros (Hok&Hp&Hkb&Hcap&Hs).
  assert (Hroom : room (flags k) 1).
  { unfold room. rewrite Hcap. destruct Hs as [[_ [[-> _]|[-> _]]]|(_&->&_)]; cbn; lia. }
  destruct e as [| |c]; cbn [kernel_step interrupt].
  - destruct (mode k) eqn:Hm; [|by rewrite (run_check _ Hm)|unfold run_step; by rewrite Hm].
    destruct Hs as [[Ht [[Hr Hh]|[Hr Hh]]]|(Ht&Hr&Hh&HT)]; [|by rewrite (run_poll_nil _ Hm Hr)..].
    destruct (run_poll _ _ _ Hm Hr) as (q&_&_&->). set (f0 := set_task_queue _ _ q).
    destruct (run_task 0 (executor k, f0)) as [[x f] r] eqn:E.
    by destruct (run_sleep 0 (waiting 0 T) _ f0 _ _ _ (proj1 Hok) ltac:(by rewrite Ht, lookup_singleton_eq) Hp E) as [-> _].
  - destruct (timer_run (E:=Empty_set) (flags k)) as (a&q&->&_); [|done].
    unfold room, pending in *. case_match; lia.
  - destruct (keyboard_run (E:=Empty_set) c (flags k)) as (a&q&->&_); [|done].
    unfold room, pending in *. case_match; lia.
Qed.

(** What interrupts leave alone before the first poll. *)
Definition starting t k : Prop :=
  kernel_ok k ∧ 0 ≤ TIMER_TICKS (flags k) ∧ held (KEYBOARD_WAKER (flags k)) = None ∧
  capacity (task_queue (flags k)) = 100 ∧ held (TIMER_WAKER (flags k)) = None ∧ ready (flags k) = [0] ∧
  mode k = Polling ∧ tasks (executor k) = {[ 0 := {| task_id := 0; task_future := Cs_start (Some t) |} ]}.

Lemma starting_runs t pre k k' :
  starting t k → Run ∉ pre → TIMER_TICKS (flags k) + ticks pre < 2 ^ 64 → kernel_run pre k k' →
  starting t k' ∧ TIMER_TICKS (flags k') = TIMER_TICKS (flags k) + ticks pre.
Proof.
  intros Hs Hp Hmax Hrun. induction Hrun as [k|e es k k1 k2 Hstep _ IH]; cbn [ticks] in *; [split; [done|lia]|].
  apply not_elem_of_cons in Hp as [He Hp]. pose proof (ticks_nonneg es).
  destruct Hs as (Hok&Hpos&Hkb&Hcap&Hh&Hr&Hm&Ht). destruct (kernel_step_keeps e _ _ Hok Hstep) as [Hok1 _].
  assert (H1 : starting t k1 ∧ TIMER_TICKS (flags k1) = TIMER_TICKS (flags k) + is_tick e).
  { destruct e as [| |c]; [done| |]; cbn [is_tick] in *; unfold kernel_step, interrupt in Hstep.
    - destruct (timer_interrupt_handler (flags k)) as [f [[]| | |]] eqn:E; try done. injection Hstep as <-.
      destruct (timer_inv _ _ E) as (H1&H2&H3&H4&H5). rewrite wrap_small in H4 by lia.
      unfold starting. cbn [flags executor mode interrupted]. rewrite H1, H2, H3, H4, H5, Hh, Hm, app_nil_r.
      split; [|done]. by repeat (split; [first [exact Hok1|lia|done]|]).
    - destruct (keyboard_interrupt_handler c (flags k)) as [f [[]| | |]] eqn:E; try done. injection Hstep as <-.
      destruct (keyboard_inv _ _ _ E) as (H1&H2&H3&H4&_&H5).
      unfold starting. cbn [flags executor mode interrupted]. rewrite H1, H2, H3, H4, H5, Hkb, Hm, app_nil_r.
      split; [|lia]. by repeat (split; [first [exact Hok1|lia|done]|]). }
  destruct H1 as [Hs1 Ht1]. destruct (IH Hs1 Hp ltac:(lia)). split; [done|lia].
Qed.

Lemma boot_starting t k : boot (Cs_start (Some t)) = Ok k → starting t k ∧ TIMER_TICKS (flags k) = 0.
Proof.
  destruct (boot_run (TQ:=TQ) (SQ:=SQ) (AW:=AW) (Cs_start (Some t))) as (q&H&Hq&Hk). intros Hb.
  pose proof (boot_ok _ _ Hb) as Hok. rewrite H in Hb. injection Hb as <-. split; [|done].
  unfold starting. cbn [flags executor mode KEYBOARD_WAKER TIMER_WAKER TIMER_TICKS set_task_queue flags_init task_queue].
  by repeat (split; [first [exact Hok|exact aw_new_spec|exact Hk|exact Hq|lia|done]|]).
Qed.

(** Polled for the first time, the task is [sleeping]. *)
Lemma starting_polled t k k' :
  starting t k → is_u 64 (TIMER_TICKS (flags k) + t) → kernel_step Run k = Some (Ok k') →
  sleeping (TIMER_TICKS (flags k) + t) k' ∧ TIMER_TICKS (flags k') = TIMER_TICKS (flags k).
Proof.
  intros (Hok&Hpos&Hkb&Hcap&Hh&Hr&Hm&Ht) Hu Hstep. destruct (kernel_step_keeps Run _ _ Hok Hstep) as [Hok1 _].
  destruct (run_poll _ _ _ Hm Hr) as (q&Hq&Hqc&Hrun). cbn [kernel_step] in Hstep. rewrite Hrun in Hstep. clear Hrun.
  set (f0 := set_task_queue _ _ q) in *. destruct (run_task 0 (executor k, f0)) as [[x f] r] eqn:E.
  destruct (run_sleep 0 {| task_id := 0; task_future := Cs_start (Some t) |} _ f0 _ _ _ (proj1 Hok)
    ltac:(by rewrite Ht, lookup_singleton_eq) Hpos E) as [-> Hres].
  injection Hstep as <-. cbn [wakes_at task_future] in Hres. change (TIMER_TICKS f0) with (TIMER_TICKS (flags k)) in Hres.
  rewrite wrap_small in Hres by exact Hu. unfold sleeping. cbn [flags executor].
  case_decide as Hd; destruct Hres as [-> Hx]; (split; [|done]).
  all: split; [exact Hok1|]; split; [exact Hpos|]; split; [exact Hkb|]; split; [by rewrite <- Hcap|].
  - right. split; [by rewrite Hx, Ht, delete_singleton_eq|]. split; [exact Hq|]. split; [exact Hh|exact Hd].
  - left. split; [by rewrite Hx, Ht, insert_singleton_eq|]. right. split; [exact Hq|].
    split; [apply aw_register_spec|]. cbn in Hd |- *. lia.
Qed.


(** ** Two sleeping tasks *)

(** Task [a] waits and nothing will wake it. *)
Definition lost (a T : Z) k : Prop :=
  executor_ok (executor k) ∧ tasks (executor k) !! a = Some (waiting a T) ∧ a ∉ ready (flags k) ∧
  held (TIMER_WAKER (flags k)) ≠ Some a ∧ held (KEYBOARD_WAKER (flags k)) ≠ Some a ∧ 0 ≤ TIMER_TICKS (flags k).

Lemma lost_step a T e k k' : lost a T k → kernel_step e k = Some (Ok k') → lost a T k'.
Proof.
  intros (Hx&Ha&Hq&Ht&Hk&Hp) Hstep.
  destruct e as [| |c]; unfold kernel_step in Hstep; cbn [interrupt] in Hstep.
  - destruct (mode k) eqn:Hm; [| |unfold run_step in Hstep; by rewrite Hm in Hstep].
    + destruct (ready (flags k)) as [|i l] eqn:Hr.
      { rewrite (run_poll_nil _ Hm Hr) in Hstep. injection Hstep as <-. unfold lost. cbn. by rewrite Hr. }
      apply not_elem_of_cons in Hq as [Hia Hql].
      destruct (run_poll _ _ _ Hm Hr) as (q&Hq'&_&Hrun). rewrite Hrun in Hstep. clear Hrun.
      set (f0 := set_task_queue _ _ q) in *. destruct (run_task i (executor k, f0)) as [[x f] r] eqn:E.
      destruct (run_task_keeps _ _ _ _ _ _ Hx E) as (Hx'&_&Hother&Hnone).
      assert (Hf : ready f = l ∧ TIMER_TICKS f = TIMER_TICKS (flags k) ∧
        KEYBOARD_WAKER f = KEYBOARD_WAKER (flags k) ∧ held (TIMER_WAKER f) ≠ Some a).
      { destruct (tasks (executor k) !! i) as [ti|] eqn:Hi.
        - destruct (run_sleep i ti _ f0 _ _ _ Hx Hi Hp E) as [_ Hres]. case_decide; destruct Hres as [-> _]; [done|].
          split_and!; [done..|]. cbn. rewrite aw_register_spec. congruence.
        - destruct (Hnone eq_refl) as (_&->&_). done. }
      destruct r as [[]|[]| |]; [|done..]. injection Hstep as <-. destruct Hf as (H1&H2&H3&H4).
      unfold lost. cbn [executor flags]. rewrite H1, H2, H3, (Hother a) by congruence. done.
    + rewrite (run_check _ Hm) in Hstep. injection Hstep as <-. done.
  - destruct (timer_interrupt_handler (flags k)) as [f [[]| | |]] eqn:E; try done. injection Hstep as <-.
    destruct (timer_inv _ _ E) as (H1&H2&H3&H4&_). unfold lost. cbn [executor flags interrupted]. rewrite H1, H2, H3, H4.
    split; [done|]. split; [done|]. split.
    { rewrite elem_of_app. intros [?|Hin]; [done|]. destruct (held (TIMER_WAKER (flags k))); [|by apply elem_of_nil in Hin].
      apply list_elem_of_singleton in Hin. congruence. }
    split; [done|]. split; [done|]. pose proof (wrap_range 64 (TIMER_TICKS (flags k) + 1) ltac:(lia)) as [Hw _]. exact Hw.
  - destruct (keyboard_interrupt_handler c (flags k)) as [f [[]| | |]] eqn:E; try done. injection Hstep as <-.
    destruct (keyboard_inv _ _ _ E) as (H1&H2&H3&H4&_). unfold lost. cbn [executor flags interrupted]. rewrite H1, H2, H3, H4.
    split; [done|]. split; [done|]. split; [|done].
    rewrite elem_of_app. intros [?|Hin]; [done|]. destruct (held (KEYBOARD_WAKER (flags k))); [|by apply elem_of_nil in Hin].
    apply list_elem_of_singleton in Hin. congruence.
Qed.

Lemma lost_runs a T es k k' : lost a T k → kernel_run es k k' → lost a T k'.
Proof. intros Hl Hr. induction Hr; [done|]. eauto using lost_step. Qed.

(** Two tasks that start to sleep one after the other: the second one
    takes the only place in [TIMER_WAKER], and whatever happens afterwards, the
    first one is never polled again, however many ticks pass. *)
Theorem second_sleeper_starves a b t1 t2 es k0 k :
  a ≠ b → 0 < t1 → 0 < t2 → executor_ok (executor k0) → mode k0 = Polling → ready (flags k0) = [a; b] →
  tasks (executor k0) !! a = Some {| task_id := a; task_future := Cs_start (Some t1) |} →
  tasks (executor k0) !! b = Some {| task_id := b; task_future := Cs_start (Some t2) |} →
  held (KEYBOARD_WAKER (flags k0)) = None → 0 ≤ TIMER_TICKS (flags k0) →
  TIMER_TICKS (flags k0) + t1 < 2 ^ 64 → TIMER_TICKS (flags k0) + t2 < 2 ^ 64 →
  kernel_run (Run :: Run :: es) k0 k →
  tasks (executor k) !! a = Some (waiting a (TIMER_TICKS (flags k0) + t1)).
Proof.
  intros Hab Ht1 Ht2 Hx Hm Hr Ha Hb Hk Hp Hm1 Hm2 Hrun.
  inversion Hrun as [|? ? ? k1 ? Hs1 Hrun1]; subst. inversion Hrun1 as [|? ? ? k2 ? Hs2 Hrun2]; subst. clear Hrun Hrun1.
  enough (lost a (TIMER_TICKS (flags k0) + t1) k2) as Hl by (by destruct (lost_runs _ _ _ _ _ Hl Hrun2) as (_&?&_)).
  destruct (run_poll _ _ _ Hm Hr) as (q&Hq&_&H). cbn [kernel_step] in Hs1. rewrite H in Hs1. clear H.
  set (f0 := set_task_queue _ _ q) in *. destruct (run_task a (executor k0, f0)) as [[x f] r] eqn:E1.
  destruct (run_sleep a _ _ f0 _ _ _ Hx Ha Hp E1) as [-> Hres]. cbn [wakes_at task_future] in Hres.
  change (TIMER_TICKS f0) with (TIMER_TICKS (flags k0)) in Hres. rewrite wrap_small in Hres by lia.
  rewrite decide_False in Hres by lia. destruct Hres as [-> Hx1]. injection Hs1 as <-.
  destruct (run_task_keeps _ _ _ _ _ _ Hx E1) as (Hxok&_). set (f1 := set_timer_waker f0 _) in *.
  pose (k1 := {| executor := x; flags := f1; mode := Polling |}).
  destruct (run_poll b [] k1 eq_refl Hq) as (q2&Hq2&_&H). cbn [kernel_step] in Hs2. fold k1 in Hs2. rewrite H in Hs2. clear H.
  set (f2 := set_task_queue _ _ q2) in *. destruct (run_task b (executor k1, f2)) as [[x2 f3] r2] eqn:E2.
  assert (Hb1 : tasks x !! b = Some {| task_id := b; task_future := Cs_start (Some t2) |})
    by (by rewrite Hx1, lookup_insert_ne by done).
  destruct (run_sleep b _ _ f2 _ _ _ Hxok Hb1 Hp E2) as [-> Hres]. cbn [wakes_at task_future] in Hres.
  change (TIMER_TICKS f2) with (TIMER_TICKS (flags k0)) in Hres. rewrite wrap_small in Hres by lia.
  rewrite decide_False in Hres by lia. destruct Hres as [-> Hx2]. injection Hs2 as <-.
  destruct (run_task_keeps _ _ _ _ _ _ Hxok E2) as (Hxok2&_).
  unfold lost. cbn [executor flags]. split; [done|]. split.
  { by rewrite Hx2, lookup_insert_ne, Hx1, lookup_insert_eq by done. }
  split; [change (a ∉ contents q2); rewrite Hq2; by apply not_elem_of_nil|].
  split; [cbn; rewrite aw_register_spec; congruence|]. split; [cbn; by rewrite Hk|exact Hp].
Qed.
End sleep.
