(* ===== verification/KeyReader.v ===== *)
(** * Reading the keyboard without losing keys

    [ScancodeStream::poll_next] against the keyboard interrupt: the task that
    loops on [stream.next().await] ([task/shell/mod.rs]), one atomic access to
    the shared queues at a time, with interrupts between any two of them. *)

From S2P Require Import Prelude Bytes Devices Async Executor ExecutorFacts.

Section reader.
Context {TQ SQ AW : Type} {tq : ArrayQueue Z TQ} {sq : ArrayQueue Z SQ} {aw : AtomicWaker AW}.
Context {tqs : ArrayQueueSpec Z TQ} {sqs : ArrayQueueSpec Z SQ} {aws : AtomicWakerSpec AW}.
Local Abbreviation Flags := (Flags TQ SQ AW).
Implicit Types f : Flags.

(** Where the task is: not polled, or before one of the accesses of
    [poll_next]. *)
Inductive place := Waiting | Popping | Registering | Rechecking | Retracting (code : Z).

#[global] Instance place_eq_dec : EqDecision place.
Proof. solve_decision. Defined.

(** The task [id], what it has read, and the codes that found room in the
    queue (kept for the statements only). *)
Record Reader := { rd_flags : Flags; rd_pos : place; rd_read : list Z; rd_accepted : list Z }.

Definition at_pos (r : Reader) f p l : Reader :=
  {| rd_flags := f; rd_pos := p; rd_read := l; rd_accepted := rd_accepted r |}.

(** One access; when the task is not polled, the executor pops the next id. *)
Definition reader_access (id : Z) (r : Reader) : outcome Empty_set Reader :=
  match rd_pos r with
  | Waiting =>
      let '(f, i) := pop_task (rd_flags r) in
      i ← i; Ok (at_pos r f (if bool_decide (i = Some id) then Popping else Waiting) (rd_read r))
  | Popping =>
      let '(f, c) := pop_scancode (rd_flags r) in
      c ← c; Ok (match c with
                 | Some c => at_pos r f Popping (rd_read r ++ [c])
                 | None => at_pos r f Registering (rd_read r)
                 end)
  | Registering =>
      let '(f, u) := register_keyboard id (rd_flags r) in _ ← u; Ok (at_pos r f Rechecking (rd_read r))
  | Rechecking =>
      let '(f, c) := pop_scancode (rd_flags r) in
      c ← c; Ok (match c with
                 | Some c => at_pos r f (Retracting c) (rd_read r)
                 | None => at_pos r f Waiting (rd_read r)
                 end)
  | Retracting c =>
      let '(f, u) := take_keyboard (rd_flags r) in _ ← u; Ok (at_pos r f Popping (rd_read r ++ [c]))
  end.

Definition scancodes f : list Z := match SCANCODE_QUEUE f with Some q => contents q | None => [] end.
Definition accepts f : bool :=
  match SCANCODE_QUEUE f with Some q => len (contents q) <? capacity q | None => false end.

Definition reader_step (id : Z) (e : event) (r : Reader) : outcome Empty_set Reader :=
  match e with
  | Run => reader_access id r
  | _ =>
      let '(f, u) := interrupt e (rd_flags r) in
      _ ← u;
      Ok {| rd_flags := f; rd_pos := rd_pos r; rd_read := rd_read r;
            rd_accepted := rd_accepted r ++ (match e with Key c => if accepts (rd_flags r) then [c] else [] | _ => [] end) |}
  end.

Fixpoint reader_run (id : Z) (es : list event) (r : Reader) : outcome Empty_set Reader :=
  match es with [] => Ok r | e :: es => r ← reader_step id e r; reader_run id es r end.

(** The accesses are those of [poll_next]: without interrupts they read its
    code, or leave the task waiting. *)
Lemma poll_next_accesses id r f o :
  rd_pos r = Popping → poll_next (E:=Empty_set) id (rd_flags r) = (f, Ok o) →
  ∃ n, reader_run id (replicate n Run) r =
    Ok (at_pos r f (if o is Some _ then Popping else Waiting) (rd_read r ++ option_list o)).
Proof.
  destruct r as [f0 p l acc]. cbn [rd_flags rd_pos rd_read]. intros ->. unfold poll_next. rewrite st_bind_unfold.
  destruct (pop_scancode f0) as [f1 [[c|]|[]| |]] eqn:E1; [| |done..].
  { intros [= <- <-]. exists 1%nat. cbn. by rewrite E1. }
  rewrite st_bind_unfold. destruct (register_keyboard id f1) as [f2 [[]|[]| |]] eqn:E2; [|done..].
  rewrite st_bind_unfold. destruct (pop_scancode f2) as [f3 [[c|]|[]| |]] eqn:E3; [| |done..].
  - rewrite st_bind_unfold. destruct (take_keyboard f3) as [f4 [[]|[]| |]] eqn:E4; [|done..]. intros [= <- <-].
    injection E2 as <-. injection E4 as <-.
    exists 4%nat. cbn. rewrite E1. cbn. by rewrite E3.
  - intros [= <- <-]. injection E2 as <-. exists 3%nat. cbn. rewrite E1. cbn. rewrite E3. cbn.
    by rewrite app_nil_r.
Qed.

(** ** The invariant *)

(** The task will be polled, or the next key makes it so. *)
Definition reachable (id : Z) f : Prop := held (KEYBOARD_WAKER f) = Some id ∨ id ∈ ready f.

Definition in_flight (p : place) : list Z := match p with Retracting c => [c] | _ => [] end.

Definition reader_ok (id : Z) (r : Reader) : Prop :=
  let f := rd_flags r in
  is_Some (SCANCODE_QUEUE f) ∧
  rd_read r ++ in_flight (rd_pos r) ++ scancodes f = rd_accepted r ∧
  (rd_pos r = Rechecking → reachable id f) ∧
  (rd_pos r = Waiting → reachable id f ∧ (scancodes f ≠ [] → id ∈ ready f)).

Lemma pop_scancode_nil {E} f : is_Some (SCANCODE_QUEUE f) → scancodes f = [] → pop_scancode (E:=E) f = (f, Ok None).
Proof.
  intros [q Hq]. unfold scancodes, pop_scancode. rewrite Hq. intros Hc. rewrite bind_get_st, Hq. cbn [unwrap].
  rewrite bind_lift_Ok, (aq_pop_nil _ Hc), bind_modify, <- Hq. by destruct f.
Qed.
Lemma pop_scancode_cons {E} f c l : scancodes f = c :: l →
  ∃ q, pop_scancode (E:=E) f = (set_scancodes f (Some q), Ok (Some c)) ∧ contents q = l.
Proof.
  unfold scancodes, pop_scancode. rewrite bind_get_st. destruct (SCANCODE_QUEUE f) as [q|]; [|done]. intros Hc.
  destruct (aq_pop_cons _ _ _ Hc) as (q'&Hp&Hq'&_). exists q'. cbn [unwrap]. by rewrite bind_lift_Ok, Hp, bind_modify.
Qed.

(** What is left to do before the task waits with nothing to read. *)
Definition phase (p : place) : nat :=
  match p with Waiting => 0 | Rechecking => 1 | Registering => 2 | Popping => 3 | Retracting _ => 4 end.
Definition work (r : Reader) : nat :=
  (8 * (length (scancodes (rd_flags r)) + length (ready (rd_flags r))) + phase (rd_pos r))%nat.
Definition settled (r : Reader) : Prop := rd_pos r = Waiting ∧ ready (rd_flags r) = [].

Lemma reader_access_ok id r : reader_ok id r → ¬ settled r →
  ∃ r', reader_step id Run r = Ok r' ∧ reader_ok id r' ∧ rd_accepted r' = rd_accepted r ∧ (work r' < work r)%nat.
Proof.
  intros (Hq&Hread&Hrec&Hwait) Hns. destruct r as [f p l acc]. cbn [rd_flags rd_pos rd_read rd_accepted in_flight] in *.
  cbn [reader_step]. unfold reader_access, work, reader_ok. cbn [rd_flags rd_pos rd_read rd_accepted].
  destruct p as [| | | |c]; cbn [in_flight app phase] in *.
  - destruct (ready f) as [|i rest] eqn:Hr; [by destruct Hns|]. destruct (Hwait eq_refl) as [Hre Hw].
    destruct (pop_task_cons (E:=Empty_set) _ _ _ Hr) as (q&->&Hrest&_). rewrite bind_Ok. eexists. split; [reflexivity|].
    cbn [at_pos rd_flags rd_pos rd_read rd_accepted]. change (ready (set_task_queue f (TASK_NEXT_ID f) q)) with (contents q).
    change (scancodes (set_task_queue f (TASK_NEXT_ID f) q)) with (scancodes f). rewrite Hrest.
    case_bool_decide as Hi; (split; [split; [exact Hq|split; [exact Hread|]]|]).
    + by split.
    + split; [done|]. cbn [length phase]. lia.
    + split; [done|]. intros _. unfold reachable in *. change (ready (set_task_queue f (TASK_NEXT_ID f) q)) with (contents q).
      cbn [KEYBOARD_WAKER set_task_queue]. rewrite Hrest. rewrite Hr in Hre. rewrite elem_of_cons in Hre, Hw. naive_solver.
    + split; [done|]. cbn [length phase]. lia.
  - destruct (scancodes f) as [|c rest] eqn:Hs.
    + rewrite (pop_scancode_nil _ Hq Hs). rewrite bind_Ok. eexists. split; [reflexivity|].
      cbn [at_pos rd_flags rd_pos rd_read rd_accepted]. rewrite Hs. split; [by split|]. split; [done|]. cbn [length phase]. lia.
    + destruct (pop_scancode_cons (E:=Empty_set) _ _ _ Hs) as (q&->&Hrest). rewrite bind_Ok. eexists. split; [reflexivity|].
      cbn [at_pos rd_flags rd_pos rd_read rd_accepted]. change (scancodes (set_scancodes f (Some q))) with (contents q).
      rewrite Hrest. change (ready (set_scancodes f (Some q))) with (ready f).
      split; [|split; [done|]; cbn [length phase]; lia]. split; [by eexists|]. split; [|done].
      by rewrite <- app_assoc.
  - eexists. split; [reflexivity|]. cbn [at_pos rd_flags rd_pos rd_read rd_accepted].
    split; [|split; [done|]; cbn [phase]; unfold ready, scancodes; cbn; lia].
    split; [exact Hq|]. split; [exact Hread|]. split; [|done]. intros _. left. cbn. apply aw_register_spec.
  - destruct (scancodes f) as [|c rest] eqn:Hs.
    + rewrite (pop_scancode_nil _ Hq Hs). rewrite bind_Ok. eexists. split; [reflexivity|].
      cbn [at_pos rd_flags rd_pos rd_read rd_accepted]. rewrite Hs.
      split; [|split; [done|]; cbn [length phase]; lia]. split; [done|]. split; [done|]. split; [done|].
      intros _. split; [by apply Hrec|done].
    + destruct (pop_scancode_cons (E:=Empty_set) _ _ _ Hs) as (q&->&Hrest). rewrite bind_Ok. eexists. split; [reflexivity|].
      cbn [at_pos rd_flags rd_pos rd_read rd_accepted]. change (scancodes (set_scancodes f (Some q))) with (contents q).
      rewrite Hrest. change (ready (set_scancodes f (Some q))) with (ready f).
      split; [|split; [done|]; cbn [length phase]; lia]. split; [by eexists|]. by split.
  - eexists. split; [reflexivity|]. cbn [at_pos rd_flags rd_pos rd_read rd_accepted].
    split; [|split; [done|]; cbn [phase]; unfold ready, scancodes; cbn; lia].
    split; [exact Hq|]. split; [by rewrite <- app_assoc|]. by split.
Qed.

Lemma reader_interrupt_ok id e r r' : e ≠ Run → reader_ok id r → reader_step id e r = Ok r' → reader_ok id r'.
Proof.
  intros He (Hq&Hread&Hrec&Hwait) Hstep. destruct r as [f p l acc]. cbn [rd_flags rd_pos rd_read rd_accepted] in *.
  destruct e as [| |c]; [done| |]; unfold reader_step, interrupt in Hstep; cbn [rd_flags rd_pos rd_read rd_accepted] in Hstep.
  - destruct (timer_interrupt_handler f) as [f' [[]| | |]] eqn:E; [|done..]. injection Hstep as <-.
    destruct (timer_inv _ _ E) as (H1&_&H3&_). pose proof (timer_scancodes _ _ _ E) as Hsc.
    unfold reader_ok, reachable, scancodes in *. cbn [rd_flags rd_pos rd_read rd_accepted].
    rewrite H1, H3, Hsc, app_nil_r, !elem_of_app. naive_solver.
  - destruct (keyboard_interrupt_handler c f) as [f' [[]| | |]] eqn:E; [|done..]. injection Hstep as <-.
    destruct (keyboard_inv _ _ _ E) as (H1&_&_&_&H5&_). destruct Hq as [q Hq].
    unfold reader_ok. cbn [rd_flags rd_pos rd_read rd_accepted].
    assert (Hsc : scancodes f' = scancodes f ++ if accepts f then [c] else []).
    { unfold scancodes, accepts. rewrite H5, Hq. cbn. pose proof (aq_bounded q).
      destruct (Z.ltb_spec (len (contents q)) (capacity q)).
      - destruct (aq_push_spec c q) as (q'&Hp&Hc&_); [done|]. by rewrite Hp.
      - rewrite aq_push_full by lia. by rewrite app_nil_r. }
    assert (Hre : reachable id f → id ∈ ready f').
    { rewrite H1, elem_of_app. intros [->|]; [right; by left|by left]. }
    rewrite Hsc. split; [by rewrite H5, Hq|]. split; [by rewrite <- Hread, !app_assoc|].
    split; [intros Hp; right; by apply Hre, Hrec|]. intros Hp. destruct (Hwait Hp) as [Hr _].
    split; [right|intros _]; by apply Hre.
Qed.

Lemma reader_run_ok id es r r' : reader_ok id r → reader_run id es r = Ok r' → reader_ok id r'.
Proof.
  revert r. induction es as [|e es IH]; intros r Hr; cbn [reader_run]; [by intros [= <-]|].
  intros (r1&Hs&Hrun)%bind_Ok_inv. apply (IH r1); [|done].
  destruct (decide (e = Run)) as [->|He]; [|by eapply reader_interrupt_ok].
  destruct (decide (rd_pos r = Waiting ∧ ready (rd_flags r) = [])) as [[Hp Hn]|Hns].
  - unfold reader_step, reader_access in Hs. rewrite Hp, (pop_task_nil _ Hn) in Hs. injection Hs as <-.
    destruct r as [f p l acc]. cbn in *. by subst p.
  - destruct (reader_access_ok id r Hr Hns) as (r2&Hs2&Hok&_). congruence.
Qed.

Lemma reader_settles id r : reader_ok id r → ∃ n r', reader_run id (replicate n Run) r = Ok r' ∧
  reader_ok id r' ∧ settled r' ∧ rd_accepted r' = rd_accepted r.
Proof.
  remember (work r) as w eqn:Hw. revert r Hw. induction w as [w IH] using lt_wf_ind. intros r -> Hr.
  destruct (decide (rd_pos r = Waiting ∧ ready (rd_flags r) = [])) as [Hs|Hns]; [by exists 0%nat, r|].
  destruct (reader_access_ok id r Hr Hns) as (r1&Hs1&Hr1&Ha1&Hlt).
  destruct (IH _ Hlt r1 eq_refl Hr1) as (n&r'&Hn&Hr'&Hs'&Ha').
  exists (S n), r'. cbn [replicate reader_run]. rewrite Hs1, bind_Ok. split; [done|]. split; [done|]. split; [done|]. congruence.
Qed.

(** C12: No key is lost and no wake-up is missed, wherever the interrupts of
    keyboard and timer fall between the accesses of [poll_next] and the
    executor's pops: what the task has read, holds and will find in the queue
    is at any time exactly the sequence of the codes that found room, in order;
    while the task is not being polled and codes wait for it, it is in the task
    queue; and once interrupts pause, finitely many steps without panic let it
    read everything and wait with its waker registered for the next key. *)
Theorem no_key_lost id f es r :
  is_Some (SCANCODE_QUEUE f) → scancodes f = [] → id ∈ ready f →
  reader_run id es {| rd_flags := f; rd_pos := Waiting; rd_read := []; rd_accepted := [] |} = Ok r →
  rd_read r ++ in_flight (rd_pos r) ++ scancodes (rd_flags r) = rd_accepted r ∧
  (rd_pos r = Waiting → scancodes (rd_flags r) ≠ [] → id ∈ ready (rd_flags r)) ∧
  ∃ n r', reader_run id (replicate n Run) r = Ok r' ∧ rd_read r' = rd_accepted r ∧ rd_pos r' = Waiting ∧
    scancodes (rd_flags r') = [] ∧ held (KEYBOARD_WAKER (rd_flags r')) = Some id.
Proof.
  intros Hq Hs Hid Hrun.
  assert (Hok : reader_ok id r).
  { refine (reader_run_ok id es _ r _ Hrun). split; [done|]. cbn. rewrite Hs. split; [done|]. split; [done|].
    intros _. split; [by right|done]. }
  destruct Hok as (Hsome&Hread&Hrec&Hw). split; [done|]. split; [intros Hp; by apply Hw|].
  destruct (reader_settles id r) as (n&r'&Hn&Hr'&[Hp' Hn']&Ha); [done|]. exists n, r'.
  destruct Hr' as (_&Hread'&_&Hw'). destruct (Hw' Hp') as [[Hh|Hin] Hsc]; [|rewrite Hn' in Hin; by apply elem_of_nil in Hin].
  rewrite Hn' in Hsc. destruct (scancodes (rd_flags r')) as [|c l] eqn:Hsc'.
  - split; [done|]. rewrite Hp' in Hread'. cbn [in_flight app] in Hread'.
    rewrite app_nil_r in Hread'. by rewrite Hread', Ha.
  - specialize (Hsc ltac:(done)). by apply elem_of_nil in Hsc.
Qed.
End reader.
