(* ===== verification/AsyncDemo.v ===== *)
(** * The executor on concrete queues

    A bounded queue and a waker slot that satisfy the laws of [Async], and the
    theorems of the executor at concrete runs. *)

From S2P Require Import Prelude Bytes Devices Async Executor ExecutorFacts SleepFacts KeyReader.

(** The elements and the number of free places. *)
Record ListQueue := { lq_items : list Z; lq_free : nat }.

#[export] Instance ListQueue_ArrayQueue : ArrayQueue Z ListQueue := {|
  aq_new n := {| lq_items := []; lq_free := Z.to_nat n |};
  aq_push x q := match lq_free q with
                 | O => (q, false)
                 | S n => ({| lq_items := lq_items q ++ [x]; lq_free := n |}, true)
                 end;
  aq_pop q := match lq_items q with
              | [] => (q, None)
              | x :: l => ({| lq_items := l; lq_free := S (lq_free q) |}, Some x)
              end;
  aq_is_empty q := match lq_items q with [] => true | _ => false end;
|}.

#[export] Program Instance ListQueue_Spec : ArrayQueueSpec Z ListQueue := {|
  contents := lq_items;
  capacity q := len (lq_items q) + Z.of_nat (lq_free q);
|}.
Next Obligation. intros [l n]. cbn. lia. Qed.
Next Obligation. intros n Hn. cbn. split; [done|lia]. Qed.
Next Obligation.
  intros x [l [|n]]; cbn; intros H; [lia|]. eexists. split; [done|]. cbn. split; [done|]. rewrite length_app. cbn. lia.
Qed.
Next Obligation. intros x [l [|n]]; cbn; intros H; [done|lia]. Qed.
Next Obligation. intros [l n]. cbn. by intros ->. Qed.
Next Obligation. intros [l n] x l'. cbn. intros ->. eexists. split; [done|]. cbn. split; [done|lia]. Qed.
Next Obligation. intros [[|x l] n]; done. Qed.

#[export] Instance option_AtomicWaker : AtomicWaker (option Z) :=
  {| aw_new := None; aw_register w _ := Some w; aw_take a := (None, a) |}.
#[export] Instance option_AtomicWakerSpec : AtomicWakerSpec (option Z).
Proof. by exists id. Defined.

Local Abbreviation demo_kernel := (Kernel ListQueue ListQueue (option Z) CmdSleep).
Local Abbreviation demo_flags := (Flags ListQueue ListQueue (option Z)).

(** The kernel after some events. *)
Definition run_events (es : list event) (k : demo_kernel) : outcome Empty_set demo_kernel :=
  foldl (λ r e, k ← r; default Panic (kernel_step e k)) (Ok k) es.

Lemma run_events_run es (k k' : demo_kernel) : run_events es k = Ok k' → kernel_run es k k'.
Proof.
  assert (Hstuck : ∀ es r, foldl (λ r e, k ← r; default Panic (kernel_step e k)) r es = Ok k' → ∃ k1, r = Ok k1).
  { clear es. intros es. induction es as [|e es IH]; intros r; cbn [foldl]; [by exists k'|].
    intros [k1 Hk1]%IH. apply bind_Ok_inv in Hk1 as (k2&->&_). by exists k2. }
  unfold run_events. revert k. induction es as [|e es IH]; intros k; cbn [foldl]; [intros [= ->]; constructor|].
  intros H. destruct (Hstuck _ _ H) as [k1 Hk1]. rewrite Hk1 in H. econstructor; [|by apply IH].
  cbn in Hk1. by destruct (kernel_step e k) as [[| | |]|]; cbn in Hk1; simplify_eq.
Qed.

Definition demo_boot : outcome Empty_set demo_kernel := boot (Cs_start (Some 2)).
Definition demo_after (es : list event) : outcome Empty_set demo_kernel := k ← demo_boot; run_events es k.
Definition demo_at (es : list event) : demo_kernel :=
  match demo_after es with
  | Ok k => k
  | _ => {| executor := Executor_new; flags := flags_init; mode := Halted |}
  end.

Lemma kernel_invariant_witness :
  let k := demo_at [Run; Tick; Tick] in
  executor_ok (executor k) ∧ ready (flags k) = [0] ∧ kernel_run [] (demo_at []) (demo_at []).
Proof.
  intros k.
  destruct (kernel_invariant (Cs_start (Some 2)) (demo_at []) [Run; Tick; Tick] k) as (Hx&_&_&_).
  - vm_compute. reflexivity.
  - apply run_events_run. vm_compute. reflexivity.
  - split; [exact Hx|]. split; [vm_compute; reflexivity|constructor].
Defined.

Lemma demo_quiet w (fut : CmdSleep) (f f' : demo_flags) r : poll w fut f = (f', r) → safe r ∧ ready f' = ready f.
Proof.
  intros H. unfold poll, CmdSleep_Future, Sleep_new in H.
  destruct fut as [[t|]|s]; cbv [poll Sleep_Future mbind st_bind mret st_ret get_st modify] in H;
    repeat case_match; by simplify_eq.
Qed.

Lemma run_ready_tasks_ends_witness :
  let k := demo_at [] in
  ∃ x' f', run_ready_tasks (E:=Empty_set) 2 (executor k, flags k) = ((x', f'), Ok ()) ∧ ready f' = [] ∧
    tasks x' = {[ 0 := waiting 0 2 ]}.
Proof.
  intros k. destruct (run_ready_tasks_ends (executor k) (flags k) 2 demo_quiet) as (x'&f'&Hrun&He&_).
  - apply (boot_ok (Cs_start (Some 2))). vm_compute. reflexivity.
  - vm_compute. lia.
  - exists x', f'. split; [exact Hrun|]. split; [exact He|].
    assert (Hx : (run_ready_tasks (E:=Empty_set) 2 (executor k, flags k)).1.1 = x') by (by rewrite Hrun).
    rewrite <- Hx. clear. vm_compute. reflexivity.
Defined.


(** Two sleepers, ten ticks. *)
Definition demo_two : demo_kernel :=
  {| executor := {| tasks := {[ 0 := {| task_id := 0; task_future := Cs_start (Some 2) |};
                                1 := {| task_id := 1; task_future := Cs_start (Some 3) |} ]};
                    waker_cache := ∅ |};
     flags := {| TIMER_TICKS := 0; SHOULD_YIELD_FLAG := false; SCANCODE_QUEUE := None; KEYBOARD_WAKER := None;
                 KEYBOARD_EVENT_COUNT := 0; TIMER_WAKER := None; TASK_NEXT_ID := 2;
                 task_queue := {| lq_items := [0; 1]; lq_free := 98 |} |};
     mode := Polling |}.
Definition demo_ticks : list event := concat (replicate 10 [Tick; Run]).
Definition demo_two_end : demo_kernel :=
  match run_events (Run :: Run :: Run :: Run :: demo_ticks) demo_two with Ok k => k | _ => demo_two end.

Lemma second_sleeper_starves_witness :
  tasks (executor demo_two_end) !! 0 = Some (waiting 0 2) ∧ TIMER_TICKS (flags demo_two_end) = 10 ∧
  tasks (executor demo_two_end) !! 1 = None.
Proof.
  split; [|vm_compute; split; reflexivity].
  refine (second_sleeper_starves 0 1 2 3 (Run :: Run :: demo_ticks) demo_two demo_two_end _ _ _ _ _ _ _ _ _ _ _ _ _);
    [done|lia|lia| |reflexivity|reflexivity|reflexivity|reflexivity|reflexivity|cbn; lia|cbn; lia|cbn; lia|].
  - split; [|apply map_Forall_empty]. apply map_Forall_insert_2; [reflexivity|]. by apply map_Forall_singleton.
  - apply run_events_run. vm_compute. reflexivity.
Defined.

(** A key between the registration and the second look at the queue, and one
    while the task waits. *)
Definition demo_keys : demo_flags :=
  {| TIMER_TICKS := 0; SHOULD_YIELD_FLAG := false; SCANCODE_QUEUE := Some {| lq_items := []; lq_free := 256 |};
     KEYBOARD_WAKER := None; KEYBOARD_EVENT_COUNT := 0; TIMER_WAKER := None; TASK_NEXT_ID := 1;
     task_queue := {| lq_items := [0]; lq_free := 99 |} |}.
Definition demo_reader : Reader := {| rd_flags := demo_keys; rd_pos := Waiting; rd_read := []; rd_accepted := [] |}.
Definition demo_key_events : list event := [Run; Run; Run; Key 30; Run; Run; Run; Run; Run; Run; Key 31; Tick; Key 32].
Definition demo_read : Reader (TQ:=ListQueue) (SQ:=ListQueue) (AW:=option Z) :=
  match reader_run 0 demo_key_events demo_reader with Ok r => r | _ => demo_reader end.

Lemma no_key_lost_witness :
  ∃ n r', reader_run 0 (replicate n Run) demo_read = Ok r' ∧ rd_read r' = [30; 31; 32] ∧
    held (KEYBOARD_WAKER (rd_flags r')) = Some 0.
Proof.
  destruct (no_key_lost 0 demo_keys demo_key_events demo_read) as (_&_&n&r'&Hn&Hr&_&_&Hh).
  - by eexists.
  - reflexivity.
  - by left.
  - vm_compute. reflexivity.
  - exists n, r'. split; [exact Hn|]. split; [|exact Hh]. rewrite Hr. vm_compute. reflexivity.
Defined.
