(* ===== verification/Shell.v ===== *)
(** * The shell

    [kernel/src/task/shell]: the tokenizer and the pipeline parser
    ([tokenizer/]), the history ([history.rs]), the command table and the
    argument parsing that [#[command]] generates ([commands/mod.rs],
    [macros/src/lib.rs]), the commands, and the line editor of [shell_task]
    ([mod.rs]). [heapless] and the keyboard decoder are the classes
    [Heapless] and [Decoder]. *)

From S2P Require Import Prelude Bytes Text Devices.

(** [heapless::Vec<A, n>] and [heapless::String<n>] by their contents; [None]
    is the error of a container that is full (and is then unchanged). *)
Class Heapless := {
  hv_push : ∀ {A}, Z → list A → A → option (list A);
  hs_push : Z → rstring → Z → option rstring;
  hs_push_str : Z → rstring → rstring → option rstring;
}.
Class HeaplessSpec {h : Heapless} := {
  hv_push_spec {A} n (l : list A) x : hv_push n l x = if len l <? n then Some (l ++ [x]) else None;
  hs_push_spec n s c : hs_push n s c = if str_len s + utf8_len c <=? n then Some (s ++ [c]) else None;
  hs_push_str_spec n s t : hs_push_str n s t = if str_len s + str_len t <=? n then Some (s ++ t) else None;
}.

Section shell.
Context {heapless : Heapless}.

(** [.push(x).ok()] *)
Definition push_ok {A} (n : Z) (l : list A) (x : A) : list A := default l (hv_push n l x).

(** ** Tokens *)

Inductive Token := Word (w : rstring) | Pipe.

#[global] Instance Token_eq_dec : EqDecision Token.
Proof. solve_decision. Defined.

(** The inner loops: the characters up to a stop character, and the rest. *)
Fixpoint take_while (p : Z → bool) (s : rstring) : rstring * rstring :=
  match s with
  | [] => ([], [])
  | c :: s' => if p c then let '(w, r) := take_while p s' in (c :: w, r) else ([], s)
  end.
Definition in_quotes (c : Z) : bool := negb (c =? 34).
Definition in_word (c : Z) : bool := negb ((c =? 32) || (c =? 124)).

(** One pass per character is more than the loop makes. *)
Fixpoint tokenize_loop (fuel : nat) (chars : rstring) (tokens : list Token) : outcome Empty_set (list Token) :=
  match fuel with
  | O => Diverge
  | S fuel =>
      match chars with
      | [] => Ok tokens
      | c :: rest =>
          if c =? 32 then tokenize_loop fuel rest tokens
          else if c =? 124 then tokenize_loop fuel rest (push_ok 64 tokens Pipe)
          else if c =? 34 then
            let '(start, rest) := take_while in_quotes rest in
            tokenize_loop fuel (drop 1 rest) (push_ok 64 tokens (Word start))
          else
            let '(word, rest) := take_while in_word chars in
            tokenize_loop fuel rest (push_ok 64 tokens (Word word))
      end
  end.
Definition tokenize (input : rstring) : outcome Empty_set (list Token) := tokenize_loop (S (length input)) input [].

(** ** Pipelines *)

Record Command := { cmd_name : rstring; cmd_args : list rstring }.
Definition Command_empty : Command := {| cmd_name := []; cmd_args := [] |}.

#[global] Instance Command_eq_dec : EqDecision Command.
Proof. solve_decision. Defined.

Definition parse_token (s : list Command * Command) (t : Token) : list Command * Command :=
  let '(cmds, current) := s in
  match t with
  | Word w =>
      (cmds, if is_empty (cmd_name current) then {| cmd_name := w; cmd_args := cmd_args current |}
             else {| cmd_name := cmd_name current; cmd_args := push_ok 16 (cmd_args current) w |})
  | Pipe => (push_ok 8 cmds current, Command_empty)
  end.
Definition parse_pipeline (tokens : list Token) : list Command :=
  let '(cmds, current) := foldl parse_token ([], Command_empty) tokens in
  if nonempty (cmd_name current) then push_ok 8 cmds current else cmds.

(** ** History *)

Record History := { entries : list rstring; index : Z }.
Definition History_new : History := {| entries := []; index := 0 |}.
Definition hist_push (h : History) (line : rstring) : History :=
  match hs_push_str 128 [] line with
  | Some s =>
      match hv_push 32 (entries h) s with
      | Some e => {| entries := e; index := len e |}
      | None => h
      end
  | None => h
  end.
(** An out-of-range index panics. *)
Definition hist_up (h : History) : outcome Empty_set (History * option rstring) :=
  if 0 <? index h then
    s ← unwrap (entries h !! Z.to_nat (index h - 1));
    Ok ({| entries := entries h; index := index h - 1 |}, Some s)
  else Ok (h, None).
Definition hist_down (h : History) : outcome Empty_set (History * option rstring) :=
  if index h + 1 <? len (entries h) then
    s ← unwrap (entries h !! Z.to_nat (index h + 1));
    Ok ({| entries := entries h; index := index h + 1 |}, Some s)
  else Ok (h, None).

(** ** Paths *)

(** [str::trim_end_matches(c)] *)
Fixpoint trim_end_matches (c : Z) (s : rstring) : rstring :=
  match s with
  | [] => []
  | x :: s => match trim_end_matches c s with [] => if x =? c then [] else [x] | t => x :: t end
  end.

(** [current] is [get_current_path()]. *)
Definition resolve_path (current path : rstring) : rstring :=
  if starts_with path (lit "/") then path
  else if bool_decide (path = lit ".") then current
  else if bool_decide (path = lit "..") then
    if bool_decide (current = lit "/") then lit "/"
    else
      let parts := split_on 47 (trim_end_matches 47 current) in
      if len parts <=? 1 then lit "/" else join (lit "/") (take (length parts - 1) parts)
  else if bool_decide (current = lit "/") then lit "/" ++ path
  else current ++ lit "/" ++ path.
End shell.
