(* ===== verification/ShellTask.v ===== *)
(** * Shell commands and the line editor

    [shell/commands/*.rs] with the argument parsing that the attribute
    [#[command]] of [macros/src/lib.rs] puts in front of each body, the attribute
    itself and the statements it writes, the command table, [execute_pipeline],
    and [shell_task] key by key. *)

From S2P Require Import Prelude Bytes Text Devices Shell.

(** ** Generated argument parsing

    The parameters of a command's signature, as [command] classifies them. *)
Inductive ParamType := T_String | T_usize.
Inductive Param :=
| P_flag (ident : rstring)
| P_option (ty : ParamType)
| P_required (ident : rstring) (ty : ParamType).
Inductive Arg := A_string (s : rstring) | A_usize (n : Z).
Inductive Value := V_bool (b : bool) | V_option (a : option Arg) | V_arg (a : Arg).

#[global] Instance Arg_eq_dec : EqDecision Arg.
Proof. solve_decision. Defined.
#[global] Instance Value_eq_dec : EqDecision Value.
Proof. solve_decision. Defined.

(** [str::parse::<usize>]: an optional [+] and decimal digits, [None] on
    overflow. *)
Fixpoint parse_digits (acc : Z) (s : rstring) : option Z :=
  match s with
  | [] => Some acc
  | c :: s =>
      if (48 <=? c) && (c <=? 57) then
        let n := 10 * acc + (c - 48) in
        if n <? 2 ^ 64 then parse_digits n s else None
      else None
  end.
Definition parse_usize (s : rstring) : option Z :=
  match s with
  | [] => None
  | c :: s' => if (c =? 43) && nonempty s' then parse_digits 0 s' else parse_digits 0 s
  end.
Definition parse_arg (ty : ParamType) (s : rstring) : option Arg :=
  match ty with T_String => Some (A_string s) | T_usize => A_usize <$> parse_usize s end.

(** [__args_iter]: the arguments that are not flags. *)
Definition args_iter (args : list rstring) : list rstring := base.filter (λ a, starts_with a (lit "--") = false) args.

(** The parsing statements in order; [Err] is the name in the message
    "Missing or invalid argument". *)
Fixpoint parse_params (args : list rstring) (ps : list Param) (iter : list rstring) : outcome rstring (list Value) :=
  match ps with
  | [] => Ok []
  | P_flag ident :: ps =>
      vs ← parse_params args ps iter;
      Ok (V_bool (bool_decide (lit "--" ++ ident ∈ args)) :: vs)
  | P_option ty :: ps =>
      vs ← parse_params args ps (tail iter);
      Ok (V_option (head iter ≫= parse_arg ty) :: vs)
  | P_required ident ty :: ps =>
      match head iter ≫= parse_arg ty with
      | Some v => vs ← parse_params args ps (tail iter); Ok (V_arg v :: vs)
      | None => Err ident
      end
  end.

(** ** The attribute

    [macros/src/lib.rs] itself: reading the arguments of the attribute, and the
    statements it puts in front of the function. Tokens, types and patterns are
    those of [syn], as far as the code looks at them. *)

Inductive SynToken := Tok_ident (s : rstring) | Tok_eq | Tok_comma | Tok_lit (s : rstring) | Tok_other.
Inductive SynError := E_syntax | E_unrecognized (ident : rstring).
Record CommandArgs := { ca_name : rstring; ca_short : rstring; ca_long : rstring }.

(** [CommandArgs::parse]: a comma is taken where there is one; of an argument
    given twice the last one counts. [expect] panics on a missing one. *)
Fixpoint parse_command_args (name short long : option rstring) (err : option SynError) (input : list SynToken) :
    outcome SynError CommandArgs :=
  match input with
  | [] =>
      match err with
      | Some e => Err e
      | None =>
          name ← unwrap name; short ← unwrap short; long ← unwrap long;
          Ok {| ca_name := name; ca_short := short; ca_long := long |}
      end
  | Tok_ident ident :: Tok_eq :: Tok_lit value :: rest =>
      let next name short long err :=
        match rest with
        | Tok_comma :: rest => parse_command_args name short long err rest
        | _ => parse_command_args name short long err rest
        end in
      if bool_decide (ident = lit "name") then next (Some value) short long err
      else if bool_decide (ident = lit "short") then next name (Some value) long err
      else if bool_decide (ident = lit "long") then next name short (Some value) err
      else next name short long (Some (E_unrecognized ident))
  | _ => Err E_syntax
  end.

(** A type: the segments of its path, if it is one, and what [parse] has to
    make of an argument for it. *)
Record SynType := { ty_path : option (list rstring); ty_parsed : ParamType }.
(** [attrs]: the paths of the attributes; [pt_ident]: the name, if the pattern is one. *)
Record PatType := { attrs : list rstring; pt_ident : option rstring; pt_ty : SynType }.
Inductive FnArg := Fn_receiver | Fn_typed (pt : PatType).

Definition is_option (ty : SynType) : bool :=
  match ty_path ty with Some segments => bool_decide (last segments = Some (lit "Option")) | None => false end.
Definition has_flag_attr (attrs : list rstring) : bool := existsb (λ a, bool_decide (a = lit "flag")) attrs.
Definition strip_flag_attr (attrs : list rstring) : list rstring := filter (λ a, a ≠ lit "flag") attrs.

(** The statements the attribute writes, and those of the function. *)
Inductive Stmt :=
| S_args                                                (* let __args = args; *)
| S_iter                                                (* let mut __args_iter = ..filter(..); *)
| S_flag (ident flag_str : rstring)
| S_option (ident : rstring) (ty : ParamType)
| S_required (ident : rstring) (ty : ParamType) (name_str : rstring)
| S_body (n : nat).

Definition parse_stmt (ident : rstring) (ty : SynType) (is_flag_param : bool) : Stmt :=
  if is_flag_param then S_flag ident (lit "--" ++ ident)
  else if is_option ty then S_option ident (ty_parsed ty)
  else S_required ident (ty_parsed ty) ident.
Fixpoint parse_stmts (inputs : list FnArg) : list Stmt :=
  match inputs with
  | [] => []
  | Fn_typed pt :: inputs =>
      match pt_ident pt with
      | Some ident => parse_stmt ident (pt_ty pt) (has_flag_attr (attrs pt)) :: parse_stmts inputs
      | None => parse_stmts inputs
      end
  | Fn_receiver :: inputs => parse_stmts inputs
  end.
(** [stmts.insert(0, stmt)], the parsing statements from the last to the first. *)
Definition expand (inputs : list FnArg) (stmts : list Stmt) : list Stmt :=
  let stmts := foldl (λ stmts stmt, stmt :: stmts) stmts (reverse (parse_stmts inputs)) in
  let stmts := S_iter :: stmts in
  S_args :: stmts.

(** What the statements do: the variables they bind, up to the function's own
    statements; [Err] when one returns after "Missing or invalid argument". A
    variable that is not bound yet does not compile ([Panic]). *)
Record Locals := { l_args : option (list rstring); l_iter : option (list rstring); l_vars : list (rstring * Value) }.
Definition bind_var (ident : rstring) (v : Value) (iter : option (list rstring)) (l : Locals) : Locals :=
  {| l_args := l_args l; l_iter := iter; l_vars := l_vars l ++ [(ident, v)] |}.
Fixpoint exec_stmts (args : list rstring) (stmts : list Stmt) (l : Locals) : outcome rstring (list (rstring * Value)) :=
  match stmts with
  | [] | S_body _ :: _ => Ok (l_vars l)
  | S_args :: stmts => exec_stmts args stmts {| l_args := Some args; l_iter := l_iter l; l_vars := l_vars l |}
  | S_iter :: stmts => exec_stmts args stmts {| l_args := l_args l; l_iter := Some (args_iter args); l_vars := l_vars l |}
  | S_flag ident flag_str :: stmts =>
      match l_args l with
      | Some a => exec_stmts args stmts (bind_var ident (V_bool (existsb (λ a, bool_decide (a = flag_str)) a)) (l_iter l) l)
      | None => Panic
      end
  | S_option ident ty :: stmts =>
      match l_iter l with
      | Some iter => exec_stmts args stmts (bind_var ident (V_option (head iter ≫= parse_arg ty)) (Some (tail iter)) l)
      | None => Panic
      end
  | S_required ident ty name_str :: stmts =>
      match l_iter l with
      | Some iter =>
          match head iter ≫= parse_arg ty with
          | Some v => exec_stmts args stmts (bind_var ident (V_arg v) (Some (tail iter)) l)
          | None => Err name_str
          end
      | None => Panic
      end
  end.

(** The parameters of a signature, for [parse_params]. *)
Definition classify_param (arg : FnArg) : option (rstring * Param) :=
  match arg with
  | Fn_typed {| attrs := a; pt_ident := Some ident; pt_ty := ty |} =>
      Some (ident, if has_flag_attr a then P_flag ident
                   else if is_option ty then P_option (ty_parsed ty) else P_required ident (ty_parsed ty))
  | _ => None
  end.

Section commands.
Context {heapless : Heapless}.

(** The current path, the command table, and all that has been printed. The
    table is filled from the entries the linker collects in the section
    [.commands]; an entry is its index there. *)
Record World := { CURRENT_PATH : option rstring; COMMANDS : gmap rstring nat; printed : rstring }.

Definition print {E} (s : rstring) : st World E () :=
  modify (λ w, {| CURRENT_PATH := CURRENT_PATH w; COMMANDS := COMMANDS w; printed := printed w ++ s |}).
Definition println {E} (s : rstring) : st World E () := print (s ++ [10]).

Record CommandEntry := { ce_name : rstring; ce_short : rstring; ce_long : rstring; ce_func : list rstring → st World Empty_set () }.

(** [await_sleep] waits ([Sleep] in [Async]); [to_uppercase] is that of [str]. *)
Context (await_sleep : Z → World → World) (to_uppercase : rstring → rstring).

(** [CURRENT_PATH.get().expect(..)] *)
Definition get_current_path {E} : st World E rstring := w ← get_st; lift (unwrap (CURRENT_PATH w)).
Definition set_current_path {E} (path : rstring) : st World E () :=
  _ ← get_current_path;
  modify (λ w, {| CURRENT_PATH := Some path; COMMANDS := COMMANDS w; printed := printed w |}).
Definition get_prompt {E} : st World E rstring := p ← get_current_path; mret (p ++ lit "> ").

Definition open_current_dir : outcome rstring () := Err (lit "open_current_dir failed").
Definition list_current_dir : outcome rstring (list rstring) := Err (lit "list_current_dir failed").
Definition change_dir (path : rstring) : outcome rstring () := Err (lit "change_dir failed").

(** What [command] makes of a function: parse, or say what is missing. *)
Definition command (ps : list Param) (body : list Value → st World Empty_set ()) (args : list rstring) : st World Empty_set () :=
  match parse_params args ps (args_iter args) with
  | Ok vs => body vs
  | Err name => println (lit "Missing or invalid argument: " ++ name)
  | _ => mret ()
  end.

Definition cd : CommandEntry := {|
  ce_name := lit "cd"; ce_short := lit "Change directory";
  ce_long := lit "Change current working directory. Usage: cd <path>";
  ce_func := command [P_required (lit "path") T_String] (λ vs,
    match vs with
    | [V_arg (A_string path)] => match change_dir path with Err e => println (lit "cd: " ++ e) | _ => mret () end
    | _ => mret ()
    end) |}.
Definition cmd_echo : CommandEntry := {|
  ce_name := lit "echo"; ce_short := lit "Print text"; ce_long := lit "Prints the given text to the screen";
  ce_func := command [P_required (lit "text") T_String; P_flag (lit "upper")] (λ vs,
    match vs with
    | [V_arg (A_string text); V_bool upper] => println (if upper then to_uppercase text else text)
    | _ => mret ()
    end) |}.
Definition cmd_help : CommandEntry := {|
  ce_name := lit "help"; ce_short := lit "List commands"; ce_long := lit "Lists all available shell commands";
  ce_func := command [] (λ _,
    w ← get_st; for_ (bt_keys str_le (COMMANDS w)) (λ name, println (lit "  " ++ name))) |}.
Definition ls : CommandEntry := {|
  ce_name := lit "ls"; ce_short := lit "List directory contents"; ce_long := lit "List files and directories. Usage: ls [path]";
  ce_func := command [P_option T_String] (λ _, mret ()) |}.
Definition mkdir : CommandEntry := {|
  ce_name := lit "mkdir"; ce_short := lit "Create directory"; ce_long := lit "Create a new directory. Usage: mkdir <dirname>";
  ce_func := command [P_required (lit "_dirname") T_String] (λ _, mret ()) |}.
Definition pwd : CommandEntry := {|
  ce_name := lit "pwd"; ce_short := lit "Print working directory"; ce_long := lit "Print current directory path";
  ce_func := command [] (λ _, p ← get_current_path; println p) |}.
Definition cmd_sleep : CommandEntry := {|
  ce_name := lit "sleep"; ce_short := lit "Sleep for N ticks"; ce_long := lit "Pauses the shell for the given number of ticks";
  ce_func := command [P_option T_usize] (λ vs,
    match vs with [V_option (Some (A_usize t))] => modify (await_sleep t) | _ => mret () end) |}.
Definition touch : CommandEntry := {|
  ce_name := lit "touch"; ce_short := lit "Create empty file"; ce_long := lit "Create a new empty file. Usage: touch <filename>";
  ce_func := command [P_required (lit "_filename") T_String] (λ _, mret ()) |}.

(** ** The command table *)

Context (section : list CommandEntry).

Definition init_commands {E} : st World E () :=
  for_ (zip (seq 0 (length section)) section) (λ '(i, entry),
    modify (λ w, {| CURRENT_PATH := CURRENT_PATH w; COMMANDS := <[ce_name entry := i]> (COMMANDS w); printed := printed w |})).

Definition lookup_command (w : World) (name : rstring) : option CommandEntry := COMMANDS w !! name ≫= (section !!.).

Definition execute_pipeline (cmds : list Command) : st World Empty_set () :=
  for_ cmds (λ cmd,
    w ← get_st;
    match lookup_command w (cmd_name cmd) with
    | Some entry => ce_func entry (cmd_args cmd)
    | None => println (lit "Unknown command: " ++ cmd_name cmd)
    end).

(** ** The line editor *)

(** Keys as the decoder hands them out. *)
Inductive DecodedKey := K_unicode (c : Z) | K_backspace | K_up | K_down | K_other.

Record ShellTask := { line : rstring; history : History; prefix : rstring }.
Local Abbreviation state := (ShellTask * World)%type.

Definition set_line {E} (l : rstring) : st state E () :=
  modify (λ s, ({| line := l; history := history s.1; prefix := prefix s.1 |}, s.2)).
Definition set_history {E} (h : History) : st state E () :=
  modify (λ s, ({| line := line s.1; history := h; prefix := prefix s.1 |}, s.2)).

(** [str::replace]; the pattern is not empty. *)
Fixpoint replace_loop (fuel : nat) (s pat to : rstring) : rstring :=
  match fuel, s with
  | S fuel, c :: s' =>
      if starts_with s pat then to ++ replace_loop fuel (drop (length pat) s) pat to else c :: replace_loop fuel s' pat to
  | _, _ => []
  end.
Definition replace (s pat to : rstring) : rstring := replace_loop (length s) s pat to.

Definition erase : rstring := [8; 32; 8].
Definition clear_line {E} (l : rstring) : st World E () :=
  for_ (seq 0 (Z.to_nat (str_len l))) (λ _, print erase).

(** [line.clear(); line.push_str(text).ok(); print!("{}", line)] *)
Definition recall {E} (text : rstring) : st state E () :=
  s ← get_st;
  on_snd (clear_line (line s.1));;
  let l := default [] (hs_push_str 128 [] text) in
  set_line l;; on_snd (print l).

Definition on_key (key : DecodedKey) : st state Empty_set () :=
  s ← get_st;
  match key with
  | K_unicode c =>
      if c =? 10 then
        let token_line := replace (line s.1) (prefix s.1) [10] in
        on_snd (print [10]);;
        set_history (hist_push (history s.1) (line s.1));;
        tokens ← lift (tokenize token_line);
        on_snd (execute_pipeline (parse_pipeline tokens));;
        set_line [];;
        prompt ← on_snd get_prompt;
        on_snd (print prompt)
      else
        match hs_push 128 (line s.1) c with
        | Some l => set_line l;; on_snd (print [c])
        | None => mret ()
        end
  | K_backspace =>
      match line s.1 with
      | [] => mret ()
      | l => set_line (take (length l - 1) l);; on_snd (print erase)
      end
  | K_up =>
      '(h, prev) ← lift (hist_up (history s.1));
      set_history h;;
      match prev with Some prev => recall prev | None => mret () end
  | K_down =>
      '(h, next) ← lift (hist_down (history s.1));
      set_history h;;
      match next with Some next => recall next | None => mret () end
  | K_other => mret ()
  end.

(** Up to the loop. *)
Definition shell_start : st World Empty_set ShellTask :=
  init_commands;;
  modify (λ w, {| CURRENT_PATH := Some (default (lit "/") (CURRENT_PATH w)); COMMANDS := COMMANDS w; printed := printed w |});;
  prefix ← get_prompt;
  print prefix;;
  mret {| line := []; history := History_new; prefix := prefix |}.

(** The decoder of [pc_keyboard]: [add_byte] and [process_keyevent]. *)
Class Decoder (K : Type) := decode : Z → K → K * option DecodedKey.

Definition on_scancode {K} {decoder : Decoder K} (scancode : Z) : st (K * state) Empty_set () :=
  s ← get_st;
  let '(k, key) := decode scancode s.1 in
  modify (λ s, (k, s.2));;
  match key with Some key => on_snd (on_key key) | None => mret () end.
End commands.
