(* ===== verification/ShellFacts.v ===== *)
(** * What the shell understands

    The tokenizer against a grammar of command lines, the pipeline parser, and
    the history. *)

From S2P Require Import Prelude Bytes Text Devices Shell.

(** ** The grammar of command lines

    [typed ts s]: the line [s] spells the tokens [ts]. A bare word ends at a
    blank, a bar or the end; a quoted one may hold anything but a quote, and is
    closed by the end of the line at the latest. *)
Definition ends_word (s : rstring) : Prop := match s with [] => True | c :: _ => in_word c = false end.
Definition starts_word (s : rstring) : Prop := match s with [] => False | c :: _ => in_word c = true ∧ c ≠ 34 end.

Inductive typed : list Token → rstring → Prop :=
| typed_nil : typed [] []
| typed_blank ts s : typed ts s → typed ts (32 :: s)
| typed_pipe ts s : typed ts s → typed (Pipe :: ts) (124 :: s)
| typed_quoted ts w s : Forall (λ c, in_quotes c) w → typed ts s → typed (Word w :: ts) (34 :: w ++ 34 :: s)
| typed_open w : Forall (λ c, in_quotes c) w → typed [Word w] (34 :: w)
| typed_bare ts w s :
    starts_word w → Forall (λ c, in_word c) w → ends_word s → typed ts s → typed (Word w :: ts) (w ++ s).

Section tokens.
Context {heapless : Heapless} {spec : HeaplessSpec}.

Lemma push_ok_take {A} n (l : list A) x : push_ok (Z.of_nat n) (take n l) x = take n (l ++ [x]).
Proof.
  unfold push_ok. rewrite hv_push_spec, length_take. destruct (Z.ltb_spec (Z.of_nat (n `min` length l)) (Z.of_nat n)); cbn.
  - rewrite !take_ge; [done|rewrite ?length_app; cbn; lia..].
  - by rewrite take_app_le by lia.
Qed.

Lemma push_ok_room {A} n (l : list A) x : len l < n → push_ok n l x = l ++ [x].
Proof. intros H. unfold push_ok. rewrite hv_push_spec. by rewrite (proj2 (Z.ltb_lt _ _)). Qed.

Lemma take_while_app (p : Z → bool) w s :
  Forall (λ c, p c) w → match s with [] => True | c :: _ => p c = false end → take_while p (w ++ s) = (w, s).
Proof.
  intros Hw Hs. induction Hw as [|c w Hc _ IH]; cbn [app take_while].
  - destruct s as [|c s]; [done|]. cbn. by rewrite Hs.
  - apply Is_true_true in Hc. by rewrite Hc, IH.
Qed.

Lemma take_while_split (p : Z → bool) s w r : take_while p s = (w, r) →
  s = w ++ r ∧ Forall (λ c, p c) w ∧ match r with [] => True | c :: _ => p c = false end.
Proof.
  revert w r. induction s as [|c s IH]; intros w r; cbn [take_while]; [by intros [= <- <-]|].
  destruct (p c) eqn:Hp; [|by intros [= <- <-]]. destruct (take_while p s) as [w' r'].
  intros [= <- <-]. destruct (IH w' r' eq_refl) as (->&Hw&Hr). split; [done|]. split; [|done].
  constructor; [by apply Is_true_true|done].
Qed.

Lemma in_word_34 : in_word 34 = true.
Proof. done. Qed.

Lemma tokenize_loop_typed ts s fuel acc :
  typed ts s → (length s < fuel)%nat → tokenize_loop fuel s (take 64 acc) = Ok (take 64 (acc ++ ts)).
Proof.
  intros Ht. revert fuel acc. induction Ht as [|ts s _ IH|ts s _ IH|ts w s Hw _ IH|w Hw|ts w s Hs Hw He _ IH];
    intros [|fuel] acc Hf; try (cbn [length] in Hf; lia); cbn [tokenize_loop].
  - by rewrite app_nil_r.
  - apply IH. cbn in Hf. lia.
  - change 64 with (Z.of_nat 64). cbn [Z.eqb Pos.eqb]. rewrite push_ok_take, IH by (cbn in Hf; lia).
    by rewrite <- app_assoc.
  - cbn [Z.eqb Pos.eqb]. rewrite take_while_app by done. cbn [drop]. change 64 with (Z.of_nat 64). rewrite push_ok_take, IH.
    + by rewrite <- app_assoc.
    + cbn in Hf. rewrite length_app in Hf. cbn in Hf. lia.
  - cbn [Z.eqb Pos.eqb]. rewrite <- (app_nil_r w) at 1. rewrite take_while_app by done. cbn [drop].
    change 64 with (Z.of_nat 64). rewrite push_ok_take. destruct fuel; [cbn in Hf; lia|]. cbn [tokenize_loop].
    done.
  - destruct w as [|c w]; [done|]. destruct Hs as [Hc Hq]. cbn [app].
    unfold in_word in Hc. apply negb_true_iff, orb_false_iff in Hc as [H1 H2]. rewrite H1, H2, (proj2 (Z.eqb_neq c 34)) by done.
    change (c :: w ++ s) with ((c :: w) ++ s). rewrite take_while_app by done.
    change 64 with (Z.of_nat 64). rewrite push_ok_take, IH.
    + by rewrite <- app_assoc.
    + cbn in Hf. rewrite length_app in Hf. lia.
Qed.

Lemma tokenize_typed ts s : typed ts s → tokenize s = Ok (take 64 ts).
Proof. intros Ht. unfold tokenize. change [] with (take 64 (@nil Token)). by rewrite (tokenize_loop_typed ts) by (done || lia). Qed.

(** Every line spells something. *)
Lemma typed_total s : ∃ ts, typed ts s.
Proof.
  remember (length s) as n eqn:Hn. revert s Hn. induction n as [n IH] using lt_wf_ind. intros s ->.
  destruct s as [|c s]; [by exists []; constructor|].
  destruct (decide (c = 32)) as [->|H1].
  { destruct (IH (length s) ltac:(cbn; lia) s eq_refl) as [ts Ht]. exists ts. by constructor. }
  destruct (decide (c = 124)) as [->|H2].
  { destruct (IH (length s) ltac:(cbn; lia) s eq_refl) as [ts Ht]. exists (Pipe :: ts). by constructor. }
  destruct (decide (c = 34)) as [->|H3].
  - destruct (take_while in_quotes s) as [w r] eqn:E. apply take_while_split in E as (->&Hw&Hr).
    destruct r as [|c r]; [exists [Word w]; rewrite app_nil_r; by constructor|].
    apply negb_false_iff, Z.eqb_eq in Hr as ->.
    destruct (IH (length r) ltac:(cbn; rewrite length_app; cbn; lia) r eq_refl) as [ts Ht].
    exists (Word w :: ts). by constructor.
  - destruct (take_while in_word (c :: s)) as [w r] eqn:E. pose proof E as E'.
    assert (Hc : in_word c = true) by (unfold in_word; by rewrite (proj2 (Z.eqb_neq _ _) H1), (proj2 (Z.eqb_neq _ _) H2)).
    cbn [take_while] in E'. rewrite Hc in E'. destruct (take_while in_word s) as [w' r']. injection E' as <- <-.
    apply take_while_split in E as (Heq&Hw&Hr). rewrite Heq.
    destruct (IH (length r') ltac:(cbn in Heq |- *; injection Heq as ->; rewrite length_app; lia) r' eq_refl) as [ts Ht].
    exists (Word (c :: w') :: ts). by constructor.
Qed.

(** ** Pipelines *)

Definition command_tokens (c : Command) : list Token := Word (cmd_name c) :: (Word <$> cmd_args c).
Fixpoint pipeline_tokens (cmds : list Command) : list Token :=
  match cmds with
  | [] => []
  | [c] => command_tokens c
  | c :: cmds => command_tokens c ++ Pipe :: pipeline_tokens cmds
  end.
Definition command_fits (c : Command) : Prop := cmd_name c ≠ [] ∧ (length (cmd_args c) ≤ 16)%nat.

Lemma parse_args ws cmds c : cmd_name c ≠ [] → (length (cmd_args c) + length ws ≤ 16)%nat →
  foldl parse_token (cmds, c) (Word <$> ws) = (cmds, {| cmd_name := cmd_name c; cmd_args := cmd_args c ++ ws |}).
Proof.
  revert c. induction ws as [|w ws IH]; intros c Hn Hl; cbn [fmap list_fmap foldl].
  - rewrite app_nil_r. by destruct c.
  - cbn [parse_token]. replace (is_empty (cmd_name c)) with false by (by destruct (cmd_name c)).
    cbn [length] in Hl. rewrite push_ok_room by lia.
    rewrite IH; cbn [cmd_name cmd_args]; [by rewrite <- app_assoc|done|]. rewrite length_app. cbn. lia.
Qed.

Lemma parse_command c cmds : command_fits c →
  foldl parse_token (cmds, Command_empty) (command_tokens c) = (cmds, c).
Proof.
  intros [Hn Hl]. unfold command_tokens. cbn [foldl parse_token Command_empty cmd_name cmd_args is_empty].
  rewrite parse_args by done. by destruct c.
Qed.

Lemma parse_pipeline_tokens c cmds acc : Forall command_fits (c :: cmds) → (length acc + length (c :: cmds) ≤ 8)%nat →
  let '(a, cur) := foldl parse_token (acc, Command_empty) (pipeline_tokens (c :: cmds)) in
  cmd_name cur ≠ [] ∧ push_ok 8 a cur = acc ++ c :: cmds.
Proof.
  revert c acc. induction cmds as [|d cmds IH]; intros c acc [Hc Hf]%Forall_cons Hl.
  - cbn [pipeline_tokens]. rewrite parse_command by done. split; [by apply Hc|]. apply push_ok_room. cbn in Hl. lia.
  - change (pipeline_tokens (c :: d :: cmds)) with (command_tokens c ++ Pipe :: pipeline_tokens (d :: cmds)).
    rewrite foldl_app, parse_command by done. cbn [foldl parse_token].
    rewrite push_ok_room by (cbn in Hl; lia).
    specialize (IH d (acc ++ [c]) Hf). rewrite <- app_assoc in IH. apply IH. rewrite length_app. cbn in Hl |- *. lia.
Qed.

Lemma pipeline_parsed cmds : Forall command_fits cmds → (length cmds ≤ 8)%nat →
  parse_pipeline (pipeline_tokens cmds) = cmds.
Proof.
  intros Hf Hl. unfold parse_pipeline. destruct cmds as [|c cmds]; [done|].
  pose proof (parse_pipeline_tokens c cmds [] Hf Hl) as H. destruct (foldl _ _ _) as [a cur]. destruct H as [Hn Hp].
  replace (nonempty (cmd_name cur)) with true by (by destruct (cmd_name cur)). exact Hp.
Qed.

(** C36: What the user types is what the shell runs: every line spells a
    list of tokens under the grammar of bare, quoted and unclosed words,
    blanks and bars, [tokenize] ends and returns its first 64, and when the
    line spells a pipeline of at most eight commands with names and at most
    16 arguments each, [parse_pipeline] returns those commands. *)
Theorem command_line_roundtrip s :
  (∃ ts, typed ts s) ∧
  (∀ ts, typed ts s → tokenize s = Ok (take 64 ts)) ∧
  ∀ cmds ts, typed ts s → ts = pipeline_tokens cmds → Forall command_fits cmds → (length cmds ≤ 8)%nat →
    (length ts ≤ 64)%nat → parse_pipeline <$> tokenize s = Ok cmds.
Proof.
  split; [apply typed_total|]. split; [intros ts; apply tokenize_typed|].
  intros cmds ts Ht -> Hf Hl H64. rewrite (tokenize_typed _ _ Ht). cbn. rewrite take_ge by done. by rewrite pipeline_parsed.
Qed.
End tokens.
