(* ===== verification/ShellTaskFacts.v ===== *)
(** * The line editor

    The history as a walk over the lines pushed, and what the screen shows
    while a line is being edited. Last, the statements the command attribute
    writes do what [parse_params] does. *)

From S2P Require Import Prelude Bytes Text Devices Shell ShellFacts ShellTask.

Section history.
Context {heapless : Heapless} {spec : HeaplessSpec}.

Definition short (l : rstring) : Prop := str_len l ≤ 128.
Definition hist_at (ls : list rstring) (i : Z) : History := {| entries := ls; index := i |}.

(** The histories of a session: the first 32 lines pushed, and an index from 0
    to their number. *)
Inductive Op := Push (l : rstring) | Up | Down.
Definition hist_op (h : History) (o : Op) : outcome Empty_set (History * option rstring) :=
  match o with Push l => Ok (hist_push h l, None) | Up => hist_up h | Down => hist_down h end.
Fixpoint hist_run (h : History) (os : list Op) : outcome Empty_set History :=
  match os with [] => Ok h | o :: os => '(h, _) ← hist_op h o; hist_run h os end.
Definition pushed (os : list Op) : list rstring :=
  base.filter short (omap (λ o, match o with Push l => Some l | _ => None end) os).

Lemma hist_push_at ls i l : short l →
  hist_push (hist_at ls i) l = if decide (length ls < 32)%nat then hist_at (ls ++ [l]) (len (ls ++ [l])) else hist_at ls i.
Proof.
  intros Hl. unfold hist_push. rewrite hs_push_str_spec. cbn [str_len foldr]. rewrite (proj2 (Z.leb_le _ _)) by exact Hl.
  cbn [app]. rewrite hv_push_spec. cbn [entries hist_at]. destruct (Z.ltb_spec (len ls) 32), (decide (length ls < 32)%nat); done || lia.
Qed.
Lemma hist_push_long ls i l : ¬ short l → hist_push (hist_at ls i) l = hist_at ls i.
Proof.
  intros Hl. unfold hist_push. rewrite hs_push_str_spec. cbn [str_len foldr].
  by rewrite (proj2 (Z.leb_gt _ _)) by (unfold short in Hl; cbn in Hl |- *; lia).
Qed.

Lemma hist_up_at ls i : 0 ≤ i ≤ len ls →
  hist_up (hist_at ls i) = Ok (if decide (0 < i) then (hist_at ls (i - 1), ls !! Z.to_nat (i - 1)) else (hist_at ls i, None)).
Proof.
  intros Hi. unfold hist_up. cbn [index entries hist_at]. destruct (Z.ltb_spec 0 i), (decide (0 < i)); try lia; [|done].
  destruct (lookup_lt_is_Some_2 ls (Z.to_nat (i - 1))) as [x Hx]; [lia|]. by rewrite Hx.
Qed.
Lemma hist_down_at ls i : 0 ≤ i ≤ len ls →
  hist_down (hist_at ls i) =
    Ok (if decide (i + 1 < len ls) then (hist_at ls (i + 1), ls !! Z.to_nat (i + 1)) else (hist_at ls i, None)).
Proof.
  intros Hi. unfold hist_down. cbn [index entries hist_at]. destruct (Z.ltb_spec (i + 1) (len ls)), (decide (i + 1 < len ls)); try lia; [|done].
  destruct (lookup_lt_is_Some_2 ls (Z.to_nat (i + 1))) as [x Hx]; [lia|]. by rewrite Hx.
Qed.

Lemma hist_run_at os ls i : 0 ≤ i ≤ len ls → (length ls ≤ 32)%nat →
  ∃ j, hist_run (hist_at ls i) os = Ok (hist_at (take 32 (ls ++ pushed os)) j) ∧ 0 ≤ j ≤ len (take 32 (ls ++ pushed os)).
Proof.
  revert ls i. induction os as [|o os IH]; intros ls i Hi Hn; cbn [hist_run].
  - exists i. unfold pushed. cbn. by rewrite app_nil_r, take_ge.
  - destruct o as [l| |]; cbn [hist_op].
    + rewrite bind_Ok. unfold pushed. cbn [omap list_omap]. rewrite filter_cons. fold (pushed os). case_decide as Hl.
      * rewrite (hist_push_at _ _ _ Hl). case_decide as H32.
        -- destruct (IH (ls ++ [l]) (len (ls ++ [l]))) as (j&Hj); [lia|rewrite length_app; cbn; lia|].
           exists j. by rewrite <- app_assoc in Hj.
        -- destruct (IH ls i Hi Hn) as (j&Hj). exists j.
           replace (take 32 (ls ++ l :: pushed os)) with (take 32 (ls ++ pushed os)); [done|]. by rewrite !take_app_le by lia.
      * rewrite hist_push_long by done. by apply IH.
    + rewrite hist_up_at, bind_Ok by done. change (pushed (Up :: os)) with (pushed os).
      case_decide; apply IH; try done; lia.
    + rewrite hist_down_at, bind_Ok by done. change (pushed (Down :: os)) with (pushed os).
      case_decide; apply IH; try done; lia.
Qed.

(** The history is a walk over the first 32 lines pushed that fit: no
    sequence of calls panics, arrow-up steps back through those lines one by
    one and stops at the first, arrow-down steps forward and stops at the last,
    and once 32 lines are stored, further ones are not recorded and leave the
    walk where it is. *)
Theorem history_walk os : ∃ i, let ls := take 32 (pushed os) in
  hist_run History_new os = Ok (hist_at ls i) ∧ 0 ≤ i ≤ len ls ∧
  hist_up (hist_at ls i) = Ok (if decide (0 < i) then (hist_at ls (i - 1), ls !! Z.to_nat (i - 1)) else (hist_at ls i, None)) ∧
  hist_down (hist_at ls i) =
    Ok (if decide (i + 1 < len ls) then (hist_at ls (i + 1), ls !! Z.to_nat (i + 1)) else (hist_at ls i, None)) ∧
  ∀ l, short l →
    hist_push (hist_at ls i) l = if decide (length ls < 32)%nat then hist_at (ls ++ [l]) (len ls + 1) else hist_at ls i.
Proof.
  destruct (hist_run_at os [] 0) as (i&Hrun&Hi); [cbn; lia|cbn; lia|]. exists i. cbn [app] in *.
  split; [exact Hrun|]. split; [done|]. split; [by apply hist_up_at|]. split; [by apply hist_down_at|].
  intros l Hl. rewrite hist_push_at by done. case_decide; [|done]. f_equal. rewrite length_app. cbn. lia.
Qed.
End history.

(** ** The screen

    The last line on the screen after some output: a line feed starts a new
    one, a backspace takes the last character away. *)
Definition show_char (acc : rstring) (c : Z) : rstring :=
  if c =? 10 then [] else if c =? 8 then take (length acc - 1) acc else acc ++ [c].
Definition shown (out : rstring) : rstring := foldl show_char [] out.

Definition printable (c : Z) : Prop := 32 ≤ c < 127.

Lemma show_printables acc s : Forall printable s → foldl show_char acc s = acc ++ s.
Proof.
  intros Hs. revert acc. induction Hs as [|c s Hc _ IH]; intros acc; cbn [foldl]; [by rewrite app_nil_r|].
  unfold show_char at 2. unfold printable in Hc. rewrite (proj2 (Z.eqb_neq c 10)), (proj2 (Z.eqb_neq c 8)), IH by lia.
  by rewrite <- app_assoc.
Qed.
Lemma show_erase acc : foldl show_char acc erase = take (length acc - 1) acc.
Proof.
  cbn. rewrite length_app, length_take. cbn. rewrite take_app_le by (rewrite length_take; lia).
  rewrite take_ge; [done|]. rewrite length_take. lia.
Qed.
Lemma show_erases n acc : foldl show_char acc (concat (replicate n erase)) = take (length acc - n) acc.
Proof.
  revert acc. induction n as [|n IH]; intros acc; cbn [replicate concat].
  - by rewrite Nat.sub_0_r, firstn_all.
  - rewrite foldl_app, show_erase, IH, take_take, length_take. f_equal. lia.
Qed.
Lemma shown_app a b : shown (a ++ b) = foldl show_char (shown a) b.
Proof. apply foldl_app. Qed.

Lemma str_len_printable s : Forall printable s → str_len s = len s.
Proof.
  induction 1 as [|c s Hc _ IH]; [done|]. cbn [str_len foldr length]. unfold str_len in IH. rewrite IH.
  unfold printable in Hc. unfold utf8_len. rewrite (proj2 (Z.ltb_lt _ _)) by lia. lia.
Qed.

Section editor.
Context {heapless : Heapless} {spec : HeaplessSpec}.
Context (section : list CommandEntry).
Local Abbreviation state := (ShellTask * World)%type.
Local Abbreviation on_key := (on_key section).

Definition printed_more (w : World) (s : rstring) : World :=
  {| CURRENT_PATH := CURRENT_PATH w; COMMANDS := COMMANDS w; printed := printed w ++ s |}.

Lemma print_run {E} s w : print (E:=E) s w = (printed_more w s, Ok ()).
Proof. done. Qed.

Lemma clear_line_run {E} l w :
  clear_line (E:=E) l w = (printed_more w (concat (replicate (Z.to_nat (str_len l)) erase)), Ok ()).
Proof.
  unfold clear_line. generalize (Z.to_nat (str_len l)) as n. intros n.
  enough (∀ a, for_ (E:=E) (seq a n) (λ _, print erase) w = (printed_more w (concat (replicate n erase)), Ok ())) by done.
  revert w. induction n as [|n IH]; intros w a; cbn [seq for_ replicate concat].
  - unfold printed_more. rewrite app_nil_r. by destruct w.
  - rewrite (st_bind_Ok _ _ _ _ _ (print_run _ _)), IH. unfold printed_more. cbn. by rewrite <- app_assoc.
Qed.

(** What the editor maintains: the screen line is [base], where the prompt
    ended, and the line being edited. *)
Definition editing (base : rstring) (s : state) : Prop :=
  let '(sh, w) := s in
  shown (printed w) = base ++ line sh ∧ Forall printable (line sh) ∧ str_len (line sh) ≤ 128 ∧
  Forall (λ e, Forall printable e ∧ short e) (entries (history sh)) ∧ 0 ≤ index (history sh) ≤ len (entries (history sh)).

(** Only the line, the walk through the history and the screen change. *)
Definition same_session (s s' : state) : Prop :=
  entries (history s'.1) = entries (history s.1) ∧ prefix s'.1 = prefix s.1 ∧
  CURRENT_PATH s'.2 = CURRENT_PATH s.2 ∧ COMMANDS s'.2 = COMMANDS s.2.
#[export] Instance same_session_preorder : PreOrder same_session.
Proof. split; [by intros s|]. intros s1 s2 s3 (?&?&?&?) (?&?&?&?). unfold same_session. by split_and!; etransitivity. Qed.

(** Keys that edit the line. *)
Definition edits (k : DecodedKey) : Prop := match k with K_unicode c => printable c | _ => True end.

Lemma recall_edits base sh w text h :
  editing base (sh, w) → Forall printable text → short text →
  entries h = entries (history sh) → 0 ≤ index h ≤ len (entries h) →
  ∃ sh' w', recall (E:=Empty_set) text ({| line := line sh; history := h; prefix := prefix sh |}, w) = ((sh', w'), Ok ()) ∧
    editing base (sh', w') ∧ same_session (sh, w) (sh', w') ∧ line sh' = text ∧ history sh' = h.
Proof.
  intros (Hs&Hp&Hl&Hh&_) Ht Hst He Hi. unfold recall. rewrite bind_get_st. cbn [fst line].
  rewrite (st_bind_Ok _ _ _ _ _ (on_snd_run _ _ _ _ _ (clear_line_run _ _))). cbv zeta. unfold set_line. rewrite bind_modify.
  unfold on_snd, print, modify. cbn [fst snd prefix history]. eexists _, _. split; [reflexivity|].
  rewrite hs_push_str_spec. cbn [str_len foldr]. rewrite (proj2 (Z.leb_le _ _)) by exact Hst. cbn [app default].
  split; [|split; [split_and!; cbn; congruence|done]]. cbn [editing printed_more printed line history].
  split; [|split; [exact Ht|split; [exact Hst|split; [by rewrite He|exact Hi]]]].
  rewrite !shown_app, Hs, show_erases, show_printables by done. f_equal. rewrite str_len_printable by done.
  rewrite length_app. replace (length base + length (line sh) - Z.to_nat (len (line sh)))%nat with (length base + 0)%nat by lia.
  by rewrite take_app_add, app_nil_r.
Qed.

Lemma key_edits base k sh w : edits k → editing base (sh, w) →
  ∃ sh' w', on_key k (sh, w) = ((sh', w'), Ok ()) ∧ editing base (sh', w') ∧ same_session (sh, w) (sh', w').
Proof.
  intros Hk He. pose proof He as (Hs&Hp&Hl&Hh&Hi). unfold ShellTask.on_key. rewrite bind_get_st. cbn [fst].
  destruct k as [c| | | |].
  - cbn in Hk. rewrite (proj2 (Z.eqb_neq c 10)) by (unfold printable in Hk; lia).
    rewrite hs_push_spec. destruct (Z.leb_spec (str_len (line sh) + utf8_len c) 128) as [Hle|]; [|by exists sh, w].
    unfold set_line. rewrite bind_modify. unfold on_snd, print, modify. cbn [fst snd]. eexists _, _. split; [reflexivity|].
    split; [|by split_and!]. cbn [editing printed line history].
    split; [|split; [|split; [|split; [exact Hh|exact Hi]]]].
    + rewrite shown_app, Hs, show_printables by (by constructor). by rewrite <- app_assoc.
    + apply Forall_app. split; [done|]. by constructor.
    + rewrite str_len_app. cbn. lia.
  - destruct (line sh) as [|c l] eqn:Hline; [by exists sh, w|]. unfold set_line. rewrite bind_modify.
    unfold on_snd, print, modify. cbn [fst snd]. eexists _, _. split; [reflexivity|].
    assert (Hpt : Forall printable (take (length (c :: l) - 1) (c :: l))) by (by apply Forall_take).
    split; [|by split_and!]. cbn [editing printed line history].
    split; [|split; [exact Hpt|split; [|split; [exact Hh|exact Hi]]]].
    + rewrite shown_app, Hs, show_erase, length_app. cbn [length].
      replace (length base + S (length l) - 1)%nat with (length base + length l)%nat by lia. rewrite take_app_add.
      do 2 f_equal. lia.
    + rewrite str_len_printable in * by done. rewrite length_take. cbn [length] in *. lia.
  - destruct (history sh) as [ls i] eqn:Hhist. cbn [entries index] in Hh, Hi. change {| entries := ls; index := i |} with (hist_at ls i).
    rewrite hist_up_at, bind_lift_Ok by done. unfold set_history. case_decide; rewrite bind_modify; cbn [fst snd].
    + destruct (lookup_lt_is_Some_2 ls (Z.to_nat (i - 1))) as [t Ht]; [lia|]. rewrite Ht.
      destruct (Forall_lookup_1 _ _ _ _ Hh Ht) as [Ht1 Ht2].
      destruct (recall_edits base sh w t (hist_at ls (i - 1)) He Ht1 Ht2) as (sh'&w'&Hr&He'&Hsame&_);
        [by rewrite Hhist|cbn; lia|]. by exists sh', w'.
    + eexists _, _. split; [reflexivity|]. split; [|by split_and!; cbn; rewrite ?Hhist].
      exact (conj Hs (conj Hp (conj Hl (conj Hh Hi)))).
  - destruct (history sh) as [ls i] eqn:Hhist. cbn [entries index] in Hh, Hi. change {| entries := ls; index := i |} with (hist_at ls i).
    rewrite hist_down_at, bind_lift_Ok by done. unfold set_history. case_decide; rewrite bind_modify; cbn [fst snd].
    + destruct (lookup_lt_is_Some_2 ls (Z.to_nat (i + 1))) as [t Ht]; [lia|]. rewrite Ht.
      destruct (Forall_lookup_1 _ _ _ _ Hh Ht) as [Ht1 Ht2].
      destruct (recall_edits base sh w t (hist_at ls (i + 1)) He Ht1 Ht2) as (sh'&w'&Hr&He'&Hsame&_);
        [by rewrite Hhist|cbn; lia|]. by exists sh', w'.
    + eexists _, _. split; [reflexivity|]. split; [|by split_and!; cbn; rewrite ?Hhist].
      exact (conj Hs (conj Hp (conj Hl (conj Hh Hi)))).
  - by exists sh, w.
Qed.

(** While a line is edited, what the screen shows behind the prompt is the
    line: any sequence of printable characters, backspaces, arrows and other
    keys runs without panic, keeps the line within its 128 bytes, and changes
    nothing but the line, the walk through the history and the screen. *)
Theorem line_on_screen base keys s :
  Forall edits keys → editing base s →
  ∃ s', for_ keys on_key s = (s', Ok ()) ∧ editing base s' ∧ same_session s s'.
Proof.
  intros Hk. revert s. induction Hk as [|k keys Hk _ IH]; intros [sh w] He; cbn [for_]; [by exists (sh, w)|].
  destruct (key_edits base k sh w Hk He) as (sh1&w1&H1&He1&Hs1). rewrite (st_bind_Ok _ _ _ _ _ H1).
  destruct (IH _ He1) as (s'&H2&He2&Hs2). exists s'. split; [done|]. split; [done|]. by etransitivity.
Qed.

(** Typing some characters. *)
Lemma type_chars cs sh w : Forall printable cs → str_len (line sh ++ cs) ≤ 128 →
  for_ (K_unicode <$> cs) on_key (sh, w) =
    (({| line := line sh ++ cs; history := history sh; prefix := prefix sh |}, printed_more w cs), Ok ()).
Proof.
  intros Hc. revert sh w. induction Hc as [|c cs Hc _ IH]; intros sh w Hl; cbn [fmap list_fmap for_].
  { unfold printed_more. rewrite !app_nil_r. by destruct sh, w. }
  rewrite str_len_app, str_len_cons in Hl. pose proof (str_len_nonneg cs).
  assert (Hk : on_key (K_unicode c) (sh, w) =
    (({| line := line sh ++ [c]; history := history sh; prefix := prefix sh |}, printed_more w [c]), Ok ())).
  { unfold ShellTask.on_key. rewrite bind_get_st. cbn [fst]. unfold printable in Hc. rewrite (proj2 (Z.eqb_neq c 10)) by lia.
    rewrite hs_push_spec, (proj2 (Z.leb_le _ _)) by lia. reflexivity. }
  rewrite (st_bind_Ok _ _ _ _ _ Hk), IH; cbn [line history prefix].
  - unfold printed_more. cbn [CURRENT_PATH COMMANDS printed]. by rewrite <- !app_assoc.
  - rewrite !str_len_app, str_len_cons. cbn. lia.
Qed.

Lemma starts_with_app a b : starts_with (a ++ b) a = true.
Proof. apply starts_with_spec. by exists b. Qed.

Lemma replace_loop_none fuel s pat to : (length s ≤ fuel)%nat → (∀ a b, s ≠ a ++ pat ++ b) → replace_loop fuel s pat to = s.
Proof.
  revert s. induction fuel as [|fuel IH]; intros [|c s] Hf Hn; try done; [cbn in Hf; lia|]. cbn [replace_loop].
  destruct (starts_with (c :: s) pat) eqn:E.
  { apply starts_with_spec in E as [b Hb]. by destruct (Hn [] b). }
  rewrite IH; [done|cbn in Hf; lia|]. intros a b ->. by apply (Hn (c :: a) b).
Qed.


(** Recalling a line over one with characters of two bytes in UTF-8 erases
    as much of the prompt: [clear_line] counts bytes, the screen cells. *)
Theorem recall_erases_prompt base text ls i sh w :
  shown (printed w) = base ++ line sh → Forall (λ c, 0x80 ≤ c < 0x800) (line sh) → len (line sh) ≤ len base →
  history sh = hist_at ls i → 0 < i ≤ len ls → ls !! Z.to_nat (i - 1) = Some text → Forall printable text → short text →
  ∃ sh' w', on_key K_up (sh, w) = ((sh', w'), Ok ()) ∧ line sh' = text ∧
    shown (printed w') = take (length base - length (line sh)) base ++ text.
Proof.
  intros Hs H2 Hb Hh Hi Ht Hp Hshort. unfold ShellTask.on_key. rewrite bind_get_st. cbn [fst].
  rewrite Hh, hist_up_at, bind_lift_Ok, decide_True by lia. unfold set_history. rewrite bind_modify. cbn [fst snd]. rewrite Ht.
  unfold recall. rewrite bind_get_st. cbn [fst line].
  rewrite (st_bind_Ok _ _ _ _ _ (on_snd_run _ _ _ _ _ (clear_line_run _ _))). cbv zeta. unfold set_line. rewrite bind_modify.
  unfold on_snd, print, modify. cbn [fst snd prefix history]. eexists _, _. split; [reflexivity|].
  rewrite hs_push_str_spec. cbn [str_len foldr]. rewrite (proj2 (Z.leb_le _ _)) by exact Hshort. cbn [app default].
  split; [done|]. cbn [printed_more printed]. rewrite !shown_app, Hs, show_erases, show_printables by done. f_equal.
  assert (Hlen : str_len (line sh) = 2 * len (line sh)).
  { clear -H2. induction H2 as [|c l Hc _ IH]; [done|]. cbn [str_len foldr length]. unfold str_len in IH. rewrite IH.
    unfold utf8_len. rewrite (proj2 (Z.ltb_ge _ _)), (proj2 (Z.ltb_lt _ _)) by lia. lia. }
  rewrite Hlen, length_app. rewrite take_app_le by lia. f_equal. lia.
Qed.
End editor.

(** ** The code the attribute writes *)

(** The statements in front of a function's own. *)
Lemma expand_order inputs stmts : expand inputs stmts = S_args :: S_iter :: parse_stmts inputs ++ stmts.
Proof.
  unfold expand. do 2 f_equal. induction (parse_stmts inputs) as [|s l IH] using rev_ind in stmts |- *; [done|].
  rewrite reverse_snoc. cbn [foldl]. rewrite IH. by rewrite <- app_assoc.
Qed.

Lemma existsb_elem (x : rstring) l : existsb (λ a, bool_decide (a = x)) l = bool_decide (x ∈ l).
Proof.
  induction l as [|y l IH]; [done|]. cbn [existsb]. rewrite IH. apply Bool.eq_iff_eq_true.
  rewrite orb_true_iff, !bool_decide_eq_true, elem_of_cons. naive_solver.
Qed.

Lemma exec_parse_stmts args inputs n l iter :
  l_args l = Some args → l_iter l = Some iter →
  exec_stmts args (parse_stmts inputs ++ [S_body n]) l =
  ((λ vs, l_vars l ++ zip (omap classify_param inputs).*1 vs) <$> parse_params args (omap classify_param inputs).*2 iter).
Proof.
  revert l iter. induction inputs as [|[|[a [ident|] ty]] inputs IH]; intros l iter Ha Hi; cbn [parse_stmts omap list_omap classify_param fmap list_fmap pt_ident].
  - cbn. by rewrite app_nil_r.
  - by apply IH.
  - cbn [attrs pt_ty app]. unfold parse_stmt. destruct (has_flag_attr a); [|destruct (is_option ty)]; cbn [app exec_stmts parse_params fst snd].
    + rewrite Ha. rewrite (IH _ iter) by done. cbn [l_vars bind_var]. rewrite existsb_elem.
      destruct (parse_params _ _ iter) as [vs| | |]; [|done..]. cbn. by rewrite <- app_assoc.
    + rewrite Hi. rewrite (IH _ (tail iter)) by done. cbn [l_vars bind_var].
      destruct (parse_params _ _ (tail iter)) as [vs| | |]; [|done..]. cbn. by rewrite <- app_assoc.
    + rewrite Hi. destruct (head iter ≫= parse_arg (ty_parsed ty)) as [v|]; [|done]. rewrite (IH _ (tail iter)) by done. cbn [l_vars bind_var].
      destruct (parse_params _ _ (tail iter)) as [vs| | |]; [|done..]. cbn. by rewrite <- app_assoc.
  - by apply IH.
Qed.

(** C24: The statements the attribute writes in front of a command bind its
    parameters, in the order of the signature, to what [parse_params] finds, and
    return where it does: a flag wherever it stands among the arguments, each
    other parameter the next argument that is not a flag. *)
Theorem expansion_parses args inputs n :
  exec_stmts args (expand inputs [S_body n]) {| l_args := None; l_iter := None; l_vars := [] |} =
  (zip (omap classify_param inputs).*1 <$> parse_params args (omap classify_param inputs).*2 (args_iter args)).
Proof.
  rewrite expand_order. cbn [exec_stmts l_args l_iter l_vars].
  by rewrite (exec_parse_stmts args inputs n _ (args_iter args)).
Qed.

(** The arguments of the attribute: keys, values, and whether a comma follows. *)
Definition attr_tokens (asg : list (rstring * rstring * bool)) : list SynToken :=
  asg ≫= λ '(k, v, comma), [Tok_ident k; Tok_eq; Tok_lit v] ++ if comma : bool then [Tok_comma] else [].
Fixpoint given (k : rstring) (asg : list (rstring * rstring * bool)) (acc : option rstring) : option rstring :=
  match asg with
  | [] => acc
  | (k', v, _) :: asg => given k asg (if bool_decide (k' = k) then Some v else acc)
  end.
Definition known (k : rstring) : Prop := k = lit "name" ∨ k = lit "short" ∨ k = lit "long".

Lemma parse_comma n s l err comma toks :
  (∀ k, toks ≠ Tok_comma :: k) →
  match (if comma : bool then [Tok_comma] else []) ++ toks with
  | Tok_comma :: rest => parse_command_args n s l err rest
  | _ => parse_command_args n s l err ((if comma then [Tok_comma] else []) ++ toks)
  end = parse_command_args n s l err toks.
Proof. intros Ht. destruct comma; [done|]. cbn [app]. destruct toks as [|[] toks]; try done. by destruct (Ht toks). Qed.
Lemma attr_tokens_head asg k : attr_tokens asg ≠ Tok_comma :: k.
Proof. by destruct asg as [|[[? ?] ?] ?]. Qed.
Lemma parse_tokens asg n s l err : Forall (λ a, known a.1.1) asg →
  parse_command_args n s l err (attr_tokens asg) =
  parse_command_args (given (lit "name") asg n) (given (lit "short") asg s) (given (lit "long") asg l) err [].
Proof.
  intros Hk. revert n s l. induction Hk as [|[[k v] comma] asg Hka _ IH]; intros n s l; [done|].
  change (attr_tokens ((k, v, comma) :: asg)) with (Tok_ident k :: Tok_eq :: Tok_lit v :: (if comma then [Tok_comma] else []) ++ attr_tokens asg).
  cbn [parse_command_args given]. cbv zeta. rewrite !parse_comma by apply attr_tokens_head. cbn [fst] in Hka.
  destruct Hka as [->|[->| ->]]; [exact (IH (Some v) s l)|exact (IH n (Some v) l)|exact (IH n s (Some v))].
Qed.

(** The attribute takes its arguments in any order, with or without commas; the
    last of several values counts. *)
Theorem attribute_arguments asg name short long :
  Forall (λ a, known a.1.1) asg →
  given (lit "name") asg None = Some name → given (lit "short") asg None = Some short → given (lit "long") asg None = Some long →
  parse_command_args None None None None (attr_tokens asg) = Ok {| ca_name := name; ca_short := short; ca_long := long |}.
Proof. intros Hk Hn Hs Hl. rewrite parse_tokens by done. by rewrite Hn, Hs, Hl. Qed.
Lemma attribute_arguments_witness :
  parse_command_args None None None None
    (attr_tokens [(lit "long", lit "l", true); (lit "name", lit "x", false); (lit "short", lit "s", false); (lit "name", lit "n", true)]) =
  Ok {| ca_name := lit "n"; ca_short := lit "s"; ca_long := lit "l" |}.
Proof.
  apply attribute_arguments; [|reflexivity..]. unfold known. repeat (constructor; [cbn; tauto|]). constructor.
Defined.
