(* ===== verification/ShellDemo.v ===== *)
(** * The shell at concrete inputs *)

From S2P Require Import Prelude Bytes Text Devices Shell ShellFacts ShellTask ShellTaskFacts.

#[export] Instance list_Heapless : Heapless := {|
  hv_push A n l x := if len l <? n then Some (l ++ [x]) else None;
  hs_push n s c := if str_len s + utf8_len c <=? n then Some (s ++ [c]) else None;
  hs_push_str n s t := if str_len s + str_len t <=? n then Some (s ++ t) else None;
|}.
#[export] Instance list_HeaplessSpec : HeaplessSpec.
Proof. split; reflexivity. Qed.

(** The line [echo "a b" --upper | help]. *)
Definition demo_cmds : list Command :=
  [{| cmd_name := lit "echo"; cmd_args := [lit "a b"; lit "--upper"] |}; {| cmd_name := lit "help"; cmd_args := [] |}].
Definition demo_line : rstring := lit "echo " ++ [34] ++ lit "a b" ++ [34] ++ lit " --upper | help".

Lemma demo_typed : typed (pipeline_tokens demo_cmds) demo_line.
Proof.
  assert (Hb : ∀ w, forallb in_word w = true → Forall (λ c, in_word c) w).
  { intros w Hw. apply Forall_forall. intros c Hc. apply Is_true_true. rewrite forallb_forall in Hw. by apply Hw, list_elem_of_In. }
  change demo_line with (lit "echo" ++ 32 :: 34 :: lit "a b" ++ 34 :: 32 :: lit "--upper" ++ 32 :: 124 :: 32 :: lit "help" ++ []).
  apply typed_bare; [done|by apply Hb|done|]. apply typed_blank, typed_quoted; [repeat constructor|].
  apply typed_blank, typed_bare; [done|by apply Hb|done|]. apply typed_blank, typed_pipe, typed_blank.
  apply typed_bare; [done|by apply Hb|done|]. constructor.
Qed.

Lemma demo_cmds_fit : Forall command_fits demo_cmds.
Proof. by repeat (apply Forall_cons; split; [split; [done|cbn; lia]|]). Qed.

Lemma demo_printable : Forall printable demo_line.
Proof.
  assert (H : forallb (λ c, (32 <=? c) && (c <? 127)) demo_line = true) by (vm_compute; reflexivity).
  rewrite forallb_forall in H. apply Forall_forall. intros c Hc%list_elem_of_In%H. unfold printable. lia.
Qed.

Lemma command_line_roundtrip_witness : parse_pipeline <$> tokenize demo_line = Ok demo_cmds.
Proof.
  destruct (command_line_roundtrip demo_line) as (_&_&H).
  apply (H demo_cmds (pipeline_tokens demo_cmds) demo_typed eq_refl demo_cmds_fit); cbn; lia.
Defined.

Lemma history_walk_witness :
  hist_run History_new [Push (lit "a"); Push (lit "b"); Up; Up; Down] = Ok (hist_at [lit "a"; lit "b"] 1).
Proof.
  destruct (history_walk [Push (lit "a"); Push (lit "b"); Up; Up; Down]) as (i&Hrun&_).
  rewrite Hrun. vm_compute in Hrun |- *. congruence.
Defined.

(** The section of the commands, and the shell at its first prompt. *)
Definition demo_sleep (t : Z) (w : World) : World := w.
Definition demo_upper (s : rstring) : rstring := (λ c, if (97 <=? c) && (c <=? 122) then c - 32 else c) <$> s.
Definition demo_section : list CommandEntry := [cd; cmd_echo demo_upper; cmd_help; ls; mkdir; pwd; cmd_sleep demo_sleep; touch].
Definition demo_start : ShellTask * World :=
  match shell_start demo_section {| CURRENT_PATH := None; COMMANDS := ∅; printed := [] |} with
  | (w, Ok sh) => (sh, w)
  | (w, _) => ({| line := []; history := History_new; prefix := [] |}, w)
  end.

Definition demo_ran : World * outcome Empty_set () :=
  execute_pipeline demo_section demo_cmds (printed_more demo_start.2 (demo_line ++ [10])).

Lemma demo_cut : ∀ a b, demo_line ≠ a ++ prefix demo_start.1 ++ b.
Proof.
  assert (Hno : forallb (λ n, negb (starts_with (drop n demo_line) (lit "/> "))) (seq 0 30) = true) by (vm_compute; reflexivity).
  assert (Hp : prefix demo_start.1 = lit "/> ") by (vm_compute; reflexivity). rewrite Hp.
  intros a b Heq. rewrite forallb_forall in Hno. specialize (Hno (length a)).
  assert (Hin : In (length a) (seq 0 30)).
  { apply in_seq. apply (f_equal length) in Heq. rewrite !length_app in Heq.
    assert (Hd : length demo_line = 25%nat) by (vm_compute; reflexivity). lia. }
  apply Hno in Hin. rewrite Heq, drop_app_length in Hin. apply negb_true_iff in Hin.
  pose proof (starts_with_app (lit "/> ") b). congruence.
Qed.

Lemma demo_ran_ok : demo_ran.2 = Ok ().
Proof. vm_compute. reflexivity. Qed.
Lemma demo_ran_path : CURRENT_PATH demo_ran.1 = Some (lit "/").
Proof. vm_compute. reflexivity. Qed.


Lemma demo_editing : editing (lit "/> ") demo_start.
Proof.
  assert (Hl : line demo_start.1 = []) by (vm_compute; reflexivity).
  assert (Hh : history demo_start.1 = History_new) by (vm_compute; reflexivity).
  assert (Hs : shown (printed demo_start.2) = lit "/> ") by (vm_compute; reflexivity).
  destruct demo_start as [sh w]. cbn [fst snd] in *. cbn [editing]. rewrite Hl, Hh, Hs.
  split; [reflexivity|]. split; [constructor|]. split; [cbn; lia|]. split; [constructor|cbn; lia].
Qed.
Lemma demo_typed_ls :
  line (for_ [K_unicode 108; K_unicode 120; K_backspace; K_unicode 115; K_up; K_other] (on_key demo_section) demo_start).1.1 = lit "ls".
Proof. vm_compute. reflexivity. Qed.

Lemma line_on_screen_witness :
  ∃ s', for_ [K_unicode 108; K_unicode 120; K_backspace; K_unicode 115; K_up; K_other] (on_key demo_section) demo_start = (s', Ok ()) ∧
    shown (printed s'.2) = lit "/> ls".
Proof.
  destruct (line_on_screen demo_section (lit "/> ")
    [K_unicode 108; K_unicode 120; K_backspace; K_unicode 115; K_up; K_other] demo_start) as (s'&Hrun&He&_).
  - repeat constructor; cbn; lia.
  - exact demo_editing.
  - exists s'. split; [exact Hrun|]. destruct s' as [sh' w']. destruct He as [Hs _]. cbn [snd]. rewrite Hs.
    pose proof demo_typed_ls as Hl. rewrite Hrun in Hl. cbn [fst] in Hl. rewrite Hl. reflexivity.
Defined.

(** A line of two-byte characters over the prompt, and a recorded [ls]. *)
Definition demo_umlauts : ShellTask :=
  {| line := [228; 246]; history := hist_at [lit "ls"] 1; prefix := lit "/> " |}.
Definition demo_umlaut_world : World := {| CURRENT_PATH := Some (lit "/"); COMMANDS := ∅; printed := lit "/> " ++ [228; 246] |}.

Lemma recall_erases_prompt_witness :
  ∃ sh' w', on_key demo_section K_up (demo_umlauts, demo_umlaut_world) = ((sh', w'), Ok ()) ∧ line sh' = lit "ls" ∧
    shown (printed w') = lit "/ls".
Proof.
  apply (recall_erases_prompt demo_section (lit "/> ") (lit "ls") [lit "ls"] 1 demo_umlauts demo_umlaut_world).
  - reflexivity.
  - repeat constructor; discriminate.
  - vm_compute. discriminate.
  - reflexivity.
  - cbn. lia.
  - reflexivity.
  - repeat constructor; discriminate.
  - vm_compute. discriminate.
Defined.
