(* ===== verification/Dma.v ===== *)
(** * Memory shared with a device

    What the block drivers use besides registers: ordinary loads and stores
    through raw pointers, DMA buffers ([lib/hal/src/dma]) and loops that poll a
    register a bounded number of times.

    [W] is the machine. [load] and [store] are the CPU's accesses, [elapse] what
    the hardware does on its own between two polls ([core::hint::spin_loop]). *)

From S2P Require Import Prelude Bytes Mmio Frames.

Class Ram (W : Type) := {
  load : Z → Z → W → W * list Z;
  store : Z → list Z → W → W;
  elapse : W → W;
}.

(** [dyn DmaAllocator], with the [free_fn] its buffers are dropped with. *)
Class DmaAllocator (W : Type) := {
  alloc {E} : Z → Z → st W E (option DmaBuffer);
  free {E} : DmaBuffer → st W E ();
}.

(** [PhysAddr]: the two halves of an address. *)
Definition low_u32 (p : Z) : Z := wrap 32 p.
Definition high_u32 (p : Z) : Z := wrap 32 (Z.shiftr p 32).

Section dma.
Context {W : Type} {mmio : Mmio W} {ram : Ram W}.

Definition mload {E} (a n : Z) : st W E (list Z) := λ w, let '(w, b) := load a n w in (w, Ok b).
Definition mstore {E} (a : Z) (b : list Z) : st W E () := λ w, (store a b w, Ok ()).
(** A field of a [repr(C)] structure, [ptr::write_bytes(a, 0, n)]. *)
Definition mstore_le {E} (n : nat) (a v : Z) : st W E () := mstore a (to_le n v).
Definition mzero {E} (a n : Z) : st W E () := mstore a (zeros n).
Definition mload_le {E} (n : nat) (a : Z) : st W E Z := b ← mload a (Z.of_nat n); mret (from_le b).

(** ** Polling

    [for _ in 0..n { if step() { return true; } } false]. [n] is a [u32]; the
    recursion follows its binary digits, so that a loop that ends early is
    evaluated early. *)
Fixpoint until_pos {E} (n : positive) (step : st W E bool) : st W E bool :=
  match n with
  | xH => step
  | xO n => b ← until_pos n step; if (b : bool) then mret true else until_pos n step
  | xI n =>
      b ← step; if (b : bool) then mret true else
      b ← until_pos n step; if (b : bool) then mret true else until_pos n step
  end.
Definition until {E} (n : Z) (step : st W E bool) : st W E bool :=
  match n with Zpos n => until_pos n step | _ => mret false end.

(** One pass: the register is read and tested, and the CPU spins. *)
Definition poll {E} (a : Z) (test : Z → bool) : st W E bool :=
  val ← mread 4 a;
  if test val then mret true else modify elapse;; mret false.

Definition bit_clear (bit val : Z) : bool := Z.land val bit =? 0.
Definition bit_set (bit val : Z) : bool := negb (Z.land val bit =? 0).

Definition wait_for_clear {E} (a bit timeout_us : Z) : st W E bool :=
  until (u32 (timeout_us * 100)) (poll a (bit_clear bit)).
Definition wait_for_set {E} (a bit timeout_us : Z) : st W E bool :=
  until (u32 (timeout_us * 100)) (poll a (bit_set bit)).

(** ** The loops, pass by pass *)

Fixpoint until_nat {E} (n : nat) (step : st W E bool) : st W E bool :=
  match n with
  | O => mret false
  | S n => b ← step; if (b : bool) then mret true else until_nat n step
  end.

Lemma until_nat_add {E} n m (step : st W E bool) w :
  until_nat (n + m) step w = (b ← until_nat n step; if (b : bool) then mret true else until_nat m step) w.
Proof.
  revert w. induction n as [|n IH]; intros w; cbn [until_nat Nat.add]; [done|].
  rewrite st_bind_assoc, !st_bind_unfold. by destruct (step w) as [w' [[]| | |]].
Qed.

Lemma until_pos_nat {E} p (step : st W E bool) w : until_pos p step w = until_nat (Pos.to_nat p) step w.
Proof.
  assert (H2 : ∀ q, (∀ w, until_pos q step w = until_nat (Pos.to_nat q) step w) → ∀ w,
    (b ← until_pos q step; if (b : bool) then mret true else until_pos q step) w
    = until_nat (Pos.to_nat q + Pos.to_nat q) step w).
  { intros q Hq w'. rewrite until_nat_add, !st_bind_unfold, Hq.
    destruct (until_nat _ step w') as [? [[]| | |]]; done. }
  revert w. induction p as [p IH|p IH|]; intros w; cbn [until_pos].
  - rewrite Pos2Nat.inj_xI. replace (2 * Pos.to_nat p)%nat with (Pos.to_nat p + Pos.to_nat p)%nat by lia.
    cbn [until_nat]. rewrite !st_bind_unfold. destruct (step w) as [w' [[]| | |]]; try done. by apply H2.
  - rewrite Pos2Nat.inj_xO. replace (2 * Pos.to_nat p)%nat with (Pos.to_nat p + Pos.to_nat p)%nat by lia.
    by apply H2.
  - change (Pos.to_nat 1) with 1%nat. cbn [until_pos until_nat]. rewrite st_bind_unfold. destruct (step w) as [w' [[]| | |]]; done.
Qed.

Lemma until_eq {E} n (step : st W E bool) w : until n step w = until_nat (Z.to_nat n) step w.
Proof. destruct n; [done|apply until_pos_nat|done]. Qed.

(** The register passes the test after [k] failed polls, leaving the machine
    in [w']. *)
Fixpoint settles (k : nat) (a : Z) (test : Z → bool) (w w' : W) : Prop :=
  let '(w1, v) := read_volatile 4 a w in
  match k with
  | O => test v = true ∧ w' = w1
  | S k => test v = false ∧ settles k a test (elapse w1) w'
  end.

Lemma poll_run {E} a test w w1 v :
  read_volatile 4 a w = (w1, v) →
  poll (E:=E) a test w = if test v then (w1, Ok true) else (elapse w1, Ok false).
Proof. intros H. unfold poll, mread. rewrite st_bind_unfold, H. by destruct (test v). Qed.

Lemma settles_until {E} k n a test w w' :
  settles k a test w w' → (k < n)%nat → until_nat n (poll (E:=E) a test) w = (w', Ok true).
Proof.
  revert n w. induction k as [|k IH]; intros n w Hs Hn; cbn [settles] in Hs;
    (destruct n as [|n]; [lia|]); cbn [until_nat]; rewrite st_bind_unfold;
    destruct (read_volatile 4 a w) as [w1 v] eqn:Hr; rewrite (poll_run a test w w1 v Hr).
  - destruct Hs as [-> ->]. done.
  - destruct Hs as [-> Hs]. apply IH; [done|lia].
Qed.

Lemma wait_settles {E} k a test n w w' :
  settles k a test w w' → Z.of_nat k < n → until n (poll (E:=E) a test) w = (w', Ok true).
Proof. intros Hs Hk. rewrite until_eq. apply (settles_until k); [done|lia]. Qed.

(** A wait ends, with a flag, on any hardware. *)
Lemma until_total {E} n a test w : ∃ w' b, until n (poll (E:=E) a test) w = (w', Ok b).
Proof.
  rewrite until_eq. revert w. induction (Z.to_nat n) as [|k IH]; intros w; cbn [until_nat]; [by do 2 eexists|].
  rewrite st_bind_unfold. destruct (read_volatile 4 a w) as [w1 v] eqn:Hr. rewrite (poll_run a test w w1 v Hr).
  destruct (test v); [by do 2 eexists|apply IH].
Qed.

Lemma bind_mstore {E B} a b (k : () → st W E B) w : (mstore a b ≫= k) w = k () (store a b w).
Proof. done. Qed.
Lemma bind_mwrite {E B} n a v (k : () → st W E B) w : (mwrite n a v ≫= k) w = k () (write_volatile n a v w).
Proof. done. Qed.
Lemma bind_mread {E B} n a (k : Z → st W E B) w w' v :
  read_volatile n a w = (w', v) → (mread n a ≫= k) w = k v w'.
Proof. intros H. unfold mread. by rewrite st_bind_unfold, H. Qed.
End dma.

(** ** Memory

    The CPU reads what it wrote; [byte] is the memory as it sees it. *)
Class RamOk (W : Type) `{!Ram W} := {
  byte : W → Z → Z;
  byte_range w x : is_u8 (byte w x);
  load_eq a n w : load a n w = (w, byte w <$> seqZ a n);
  byte_store a b w x :
    bytes_ok b → byte (store a b w) x = if decide (a ≤ x < a + len b) then b !!! Z.to_nat (x - a) else byte w x;
}.

Section ram.
Context {W : Type} {ram : Ram W} {ram_ok : RamOk W}.
Implicit Types w : W.

(** The [n] bytes at [a], and the integer they hold. *)
Definition mem_at (w : W) (a n : Z) : list Z := byte w <$> seqZ a n.
Definition mem_le (w : W) (n : Z) (a : Z) : Z := from_le (mem_at w a n).

Lemma length_mem_at w a n : length (mem_at w a n) = Z.to_nat n.
Proof. unfold mem_at. by rewrite length_fmap, length_seqZ. Qed.

Lemma lookup_mem_at w a n i :
  mem_at w a n !! i = if decide (i < Z.to_nat n)%nat then Some (byte w (a + Z.of_nat i)) else None.
Proof.
  unfold mem_at. rewrite list_lookup_fmap. case_decide.
  - by rewrite lookup_seqZ_lt by lia.
  - by rewrite lookup_seqZ_ge by lia.
Qed.

Lemma bytes_ok_mem_at w a n : bytes_ok (mem_at w a n).
Proof.
  apply Forall_lookup. intros i x. rewrite lookup_mem_at. case_decide; [|done]. intros [= <-]. apply byte_range.
Qed.

Lemma mem_at_eq w w' a n : (∀ x, a ≤ x < a + n → byte w' x = byte w x) → mem_at w' a n = mem_at w a n.
Proof.
  intros H. apply list_eq. intros i. rewrite !lookup_mem_at. case_decide; [|done]. f_equal. apply H. lia.
Qed.

Lemma mem_at_store_in a b w x n :
  bytes_ok b → a ≤ x → 0 ≤ n → x + n ≤ a + len b → mem_at (store a b w) x n = sub (x - a) n b.
Proof.
  intros Hb ???. apply list_eq. intros i. rewrite lookup_mem_at, lookup_sub. case_decide; [|done].
  rewrite byte_store, decide_True by (done || lia).
  destruct (lookup_lt_is_Some_2 b (Z.to_nat (x - a) + i)) as [v Hv]; [lia|]. rewrite Hv.
  f_equal. apply list_lookup_total_correct. rewrite <- Hv. f_equal. lia.
Qed.

Lemma mem_at_store a b w n : bytes_ok b → len b = n → mem_at (store a b w) a n = b.
Proof. intros Hb <-. rewrite mem_at_store_in by (done || lia). by rewrite Z.sub_diag, sub_all. Qed.

Lemma mem_at_store_out a b w x n :
  bytes_ok b → x + n ≤ a ∨ a + len b ≤ x → mem_at (store a b w) x n = mem_at w x n.
Proof. intros Hb ?. apply mem_at_eq. intros y ?. by rewrite byte_store, decide_False by (done || lia). Qed.

Lemma mem_le_store n a v w :
  mem_le (store a (to_le n v) w) (Z.of_nat n) a = v mod 2 ^ (8 * Z.of_nat n).
Proof. unfold mem_le. rewrite mem_at_store by (apply to_le_bytes || by rewrite length_to_le). apply from_to_le. Qed.

Lemma mem_le_store' n k a b v w :
  k = Z.of_nat n → a = b → mem_le (store a (to_le n v) w) k b = v mod 2 ^ (8 * k).
Proof. intros -> ->. apply mem_le_store. Qed.

Lemma mem_le_eq w w' n a : (∀ x, a ≤ x < a + n → byte w' x = byte w x) → mem_le w' n a = mem_le w n a.
Proof. intros H. unfold mem_le. by rewrite (mem_at_eq w w'). Qed.

Lemma byte_store_out a b w x : bytes_ok b → ¬ (a ≤ x < a + len b) → byte (store a b w) x = byte w x.
Proof. intros Hb Hx. by rewrite byte_store, decide_False. Qed.

Lemma mem_le_out n a b w x :
  bytes_ok b → x + n ≤ a ∨ a + len b ≤ x → mem_le (store a b w) n x = mem_le w n x.
Proof. intros. unfold mem_le. by rewrite mem_at_store_out. Qed.

Lemma mem_le_zeros n a m w x :
  0 ≤ n → a ≤ x → x + n ≤ a + m → mem_le (store a (zeros m) w) n x = 0.
Proof.
  intros. unfold mem_le.
  rewrite mem_at_store_in by (apply bytes_ok_zeros || (rewrite ?length_zeros; lia)).
  rewrite sub_zeros by lia. apply from_le_zeros.
Qed.

Lemma mload_run {E} a n w : mload (E:=E) a n w = (w, Ok (mem_at w a n)).
Proof. unfold mload. by rewrite load_eq. Qed.
Lemma mload_le_run {E} n a w : mload_le (E:=E) n a w = (w, Ok (mem_le w (Z.of_nat n) a)).
Proof. unfold mload_le. by rewrite (st_bind_Ok _ _ _ _ _ (mload_run _ _ _)). Qed.
End ram.

(** Loads and stores keep what stores keep. *)
Section preserves.
Context {W : Type} {mmio : Mmio W} {ram : Ram W} {ram_ok : RamOk W}.
Variable I : W → Prop.
Hypothesis I_store : ∀ a b w, I w → bytes_ok b → I (store a b w).

Lemma preserves_store {E} a b : bytes_ok b → preserves (E:=E) I (mstore a b).
Proof. intros Hb w Hw. by apply I_store. Qed.
Lemma preserves_load {E} a n : preserves (E:=E) I (mload a n).
Proof. intros w Hw. by rewrite mload_run. Qed.
End preserves.

Ltac preserves_step :=
  lazymatch goal with
  | |- preserves _ (mbind _ _) => apply preserves_bind; [|intros ?]
  | |- preserves _ (mret _) => apply preserves_mret
  | |- preserves _ (mload _ _) => apply preserves_load
  | |- preserves _ (mstore _ _) => apply preserves_store; [done|]
  end.

(** Read a field through stores to other fields. *)
Ltac mem_side :=
  first [ apply to_le_bytes | apply bytes_ok_zeros | rewrite ?length_to_le, ?length_zeros; lia ].
Ltac mem_read :=
  repeat first
  [ rewrite mem_le_out by mem_side
  | rewrite mem_le_store' by mem_side
  | rewrite mem_le_zeros by lia ].
Ltac mem_frame := rewrite !byte_store_out by mem_side.

#[export] Hint Resolve bytes_ok_mem_at : bytes.
#[export] Hint Rewrite @length_mem_at : blen.

(** ** Accesses

    The machine with a log of the CPU's accesses to it. *)

Inductive access :=
| Acc_read (n a : Z)
| Acc_write (n a v : Z)
| Acc_load (a n : Z)
| Acc_store (a : Z) (b : list Z).

Record Logged (W : Type) := { log : list access; machine : W }.
Arguments Build_Logged {W}. Arguments log {W}. Arguments machine {W}.

Section logged.
Context {W : Type} {mmio : Mmio W} {ram : Ram W} {dma : DmaAllocator W}.

#[export] Instance Logged_Mmio : Mmio (Logged W) := {|
  read_volatile n a l :=
    let '(w, v) := read_volatile n a (machine l) in
    ({| log := Acc_read n a :: log l; machine := w |}, v);
  write_volatile n a v l :=
    {| log := Acc_write n a v :: log l; machine := write_volatile n a v (machine l) |};
|}.

#[export] Instance Logged_Ram : Ram (Logged W) := {|
  load a n l :=
    let '(w, b) := load a n (machine l) in
    ({| log := Acc_load a n :: log l; machine := w |}, b);
  store a b l := {| log := Acc_store a b :: log l; machine := store a b (machine l) |};
  elapse l := {| log := log l; machine := elapse (machine l) |};
|}.

Definition on_machine {E A} (m : st W E A) : st (Logged W) E A := λ l,
  let '(w, r) := m (machine l) in ({| log := log l; machine := w |}, r).

#[export] Instance Logged_Dma : DmaAllocator (Logged W) := {|
  alloc E size align := on_machine (alloc size align);
  free E b := on_machine (free b);
|}.
End logged.

(** [stays P m]: every access [m] makes satisfies [P], whatever the machine
    answers. *)
Section stays.
Context {W : Type} {mmio : Mmio W} {ram : Ram W} {dma : DmaAllocator W}.
Variable P : access → Prop.

Definition stays {E A} (m : st (Logged W) E A) : Prop :=
  ∀ l, ∃ new, log (m l).1 = new ++ log l ∧ Forall P new.

Lemma stays_bind {E A B} (m : st (Logged W) E A) (k : A → st (Logged W) E B) :
  stays m → (∀ a, stays (k a)) → stays (m ≫= k).
Proof.
  intros Hm Hk l. rewrite st_bind_unfold. destruct (Hm l) as (n1&H1&HP1). destruct (m l) as [l' r] eqn:Hr. cbn in H1.
  destruct r as [a|e| |]; try by exists n1.
  destruct (Hk a l') as (n2&H2&HP2). exists (n2 ++ n1). split; [by rewrite H2, H1, app_assoc|].
  by apply Forall_app.
Qed.
Lemma stays_quiet {E A} (m : st (Logged W) E A) : (∀ l, log (m l).1 = log l) → stays m.
Proof. intros H l. exists []. by rewrite H. Qed.
Lemma stays_mret {E A} (a : A) : stays (E:=E) (mret a).
Proof. by apply stays_quiet. Qed.
Lemma stays_fail {E A} (e : E) : stays (A:=A) (fail e).
Proof. by apply stays_quiet. Qed.
Lemma stays_lift {E A} (m : outcome E A) : stays (lift m).
Proof. by apply stays_quiet. Qed.
Lemma stays_elapse {E} : stays (E:=E) (modify elapse).
Proof. by apply stays_quiet. Qed.
Lemma stays_on_machine {E A} (m : st W E A) : stays (on_machine m).
Proof. apply stays_quiet. intros l. unfold on_machine. by destruct (m (machine l)). Qed.
Lemma stays_alloc {E} n a : stays (E:=E) (alloc n a).
Proof. apply stays_on_machine. Qed.
Lemma stays_free {E} b : stays (E:=E) (free b).
Proof. apply stays_on_machine. Qed.
Lemma stays_read {E} n a : P (Acc_read n a) → stays (E:=E) (mread n a).
Proof.
  intros H l. exists [Acc_read n a]. unfold mread. cbn. destruct (read_volatile n a (machine l)). cbn. by split; [|constructor].
Qed.
Lemma stays_write {E} n a v : P (Acc_write n a v) → stays (E:=E) (mwrite n a v).
Proof. intros H l. exists [Acc_write n a v]. cbn. by split; [|constructor]. Qed.
Lemma stays_load {E} n a : P (Acc_load a n) → stays (E:=E) (mload a n).
Proof.
  intros H l. exists [Acc_load a n]. unfold mload. cbn. destruct (load a n (machine l)). cbn. by split; [|constructor].
Qed.
Lemma stays_store {E} a b : P (Acc_store a b) → stays (E:=E) (mstore a b).
Proof. intros H l. exists [Acc_store a b]. cbn. by split; [|constructor]. Qed.

Lemma stays_ext {E A} (m m' : st (Logged W) E A) : (∀ l, m l = m' l) → stays m' → stays m.
Proof. intros H Hm l. rewrite H. apply Hm. Qed.

Lemma stays_until {E} n a test : P (Acc_read 4 a) → stays (until (E:=E) n (poll a test)).
Proof.
  intros HP. eapply stays_ext; [intros l; apply until_eq|].
  induction (Z.to_nat n) as [|k IH]; [by apply stays_quiet|]. cbn [until_nat].
  apply stays_bind; [|by intros []; [apply stays_mret|]].
  unfold poll. apply stays_bind; [by apply stays_read|]. intros v. destruct (test v); [apply stays_mret|].
  apply stays_bind; [apply stays_elapse|]. intros []. apply stays_mret.
Qed.

Lemma stays_map_err {E F A} (f : E → F) (m : st (Logged W) E A) : stays m → stays (st_map_err f m).
Proof. intros Hm l. unfold st_map_err. destruct (Hm l) as (n&?&?). exists n. by destruct (m l). Qed.
Lemma stays_try {E F A} (m : st (Logged W) E A) : stays m → stays (st_try (F:=F) m).
Proof. intros Hm l. unfold st_try. destruct (Hm l) as (n&?&?). exists n. by destruct (m l). Qed.
Lemma stays_for {E A} (xs : list A) (body : A → st (Logged W) E ()) :
  (∀ x, x ∈ xs → stays (body x)) → stays (for_ xs body).
Proof.
  intros Hb. induction xs as [|x xs IH]; cbn [for_]; [apply stays_mret|].
  apply stays_bind; [apply Hb; by left|]. intros []. apply IH. intros y Hy. apply Hb. by right.
Qed.
End stays.

(** Go through a driver routine access by access; the goals left are about the
    accesses. *)
Ltac stays_step :=
  lazymatch goal with
  | |- stays _ (mbind _ _) => apply stays_bind; [|intros ?]
  | |- stays _ (if ?b then _ else _) => destruct b
  | |- stays _ (match ?x with _ => _ end) => destruct x
  | |- stays _ (mret _) => apply stays_mret
  | |- stays _ (fail _) => apply stays_fail
  | |- stays _ (lift _) => apply stays_lift
  | |- stays _ (modify elapse) => apply stays_elapse
  | |- stays _ (alloc _ _) => apply stays_alloc
  | |- stays _ (free _) => apply stays_free
  | |- stays _ (mread _ _) => apply stays_read
  | |- stays _ (mwrite _ _ _) => apply stays_write
  | |- stays _ (mload _ _) => apply stays_load
  | |- stays _ (mstore _ _) => apply stays_store
  | |- stays _ (until _ (poll _ _)) => apply stays_until
  | |- stays _ (st_map_err _ _) => apply stays_map_err
  | |- stays _ (for_ _ _) => apply stays_for; intros ? ?
  end.
