(* ===== verification/Ahci.v ===== *)
(** * The AHCI driver

    [lib/driver/src/block/ahci]: register and command layouts ([constants.rs],
    [fis.rs]), one port ([port.rs]) and the controller ([mod.rs]).

    [driver_phys_offset] is the static of [lib/driver/src/lib.rs], [None] before
    [driver::init]; the allocator behind [driver::dma()] is the machine's. *)

From S2P Require Import Prelude Bytes Text BlockDev Mmio Pci PciBus Drivers Frames Dma.

(** ** [constants.rs] *)

Definition SECTOR_SIZE : Z := 512.
Definition HBA_GHC : Z := 0x04.
Definition HBA_PI : Z := 0x0C.
Definition HBA_PORTS : Z := 0x100.
Definition PORT_SIZE : Z := 0x80.
Definition PORT_CLB : Z := 0x00.
Definition PORT_CLBU : Z := 0x04.
Definition PORT_FB : Z := 0x08.
Definition PORT_FBU : Z := 0x0C.
Definition PORT_IS : Z := 0x10.
Definition PORT_CMD : Z := 0x18.
Definition PORT_TFD : Z := 0x20.
Definition PORT_SSTS : Z := 0x28.
Definition PORT_SERR : Z := 0x30.
Definition PORT_CI : Z := 0x38.
Definition ATA_CMD_READ_SECTORS : Z := 0x20.
Definition ATA_CMD_WRITE_SECTORS : Z := 0x30.

(** ** [fis.rs]: the offsets of the fields *)

Module CommandHeader.
Definition flags : Z := 0.
Definition prdtl : Z := 2.
Definition prdbc : Z := 4.
Definition ctba : Z := 8.
Definition ctbau : Z := 12.
Definition reserved : Z := 16.
End CommandHeader.

Module FisRegH2D.
Definition fis_type : Z := 0.
Definition pmport : Z := 1.
Definition command : Z := 2.
Definition lba0 : Z := 4.
Definition lba1 : Z := 5.
Definition lba2 : Z := 6.
Definition device : Z := 7.
Definition lba3 : Z := 8.
Definition lba4 : Z := 9.
Definition lba5 : Z := 10.
Definition countl : Z := 12.
Definition counth : Z := 13.
End FisRegH2D.

Module PrdtEntry.
Definition dba : Z := 0.
Definition dbau : Z := 4.
Definition reserved : Z := 8.
Definition dbc : Z := 12.
End PrdtEntry.

Module CommandTable.
Definition cfis : Z := 0.
Definition prdt : Z := 128.
End CommandTable.

(** ** [port.rs] *)

Record PortState := {
  port_base : Z;
  cmd_list_buf : DmaBuffer;
  cmd_table_buf : DmaBuffer;
  rfis_buf : DmaBuffer;
  data_buf : DmaBuffer;
}.

(** [mod.rs], [block/mod.rs] *)
Record AhciPortWrapper := { port_idx : Z; ap_state : PortState; ap_sector_count : Z }.
Record AhciState := { as_mmio_base : Z; as_ports : list AhciPortWrapper }.

Section ahci.
Context {W : Type} {mmio : Mmio W} {ram : Ram W} {dma : DmaAllocator W}.

(** [dma.alloc(4096, 4096).ok_or(NoMemory)?]: on failure the buffers allocated
    so far, the last one first, are dropped. *)
Definition alloc_page (held : list DmaBuffer) : st W BlockError DmaBuffer :=
  b ← alloc 4096 4096;
  match b with
  | Some b => mret b
  | None => for_ held free;; fail Blk_NoMemory
  end.

Definition PortState_init (mmio_base port : Z) : st W BlockError PortState :=
  let port_base := mmio_base +w HBA_PORTS +w port *w PORT_SIZE in
  cmd_reg ← mread 4 (port_base +w PORT_CMD);
  (if negb (Z.land cmd_reg 0x01 =? 0) then
     mwrite 4 (port_base +w PORT_CMD) (Z.land cmd_reg (not_ 32 0x01));;
     idle ← wait_for_clear (port_base +w PORT_CMD) 0x8000 1000000;
     if (idle : bool) then mret () else fail Blk_DeviceBusy
   else mret ());;
  (if negb (Z.land cmd_reg 0x10 =? 0) then
     mwrite 4 (port_base +w PORT_CMD) (Z.land cmd_reg (not_ 32 0x10));;
     idle ← wait_for_clear (port_base +w PORT_CMD) 0x8000 100000;
     if (idle : bool) then mret () else fail Blk_DeviceBusy
   else mret ());;
  cmd_list_buf ← alloc_page [];
  cmd_table_buf ← alloc_page [cmd_list_buf];
  rfis_buf ← alloc_page [cmd_table_buf; cmd_list_buf];
  data_buf ← alloc_page [rfis_buf; cmd_table_buf; cmd_list_buf];
  let held := [data_buf; rfis_buf; cmd_table_buf; cmd_list_buf] in
  for_ [cmd_list_buf; cmd_table_buf; rfis_buf; data_buf] (λ buf, mzero (db_virt buf) 4096);;
  let clb := db_phys cmd_list_buf in
  mwrite 4 (port_base +w PORT_CLB) (u32 clb);;
  mwrite 4 (port_base +w PORT_CLBU) (u32 (Z.shiftr clb 32));;
  let fb := db_phys rfis_buf in
  mwrite 4 (port_base +w PORT_FB) (u32 fb);;
  mwrite 4 (port_base +w PORT_FBU) (u32 (Z.shiftr fb 32));;
  mwrite 4 (port_base +w PORT_IS) 0xFFFFFFFF;;
  mwrite 4 (port_base +w PORT_SERR) 0xFFFFFFFF;;
  cmd ← mread 4 (port_base +w PORT_CMD);
  mwrite 4 (port_base +w PORT_CMD) (Z.lor cmd 0x10);;
  fr ← wait_for_set (port_base +w PORT_CMD) 0x4000 100000;
  if negb fr then for_ held free;; fail Blk_DeviceError else
  cmd ← mread 4 (port_base +w PORT_CMD);
  mwrite 4 (port_base +w PORT_CMD) (Z.lor cmd 0x01);;
  cr ← wait_for_set (port_base +w PORT_CMD) 0x8000 100000;
  if negb cr then for_ held free;; fail Blk_DeviceError else
  mret {| port_base := port_base; cmd_list_buf := cmd_list_buf; cmd_table_buf := cmd_table_buf;
          rfis_buf := rfis_buf; data_buf := data_buf |}.

(** The command header in slot 0. *)
Definition setup_header (self : PortState) (is_write : bool) : st W BlockError () :=
  let cmd_header := db_virt (cmd_list_buf self) in
  mstore_le 2 (cmd_header + CommandHeader.flags) (Z.lor (5 - 1) (if is_write then 0x40 else 0));;
  mstore_le 2 (cmd_header + CommandHeader.prdtl) 1;;
  mstore_le 4 (cmd_header + CommandHeader.prdbc) 0;;
  mstore_le 4 (cmd_header + CommandHeader.ctba) (u32 (db_phys (cmd_table_buf self)));;
  mstore_le 4 (cmd_header + CommandHeader.ctbau) (u32 (Z.shiftr (db_phys (cmd_table_buf self)) 32));;
  mzero (cmd_header + CommandHeader.reserved) 16.

(** The FIS, in the cleared command table. *)
Definition setup_fis (self : PortState) (command lba count : Z) : st W BlockError () :=
  let cmd_table := db_virt (cmd_table_buf self) in
  mzero cmd_table 256;;
  let fis := cmd_table + CommandTable.cfis in
  mzero fis 20;;
  mstore_le 1 (fis + FisRegH2D.fis_type) 0x27;;
  mstore_le 1 (fis + FisRegH2D.pmport) 0x80;;
  mstore_le 1 (fis + FisRegH2D.command) command;;
  mstore_le 1 (fis + FisRegH2D.device) (Z.lor 0x40 (u8 (Z.land (Z.shiftr lba 24) 0x0F)));;
  mstore_le 1 (fis + FisRegH2D.lba0) (u8 (Z.land lba 0xFF));;
  mstore_le 1 (fis + FisRegH2D.lba1) (u8 (Z.land (Z.shiftr lba 8) 0xFF));;
  mstore_le 1 (fis + FisRegH2D.lba2) (u8 (Z.land (Z.shiftr lba 16) 0xFF));;
  mstore_le 1 (fis + FisRegH2D.lba3) (u8 (Z.land (Z.shiftr lba 24) 0xFF));;
  mstore_le 1 (fis + FisRegH2D.lba4) (u8 (Z.land (Z.shiftr lba 32) 0xFF));;
  mstore_le 1 (fis + FisRegH2D.lba5) (u8 (Z.land (Z.shiftr lba 40) 0xFF));;
  mstore_le 1 (fis + FisRegH2D.countl) (u8 (Z.land count 0xFF));;
  mstore_le 1 (fis + FisRegH2D.counth) (u8 (Z.land (Z.shiftr count 8) 0xFF)).

(** The only entry of the region table. *)
Definition setup_prdt (self : PortState) (count : Z) : st W BlockError () :=
  let prdt := db_virt (cmd_table_buf self) + CommandTable.prdt in
  mstore_le 4 (prdt + PrdtEntry.dba) (u32 (db_phys (data_buf self)));;
  mstore_le 4 (prdt + PrdtEntry.dbau) (u32 (Z.shiftr (db_phys (data_buf self)) 32));;
  mstore_le 4 (prdt + PrdtEntry.reserved) 0;;
  mstore_le 4 (prdt + PrdtEntry.dbc) (u32 (u32 (count * SECTOR_SIZE) - 1));;
  dbc ← mload_le 4 (prdt + PrdtEntry.dbc);
  mstore_le 4 (prdt + PrdtEntry.dbc) (Z.lor dbc 0x80000000).

Definition setup_command (self : PortState) (command lba count : Z) (is_write : bool) : st W BlockError () :=
  setup_header self is_write;; setup_fis self command lba count;; setup_prdt self count.

Definition issue_command (self : PortState) (command lba count : Z) (is_write : bool) : st W BlockError () :=
  let tfd := port_base self +w PORT_TFD in
  ready ← wait_for_clear (port_base self +w PORT_TFD) 0x88 500000;
  if negb ready then fail Blk_DeviceBusy else
  setup_command self command lba count is_write;;
  mwrite 4 (port_base self +w PORT_CI) 0x01;;
  done ← wait_for_clear (port_base self +w PORT_CI) 0x01 5000000;
  if negb done then fail Blk_Timeout else
  tfd_val ← mread 4 tfd;
  if negb (Z.land tfd_val 0x01 =? 0) || negb (Z.land tfd_val 0x20 =? 0) then fail Blk_DeviceError else
  mret ().

Definition ahci_read_sectors (self : PortState) (lba : Z) (buf : list Z) : st W BlockError (list Z) :=
  if len buf <? SECTOR_SIZE then fail Blk_InvalidBuffer else
  issue_command self ATA_CMD_READ_SECTORS lba 1 false;;
  data ← mload (db_virt (data_buf self)) SECTOR_SIZE;
  mret (upd 0 data buf).

Definition ahci_write_sectors (self : PortState) (lba : Z) (buf : list Z) : st W BlockError () :=
  if len buf <? SECTOR_SIZE then fail Blk_InvalidBuffer else
  mstore (db_virt (data_buf self)) (sub 0 SECTOR_SIZE buf);;
  issue_command self ATA_CMD_WRITE_SECTORS lba 1 true.

Definition identify (self : PortState) : st W BlockError (list Z) :=
  issue_command self 0xEC 0 1 false;;
  mload (db_virt (data_buf self)) 512.

(** ** [mod.rs] *)

Definition identify_sector_count {E} (port : PortState) : st W E (option Z) :=
  buf ← st_ok (identify port);
  match buf with
  | None => mret None
  | Some buf =>
      let lo := from_le (sub 200 2 buf) in
      let hi := from_le (sub 202 2 buf) in
      let count := Z.lor lo (Z.shiftl hi 16) in
      mret (if count =? 0 then None else Some count)
  end.

(** The body of the loop over the ports: the port, unless it is skipped. *)
Definition probe_port {E} (mmio_base pi i : Z) : st W E (option AhciPortWrapper) :=
  if Z.land pi (u32 (Z.shiftl 1 i)) =? 0 then mret None else
  let port_base := mmio_base +w 0x100 +w i *w 0x80 in
  ssts ← mread 4 (port_base +w PORT_SSTS);
  let det := Z.land ssts 0xF in
  let ipm := Z.land (Z.shiftr ssts 8) 0xF in
  if negb (det =? 1) && negb (det =? 3) then mret None else
  if negb (ipm =? 1) then mret None else
  r ← st_ok (PortState_init mmio_base i);
  match r with
  | Some state =>
      n ← identify_sector_count state;
      mret (Some {| port_idx := i; ap_state := state; ap_sector_count := default 131071 n |})
  | None => mret None
  end.

Fixpoint ports_loop {E} (mmio_base pi : Z) (idxs : list Z) (ports : list AhciPortWrapper) :
    st W E (list AhciPortWrapper) :=
  match idxs with
  | [] => mret ports
  | i :: idxs =>
      p ← probe_port mmio_base pi i;
      ports_loop mmio_base pi idxs (ports ++ option_list p)
  end.

Definition AhciState_init (mmio_base : Z) : st W rstring AhciState :=
  let ghc := mmio_base +w HBA_GHC in
  v ← mread 4 ghc;
  mwrite 4 ghc (Z.lor v (Z.shiftl 1 31));;
  pi ← mread 4 (mmio_base +w HBA_PI);
  ports ← ports_loop mmio_base pi (seqZ 0 32) [];
  match ports with
  | [] => fail (lit "AHCI: no usable ports found")
  | _ => mret {| as_mmio_base := mmio_base; as_ports := ports |}
  end.

Definition port_count (s : AhciState) : Z := len (as_ports s).

(** [DriverState::stop] *)
Definition AhciState_stop {E} (s : AhciState) : st W E () :=
  for_ (as_ports s) (λ port,
    let port_base := as_mmio_base s +w 0x100 +w port_idx port *w 0x80 in
    let cmd := port_base +w PORT_CMD in
    val ← mread 4 cmd;
    mwrite 4 cmd (Z.land val (not_ 32 (Z.lor (Z.shiftl 1 0) (Z.shiftl 1 4))))).

(** [Driver for AhciDriver] *)
Definition ahci_rules : list MatchRule := [Mr_PciClass 0x01 0x06].

Definition ahci_bind {D} `{DowncastPci D} (driver_phys_offset : option Z) (device_id : Z) (device : D) :
    st (Ecam W) DriverError AhciState :=
  pci ← lift (ok_or (downcast_pci device) BindFailed);
  enable_dma pci;;
  enable_mmio (pbd_info pci);;
  abar_phys ← lift (ok_or (bar_mmio (pbd_info pci) 5) BindFailed);
  phys_offset ← lift (unwrap driver_phys_offset);
  let mmio_base := abar_phys +w phys_offset in
  st_map_err (λ _, BindFailed) (on_hw (AhciState_init mmio_base)).
End ahci.

(** [BlockDevice for AhciPortWrapper] *)
#[export] Instance AhciPortWrapper_BlockDevice {W} {mmio : Mmio W} {ram : Ram W} : BlockDevice (AhciPortWrapper * W) := {|
  read_blocks lba buf :=
    s ← get_st; st_map_err (λ _, Blk_ReadError) (on_snd (ahci_read_sectors (ap_state s.1) lba buf));
  write_blocks lba buf :=
    s ← get_st; st_map_err (λ _, Blk_WriteError) (on_snd (ahci_write_sectors (ap_state s.1) lba buf));
  block_size _ := 512;
  block_count s := ap_sector_count s.1;
|}.
