(* ===== verification/AhciHba.v ===== *)
(** * What an AHCI controller does with a command

    The contract of the hardware behind the driver, as the AHCI and ATA
    specifications give it: how the controller reads the command in slot 0 out
    of memory ([fetch_command]), and what a port does between the doorbell and
    the end of the command ([AhciHba]). The driver's theorems are proved against
    this interface. *)

From S2P Require Import Prelude Bytes BlockDev Mmio Frames Dma Ahci.

(** ** Fetching *)

Record HbaCommand := {
  hc_opcode : Z;
  hc_lba : Z;        (** the 28-bit address: LBA registers and device bits 3:0 *)
  hc_count : Z;      (** the 8-bit sector count *)
  hc_write : bool;   (** direction, from the command header *)
  hc_address : Z;    (** the data buffer *)
  hc_bytes : Z;
}.

Definition phys_le (mem : Z → Z) (n p : Z) : Z := from_le (mem <$> seqZ p n).

(** [mem] is memory by physical address, [clb] the command list. A command
    needs a FIS of 2 to 16 words, of type 27h with the C bit, and here one
    region. *)
Definition fetch_command (mem : Z → Z) (clb : Z) : option HbaCommand :=
  let flags := phys_le mem 2 clb in
  let prdtl := phys_le mem 2 (clb + 2) in
  let ctba := phys_le mem 4 (clb + 8) + 2 ^ 32 * phys_le mem 4 (clb + 12) in
  let cfl := Z.land flags 0x1F in
  let fis n := phys_le mem 1 (ctba + n) in
  let dbc := phys_le mem 4 (ctba + 0x80 + 12) in
  if (2 <=? cfl) && (cfl <=? 16) && (ctba mod 128 =? 0) && (prdtl =? 1)
     && (fis 0 =? 0x27) && Z.testbit (fis 1) 7
  then Some {|
    hc_opcode := fis 2;
    hc_lba := fis 4 + 2 ^ 8 * fis 5 + 2 ^ 16 * fis 6 + 2 ^ 24 * Z.land (fis 7) 0xF;
    hc_count := fis 12;
    hc_write := Z.testbit flags 6;
    hc_address := phys_le mem 4 (ctba + 0x80) + 2 ^ 32 * phys_le mem 4 (ctba + 0x80 + 4);
    hc_bytes := Z.land dbc 0x3FFFFF + 1 |}
  else None.

(** A transfer of one sector. *)
Definition one_sector (c : HbaCommand) (opcode lba : Z) (write : bool) : Prop :=
  hc_opcode c = opcode ∧ hc_lba c = lba ∧ hc_count c = 1 ∧ hc_write c = write ∧ hc_bytes c = 512.

(** ** The port *)

(** [off] maps physical to virtual addresses, [clb] and [fb] are the command
    list and the FIS area the port has been given. *)
Class AhciHba (W : Type) `{!Mmio W, !Ram W, !RamOk W} (off base clb fb : Z) := {
  hba_idle : W → Prop;
  hba_sectors : Z;
  hba_sector : W → Z → list Z;

  hba_sector_ok w s : bytes_ok (hba_sector w s) ∧ len (hba_sector w s) = 512;

  (** The CPU's stores do not reach an idle port or the medium. *)
  hba_store w a b : hba_idle w → bytes_ok b →
    hba_idle (store a b w) ∧ ∀ s, hba_sector (store a b w) s = hba_sector w s;

  (** An idle port is soon seen to be ready. *)
  hba_ready w : hba_idle w → ∃ k w',
    Z.of_nat k < 50000000 ∧ settles k (base +w PORT_TFD) (bit_clear 0x88) w w' ∧
    hba_idle w' ∧ (∀ x, byte w' x = byte w x) ∧ ∀ s, hba_sector w' s = hba_sector w s;

  (** A command for a sector of the medium: the doorbell clears in time, the
      task file shows no error, the data has been moved. Besides the data buffer
      the port writes the byte count of the header and the FIS area. *)
  hba_execute w c opcode lba (write : bool) :
    hba_idle w → fetch_command (λ p, byte w (p + off)) clb = Some c →
    one_sector c opcode lba write → opcode = (if write then 0x30 else 0x20) →
    0 ≤ lba < hba_sectors →
    ∃ k w1 w2 tfd,
      Z.of_nat k < 500000000 ∧
      settles k (base +w PORT_CI) (bit_clear 0x01) (write_volatile 4 (base +w PORT_CI) 0x01 w) w1 ∧
      read_volatile 4 (base +w PORT_TFD) w1 = (w2, tfd) ∧
      Z.land tfd 0x01 = 0 ∧ Z.land tfd 0x20 = 0 ∧ hba_idle w2 ∧
      (∀ s, hba_sector w2 s =
        if decide (write = true ∧ s = lba) then mem_at w (hc_address c + off) 512 else hba_sector w s) ∧
      (write = false → mem_at w2 (hc_address c + off) 512 = hba_sector w lba) ∧
      ∀ x, ¬ (clb + 4 ≤ x - off < clb + 8) → ¬ (fb ≤ x - off < fb + 256) →
           (write = true ∨ ¬ (hc_address c ≤ x - off < hc_address c + 512)) → byte w2 x = byte w x;

  (** A command for a sector past the medium ends with the error bit set. *)
  hba_reject w c opcode lba (write : bool) :
    hba_idle w → fetch_command (λ p, byte w (p + off)) clb = Some c →
    one_sector c opcode lba write → opcode = (if write then 0x30 else 0x20) →
    hba_sectors ≤ lba →
    ∃ k w1 w2 tfd,
      Z.of_nat k < 500000000 ∧
      settles k (base +w PORT_CI) (bit_clear 0x01) (write_volatile 4 (base +w PORT_CI) 0x01 w) w1 ∧
      read_volatile 4 (base +w PORT_TFD) w1 = (w2, tfd) ∧
      negb (Z.land tfd 0x01 =? 0) = true ∧ hba_idle w2 ∧
      (∀ s, hba_sector w2 s = hba_sector w s) ∧
      ∀ x, ¬ (clb + 4 ≤ x - off < clb + 8) → ¬ (fb ≤ x - off < fb + 256) → byte w2 x = byte w x;
}.

(** ** The abstract disk a port implements

    Requests of one sector, against the contents of the medium. An address is
    reduced to the 28 bits of the ATA command. *)

Inductive request := Rq_read (lba : Z) (buf : list Z) | Rq_write (lba : Z) (buf : list Z).

Definition request_ok (r : request) : Prop :=
  match r with Rq_read lba buf | Rq_write lba buf => is_u64 lba ∧ bytes_ok buf end.

Section spec.
Variable sectors : Z.

Definition spec_step (r : request) (disk : Z → list Z) : (Z → list Z) * outcome BlockError (list Z) :=
  match r with
  | Rq_read lba buf =>
      let s := lba mod 2 ^ 28 in
      if (512 <=? len buf) && (s <? sectors) then (disk, Ok (upd 0 (disk s) buf)) else (disk, Err Blk_ReadError)
  | Rq_write lba buf =>
      let s := lba mod 2 ^ 28 in
      if (512 <=? len buf) && (s <? sectors)
      then (λ x, if decide (x = s) then sub 0 512 buf else disk x, Ok []) else (disk, Err Blk_WriteError)
  end.

Fixpoint spec_run (rs : list request) (disk : Z → list Z) : (Z → list Z) * list (outcome BlockError (list Z)) :=
  match rs with
  | [] => (disk, [])
  | r :: rs =>
      let '(disk, o) := spec_step r disk in
      let '(disk, os) := spec_run rs disk in (disk, o :: os)
  end.
End spec.

(** The same requests on a block device. *)
Section device.
Context {D : Type} `{!BlockDevice D}.

Definition device_step (r : request) (d : D) : D * outcome BlockError (list Z) :=
  match r with
  | Rq_read lba buf => read_blocks lba buf d
  | Rq_write lba buf => (_ ← write_blocks lba buf; mret []) d
  end.

Fixpoint device_run (rs : list request) (d : D) : D * list (outcome BlockError (list Z)) :=
  match rs with
  | [] => (d, [])
  | r :: rs =>
      let '(d, o) := device_step r d in
      let '(d, os) := device_run rs d in (d, o :: os)
  end.
End device.
