(* ===== verification/AhciFacts.v ===== *)
(** * The AHCI driver: facts

    What the driver touches, that it always ends, the command a controller
    reads out of the memory the driver has filled, and the disk a port
    implements on a controller that meets [AhciHba]. *)

From S2P Require Import Prelude Bytes BlockDev Mmio PciFacts Frames Dma Ahci AhciHba.

(** ** Footprint *)

Definition in_page (b : DmaBuffer) (a n : Z) : Prop := db_virt b ≤ a ∧ a + n ≤ db_virt b + 4096.

(** The accesses a port is entitled to: its task file and doorbell, the
    doorbell rung with slot 0 only, bytes inside its own pages. *)
Definition port_access (self : PortState) (x : access) : Prop :=
  match x with
  | Acc_read n a => n = 4 ∧ (a = port_base self +w PORT_TFD ∨ a = port_base self +w PORT_CI)
  | Acc_write n a v => n = 4 ∧ a = port_base self +w PORT_CI ∧ v = 1
  | Acc_load a n => in_page (data_buf self) a n ∨ in_page (cmd_table_buf self) a n
  | Acc_store a b => bytes_ok b ∧
      (in_page (cmd_list_buf self) a (len b) ∨ in_page (cmd_table_buf self) a (len b) ∨ in_page (data_buf self) a (len b))
  end.

Section footprint.
Context {W : Type} {mmio : Mmio W} {ram : Ram W} {dma : DmaAllocator W}.

Local Ltac page_access :=
  cbn [port_access]; unfold in_page; rewrite ?length_to_le, ?length_zeros;
  unfold CommandHeader.flags, CommandHeader.prdtl, CommandHeader.prdbc, CommandHeader.ctba, CommandHeader.ctbau,
    CommandHeader.reserved, CommandTable.cfis, CommandTable.prdt, PrdtEntry.dba, PrdtEntry.dbau, PrdtEntry.reserved,
    PrdtEntry.dbc, FisRegH2D.fis_type, FisRegH2D.pmport, FisRegH2D.command, FisRegH2D.device, FisRegH2D.lba0,
    FisRegH2D.lba1, FisRegH2D.lba2, FisRegH2D.lba3, FisRegH2D.lba4, FisRegH2D.lba5, FisRegH2D.countl, FisRegH2D.counth,
    SECTOR_SIZE;
  first [lia | split; [eauto with bytes|lia] | auto].

Lemma setup_stays self command lba count wr :
  stays (W:=W) (port_access self) (setup_command self command lba count wr).
Proof.
  unfold setup_command, setup_header, setup_fis, setup_prdt, mstore_le, mzero, mload_le.
  repeat stays_step; page_access.
Qed.

Lemma issue_stays self command lba count wr :
  stays (W:=W) (port_access self) (issue_command self command lba count wr).
Proof.
  unfold issue_command, wait_for_clear. 
  repeat lazymatch goal with
  | |- stays _ (setup_command _ _ _ _ _) => apply setup_stays
  | _ => stays_step
  end; cbn [port_access]; auto.
Qed.
End footprint.

(** ** The command in memory *)

(** The pages of a port: aligned frames, seen by the CPU at [off], no two the
    same. *)
Definition page_ok (off : Z) (b : DmaBuffer) : Prop :=
  0 ≤ db_phys b ∧ db_phys b mod 4096 = 0 ∧ db_phys b + 4096 ≤ 2 ^ 64 ∧ db_virt b = db_phys b + off.
Definition pages_apart (a b : DmaBuffer) : Prop := db_phys a + 4096 ≤ db_phys b ∨ db_phys b + 4096 ≤ db_phys a.

Record port_ok (off : Z) (self : PortState) : Prop := {
  po_list : page_ok off (cmd_list_buf self);
  po_table : page_ok off (cmd_table_buf self);
  po_rfis : page_ok off (rfis_buf self);
  po_data : page_ok off (data_buf self);
  po_list_table : pages_apart (cmd_list_buf self) (cmd_table_buf self);
  po_list_rfis : pages_apart (cmd_list_buf self) (rfis_buf self);
  po_list_data : pages_apart (cmd_list_buf self) (data_buf self);
  po_table_rfis : pages_apart (cmd_table_buf self) (rfis_buf self);
  po_table_data : pages_apart (cmd_table_buf self) (data_buf self);
  po_rfis_data : pages_apart (rfis_buf self) (data_buf self);
}.

Section setup.
Context {W : Type} {mmio : Mmio W} {ram : Ram W} {ram_ok : RamOk W}.
Implicit Types w : W.

Lemma phys_le_mem off w n p : phys_le (λ p, byte w (p + off)) n p = mem_le w n (p + off).
Proof.
  unfold phys_le, mem_le, mem_at. f_equal. rewrite (Z.add_comm p off), <- fmap_add_seqZ, <- list_fmap_compose.
  apply list_fmap_ext. intros _ x _. unfold compose. f_equal. lia.
Qed.

Lemma header_run self wr w :
  let H := db_virt (cmd_list_buf self) in
  ∃ w', setup_header self wr w = (w', Ok ()) ∧
    mem_le w' 2 H = (if wr then 0x44 else 0x04) ∧ mem_le w' 2 (H + 2) = 1 ∧
    mem_le w' 4 (H + 8) = low_u32 (db_phys (cmd_table_buf self)) ∧
    mem_le w' 4 (H + 12) = high_u32 (db_phys (cmd_table_buf self)) ∧
    ∀ x, ¬ (H ≤ x < H + 32) → byte w' x = byte w x.
Proof.
  intros H. unfold setup_header, mstore_le, mzero. rewrite !bind_mstore.
  unfold CommandHeader.flags, CommandHeader.prdtl, CommandHeader.prdbc, CommandHeader.ctba, CommandHeader.ctbau,
    CommandHeader.reserved. fold H. rewrite Z.add_0_r.
  eexists. split; [reflexivity|]. split; [|split; [|split; [|split]]]; [mem_read..|].
  - by destruct wr.
  - done.
  - unfold low_u32, wrap. by rewrite Z.mod_mod.
  - unfold high_u32, wrap. by rewrite Z.mod_mod.
  - intros x Hx. by mem_frame.
Qed.

Lemma fis_run self command lba count w :
  let T := db_virt (cmd_table_buf self) in
  ∃ w', setup_fis self command lba count w = (w', Ok ()) ∧
    mem_le w' 1 T = 0x27 ∧ mem_le w' 1 (T + 1) = 0x80 ∧ mem_le w' 1 (T + 2) = command mod 256 ∧
    mem_le w' 1 (T + 4) = lba mod 256 ∧ mem_le w' 1 (T + 5) = lba / 2 ^ 8 mod 256 ∧
    mem_le w' 1 (T + 6) = lba / 2 ^ 16 mod 256 ∧
    Z.land (mem_le w' 1 (T + 7)) 0xF = lba / 2 ^ 24 mod 16 ∧
    mem_le w' 1 (T + 12) = count mod 256 ∧
    ∀ x, ¬ (T ≤ x < T + 256) → byte w' x = byte w x.
Proof.
  intros T. unfold setup_fis, mstore_le, mzero. rewrite !bind_mstore.
  unfold CommandTable.cfis, FisRegH2D.fis_type, FisRegH2D.pmport, FisRegH2D.command, FisRegH2D.device, FisRegH2D.lba0,
    FisRegH2D.lba1, FisRegH2D.lba2, FisRegH2D.lba3, FisRegH2D.lba4, FisRegH2D.lba5, FisRegH2D.countl, FisRegH2D.counth.
  fold T. rewrite !Z.add_0_r.
  assert (Hb : ∀ x, Z.land x 0xFF = x mod 2 ^ 8) by (intros x; apply (Z.land_ones x 8); lia).
  eexists. split; [reflexivity|]. split; [|split; [|split; [|split; [|split; [|split; [|split; [|split]]]]]]]; [mem_read..|].
  - done.
  - done.
  - done.
  - rewrite Hb. unfold wrap. change (2 ^ (8 * 1)) with (2 ^ 8). by rewrite !Z.mod_mod.
  - rewrite Hb. unfold wrap. rewrite Z.shiftr_div_pow2 by lia. change (2 ^ (8 * 1)) with (2 ^ 8). by rewrite !Z.mod_mod.
  - rewrite Hb. unfold wrap. rewrite Z.shiftr_div_pow2 by lia. change (2 ^ (8 * 1)) with (2 ^ 8). by rewrite !Z.mod_mod.
  - unfold wrap. change 0xF with (Z.ones 4). rewrite !Z.land_ones, Z.shiftr_div_pow2 by lia.
    rewrite (Z.mod_small (_ mod 2 ^ 4)) by (pose proof (Z.mod_pos_bound (lba / 2 ^ 24) (2 ^ 4)); lia).
    rewrite <- (Z.land_ones _ (8 * 1)), <- !Z.land_ones by lia. rewrite <- Z.land_assoc, (Z.land_comm (Z.ones (8 * 1))).
    change (Z.land (Z.ones 4) (Z.ones (8 * 1))) with (Z.ones 4).
    rewrite Z.land_lor_distr_l, <- Z.land_assoc, Z.land_diag.
    change (Z.land 64 (Z.ones 4)) with 0. by rewrite Z.lor_0_l, Z.land_ones by lia.
  - rewrite Hb. unfold wrap. change (2 ^ (8 * 1)) with (2 ^ 8). by rewrite !Z.mod_mod.
  - intros x Hx. by mem_frame.
Qed.

Lemma prdt_run self count w :
  let P := db_virt (cmd_table_buf self) + 128 in
  1 ≤ count ≤ 8192 →
  ∃ w', setup_prdt self count w = (w', Ok ()) ∧
    mem_le w' 4 P = low_u32 (db_phys (data_buf self)) ∧ mem_le w' 4 (P + 4) = high_u32 (db_phys (data_buf self)) ∧
    Z.land (mem_le w' 4 (P + 12)) 0x3FFFFF + 1 = count * 512 ∧
    ∀ x, ¬ (P ≤ x < P + 16) → byte w' x = byte w x.
Proof.
  intros P Hc. unfold setup_prdt, mstore_le. rewrite !bind_mstore.
  rewrite (st_bind_Ok _ _ _ _ _ (mload_le_run _ _ _)).
  unfold CommandTable.prdt, PrdtEntry.dba, PrdtEntry.dbau, PrdtEntry.reserved, PrdtEntry.dbc, SECTOR_SIZE. fold P.
  rewrite !Z.add_0_r. change (Z.of_nat 4) with 4.
  eexists. split; [reflexivity|]. split; [|split; [|split]]; [mem_read..|].
  - unfold low_u32, wrap. by rewrite Z.mod_mod.
  - unfold high_u32, wrap. by rewrite Z.mod_mod.
  - unfold wrap. change (8 * 4) with 32. rewrite (Z.mod_small (count * 512)), (Z.mod_small (count * 512 - 1)) by lia.
    rewrite (Z.mod_small (count * 512 - 1)) by lia.
    rewrite <- (Z.land_ones _ 32) by lia. rewrite <- Z.land_assoc. change (Z.land (Z.ones 32) 0x3FFFFF) with (Z.ones 22).
    rewrite Z.land_lor_distr_l. change (Z.land 0x80000000 (Z.ones 22)) with 0. rewrite Z.lor_0_r, Z.land_ones by lia.
    rewrite Z.mod_small by lia. lia.
  - intros x Hx. by mem_frame.
Qed.

Lemma setup_preserves (I : W → Prop) self command lba count wr :
  (∀ a b w, I w → bytes_ok b → I (store a b w)) → preserves I (setup_command self command lba count wr).
Proof.
  intros HI. unfold setup_command, setup_header, setup_fis, setup_prdt, mstore_le, mzero, mload_le.
  repeat preserves_step; eauto with bytes.
Qed.

Lemma split_u64 p : 0 ≤ p < 2 ^ 64 → low_u32 p + 2 ^ 32 * high_u32 p = p.
Proof.
  intros Hp. unfold low_u32, high_u32, wrap. rewrite Z.shiftr_div_pow2 by lia.
  rewrite (Z.mod_small (p / 2 ^ 32)) by (split; [apply Z.div_pos|apply Z.div_lt_upper_bound]; lia).
  pose proof (Z.div_mod p (2 ^ 32)). lia.
Qed.

Lemma lba28 lba : 0 ≤ lba →
  lba mod 256 + 2 ^ 8 * (lba / 2 ^ 8 mod 256) + 2 ^ 16 * (lba / 2 ^ 16 mod 256) + 2 ^ 24 * (lba / 2 ^ 24 mod 16)
  = lba mod 2 ^ 28.
Proof.
  intros H. change (2 ^ 28) with (256 * (256 * (256 * 16))). rewrite !Z.rem_mul_r by lia.
  rewrite !Z.div_div by lia. change (2 ^ 8) with 256. change (2 ^ 16) with (256 * 256).
  change (2 ^ 24) with (256 * 256 * 256). lia.
Qed.

Definition issued (self : PortState) (command lba count : Z) (wr : bool) : HbaCommand := {|
  hc_opcode := command; hc_lba := lba mod 2 ^ 28; hc_count := count mod 256; hc_write := wr;
  hc_address := db_phys (data_buf self); hc_bytes := count * 512 |}.

(** What the controller fetches is what the driver was asked for. *)
Lemma setup_fetched off self command lba count wr w :
  port_ok off self → 0 ≤ command < 256 → 0 ≤ lba → 1 ≤ count ≤ 8192 →
  ∃ w', setup_command self command lba count wr w = (w', Ok ()) ∧
    fetch_command (λ p, byte w' (p + off)) (db_phys (cmd_list_buf self)) = Some (issued self command lba count wr) ∧
    ∀ x, ¬ in_page (cmd_list_buf self) x 1 → ¬ in_page (cmd_table_buf self) x 1 → byte w' x = byte w x.
Proof.
  intros [[? [? [? HL]]] [? [Ha [? HT]]] _ [? [? [? _]]] Hlt _ _ _ _ _] Hcmd Hlba Hc. unfold pages_apart in Hlt.
  assert (HT128 : db_phys (cmd_table_buf self) mod 128 = 0).
  { change 128 with (2 ^ 7). rewrite <- (mod_mod_pow2 _ 7 12) by lia. change (2 ^ 12) with 4096. by rewrite Ha. }
  unfold setup_command.
  destruct (header_run self wr w) as (w1&R1&Hf1&Hp1&Ht1&Hu1&Hfr1). rewrite (st_bind_Ok _ _ _ _ _ R1).
  destruct (fis_run self command lba count w1) as (w2&R2&F0&F1&F2&F4&F5&F6&F7&F12&Hfr2).
  rewrite (st_bind_Ok _ _ _ _ _ R2).
  destruct (prdt_run self count w2 Hc) as (w3&R3&Hd&Hdu&Hb&Hfr3).
  exists w3. split; [done|]. split; [|intros x HxL HxT; unfold in_page in *; rewrite Hfr3, Hfr2, Hfr1 by lia; done].
  set (L := db_phys (cmd_list_buf self)) in *. set (T := db_phys (cmd_table_buf self)) in *.
  assert (Hlist : ∀ n p, L ≤ p → p + n ≤ L + 4096 → mem_le w3 n (p + off) = mem_le w1 n (p + off)).
  { intros n p ??. rewrite (mem_le_eq w2 w3), (mem_le_eq w1 w2); [done|intros x ?; apply Hfr2; lia|intros x ?; apply Hfr3; lia]. }
  assert (Hfis : ∀ n p, T ≤ p → p + n ≤ T + 128 → mem_le w3 n (p + off) = mem_le w2 n (p + off)).
  { intros n p ??. apply mem_le_eq. intros x ?. apply Hfr3. lia. }
  unfold fetch_command. rewrite !phys_le_mem. rewrite !Hlist by lia.
  replace (L + off) with (db_virt (cmd_list_buf self)) by lia.
  replace (L + 2 + off) with (db_virt (cmd_list_buf self) + 2) by lia.
  replace (L + 8 + off) with (db_virt (cmd_list_buf self) + 8) by lia.
  replace (L + 12 + off) with (db_virt (cmd_list_buf self) + 12) by lia.
  rewrite Hf1, Hp1, Ht1, Hu1, split_u64 by lia. fold T.
  rewrite HT128, !Hfis by lia.
  replace (T + 0 + off) with (db_virt (cmd_table_buf self)) by lia.
  assert (He : ∀ n, T + n + off = db_virt (cmd_table_buf self) + n) by lia.
  rewrite !He. rewrite F0, F1, F2, F4, F5, F6, F7, F12.
  replace (T + 128 + off) with (db_virt (cmd_table_buf self) + 128) by lia.
  replace (T + 128 + 4 + off) with (db_virt (cmd_table_buf self) + 128 + 4) by lia.
  replace (T + 128 + 12 + off) with (db_virt (cmd_table_buf self) + 128 + 12) by lia.
  rewrite Hd, Hdu, Hb, split_u64, lba28, (Z.mod_small command) by lia. by destruct wr.
Qed.
End setup.

(** ** The port as a disk *)

Section refine.
Context {W : Type} {mmio : Mmio W} {ram : Ram W} {ram_ok : RamOk W} {dma : DmaAllocator W}.
Context (off : Z) (self : PortState) (Hport : port_ok off self).
Context {hba : AhciHba W off (port_base self) (db_phys (cmd_list_buf self)) (db_phys (rfis_buf self))}.
Implicit Types w : W.

Definition ahci_sim (disk : Z → list Z) (w : W) : Prop := hba_idle w ∧ ∀ s, hba_sector w s = disk s.

Lemma sim_store disk w a b : ahci_sim disk w → bytes_ok b → ahci_sim disk (store a b w).
Proof using hba.
  intros [Hi Hs] Hb. destruct (hba_store w a b Hi Hb) as [Hi' Hs'].
  split; [done|]. intros s. by rewrite Hs', Hs.
Qed.

Definition opcode_of (wr : bool) : Z := if wr then ATA_CMD_WRITE_SECTORS else ATA_CMD_READ_SECTORS.

(** Up to the doorbell: the port is ready, the command is in memory. *)
Lemma issue_prepared disk lba wr w :
  0 ≤ lba → ahci_sim disk w →
  ∃ w1, ahci_sim disk w1 ∧
    fetch_command (λ p, byte w1 (p + off)) (db_phys (cmd_list_buf self)) = Some (issued self (opcode_of wr) lba 1 wr) ∧
    mem_at w1 (db_virt (data_buf self)) 512 = mem_at w (db_virt (data_buf self)) 512 ∧
    issue_command self (opcode_of wr) lba 1 wr w =
      (mwrite 4 (port_base self +w PORT_CI) 0x01;;
       done ← wait_for_clear (port_base self +w PORT_CI) 0x01 5000000;
       if negb done then fail Blk_Timeout else
       tfd_val ← mread 4 (port_base self +w PORT_TFD);
       if negb (Z.land tfd_val 0x01 =? 0) || negb (Z.land tfd_val 0x20 =? 0) then fail Blk_DeviceError else
       mret ()) w1.
Proof using hba Hport.
  intros Hlba [Hi Hs]. destruct (hba_ready w Hi) as (k&w0&Hk&Hset&Hi0&Hb0&Hs0).
  assert (Hsim0 : ahci_sim disk w0) by (split; [done|intros s; by rewrite Hs0, Hs]).
  destruct (setup_fetched off self (opcode_of wr) lba 1 wr w0) as (w1&Hrun&Hf&Hfr); [done|by destruct wr|done|lia|].
  exists w1. split; [|split; [done|split]].
  - pose proof (setup_preserves (ahci_sim disk) self (opcode_of wr) lba 1 wr) as Hp.
    specialize (Hp ltac:(intros; by apply sim_store) w0 Hsim0). by rewrite Hrun in Hp.
  - destruct Hport as [HL HT _ HD _ _ Hld _ Htd _]. unfold page_ok, pages_apart, in_page in *.
    rewrite <- (mem_at_eq w w0) by (intros; apply Hb0). apply mem_at_eq. intros x Hx. apply Hfr; lia.
  - unfold issue_command, wait_for_clear. change (u32 (500000 * 100)) with 50000000.
    rewrite (st_bind_Ok _ _ _ _ _ (wait_settles k _ _ _ w w0 Hset Hk)).
    cbn [negb]. by rewrite (st_bind_Ok _ _ _ _ _ Hrun).
Qed.

Lemma issue_sector disk lba wr w :
  0 ≤ lba → ahci_sim disk w →
  let s := lba mod 2 ^ 28 in
  ∃ w', issue_command self (opcode_of wr) lba 1 wr w =
          (w', if decide (s < hba_sectors) then Ok () else Err Blk_DeviceError) ∧
    (s < hba_sectors → ahci_sim (λ t, if decide (wr = true ∧ t = s) then mem_at w (db_virt (data_buf self)) 512 else disk t) w' ∧
       (wr = false → mem_at w' (db_virt (data_buf self)) 512 = disk s)) ∧
    (hba_sectors ≤ s → ahci_sim disk w').
Proof using hba Hport.
  intros Hlba Hsim s. destruct (issue_prepared disk lba wr w Hlba Hsim) as (w1&[Hi1 Hs1]&Hf&Hdata&->).
  assert (Hvirt : db_phys (data_buf self) + off = db_virt (data_buf self)) by (destruct (po_data _ _ Hport) as (_&_&_&?); lia).
  assert (H1 : one_sector (issued self (opcode_of wr) lba 1 wr) (opcode_of wr) s wr) by by split_and!.
  assert (Hop : opcode_of wr = if wr then 0x30 else 0x20) by by destruct wr.
  rewrite bind_mwrite. unfold wait_for_clear. change (u32 (5000000 * 100)) with 500000000.
  destruct (decide (s < hba_sectors)) as [Hlt|Hge].
  - destruct (hba_execute w1 _ _ s wr Hi1 Hf H1 Hop) as (k&w2&w3&tfd&Hk&Hset&Htfd&He&Hd&Hi3&Hs3&Hr3&_);
      [pose proof (Z.mod_pos_bound lba (2 ^ 28)); lia|].
    exists w3. cbn [hc_address issued] in *. rewrite Hvirt in *.
    rewrite (st_bind_Ok _ _ _ _ _ (wait_settles k _ _ _ _ w2 Hset Hk)). cbn [negb].
    rewrite (bind_mread _ _ _ _ _ _ Htfd), He, Hd. split; [done|]. split; [|lia].
    intros _. split; [split; [done|]|].
    + intros t. rewrite Hs3. destruct (decide (wr = true ∧ t = s)); [done|apply Hs1].
    + intros Hwr. by rewrite Hr3, Hs1.
  - destruct (hba_reject w1 _ _ s wr Hi1 Hf H1 Hop) as (k&w2&w3&tfd&Hk&Hset&Htfd&He&Hi3&Hs3&_); [lia|].
    exists w3. rewrite (st_bind_Ok _ _ _ _ _ (wait_settles k _ _ _ _ w2 Hset Hk)). cbn [negb].
    rewrite (bind_mread _ _ _ _ _ _ Htfd), He. split; [done|]. split; [lia|].
    intros _. split; [done|]. intros t. by rewrite Hs3, Hs1.
Qed.

Lemma read_blocks_run a lba buf w :
  read_blocks lba buf (a, w) =
    let '(w', r) := ahci_read_sectors (ap_state a) lba buf w in ((a, w'), map_err (λ _, Blk_ReadError) r).
Proof. cbn. rewrite bind_get_st. unfold st_map_err, on_snd. cbn. by destruct (ahci_read_sectors _ _ _ w). Qed.
Lemma write_blocks_run a lba buf w :
  write_blocks lba buf (a, w) =
    let '(w', r) := ahci_write_sectors (ap_state a) lba buf w in ((a, w'), map_err (λ _, Blk_WriteError) r).
Proof. cbn. rewrite bind_get_st. unfold st_map_err, on_snd. cbn. by destruct (ahci_write_sectors _ _ _ w). Qed.

Lemma ahci_step a r disk w :
  ap_state a = self → request_ok r → ahci_sim disk w →
  ∃ w', device_step r (a, w) = ((a, w'), (spec_step hba_sectors r disk).2) ∧
    ahci_sim (spec_step hba_sectors r disk).1 w'.
Proof using hba Hport.
  intros Ha Hr Hsim. pose proof (po_data _ _ Hport) as (_&_&_&Hv).
  destruct r as [lba buf|lba buf]; destruct Hr as [[Hl _] Hb]; cbn [device_step spec_step];
    rewrite ?st_bind_unfold, ?read_blocks_run, ?write_blocks_run, Ha.
  - unfold ahci_read_sectors, SECTOR_SIZE.
    destruct (Z.ltb_spec (len buf) 512); [rewrite (proj2 (Z.leb_gt 512 (len buf))) by lia; by exists w|].
    rewrite (proj2 (Z.leb_le 512 (len buf))) by lia. cbn [andb].
    destruct (issue_sector disk lba false w Hl Hsim) as (w'&Hrun&Hok&Hpast). exists w'.
    destruct (Z.ltb_spec (lba mod 2 ^ 28) hba_sectors) as [Hlt|Hge]; [rewrite decide_True in Hrun by done|rewrite decide_False in Hrun by lia].
    + destruct (Hok Hlt) as [[? Hs'] Hd]. rewrite (st_bind_Ok _ _ _ _ _ Hrun), (st_bind_Ok _ _ _ _ _ (mload_run _ _ _)), Hd by done.
      split; [done|]. split; [done|]. intros t. rewrite Hs'. by rewrite decide_False by by intros [[=] _].
    + rewrite (st_bind_Err _ _ _ _ _ Hrun). split; [done|by apply Hpast].
  - unfold ahci_write_sectors, SECTOR_SIZE.
    destruct (Z.ltb_spec (len buf) 512); [rewrite (proj2 (Z.leb_gt 512 (len buf))) by lia; by exists w|].
    rewrite (proj2 (Z.leb_le 512 (len buf))) by lia. cbn [andb]. rewrite bind_mstore.
    assert (Hsub : bytes_ok (sub 0 512 buf)) by by apply bytes_ok_sub.
    assert (Hsim1 : ahci_sim disk (store (db_virt (data_buf self)) (sub 0 512 buf) w)) by by apply sim_store.
    destruct (issue_sector disk lba true _ Hl Hsim1) as (w'&Hrun&Hok&Hpast). exists w'.
    rewrite mem_at_store in Hok by (done || (rewrite len_sub; lia)). cbn [opcode_of] in Hrun.
    destruct (Z.ltb_spec (lba mod 2 ^ 28) hba_sectors) as [Hlt|Hge]; [rewrite decide_True in Hrun by done|rewrite decide_False in Hrun by lia]; rewrite Hrun.
    + destruct (Hok Hlt) as [[Hi Hs'] _]. split; [done|]. split; [done|]. intros t. rewrite Hs'. cbn [fst].
      destruct (decide (true = true ∧ t = lba mod 2 ^ 28)), (decide (t = lba mod 2 ^ 28)); naive_solver.
    + split; [done|by apply Hpast].
Qed.

(** C6: On a controller that behaves as the specification says, a port is a
    disk of sectors: any sequence of one-sector reads and writes gives the
    results the abstract disk gives, and leaves the medium with its contents.
    Larger buffers are only filled, or written from, in their first 512
    bytes, and the address counts modulo 2^28. *)
Theorem ahci_refines_disk a rs disk w :
  ap_state a = self → Forall request_ok rs → ahci_sim disk w →
  ∃ w', device_run rs (a, w) = ((a, w'), (spec_run hba_sectors rs disk).2) ∧
    ahci_sim (spec_run hba_sectors rs disk).1 w'.
Proof using hba Hport.
  intros Ha Hrs. revert disk w. induction Hrs as [|r rs Hr _ IH]; intros disk w Hsim; [by exists w|].
  destruct (ahci_step a r disk w Ha Hr Hsim) as (w1&H1&Hs1). cbn [device_run spec_run]. rewrite H1.
  destruct (spec_step hba_sectors r disk) as [d1 o]. destruct (IH d1 w1 Hs1) as (w2&H2&Hs2).
  exists w2. cbn [fst snd] in *. rewrite H2. by destruct (spec_run hba_sectors rs d1).
Qed.
End refine.

(** ** Any hardware

    What the driver does whatever the registers answer. *)

Section any.
Context {W : Type} {mmio : Mmio W} {ram : Ram W} {dma : DmaAllocator W}.

(** C25: Every access of a port's operations is one it is entitled to. The
    registers are read and written 32 bits at a time, and are the port's task
    file and doorbell; memory is touched inside the port's own pages, and every
    value stored is a byte. *)
Theorem ahci_accesses self lba buf :
  bytes_ok buf →
  stays (W:=W) (port_access self) (ahci_read_sectors self lba buf) ∧
  stays (W:=W) (port_access self) (ahci_write_sectors self lba buf) ∧
  stays (W:=W) (port_access self) (identify self).
Proof.
  intros Hbuf. unfold ahci_read_sectors, ahci_write_sectors, identify, SECTOR_SIZE.
  split; [|split]; [destruct (Z.ltb_spec (len buf) 512)..|];
    repeat lazymatch goal with
    | |- stays _ (issue_command _ _ _ _ _) => apply issue_stays
    | _ => stays_step
    end; cbn [port_access]; unfold in_page; try lia.
  split; [by apply bytes_ok_sub|]. rewrite len_sub by lia. lia.
Qed.

Lemma until_log {E} n a test (l : Logged W) :
  ∃ reads l' b, until (E:=E) n (poll a test) l = (l', Ok b) ∧ log l' = reads ++ log l ∧
    Forall (eq (Acc_read 4 a)) reads ∧ Z.of_nat (length reads) ≤ Z.max 0 n.
Proof.
  rewrite until_eq. assert (Hn : Z.of_nat (Z.to_nat n) = Z.max 0 n) by lia. rewrite <- Hn. clear Hn.
  revert l. induction (Z.to_nat n) as [|k IH]; intros l; cbn [until_nat].
  - exists [], l, false. split_and!; [done|done|constructor|done].
  - rewrite st_bind_unfold. destruct (read_volatile 4 a l) as [l1 v] eqn:Hr. rewrite (poll_run a test l l1 v Hr).
    assert (Hl1 : log l1 = Acc_read 4 a :: log l).
    { cbn in Hr. destruct (read_volatile 4 a (machine l)). by simplify_eq. }
    destruct (test v).
    + exists [Acc_read 4 a], l1, true. split_and!; [done|done|by constructor|cbn; lia].
    + destruct (IH (elapse l1)) as (reads&l'&b&Hrun&Hlog&Hall&Hlen).
      exists (reads ++ [Acc_read 4 a]), l', b. split_and!; [done| | |rewrite length_app; cbn; lia].
      * rewrite Hlog. cbn [log elapse Logged_Ram]. by rewrite Hl1, <- app_assoc.
      * apply Forall_app. split; [done|by constructor].
Qed.

Definition mem_access (x : access) : Prop := match x with Acc_load _ _ | Acc_store _ _ => True | _ => False end.

Lemma setup_total self command lba count wr (l : Logged W) :
  ∃ l' setup, setup_command self command lba count wr l = (l', Ok ()) ∧ log l' = setup ++ log l ∧ Forall mem_access setup.
Proof.
  assert (Hs : stays (W:=W) mem_access (setup_command self command lba count wr)).
  { unfold setup_command, setup_header, setup_fis, setup_prdt, mstore_le, mzero, mload_le.
    repeat stays_step; exact I. }
  assert (Hok : ∃ l', setup_command self command lba count wr l = (l', Ok ())).
  { unfold setup_command, setup_header, setup_fis, setup_prdt, mstore_le, mzero, mload_le.
    repeat first [rewrite bind_mstore | rewrite st_bind_assoc]. unfold mload at 1.
    rewrite st_bind_unfold. destruct (load _ _ _). by eexists. }
  destruct Hok as [l' Hrun]. destruct (Hs l) as (setup&Hlog&Hall). rewrite Hrun in Hlog. by exists l', setup.
Qed.

End any.

(** ** The controller *)

Section init.
Context {W : Type} {mmio : Mmio W} {ram : Ram W} {dma : DmaAllocator W}.
Implicit Types w : W.

(** What the loop over the ports makes sure of before it keeps a port. *)
Definition port_found (mmio_base pi : Z) (p : AhciPortWrapper) : Prop :=
  0 ≤ port_idx p < 32 ∧ Z.testbit pi (port_idx p) = true ∧
  port_base (ap_state p) = mmio_base +w HBA_PORTS +w port_idx p *w PORT_SIZE ∧
  ¬ ap_sector_count p = 0 ∧
  ∃ w ssts, (read_volatile 4 (port_base (ap_state p) +w PORT_SSTS) w).2 = ssts ∧
    (Z.land ssts 0xF = 1 ∨ Z.land ssts 0xF = 3) ∧ Z.land (Z.shiftr ssts 8) 0xF = 1.

Lemma port_init_base mmio_base i w w' s :
  PortState_init mmio_base i w = (w', Ok s) → port_base s = mmio_base +w HBA_PORTS +w i *w PORT_SIZE.
Proof.
  unfold PortState_init. cbv zeta. intros H.
  repeat lazymatch type of H with
  | (mbind _ _) _ = _ => apply st_bind_Ok_inv in H as (?&?&_&H); cbv beta in H
  | (if ?b then _ else _) _ = _ => destruct b
  end; [discriminate H..|]. by injection H as <- <-.
Qed.

Lemma identify_count_nonzero {E} port w w' n :
  identify_sector_count (E:=E) port w = (w', Ok n) → ¬ default 131071 n = 0.
Proof.
  unfold identify_sector_count. intros (?&o&_&H)%st_bind_Ok_inv. destruct o as [buf|]; injection H as <- <-; [|done].
  by destruct (Z.eqb_spec (Z.lor (from_le (sub 200 2 buf)) (Z.shiftl (from_le (sub 202 2 buf)) 16)) 0).
Qed.

Lemma probe_port_found {E} mmio_base pi i w w' p :
  0 ≤ i < 32 → probe_port (E:=E) mmio_base pi i w = (w', Ok (Some p)) → port_found mmio_base pi p ∧ port_idx p = i.
Proof.
  intros Hi. unfold probe_port. destruct (Z.eqb_spec (Z.land pi (u32 (Z.shiftl 1 i))) 0) as [|Hpi]; [done|].
  intros (w1&ssts&Hr&H)%st_bind_Ok_inv.
  assert (Hbit : Z.testbit pi i = true).
  { destruct (Z.testbit pi i) eqn:Hb; [done|]. destruct Hpi.
    rewrite Z.shiftl_1_l, wrap_small by (split; [lia|apply Z.pow_lt_mono_r; lia]).
    apply Z.bits_inj'. intros n Hn. rewrite Z.land_spec, Z.pow2_bits_eqb, Z.bits_0 by lia.
    destruct (Z.eqb_spec i n) as [<-|]; [by rewrite Hb|by rewrite andb_false_r]. }
  assert (Hdet : ∀ x, negb (x =? 1) && negb (x =? 3) = false → x = 1 ∨ x = 3) by (intros x Hx; lia).
  destruct (negb (Z.land ssts 15 =? 1) && _) eqn:H1; [done|].
  destruct (negb (Z.land (Z.shiftr ssts 8) 15 =? 1)) eqn:H2; [done|].
  apply st_bind_Ok_inv in H as (w2&o&Hinit&H). destruct o as [state|]; [|discriminate H].
  apply st_bind_Ok_inv in H as (w3&n&Hn&H). injection H as <- <-. cbn.
  assert (Hbase : port_base state = mmio_base +w HBA_PORTS +w i *w PORT_SIZE).
  { unfold st_ok in Hinit. destruct (PortState_init mmio_base i w1) as [? []] eqn:Hp; simplify_eq/=.
    by apply port_init_base in Hp. }
  split; [|done]. unfold port_found. cbn.
  split; [done|]. split; [done|]. split; [done|]. split; [by eapply identify_count_nonzero|].
  exists w, ssts. rewrite Hbase. split; [|split; [by apply Hdet|by destruct (Z.eqb_spec (Z.land (Z.shiftr ssts 8) 15) 1)]].
  unfold mread in Hr. change HBA_PORTS with 0x100. change PORT_SIZE with 0x80.
  destruct (read_volatile 4 _ w). by simplify_eq.
Qed.

Lemma ports_loop_found {E} mmio_base pi n k ports w w' found :
  0 ≤ k → k + Z.of_nat n = 32 →
  StronglySorted (λ p q, port_idx p < port_idx q) ports →
  Forall (λ p, port_found mmio_base pi p ∧ port_idx p < k) ports →
  ports_loop (E:=E) mmio_base pi (seqZ k (Z.of_nat n)) ports w = (w', Ok found) →
  StronglySorted (λ p q, port_idx p < port_idx q) found ∧ Forall (port_found mmio_base pi) found.
Proof.
  revert k ports w. induction n as [|n IH]; intros k ports w Hk0 Hk Hs Hf.
  - intros H. injection H as <- <-. split; [done|]. eapply Forall_impl; [done|]. naive_solver.
  - rewrite seqZ_cons by lia. cbn [ports_loop]. intros (w1&p&Hp&H)%st_bind_Ok_inv.
    replace (Z.pred (Z.of_nat (S n))) with (Z.of_nat n) in H by lia.
    revert H. apply IH; [lia..| |].
    + destruct p as [p|]; cbn [option_list]; [|by rewrite app_nil_r].
      apply probe_port_found in Hp as [_ Hidx]; [|lia].
      apply StronglySorted_app_2; [|done|by repeat constructor].
      intros x y Hx Hy%list_elem_of_singleton. subst y. rewrite Forall_forall in Hf. destruct (Hf x Hx). lia.
    + apply Forall_app. split; [eapply Forall_impl; [done|]; intros ? []; split; [done|lia]|].
      destruct p as [p|]; cbn; [|constructor]. apply probe_port_found in Hp as [? ?]; [|lia]. constructor; [split; [done|lia]|constructor].
Qed.

End init.
