(* ===== verification/AhciDemo.v ===== *)
(** * A small AHCI controller

    An executable controller with one port and a disk in memory. It meets the
    contract of [AhciHba], the driver finds and starts its port, and the theorems
    about the driver are applied to it. *)

From S2P Require Import Prelude Bytes Text BlockDev Mmio Frames Dma Ahci AhciHba AhciFacts.

Record SimHba := {
  sh_ram : gmap Z Z;     (** memory, by virtual address *)
  sh_disk : gmap Z Z;    (** the medium, byte by byte *)
  sh_clb : Z; sh_clbu : Z; sh_fb : Z; sh_fbu : Z; sh_cmd : Z;
  sh_wait : nat;         (** polls until the running command is over *)
  sh_err : bool;
  sh_next : Z;           (** the next free page *)
}.

Definition sim_off : Z := 2 ^ 40.
Definition sim_abar : Z := 2 ^ 41.
Definition sim_port : Z := sim_abar + 0x100.
Definition sim_sectors : Z := 4096.

(** The [n] bytes at [a] of a sparse store. *)
Definition bytes_of (m : gmap Z Z) (a n : Z) : list Z := (λ x, default 0 (m !! x) mod 256) <$> seqZ a n.

Definition with_ram (r : gmap Z Z) (h : SimHba) : SimHba := {|
  sh_ram := r; sh_disk := sh_disk h; sh_clb := sh_clb h; sh_clbu := sh_clbu h; sh_fb := sh_fb h; sh_fbu := sh_fbu h;
  sh_cmd := sh_cmd h; sh_wait := sh_wait h; sh_err := sh_err h; sh_next := sh_next h |}.
Definition with_regs (clb clbu fb fbu cmd : Z) (h : SimHba) : SimHba := {|
  sh_ram := sh_ram h; sh_disk := sh_disk h; sh_clb := clb; sh_clbu := clbu; sh_fb := fb; sh_fbu := fbu;
  sh_cmd := cmd; sh_wait := sh_wait h; sh_err := sh_err h; sh_next := sh_next h |}.
Definition with_done (r d : gmap Z Z) (wait : nat) (err : bool) (h : SimHba) : SimHba := {|
  sh_ram := r; sh_disk := d; sh_clb := sh_clb h; sh_clbu := sh_clbu h; sh_fb := sh_fb h; sh_fbu := sh_fbu h;
  sh_cmd := sh_cmd h; sh_wait := wait; sh_err := err; sh_next := sh_next h |}.
Definition with_next (n : Z) (h : SimHba) : SimHba := {|
  sh_ram := sh_ram h; sh_disk := sh_disk h; sh_clb := sh_clb h; sh_clbu := sh_clbu h; sh_fb := sh_fb h;
  sh_fbu := sh_fbu h; sh_cmd := sh_cmd h; sh_wait := sh_wait h; sh_err := sh_err h; sh_next := n |}.

Definition sim_clb (h : SimHba) : Z := sh_clb h + 2 ^ 32 * sh_clbu h.
Definition sim_fb (h : SimHba) : Z := sh_fb h + 2 ^ 32 * sh_fbu h.
Definition sim_mem (h : SimHba) (p : Z) : Z := default 0 (sh_ram h !! (p + sim_off)) mod 256.

(** IDENTIFY DEVICE: the number of sectors in words 100 and 101. *)
Definition identity : list Z := zeros 200 ++ to_le 4 sim_sectors ++ zeros 308.

Definition execute (h : SimHba) : SimHba :=
  match fetch_command (sim_mem h) (sim_clb h) with
  | Some c =>
      let a := hc_address c + sim_off in
      if hc_opcode c =? 0xEC then with_done (ram_store a identity (sh_ram h)) (sh_disk h) 2 false h else
      if sim_sectors <=? hc_lba c then with_done (sh_ram h) (sh_disk h) 2 true h else
      if hc_opcode c =? 0x20
      then with_done (ram_store a (bytes_of (sh_disk h) (512 * hc_lba c) 512) (sh_ram h)) (sh_disk h) 2 false h
      else with_done (sh_ram h) (ram_store (512 * hc_lba c) (bytes_of (sh_ram h) a 512) (sh_disk h)) 2 false h
  | None => with_done (sh_ram h) (sh_disk h) 2 true h
  end.

#[export] Instance sim_mmio : Mmio SimHba := {|
  read_volatile n a h := (h,
    if a =? sim_port + PORT_TFD then if sh_err h then 0x51 else 0x50 else
    if a =? sim_port + PORT_CI then if (sh_wait h =? 0)%nat then 0 else 1 else
    if a =? sim_port + PORT_CMD then
      Z.lor (sh_cmd h) (Z.lor (if Z.testbit (sh_cmd h) 4 then 0x4000 else 0) (if Z.testbit (sh_cmd h) 0 then 0x8000 else 0)) else
    if a =? sim_port + PORT_SSTS then 0x113 else
    if a =? sim_abar + HBA_PI then 1 else 0);
  write_volatile n a v h :=
    if a =? sim_port + PORT_CLB then with_regs v (sh_clbu h) (sh_fb h) (sh_fbu h) (sh_cmd h) h else
    if a =? sim_port + PORT_CLBU then with_regs (sh_clb h) v (sh_fb h) (sh_fbu h) (sh_cmd h) h else
    if a =? sim_port + PORT_FB then with_regs (sh_clb h) (sh_clbu h) v (sh_fbu h) (sh_cmd h) h else
    if a =? sim_port + PORT_FBU then with_regs (sh_clb h) (sh_clbu h) (sh_fb h) v (sh_cmd h) h else
    if a =? sim_port + PORT_CMD then with_regs (sh_clb h) (sh_clbu h) (sh_fb h) (sh_fbu h) (Z.land v 0x11) h else
    if a =? sim_port + PORT_CI then execute h else h;
|}.

(** [ram_store], one byte after the other. *)
Definition sim_put (a : Z) (b : list Z) (m : gmap Z Z) : gmap Z Z :=
  foldr (λ p, <[p.1 := p.2]>) m (zip (seqZ a (len b)) b).
Lemma sim_put_eq a b m : sim_put a b m = ram_store a b m.
Proof.
  unfold sim_put, ram_store. induction (zip _ b) as [|[i x] l IH]; cbn; [by rewrite left_id_L by apply _|].
  by rewrite IH, insert_union_l.
Qed.

#[export] Instance sim_ram : Ram SimHba := {|
  load a n h := (h, bytes_of (sh_ram h) a n);
  store a b h := with_ram (sim_put a b (sh_ram h)) h;
  elapse h := with_done (sh_ram h) (sh_disk h) (pred (sh_wait h)) (sh_err h) h;
|}.

#[export] Instance sim_dma : DmaAllocator SimHba := {|
  alloc E size align h :=
    (with_next (sh_next h + 4096) h, Ok (Some {| db_phys := sh_next h; db_virt := sh_next h + sim_off; db_size := 4096 |}));
  free E b h := (h, Ok ());
|}.

(** ** The contract *)

Lemma bytes_of_ok m a n : bytes_ok (bytes_of m a n).
Proof. apply Forall_fmap, Forall_true. intros x. apply Z.mod_pos_bound. lia. Qed.
Lemma length_bytes_of m a n : length (bytes_of m a n) = Z.to_nat n.
Proof. unfold bytes_of. by rewrite length_fmap, length_seqZ. Qed.

Lemma stored_byte m a b x :
  bytes_ok b → default 0 (ram_store a b m !! x) mod 256 =
    if decide (a ≤ x < a + len b) then b !!! Z.to_nat (x - a) else default 0 (m !! x) mod 256.
Proof.
  intros Hb. rewrite ram_store_lookup. case_decide; [|done]. cbn. apply Z.mod_small.
  destruct (lookup_lt_is_Some_2 b (Z.to_nat (x - a))) as [v Hv]; [lia|].
  rewrite (list_lookup_total_correct _ _ _ Hv). by apply (bytes_ok_byte b _ _ Hb Hv).
Qed.

#[export, refine] Instance sim_ram_ok : RamOk SimHba := {|
  byte h x := default 0 (sh_ram h !! x) mod 256;
|}.
Proof.
  - intros. apply Z.mod_pos_bound. lia.
  - done.
  - intros a b h x Hb. cbn [sh_ram store sim_ram with_ram]. rewrite sim_put_eq. apply (stored_byte (sh_ram h) a b x Hb).
Defined.

Lemma lookup_bytes_of m a n i :
  bytes_of m a n !! i = if decide (i < Z.to_nat n)%nat then Some (default 0 (m !! (a + Z.of_nat i)) mod 256) else None.
Proof.
  unfold bytes_of. rewrite list_lookup_fmap. case_decide.
  - by rewrite lookup_seqZ_lt by lia.
  - by rewrite lookup_seqZ_ge by lia.
Qed.

Lemma bytes_of_store m a b n : bytes_ok b → len b = n → bytes_of (ram_store a b m) a n = b.
Proof.
  intros Hb <-. apply list_eq. intros i. rewrite lookup_bytes_of. case_decide as Hi.
  - rewrite stored_byte, decide_True by (done || lia).
    destruct (lookup_lt_is_Some_2 b i) as [v Hv]; [lia|]. rewrite Hv. f_equal. apply list_lookup_total_correct.
    rewrite <- Hv. f_equal. lia.
  - by rewrite lookup_ge_None_2 by lia.
Qed.

Lemma bytes_of_out m a b x n :
  bytes_ok b → x + n ≤ a ∨ a + len b ≤ x → bytes_of (ram_store a b m) x n = bytes_of m x n.
Proof.
  intros Hb ?. apply list_eq. intros i. rewrite !lookup_bytes_of. case_decide; [|done].
  by rewrite stored_byte, decide_False by (done || lia).
Qed.

(** Ready for a command, with these areas. *)
Definition sim_idle (clb fb : Z) (h : SimHba) : Prop := sim_clb h = clb ∧ sim_fb h = fb ∧ sh_wait h = 0%nat.

(** The doorbell clears after two more polls. *)
Lemma sim_settles (h h' : SimHba) :
  sh_wait h = 2%nat → h' = elapse (elapse h) →
  settles 2 (sim_port +w PORT_CI) (bit_clear 1) h h'.
Proof. intros Hw ->. change (sim_port +w PORT_CI) with (sim_port + PORT_CI). cbn. by rewrite Hw. Qed.

Lemma sim_execute_read h c lba :
  fetch_command (sim_mem h) (sim_clb h) = Some c → one_sector c 0x20 lba false → 0 ≤ lba < sim_sectors →
  execute h = with_done (ram_store (hc_address c + sim_off) (bytes_of (sh_disk h) (512 * lba) 512) (sh_ram h)) (sh_disk h) 2 false h.
Proof.
  intros Hf (Ho&Hl&_) Hlt. unfold execute. rewrite Hf, Ho, Hl. cbn. by rewrite (proj2 (Z.leb_gt _ _)) by lia.
Qed.
Lemma sim_execute_write h c lba :
  fetch_command (sim_mem h) (sim_clb h) = Some c → one_sector c 0x30 lba true → 0 ≤ lba < sim_sectors →
  execute h = with_done (sh_ram h) (ram_store (512 * lba) (bytes_of (sh_ram h) (hc_address c + sim_off) 512) (sh_disk h)) 2 false h.
Proof.
  intros Hf (Ho&Hl&_) Hlt. unfold execute. rewrite Hf, Ho, Hl. cbn. by rewrite (proj2 (Z.leb_gt _ _)) by lia.
Qed.
Lemma sim_execute_past h c (wr : bool) lba :
  fetch_command (sim_mem h) (sim_clb h) = Some c → one_sector c (if wr then 0x30 else 0x20) lba wr → sim_sectors ≤ lba →
  execute h = with_done (sh_ram h) (sh_disk h) 2 true h.
Proof.
  intros Hf (Ho&Hl&_) Hge. unfold execute. rewrite Hf, Ho, Hl.
  destruct wr; cbn; by rewrite (proj2 (Z.leb_le _ _)) by lia.
Qed.

#[export, refine] Instance sim_hba clb fb : AhciHba SimHba sim_off sim_port clb fb := {|
  hba_idle := sim_idle clb fb;
  hba_sectors := sim_sectors;
  hba_sector h s := bytes_of (sh_disk h) (512 * s) 512;
|}.
Proof.
  - intros h s. split; [apply bytes_of_ok|]. by rewrite length_bytes_of.
  - intros h a b Hi Hb. by split.
  - intros h Hi. exists 0%nat, h. split; [lia|]. split; [|done].
    cbn [settles]. change (sim_port +w PORT_TFD) with (sim_port + PORT_TFD). cbn. by destruct (sh_err h).
  - intros h c opcode lba wr (Hclb&Hfb&Hw) Hf Hone -> Hlba. change (λ p, byte h (p + sim_off)) with (sim_mem h) in Hf.
    rewrite <- Hclb in Hf.
    change (write_volatile 4 (sim_port +w PORT_CI) 1 h) with (execute h).
    destruct wr;
      [rewrite (sim_execute_write h c lba Hf Hone Hlba)|rewrite (sim_execute_read h c lba Hf Hone Hlba)];
      eexists 2%nat, _, _, 0x50; (split; [lia|]; split; [by apply sim_settles|]; split; [reflexivity|]; split; [done|];
        split; [done|]; split; [done|]).
    + split; [|split; [done|done]]. intros s. cbn [sh_disk elapse sim_ram with_done].
      destruct (decide (true = true ∧ s = lba)) as [[_ ->]|Hne].
      * by rewrite bytes_of_store by (apply bytes_of_ok || by rewrite length_bytes_of).
      * apply bytes_of_out; [apply bytes_of_ok|]. rewrite length_bytes_of. assert (s ≠ lba) by naive_solver. lia.
    + split; [|split].
      * intros s. rewrite decide_False by naive_solver. done.
      * intros _. change (mem_at ?h ?a ?n) with (bytes_of (sh_ram h) a n). cbn [sh_ram elapse sim_ram with_done].
        by rewrite bytes_of_store by (apply bytes_of_ok || by rewrite length_bytes_of).
      * intros x _ _ [|Hx]; [done|]. cbn [byte sim_ram_ok sh_ram elapse sim_ram with_done].
        rewrite stored_byte by apply bytes_of_ok. rewrite length_bytes_of, decide_False by lia. done.
  - intros h c opcode lba wr (Hclb&Hfb&Hw) Hf Hone -> Hlba. change (λ p, byte h (p + sim_off)) with (sim_mem h) in Hf.
    rewrite <- Hclb in Hf.
    change (write_volatile 4 (sim_port +w PORT_CI) 1 h) with (execute h).
    rewrite (sim_execute_past h c wr lba Hf Hone Hlba).
    eexists 2%nat, _, _, 0x51. by repeat (split; [by apply sim_settles || done|]).
Defined.

(** ** The driver on it *)

Definition demo_page (p : Z) : DmaBuffer := {| db_phys := p; db_virt := p + sim_off; db_size := 4096 |}.
Definition demo_port : PortState := {|
  port_base := sim_port; cmd_list_buf := demo_page 0x2000000; cmd_table_buf := demo_page 0x2001000;
  rfis_buf := demo_page 0x2002000; data_buf := demo_page 0x2003000 |}.
Definition demo_wrapper : AhciPortWrapper := {| port_idx := 0; ap_state := demo_port; ap_sector_count := sim_sectors |}.

Definition fresh_hba : SimHba := {|
  sh_ram := ∅; sh_disk := ∅; sh_clb := 0; sh_clbu := 0; sh_fb := 0; sh_fbu := 0; sh_cmd := 0; sh_wait := 0;
  sh_err := false; sh_next := 0x2000000 |}.
Definition started_hba : SimHba := {|
  sh_ram := ∅; sh_disk := ∅; sh_clb := 0x2000000; sh_clbu := 0; sh_fb := 0x2002000; sh_fbu := 0; sh_cmd := 0x11;
  sh_wait := 0; sh_err := false; sh_next := 0x2004000 |}.

(** The driver finds the port, starts it and reads its size. *)
Definition demo_state : AhciState := {| as_mmio_base := sim_abar; as_ports := [demo_wrapper] |}.

Lemma demo_init :
  (let '(h, r) := AhciState_init sim_abar fresh_hba in (r, sim_clb h, sim_fb h, sh_cmd h, sh_wait h)) =
    (Ok demo_state, 0x2000000, 0x2002000, 0x11, 0%nat).
Proof. vm_compute. reflexivity. Qed.

Lemma demo_port_ok : port_ok sim_off demo_port.
Proof. split; unfold page_ok, pages_apart; cbn; try lia; split_and!; try done; lia. Qed.

Definition demo_block : list Z := replicate 512 7 ++ replicate 512 9.
Definition demo_requests : list request :=
  [Rq_write 3 demo_block; Rq_read 3 (zeros 1024); Rq_read (2 ^ 28 + 3) (zeros 512); Rq_read 4096 (zeros 512);
   Rq_read 3 (zeros 100)].

Lemma read_zeros_ok lba n : is_u64 lba → request_ok (Rq_read lba (zeros n)).
Proof. intros H. split; [done|apply bytes_ok_zeros]. Qed.
Lemma demo_block_ok : bytes_ok demo_block.
Proof. apply bytes_ok_check. vm_compute. reflexivity. Qed.
Lemma demo_requests_ok : Forall request_ok demo_requests.
Proof.
  apply Forall_cons. split; [split; [by unfold is_u|apply demo_block_ok]|].
  repeat (apply Forall_cons; split; [apply read_zeros_ok; by unfold is_u|]). constructor.
Qed.

Lemma demo_results : (spec_run sim_sectors demo_requests (λ _, zeros 512)).2 =
  [Ok []; Ok (replicate 512 7 ++ zeros 512); Ok (replicate 512 7); Err Blk_ReadError; Err Blk_ReadError].
Proof. vm_compute. reflexivity. Qed.

Definition demo_sim (disk : Z → list Z) : SimHba → Prop :=
  ahci_sim (hba := sim_hba 0x2000000 0x2002000) sim_off demo_port disk.

Lemma blank_sectors s : bytes_of ∅ (512 * s) 512 = zeros 512.
Proof.
  apply list_eq. intros i. rewrite lookup_bytes_of. unfold zeros. case_decide.
  - rewrite lookup_replicate_2 by lia. done.
  - rewrite lookup_ge_None_2; [done|]. rewrite length_replicate. lia.
Qed.

Lemma ahci_refines_disk_witness :
  let disk := λ _ : Z, zeros 512 in
  ∃ w', device_run demo_requests (demo_wrapper, started_hba) =
    ((demo_wrapper, w'), [Ok []; Ok (replicate 512 7 ++ zeros 512); Ok (replicate 512 7); Err Blk_ReadError; Err Blk_ReadError]) ∧
    demo_sim (spec_run sim_sectors demo_requests disk).1 w'.
Proof.
  intros disk. rewrite <- demo_results. unfold demo_sim.
  apply (ahci_refines_disk (hba := sim_hba 0x2000000 0x2002000) sim_off demo_port demo_port_ok demo_wrapper
    demo_requests disk started_hba eq_refl demo_requests_ok).
  split; [by split_and!|]. apply blank_sectors.
Defined.

Lemma ahci_accesses_witness :
  bytes_ok demo_block ∧ stays (W:=SimHba) (port_access demo_port) (ahci_read_sectors demo_port 3 demo_block).
Proof. split; [apply demo_block_ok|]. exact (proj1 (ahci_accesses (W:=SimHba) demo_port 3 demo_block demo_block_ok)). Defined.

Lemma demo_started : ∃ h, AhciState_init sim_abar fresh_hba = (h, Ok demo_state).
Proof.
  pose proof demo_init as H. revert H. generalize (AhciState_init sim_abar fresh_hba). intros [h r] H.
  exists h. by injection H as ->.
Qed.

