(* ===== verification/Virtio.v ===== *)
(** * The virtio block driver

    [lib/driver/src/block/virtio]: constants and queue layouts
    ([constants.rs], [queue.rs]) and the driver ([mod.rs]).

    [notify_and_wait] spins until the device reports a completion, however long
    it takes: [fuel] is the number of looks at the used ring that are modelled. *)

From S2P Require Import Prelude Bytes Text BlockDev Mmio Pci PciBus Drivers Frames Dma.

(** ** [constants.rs] *)

Definition VIRTIO_PCI_CAP_COMMON_CFG : Z := 1.
Definition VIRTIO_PCI_CAP_NOTIFY_CFG : Z := 2.
Definition VIRTIO_PCI_CAP_DEVICE_CFG : Z := 4.
Definition VIRTIO_STATUS_ACKNOWLEDGE : Z := 1.
Definition VIRTIO_STATUS_DRIVER : Z := 2.
Definition VIRTIO_STATUS_DRIVER_OK : Z := 4.
Definition VIRTIO_STATUS_FEATURES_OK : Z := 8.
Definition COMMON_DEVICE_FEATURE_SELECT : Z := 0x00.
Definition COMMON_DEVICE_FEATURE : Z := 0x04.
Definition COMMON_DRIVER_FEATURE_SELECT : Z := 0x08.
Definition COMMON_DRIVER_FEATURE : Z := 0x0C.
Definition COMMON_DEVICE_STATUS : Z := 0x14.
Definition COMMON_QUEUE_SELECT : Z := 0x16.
Definition COMMON_QUEUE_SIZE : Z := 0x18.
Definition COMMON_QUEUE_ENABLE : Z := 0x1C.
Definition COMMON_QUEUE_DESC_LOW : Z := 0x20.
Definition COMMON_QUEUE_DESC_HIGH : Z := 0x24.
Definition COMMON_QUEUE_AVAIL_LOW : Z := 0x28.
Definition COMMON_QUEUE_AVAIL_HIGH : Z := 0x2C.
Definition COMMON_QUEUE_USED_LOW : Z := 0x30.
Definition COMMON_QUEUE_USED_HIGH : Z := 0x34.
Definition VIRTQ_DESC_F_NEXT : Z := 1.
Definition VIRTQ_DESC_F_WRITE : Z := 2.
Definition VIRTIO_BLK_T_IN : Z := 0.
Definition VIRTIO_BLK_T_OUT : Z := 1.

(** ** [queue.rs]: the offsets of the fields *)

Module VirtqDesc.
Definition addr : Z := 0.
Definition len_ : Z := 8.
Definition flags : Z := 12.
Definition next : Z := 14.
Definition size : Z := 16.
End VirtqDesc.

Module VirtqAvail.
Definition idx : Z := 2.
Definition ring : Z := 4.
End VirtqAvail.

Module VirtqUsed.
Definition idx : Z := 2.
End VirtqUsed.

Record VirtQueue := { vq_desc : Z; vq_avail : Z; vq_used : Z; queue_size : Z; last_used_idx : Z }.

(** The bytes of a [VirtioBlkReq]. *)
Definition VirtioBlkReq_bytes (type_ reserved sector : Z) : list Z := to_le 4 type_ ++ to_le 4 reserved ++ to_le 8 sector.

Record VirtioCapInfo := { vc_cfg_type : Z; vc_bar : Z; vc_offset : Z; vc_length : Z; vc_cap_offset : Z }.

Record VirtioBlkState := {
  common_cfg : Z;
  notify_base : Z;
  notify_off_multiplier : Z;
  vs_sector_count : Z;
  vs_queue : VirtQueue;
  desc_buf : DmaBuffer;
  avail_buf : DmaBuffer;
  used_buf : DmaBuffer;
  dma_buf : DmaBuffer;
}.

(** ** Finding the configuration structures *)

Section caps.
Context {W : Type} {mmio : Mmio W}.

Fixpoint find_virtio_cap_loop {E} (n : nat) (info : PciDeviceInfo) (cfg_type ptr : Z) :
    st (Ecam W) E (option VirtioCapInfo) :=
  match n with
  | O => mret None
  | S n =>
      if ptr <? 0x40 then mret None else
      id ← info_read8 info ptr;
      next ← info_read8 info (u16 (ptr + 1));
      let next := Z.land next (not_ 8 0x3) in
      found ← (if id =? 0x09 then
        t ← info_read8 info (u16 (ptr + 3));
        if t =? cfg_type then
          bar ← info_read8 info (u16 (ptr + 4));
          offset ← info_read32 info (u16 (ptr + 8));
          length_ ← info_read32 info (u16 (ptr + 12));
          mret (Some {| vc_cfg_type := t; vc_bar := bar; vc_offset := offset; vc_length := length_; vc_cap_offset := ptr |})
        else mret None
      else mret None);
      match found with
      | Some c => mret (Some c)
      | None => if next =? 0 then mret None else find_virtio_cap_loop n info cfg_type next
      end
  end.

Definition find_virtio_cap {E} (info : PciDeviceInfo) (cfg_type : Z) : st (Ecam W) E (option VirtioCapInfo) :=
  status ← info_read16 info 0x06;
  if Z.land status 0x10 =? 0 then mret None else
  p ← info_read8 info 0x34;
  find_virtio_cap_loop 48 info cfg_type (Z.land p (not_ 8 0x3)).

Definition map_cap (info : PciDeviceInfo) (cap : VirtioCapInfo) (phys_offset : Z) : outcome rstring Z :=
  bar ← ok_or (bar_mmio info (Z.to_nat (vc_bar cap))) (lit "BAR not found");
  mret (bar +w vc_offset cap +w phys_offset).
End caps.

Section virtio.
Context {W : Type} {mmio : Mmio W} {ram : Ram W} {dma : DmaAllocator W}.

(** [dma.alloc(4096, 4096).ok_or("dma alloc failed")?], with the buffers dropped
    on failure. *)
Definition virtio_alloc (held : list DmaBuffer) : st W rstring DmaBuffer :=
  b ← alloc 4096 4096;
  match b with
  | Some b => mret b
  | None => for_ held free;; fail (lit "dma alloc failed")
  end.

Definition init_device (common_cfg notify_base device_cfg notify_off_multiplier : Z) : st W rstring VirtioBlkState :=
  mwrite 1 (common_cfg +w COMMON_DEVICE_STATUS) 0;;
  mwrite 1 (common_cfg +w COMMON_DEVICE_STATUS) (Z.lor VIRTIO_STATUS_ACKNOWLEDGE VIRTIO_STATUS_DRIVER);;
  mwrite 4 (common_cfg +w COMMON_DEVICE_FEATURE_SELECT) 0;;
  features ← mread 4 (common_cfg +w COMMON_DEVICE_FEATURE);
  mwrite 4 (common_cfg +w COMMON_DRIVER_FEATURE_SELECT) 0;;
  mwrite 4 (common_cfg +w COMMON_DRIVER_FEATURE) features;;
  mwrite 1 (common_cfg +w COMMON_DEVICE_STATUS)
    (Z.lor (Z.lor VIRTIO_STATUS_ACKNOWLEDGE VIRTIO_STATUS_DRIVER) VIRTIO_STATUS_FEATURES_OK);;
  status ← mread 1 (common_cfg +w COMMON_DEVICE_STATUS);
  if Z.land status VIRTIO_STATUS_FEATURES_OK =? 0 then fail (lit "FEATURES_OK rejected") else
  mwrite 2 (common_cfg +w COMMON_QUEUE_SELECT) 0;;
  queue_size_max ← mread 2 (common_cfg +w COMMON_QUEUE_SIZE);
  if queue_size_max =? 0 then fail (lit "queue 0 unavailable") else
  let queue_size := Z.min 64 queue_size_max in
  mwrite 2 (common_cfg +w COMMON_QUEUE_SIZE) queue_size;;
  desc_buf ← virtio_alloc [];
  avail_buf ← virtio_alloc [desc_buf];
  used_buf ← virtio_alloc [avail_buf; desc_buf];
  dma_buf ← virtio_alloc [used_buf; avail_buf; desc_buf];
  mzero (db_virt desc_buf) 4096;;
  mzero (db_virt avail_buf) 4096;;
  mzero (db_virt used_buf) 4096;;
  mwrite 4 (common_cfg +w COMMON_QUEUE_DESC_LOW) (low_u32 (db_phys desc_buf));;
  mwrite 4 (common_cfg +w COMMON_QUEUE_DESC_HIGH) (high_u32 (db_phys desc_buf));;
  mwrite 4 (common_cfg +w COMMON_QUEUE_AVAIL_LOW) (low_u32 (db_phys avail_buf));;
  mwrite 4 (common_cfg +w COMMON_QUEUE_AVAIL_HIGH) (high_u32 (db_phys avail_buf));;
  mwrite 4 (common_cfg +w COMMON_QUEUE_USED_LOW) (low_u32 (db_phys used_buf));;
  mwrite 4 (common_cfg +w COMMON_QUEUE_USED_HIGH) (high_u32 (db_phys used_buf));;
  mwrite 2 (common_cfg +w COMMON_QUEUE_ENABLE) 1;;
  mwrite 1 (common_cfg +w COMMON_DEVICE_STATUS)
    (Z.lor (Z.lor (Z.lor VIRTIO_STATUS_ACKNOWLEDGE VIRTIO_STATUS_DRIVER) VIRTIO_STATUS_FEATURES_OK)
       VIRTIO_STATUS_DRIVER_OK);;
  sector_count ← mread 8 device_cfg;
  mret {|
    common_cfg := common_cfg; notify_base := notify_base; notify_off_multiplier := notify_off_multiplier;
    vs_sector_count := sector_count;
    vs_queue := {| vq_desc := db_virt desc_buf; vq_avail := db_virt avail_buf; vq_used := db_virt used_buf;
                   queue_size := queue_size; last_used_idx := 0 |};
    desc_buf := desc_buf; avail_buf := avail_buf; used_buf := used_buf; dma_buf := dma_buf |}.

Definition VirtioBlkState_init (pci : PciBusDevice) (phys_offset : Z) : st (Ecam W) rstring VirtioBlkState :=
  let info := pbd_info pci in
  common_off ← find_virtio_cap info VIRTIO_PCI_CAP_COMMON_CFG;
  common_off ← lift (ok_or common_off (lit "missing common cfg"));
  notify_off ← find_virtio_cap info VIRTIO_PCI_CAP_NOTIFY_CFG;
  notify_off ← lift (ok_or notify_off (lit "missing notify cfg"));
  device_off ← find_virtio_cap info VIRTIO_PCI_CAP_DEVICE_CFG;
  device_off ← lift (ok_or device_off (lit "missing device cfg"));
  common_cfg ← lift (map_cap info common_off phys_offset);
  notify_base ← lift (map_cap info notify_off phys_offset);
  device_cfg ← lift (map_cap info device_off phys_offset);
  notify_off_multiplier ← info_read32 info (u16 (vc_cap_offset notify_off + 16));
  on_hw (init_device common_cfg notify_base device_cfg notify_off_multiplier).

Definition virtio_rules : list MatchRule := [Mr_PciId 0x1AF4 0x1042; Mr_PciId 0x1AF4 0x1001].

Definition virtio_bind {D} `{DowncastPci D} (driver_phys_offset : option Z) (device_id : Z) (device : D) :
    st (Ecam W) DriverError VirtioBlkState :=
  pci ← lift (ok_or (downcast_pci device) BindFailed);
  enable_dma pci;;
  enable_mmio (pbd_info pci);;
  phys_offset ← lift (unwrap driver_phys_offset);
  st_map_err (λ _, BindFailed) (VirtioBlkState_init pci phys_offset).

(** ** Requests *)

Definition setup_descriptor {E} (self : VirtioBlkState) (n addr len_ flags next : Z) : st W E () :=
  let d := db_virt (desc_buf self) + n * VirtqDesc.size in
  mstore_le 8 (d + VirtqDesc.addr) addr;;
  mstore_le 4 (d + VirtqDesc.len_) len_;;
  mstore_le 2 (d + VirtqDesc.flags) flags;;
  mstore_le 2 (d + VirtqDesc.next) next.

(** [ring] has 64 entries; the remainder by a zero size panics. *)
Definition push_avail {E} (self : VirtioBlkState) : st W E () :=
  let avail := db_virt (avail_buf self) in
  idx ← mload_le 2 (avail + VirtqAvail.idx);
  let i := idx mod queue_size (vs_queue self) in
  lift (assert_ (negb (queue_size (vs_queue self) =? 0) && (i <? 64)));;
  mstore_le 2 (avail + VirtqAvail.ring + 2 * i) 0;;
  mstore_le 2 (avail + VirtqAvail.idx) (u16 (idx + 1)).

Definition setup_chain {E} (self : VirtioBlkState) (req_phys data_phys len_ : Z) (is_read : bool) : st W E () :=
  setup_descriptor self 0 req_phys 16 VIRTQ_DESC_F_NEXT 1;;
  setup_descriptor self 1 data_phys (u32 len_) (Z.lor (if is_read then VIRTQ_DESC_F_WRITE else 0) VIRTQ_DESC_F_NEXT) 2;;
  setup_descriptor self 2 (req_phys +w 1024) 1 VIRTQ_DESC_F_WRITE 0;;
  push_avail self.

(** The loop that spins while the [idx] of the used ring is 0. *)
Fixpoint spin_used {E} (fuel : nat) (self : VirtioBlkState) : st W E () :=
  match fuel with
  | O => lift Diverge
  | S fuel =>
      idx ← mload_le 2 (db_virt (used_buf self) + VirtqUsed.idx);
      if idx =? 0 then modify elapse;; spin_used fuel self else mret ()
  end.

Definition notify_and_wait {E} (fuel : nat) (self : VirtioBlkState) : st W E () :=
  mwrite 2 (notify_base self) 0;;
  spin_used fuel self.

Definition virtio_read_sectors (fuel : nat) (self : VirtioBlkState) (lba : Z) (buf : list Z) : st W BlockError (list Z) :=
  let sectors := (len buf +w 511) / 512 in
  let dma_buf := dma_buf self in
  mstore (db_virt dma_buf) (VirtioBlkReq_bytes VIRTIO_BLK_T_IN 0 lba);;
  setup_chain self (db_phys dma_buf) (db_phys dma_buf +w 512) (sectors *w 512) true;;
  notify_and_wait fuel self;;
  let n := Z.min (len buf) (sectors *w 512) in
  data ← mload (db_virt dma_buf + 512) n;
  mret (upd 0 data buf).

Definition virtio_write_sectors (fuel : nat) (self : VirtioBlkState) (lba : Z) (buf : list Z) : st W BlockError () :=
  let sectors := (len buf +w 511) / 512 in
  let dma_buf := dma_buf self in
  mstore (db_virt dma_buf + 512) buf;;
  mstore (db_virt dma_buf) (VirtioBlkReq_bytes VIRTIO_BLK_T_OUT 0 lba);;
  setup_chain self (db_phys dma_buf) (db_phys dma_buf +w 512) (sectors *w 512) false;;
  notify_and_wait fuel self.

(** [DriverState::stop] *)
Definition virtio_stop {E} (self : VirtioBlkState) : st W E () :=
  mwrite 1 (common_cfg self +w COMMON_DEVICE_STATUS) 0.
End virtio.

(** [BlockDevice for VirtioBlkState] *)
Definition VirtioBlkState_BlockDevice {W} {mmio : Mmio W} {ram : Ram W} (fuel : nat) : BlockDevice (VirtioBlkState * W) := {|
  read_blocks lba buf := s ← get_st; on_snd (virtio_read_sectors fuel s.1 lba buf);
  write_blocks lba buf := s ← get_st; on_snd (virtio_write_sectors fuel s.1 lba buf);
  block_size _ := 512;
  block_count s := vs_sector_count s.1;
|}.
