(* ===== verification/VirtioDev.v ===== *)
(** * What a virtio block device does with a request

    The contract of the device behind the driver, as the virtio specification
    gives it for a split queue: how the device reads a request out of the rings
    ([fetch_request]) and when it completes it ([VirtioBlkDev]). *)

From S2P Require Import Prelude Bytes Mmio Frames Dma AhciHba Virtio.

Record BlkRequest := {
  bq_in : bool;       (** the device writes the buffer *)
  bq_sector : Z;
  bq_addr : Z;
  bq_len : Z;
  bq_status : Z;
}.

(** The areas of queue 0, by physical address, and its size. *)
Record QueueAreas := { qa_desc : Z; qa_avail : Z; qa_used : Z; qa_size : Z }.

Record Descriptor := { d_addr : Z; d_len : Z; d_flags : Z; d_next : Z }.
Definition fetch_descriptor (mem : Z → Z) (table i : Z) : Descriptor := {|
  d_addr := phys_le mem 8 (table + 16 * i);
  d_len := phys_le mem 4 (table + 16 * i + 8);
  d_flags := phys_le mem 2 (table + 16 * i + 12);
  d_next := phys_le mem 2 (table + 16 * i + 14) |}.

(** The request after [n] others: three descriptors, the header and the data of
    a write readable, the data of a read and the status byte writable. *)
Definition fetch_request (mem : Z → Z) (q : QueueAreas) (n : Z) : option BlkRequest :=
  let head := phys_le mem 2 (qa_avail q + 4 + 2 * (n mod qa_size q)) in
  let d0 := fetch_descriptor mem (qa_desc q) head in
  let d1 := fetch_descriptor mem (qa_desc q) (d_next d0) in
  let d2 := fetch_descriptor mem (qa_desc q) (d_next d1) in
  let type := phys_le mem 4 (d_addr d0) in
  let rd := type =? 0 in
  if (d_flags d0 =? 1) && (d_len d0 =? 16) && ((type =? 0) || (type =? 1))
     && (d_flags d1 =? (if rd then 3 else 1)) && (d_flags d2 =? 2) && (d_len d2 =? 1)
  then Some {| bq_in := rd; bq_sector := phys_le mem 8 (d_addr d0 + 8); bq_addr := d_addr d1; bq_len := d_len d1;
               bq_status := d_addr d2 |}
  else None.

Fixpoint elapse_n {W} `{!Ram W} (k : nat) (w : W) : W :=
  match k with O => w | S k => elapse_n k (elapse w) end.

(** [off] maps physical to virtual addresses, [notify] is the notification
    register of the queue. *)
Class VirtioBlkDev (W : Type) `{!Mmio W, !Ram W, !RamOk W} (off notify : Z) (q : QueueAreas) := {
  (** No request is running, [n] are complete. *)
  vb_idle : Z → W → Prop;
  vb_sectors : Z;
  vb_medium : W → Z → Z;

  vb_medium_ok w x : is_u8 (vb_medium w x);

  vb_store n w a b : vb_idle n w → bytes_ok b →
    vb_idle n (store a b w) ∧ ∀ x, vb_medium (store a b w) x = vb_medium w x;

  (** A request for sectors of the medium, whose data is apart from its status
      byte and from the used ring: the used index moves on when the transfer is
      over, not before. *)
  vb_execute n w r :
    vb_idle n w → phys_le (λ p, byte w (p + off)) 2 (qa_avail q + 2) = (n + 1) mod 2 ^ 16 →
    fetch_request (λ p, byte w (p + off)) q n = Some r →
    bq_len r mod 512 = 0 → 0 ≤ bq_sector r → 512 * bq_sector r + bq_len r ≤ 512 * vb_sectors →
    ¬ (bq_addr r ≤ bq_status r < bq_addr r + bq_len r) →
    bq_addr r + bq_len r ≤ qa_used q ∨ qa_used q + 6 + 8 * qa_size q ≤ bq_addr r →
    let w1 := write_volatile 2 notify 0 w in
    ∃ k, (∀ j, (j < k)%nat → phys_le (λ p, byte (elapse_n j w1) (p + off)) 2 (qa_used q + 2) =
        phys_le (λ p, byte w (p + off)) 2 (qa_used q + 2)) ∧
      let w2 := elapse_n k w1 in
      phys_le (λ p, byte w2 (p + off)) 2 (qa_used q + 2) = (n + 1) mod 2 ^ 16 ∧
      vb_idle (n + 1) w2 ∧
      (bq_in r = true → mem_at w2 (bq_addr r + off) (bq_len r) = vb_medium w <$> seqZ (512 * bq_sector r) (bq_len r)) ∧
      ∀ x, vb_medium w2 x =
        if decide (bq_in r = false ∧ 512 * bq_sector r ≤ x < 512 * bq_sector r + bq_len r)
        then byte w (bq_addr r + off + (x - 512 * bq_sector r)) else vb_medium w x;
}.
