(* ===== verification/VirtioFacts.v ===== *)
(** * The virtio block driver: facts

    What the driver touches, the request a device reads out of the rings the
    driver has filled, the first read and write on a device that meets
    [VirtioBlkDev], and the order in which a device is initialised. *)

From S2P Require Import Prelude Bytes Text BlockDev Mmio Frames Dma AhciHba AhciFacts Virtio VirtioDev.

(** ** Footprint *)

(** The accesses the driver is entitled to once it runs: the notification
    register, and bytes inside its four pages. *)
Definition virtio_access (self : VirtioBlkState) (x : access) : Prop :=
  match x with
  | Acc_read n a => False
  | Acc_write n a v => n = 2 ∧ a = notify_base self ∧ v = 0
  | Acc_load a n => in_page (avail_buf self) a n ∨ in_page (used_buf self) a n ∨ in_page (dma_buf self) a n
  | Acc_store a b => bytes_ok b ∧
      (in_page (desc_buf self) a (len b) ∨ in_page (avail_buf self) a (len b) ∨ in_page (dma_buf self) a (len b))
  end.

Definition queue_ok (q : VirtQueue) : Prop := 1 ≤ queue_size q ≤ 64.

Lemma req_bytes_ok t r s : bytes_ok (VirtioBlkReq_bytes t r s).
Proof. unfold VirtioBlkReq_bytes. repeat (apply Forall_app; split); apply to_le_bytes. Qed.
Lemma length_req t r s : length (VirtioBlkReq_bytes t r s) = 16%nat.
Proof. unfold VirtioBlkReq_bytes. by rewrite !length_app, !length_to_le. Qed.
#[export] Hint Resolve req_bytes_ok : bytes.

Section footprint.
Context {W : Type} {mmio : Mmio W} {ram : Ram W} {dma : DmaAllocator W}.

Local Ltac page_access :=
  cbn [virtio_access]; unfold in_page; rewrite ?length_to_le, ?length_req;
  unfold VirtqDesc.size, VirtqDesc.addr, VirtqDesc.len_, VirtqDesc.flags, VirtqDesc.next, VirtqAvail.idx, VirtqUsed.idx in *;
  first [lia | split; [eauto with bytes|lia] | auto].

Lemma descriptor_stays {E} self n addr len_ flags next :
  0 ≤ n < 3 → stays (W:=W) (virtio_access self) (setup_descriptor (E:=E) self n addr len_ flags next).
Proof. intros Hn. unfold setup_descriptor, mstore_le. repeat stays_step; page_access. Qed.

Lemma push_stays {E} self : queue_ok (vs_queue self) → stays (W:=W) (virtio_access self) (push_avail (E:=E) self).
Proof.
  intros Hq. unfold push_avail, mload_le, mstore_le, queue_ok, VirtqAvail.ring in *.
  repeat stays_step; try page_access.
  match goal with |- context [?i mod queue_size (vs_queue self)] =>
    pose proof (Z.mod_pos_bound i (queue_size (vs_queue self)) ltac:(lia)) end.
  page_access.
Qed.

Lemma spin_stays {E} fuel self : stays (W:=W) (virtio_access self) (spin_used (E:=E) fuel self).
Proof.
  induction fuel as [|fuel IH]; cbn [spin_used]; [apply stays_lift|]. unfold mload_le.
  repeat lazymatch goal with
  | |- stays _ (spin_used _ _) => apply IH
  | _ => stays_step
  end. page_access.
Qed.

Lemma chain_stays {E} self req data n rd :
  queue_ok (vs_queue self) → stays (W:=W) (virtio_access self) (setup_chain (E:=E) self req data n rd).
Proof.
  intros Hq. unfold setup_chain.
  repeat (apply stays_bind; [apply descriptor_stays; lia|intros _]). by apply push_stays.
Qed.

Lemma notify_stays {E} fuel self : stays (W:=W) (virtio_access self) (notify_and_wait (E:=E) fuel self).
Proof. unfold notify_and_wait. apply stays_bind; [by apply stays_write|]. intros _. apply spin_stays. Qed.

(** C28: A request of at most 3584 bytes, however long the wait and whatever the
    device does, touches the notification register and the driver's own pages
    only, and stores bytes. (A longer one runs over the end of the page its
    data is copied through.) *)
Theorem virtio_accesses fuel self lba buf :
  bytes_ok buf → len buf ≤ 3584 → queue_ok (vs_queue self) →
  stays (W:=W) (virtio_access self) (virtio_read_sectors fuel self lba buf) ∧
  stays (W:=W) (virtio_access self) (virtio_write_sectors fuel self lba buf).
Proof.
  intros Hb Hl Hq. unfold virtio_read_sectors, virtio_write_sectors.
  split;
    repeat lazymatch goal with
    | |- stays _ (setup_chain _ _ _ _ _) => by apply chain_stays
    | |- stays _ (notify_and_wait _ _) => apply notify_stays
    | _ => stays_step
    end; page_access.
Qed.
End footprint.

(** ** The request in memory *)

Record virtio_ok (off : Z) (self : VirtioBlkState) : Prop := {
  vo_desc : page_ok off (desc_buf self);
  vo_avail : page_ok off (avail_buf self);
  vo_used : page_ok off (used_buf self);
  vo_dma : page_ok off (dma_buf self);
  vo_desc_avail : pages_apart (desc_buf self) (avail_buf self);
  vo_desc_used : pages_apart (desc_buf self) (used_buf self);
  vo_desc_dma : pages_apart (desc_buf self) (dma_buf self);
  vo_avail_used : pages_apart (avail_buf self) (used_buf self);
  vo_avail_dma : pages_apart (avail_buf self) (dma_buf self);
  vo_used_dma : pages_apart (used_buf self) (dma_buf self);
  vo_queue : queue_ok (vs_queue self);
  vo_pow2 : (queue_size (vs_queue self) | 2 ^ 16);
}.

Definition areas (self : VirtioBlkState) : QueueAreas := {|
  qa_desc := db_phys (desc_buf self); qa_avail := db_phys (avail_buf self); qa_used := db_phys (used_buf self);
  qa_size := queue_size (vs_queue self) |}.

(** The request the driver is asked to make. *)
Definition asked (self : VirtioBlkState) (lba n : Z) (rd : bool) : BlkRequest := {|
  bq_in := rd; bq_sector := lba; bq_addr := db_phys (dma_buf self) + 512; bq_len := n;
  bq_status := db_phys (dma_buf self) + 1024 |}.

Section setup.
Context {W : Type} {mmio : Mmio W} {ram : Ram W} {ram_ok : RamOk W}.
Implicit Types w : W.

Lemma descriptor_run {E} self n addr len_ flags next w :
  let D := db_virt (desc_buf self) + 16 * n in
  ∃ w', setup_descriptor (E:=E) self n addr len_ flags next w = (w', Ok ()) ∧
    mem_le w' 8 D = addr mod 2 ^ 64 ∧ mem_le w' 4 (D + 8) = len_ mod 2 ^ 32 ∧
    mem_le w' 2 (D + 12) = flags mod 2 ^ 16 ∧ mem_le w' 2 (D + 14) = next mod 2 ^ 16 ∧
    ∀ x, ¬ (D ≤ x < D + 16) → byte w' x = byte w x.
Proof.
  intros D. unfold setup_descriptor, mstore_le. rewrite !bind_mstore.
  unfold VirtqDesc.size, VirtqDesc.addr, VirtqDesc.len_, VirtqDesc.flags, VirtqDesc.next.
  replace (db_virt (desc_buf self) + n * 16) with D by (unfold D; lia). rewrite Z.add_0_r.
  eexists. split; [reflexivity|]. split; [|split; [|split; [|split]]]; [mem_read; reflexivity..|].
  intros x Hx. by mem_frame.
Qed.

Lemma push_run {E} self n w :
  let A := db_virt (avail_buf self) in
  queue_ok (vs_queue self) → (queue_size (vs_queue self) | 2 ^ 16) → 0 ≤ n → mem_le w 2 (A + 2) = n mod 2 ^ 16 →
  ∃ w', push_avail (E:=E) self w = (w', Ok ()) ∧
    mem_le w' 2 (A + 4 + 2 * (n mod queue_size (vs_queue self))) = 0 ∧ mem_le w' 2 (A + 2) = (n + 1) mod 2 ^ 16 ∧
    ∀ x, ¬ (A + 2 ≤ x < A + 4 + 128) → byte w' x = byte w x.
Proof.
  intros A Hq Hdiv Hn Hidx. unfold push_avail, mstore_le, VirtqAvail.idx, VirtqAvail.ring. fold A.
  rewrite (st_bind_Ok _ _ _ _ _ (mload_le_run _ _ _)). change (Z.of_nat 2) with 2. rewrite Hidx.
  rewrite <- (Z.mod_mod_divide n (2 ^ 16) (queue_size (vs_queue self))) by done.
  unfold queue_ok in Hq. set (i := (n mod 2 ^ 16) mod _).
  assert (Hi : 0 ≤ i < 64) by (pose proof (Z.mod_pos_bound (n mod 2 ^ 16) (queue_size (vs_queue self))); lia).
  rewrite (proj2 (Z.ltb_lt i 64)) by lia. destruct (Z.eqb_spec (queue_size (vs_queue self)) 0) as [|_]; [lia|].
  cbn [negb andb]. change (assert_ true) with (Ok (E:=E) ()). rewrite bind_lift_Ok, bind_mstore.
  eexists. split; [reflexivity|]. split; [|split]; [mem_read..|].
  - done.
  - change (2 ^ (8 * 2)) with (2 ^ 16). unfold wrap. by rewrite Z.mod_mod, Z.add_mod_idemp_l.
  - intros x Hx. by mem_frame.
Qed.

(** The three descriptors and the ring entry. *)
Lemma chain_run {E} self req data n k rd w :
  let D := db_virt (desc_buf self) in let A := db_virt (avail_buf self) in
  queue_ok (vs_queue self) → (queue_size (vs_queue self) | 2 ^ 16) → 0 ≤ k → mem_le w 2 (A + 2) = k mod 2 ^ 16 →
  D + 4096 ≤ A ∨ A + 4096 ≤ D →
  0 ≤ req < 2 ^ 64 - 1024 → 0 ≤ data < 2 ^ 64 → 0 ≤ n < 2 ^ 32 →
  ∃ w', setup_chain (E:=E) self req data n rd w = (w', Ok ()) ∧
    (mem_le w' 8 D = req ∧ mem_le w' 4 (D + 8) = 16 ∧ mem_le w' 2 (D + 12) = 1 ∧ mem_le w' 2 (D + 14) = 1) ∧
    (mem_le w' 8 (D + 16) = data ∧ mem_le w' 4 (D + 24) = n ∧ mem_le w' 2 (D + 28) = (if rd then 3 else 1) ∧
     mem_le w' 2 (D + 30) = 2) ∧
    (mem_le w' 8 (D + 32) = req + 1024 ∧ mem_le w' 4 (D + 40) = 1 ∧ mem_le w' 2 (D + 44) = 2) ∧
    mem_le w' 2 (A + 4 + 2 * (k mod queue_size (vs_queue self))) = 0 ∧ mem_le w' 2 (A + 2) = (k + 1) mod 2 ^ 16 ∧
    ∀ x, ¬ (D ≤ x < D + 48) → ¬ (A + 2 ≤ x < A + 132) → byte w' x = byte w x.
Proof.
  intros D A Hq Hdiv Hk Hidx Hapart Hreq Hdata Hn. unfold setup_chain.
  destruct (descriptor_run (E:=E) self 0 req 16 VIRTQ_DESC_F_NEXT 1 w) as (w1&R1&a1&b1&c1&d1&f1).
  rewrite (st_bind_Ok _ _ _ _ _ R1).
  destruct (descriptor_run (E:=E) self 1 data (u32 n) (Z.lor (if rd then VIRTQ_DESC_F_WRITE else 0) VIRTQ_DESC_F_NEXT) 2 w1)
    as (w2&R2&a2&b2&c2&d2&f2).
  rewrite (st_bind_Ok _ _ _ _ _ R2).
  destruct (descriptor_run (E:=E) self 2 (req +w 1024) 1 VIRTQ_DESC_F_WRITE 0 w2) as (w3&R3&a3&b3&c3&_&f3).
  rewrite (st_bind_Ok _ _ _ _ _ R3). fold D in a1, b1, c1, d1, f1, a2, b2, c2, d2, f2, a3, b3, c3, f3.
  destruct (push_run (E:=E) self k w3 Hq Hdiv Hk) as (w4&R4&Hring&Hidx4&f4).
  { fold A. rewrite <- Hidx. rewrite (mem_le_eq w2 w3), (mem_le_eq w1 w2), (mem_le_eq w w1); [done|..]; intros x ?;
      [apply f1|apply f2|apply f3]; lia. }
  fold A in Hring, Hidx4, f4.
  exists w4. split; [done|].
  assert (E3 : ∀ m x, D ≤ x → x + m ≤ D + 48 → mem_le w4 m x = mem_le w3 m x).
  { intros m x ??. apply mem_le_eq. intros y ?. apply f4. lia. }
  assert (E2 : ∀ m x, D ≤ x → x + m ≤ D + 32 → mem_le w4 m x = mem_le w2 m x).
  { intros m x ??. rewrite E3 by lia. apply mem_le_eq. intros y ?. apply f3. lia. }
  assert (E1 : ∀ m x, D ≤ x → x + m ≤ D + 16 → mem_le w4 m x = mem_le w1 m x).
  { intros m x ??. rewrite E2 by lia. apply mem_le_eq. intros y ?. apply f2. lia. }
  rewrite !E1, !E2, !E3 by lia.
  replace (D + 16 * 0) with D in * by lia. change (16 * 1) with 16 in *. change (16 * 2) with 32 in *.
  replace (D + 24) with (D + 16 + 8) by lia. replace (D + 28) with (D + 16 + 12) by lia.
  replace (D + 30) with (D + 16 + 14) by lia. replace (D + 40) with (D + 32 + 8) by lia.
  replace (D + 44) with (D + 32 + 12) by lia.
  rewrite a1, b1, c1, d1, a2, b2, c2, d2, a3, b3, c3. unfold wrap.
  rewrite (Z.mod_small n), (Z.mod_small n), (Z.mod_small req), (Z.mod_small data), !(Z.mod_small (req + 1024)) by lia.
  split; [done|]. split; [by destruct rd|]. split; [done|]. split; [done|]. split; [done|].
  intros x ??. rewrite f4, f3, f2, f1 by lia. done.
Qed.

Lemma req_fields M (rd : bool) lba w :
  is_u64 lba →
  let w' := store M (VirtioBlkReq_bytes (if rd then VIRTIO_BLK_T_IN else VIRTIO_BLK_T_OUT) 0 lba) w in
  mem_le w' 4 M = (if rd then 0 else 1) ∧ mem_le w' 8 (M + 8) = lba.
Proof.
  intros Hlba. cbv zeta. unfold mem_le.
  rewrite !mem_at_store_in by (apply req_bytes_ok || (rewrite ?length_req; lia)).
  rewrite Z.sub_diag. replace (M + 8 - M) with 8 by lia. unfold VirtioBlkReq_bytes. split.
  - rewrite sub_app_l by (rewrite ?length_to_le; lia). rewrite sub_all' by (rewrite ?length_to_le; lia). by destruct rd.
  - rewrite !sub_app_r by (rewrite ?length_to_le; lia). rewrite !length_to_le, sub_all' by (rewrite ?length_to_le; lia).
    by apply from_to_le_small.
Qed.

Lemma chain_fetched {E} off self lba n k (rd : bool) w0 :
  virtio_ok off self → is_u64 lba → 0 ≤ n < 2 ^ 32 → 0 ≤ k →
  mem_le w0 2 (db_virt (avail_buf self) + 2) = k mod 2 ^ 16 →
  ∃ w', setup_chain (E:=E) self (db_phys (dma_buf self)) (db_phys (dma_buf self) +w 512) n rd
      (store (db_virt (dma_buf self)) (VirtioBlkReq_bytes (if rd then VIRTIO_BLK_T_IN else VIRTIO_BLK_T_OUT) 0 lba) w0) = (w', Ok ()) ∧
    fetch_request (λ p, byte w' (p + off)) (areas self) k = Some (asked self lba n rd) ∧
    phys_le (λ p, byte w' (p + off)) 2 (qa_avail (areas self) + 2) = (k + 1) mod 2 ^ 16 ∧
    ∀ x, ¬ in_page (desc_buf self) x 1 → ¬ in_page (avail_buf self) x 1 →
      ¬ (db_virt (dma_buf self) ≤ x < db_virt (dma_buf self) + 16) → byte w' x = byte w0 x.
Proof.
  intros Hok Hlba Hn Hk Hidx. destruct Hok as [(Hd1&_&Hd2&HD) (Ha1&_&Ha2&HA) _ (Hm1&Hm3&Hm2&HM) Hda _ Hdm _ Ham _ Hq Hdiv].
  unfold pages_apart, in_page in *.
  set (req := VirtioBlkReq_bytes _ 0 lba). set (M := db_virt (dma_buf self)) in *.
  assert (Hl : len req = 16) by (unfold req; by rewrite length_req).
  assert (Hb : bytes_ok req) by apply req_bytes_ok.
  assert (H512 : db_phys (dma_buf self) +w 512 = db_phys (dma_buf self) + 512) by (apply wrap_small; lia).
  rewrite H512.
  destruct (chain_run (E:=E) self (db_phys (dma_buf self)) (db_phys (dma_buf self) + 512) n k rd (store M req w0))
    as (w'&Hrun&(a1&b1&c1&d1)&(a2&b2&c2&d2)&(a3&b3&c3)&Hring&Hidx'&Hfr); try done; try lia.
  { rewrite mem_le_out by (done || lia). done. }
  exists w'. split; [done|].
  destruct (req_fields M rd lba w0 Hlba) as [Htype Hsec].
  rewrite <- (mem_le_eq _ w') in Htype, Hsec by (intros y ?; apply Hfr; lia).
  unfold fetch_request, fetch_descriptor. cbn [qa_desc qa_avail qa_size areas d_addr d_len d_flags d_next].
  rewrite !phys_le_mem.
  assert (EA : ∀ z, db_phys (avail_buf self) + z + off = db_virt (avail_buf self) + z) by lia.
  assert (EA2 : ∀ y z, db_phys (avail_buf self) + y + z + off = db_virt (avail_buf self) + y + z) by lia.
  rewrite EA2, Hring, EA.
  assert (ED : ∀ i z, db_phys (desc_buf self) + 16 * i + z + off = db_virt (desc_buf self) + (16 * i + z)) by lia.
  assert (ED0 : ∀ i, db_phys (desc_buf self) + 16 * i + off = db_virt (desc_buf self) + 16 * i) by lia.
  rewrite !ED, !ED0. change (16 * 0) with 0. rewrite !Z.add_0_l, !Z.add_0_r. rewrite a1, b1, c1, d1.
  change (16 * 1) with 16. change (16 + 8) with 24. change (16 + 12) with 28. change (16 + 14) with 30.
  rewrite a2, b2, c2, d2. change (16 * 2) with 32. change (32 + 8) with 40. change (32 + 12) with 44.
  rewrite a3, b3, c3.
  replace (db_phys (dma_buf self) + off) with M by lia.
  replace (db_phys (dma_buf self) + 8 + off) with (M + 8) by lia.
  rewrite Htype, Hsec. split; [by destruct rd|]. split; [done|].
  intros x ???. rewrite Hfr by lia. apply byte_store_out; [done|lia].
Qed.
End setup.

(** ** The first request *)

Lemma sub_fmap_seqZ (f : Z → Z) a n k : 0 ≤ k ≤ n → sub 0 k (f <$> seqZ a n) = f <$> seqZ a k.
Proof.
  intros Hk. apply list_eq. intros i. rewrite lookup_sub, !list_lookup_fmap. case_decide.
  - by rewrite !lookup_seqZ_lt by lia.
  - by rewrite lookup_seqZ_ge by lia.
Qed.

Lemma upd_whole {A} (src l : list A) : length src = length l → upd 0 src l = src.
Proof. intros Hl. unfold upd. cbn. rewrite drop_ge by lia. apply app_nil_r. Qed.

Section first.
Context {W : Type} {mmio : Mmio W} {ram : Ram W} {ram_ok : RamOk W} {dma : DmaAllocator W}.
Context (off : Z) (self : VirtioBlkState) (Hok : virtio_ok off self).
Context {dev : VirtioBlkDev W off (notify_base self) (areas self)}.
Implicit Types w : W.

Definition used_idx w : Z := mem_le w 2 (db_virt (used_buf self) + 2).

Lemma used_idx_phys w : phys_le (λ p, byte w (p + off)) 2 (qa_used (areas self) + 2) = used_idx w.
Proof using Hok.
  rewrite phys_le_mem. destruct (vo_used _ _ Hok) as (_&_&_&Hv). cbn. unfold used_idx. f_equal. lia.
Qed.

Lemma spin_run {E} k fuel w :
  (∀ j, (j < k)%nat → used_idx (elapse_n j w) = 0) → ¬ used_idx (elapse_n k w) = 0 → (k < fuel)%nat →
  spin_used (E:=E) fuel self w = (elapse_n k w, Ok ()).
Proof.
  revert fuel w. induction k as [|k IH]; intros fuel w Hj Hk Hf; (destruct fuel as [|fuel]; [lia|]); cbn [spin_used];
    rewrite (st_bind_Ok _ _ _ _ _ (mload_le_run _ _ _)); 
    change (mem_le w (Z.of_nat 2) (db_virt (used_buf self) + VirtqUsed.idx)) with (used_idx w); cbv beta.
  - cbn [elapse_n] in Hk. by destruct (Z.eqb_spec (used_idx w) 0).
  - rewrite (Hj 0%nat ltac:(lia) : used_idx w = 0). cbn [Z.eqb]. rewrite bind_modify. apply IH; [|done|lia]. intros j ?. apply (Hj (S j)). lia.
Qed.

Definition medium_is (m : Z → Z) w : Prop := ∀ x, vb_medium w x = m x.

Lemma idle_store m n w a b :
  vb_idle n w ∧ medium_is m w → bytes_ok b → vb_idle n (store a b w) ∧ medium_is m (store a b w).
Proof using dev.
  intros [Hi Hm] Hb. destruct (vb_store n w a b Hi Hb) as [Hi' Hm'].
  split; [done|]. intros x. by rewrite Hm', Hm.
Qed.

Lemma chain_preserves {E} (I : W → Prop) req data n rd :
  (∀ a b w, I w → bytes_ok b → I (store a b w)) → preserves I (setup_chain (E:=E) self req data n rd).
Proof.
  intros HI. unfold setup_chain, setup_descriptor, push_avail, mload_le, mstore_le.
  repeat lazymatch goal with
  | |- preserves _ (lift _) => by intros w Hw
  | _ => preserves_step
  end; eauto with bytes.
Qed.

(** From the header to the completion, for the first request. *)
Lemma first_request {E} (rd : bool) lba m w :
  is_u64 lba → lba < vb_sectors → vb_idle 0 w → medium_is m w →
  mem_le w 2 (db_virt (avail_buf self) + 2) = 0 → used_idx w = 0 →
  ∃ k w', (∀ fuel, (k < fuel)%nat →
      (setup_chain (E:=E) self (db_phys (dma_buf self)) (db_phys (dma_buf self) +w 512) 512 rd;; notify_and_wait fuel self)
        (store (db_virt (dma_buf self)) (VirtioBlkReq_bytes (if rd then VIRTIO_BLK_T_IN else VIRTIO_BLK_T_OUT) 0 lba) w)
      = (w', Ok ())) ∧ vb_idle 1 w' ∧
    (rd = true → mem_at w' (db_virt (dma_buf self) + 512) 512 = m <$> seqZ (512 * lba) 512) ∧
    medium_is (λ x, if decide (rd = false ∧ 512 * lba ≤ x < 512 * lba + 512)
                    then byte w (db_virt (dma_buf self) + 512 + (x - 512 * lba)) else m x) w'.
Proof using Hok dev.
  intros Hlba Hcap Hi Hm Havail Hused.
  destruct (vo_dma _ _ Hok) as (_&_&_&HM). pose proof (vo_desc_dma _ _ Hok) as A1. pose proof (vo_avail_dma _ _ Hok) as A2.
  destruct (vo_used _ _ Hok) as (_&_&_&HU). pose proof (vo_desc_used _ _ Hok) as A3. pose proof (vo_avail_used _ _ Hok) as A4.
  pose proof (vo_used_dma _ _ Hok) as A5. pose proof (vo_queue _ _ Hok) as Hq.
  destruct (vo_desc _ _ Hok) as (_&_&_&HD). destruct (vo_avail _ _ Hok) as (_&_&_&HA).
  destruct (chain_fetched (E:=E) off self lba 512 0 rd w Hok Hlba) as (w1&Hrun&Hfetch&Hidx&Hfr); [lia|lia|done|].
  assert (H1 : vb_idle 0 w1 ∧ medium_is m w1).
  { pose proof (chain_preserves (E:=E) (λ w, vb_idle 0 w ∧ medium_is m w) (db_phys (dma_buf self))
      (db_phys (dma_buf self) +w 512) 512 rd (λ a b w, idle_store m 0 w a b)) as Hp.
    specialize (Hp (store (db_virt (dma_buf self)) (VirtioBlkReq_bytes (if rd then VIRTIO_BLK_T_IN else VIRTIO_BLK_T_OUT) 0 lba) w)).
    rewrite Hrun in Hp. apply Hp. apply idle_store; [done|apply req_bytes_ok]. }
  destruct H1 as [Hi1 Hm1].
  destruct (vb_execute 0 w1 _ Hi1 Hidx Hfetch) as (k&Hbefore&Hafter&Hi2&Hread&Hmed); cbn [bq_len bq_sector bq_addr bq_status bq_in asked] in *;
    [done|by destruct Hlba|lia|lia|cbn; unfold pages_apart, queue_ok in *; lia|].
  assert (Hused1 : used_idx w1 = 0).
  { rewrite <- Hused. apply mem_le_eq. intros x Hx. apply Hfr; unfold in_page, pages_apart in *; lia. }
  exists k, (elapse_n k (write_volatile 2 (notify_base self) 0 w1)). split; [|split; [done|split]].
  - intros fuel Hf. rewrite (st_bind_Ok _ _ _ _ _ Hrun). unfold notify_and_wait. rewrite bind_mwrite.
    apply spin_run; [|by rewrite <- used_idx_phys, Hafter|done]. intros j Hj. by rewrite <- used_idx_phys, Hbefore, used_idx_phys.
  - intros Hrd. replace (db_virt (dma_buf self) + 512) with (db_phys (dma_buf self) + 512 + off) by lia.
    rewrite Hread by done. apply list_fmap_ext. intros _ x _. apply Hm1.
  - intros x. rewrite Hmed.
    destruct (decide (rd = false ∧ 512 * lba ≤ x < 512 * lba + 512)) as [Hx|Hx]; [|apply Hm1].
    rewrite Hfr by (unfold in_page, pages_apart in *; lia). f_equal. lia.
Qed.

(** C17: On a device that has just been initialised, the first request is
    carried out: the driver waits for the device and returns, a read of up to
    512 bytes yields the sector, a write of 512 bytes puts them there and
    changes nothing else. *)
Theorem virtio_first_request m w lba buf :
  is_u64 lba → lba < vb_sectors → vb_idle 0 w → medium_is m w →
  mem_le w 2 (db_virt (avail_buf self) + 2) = 0 → used_idx w = 0 → bytes_ok buf →
  (1 ≤ len buf ≤ 512 → ∃ k w', (∀ fuel, (k < fuel)%nat →
     virtio_read_sectors fuel self lba buf w = (w', Ok (m <$> seqZ (512 * lba) (len buf)))) ∧
     vb_idle 1 w' ∧ medium_is m w') ∧
  (len buf = 512 → ∃ k w', (∀ fuel, (k < fuel)%nat → virtio_write_sectors fuel self lba buf w = (w', Ok ())) ∧
     vb_idle 1 w' ∧
     medium_is (λ x, if decide (512 * lba ≤ x < 512 * lba + 512) then buf !!! Z.to_nat (x - 512 * lba) else m x) w').
Proof using Hok dev.
  intros Hlba Hcap Hi Hm Havail Hused Hb.
  destruct (vo_used _ _ Hok) as (_&_&_&HU). pose proof (vo_used_dma _ _ Hok) as A5. unfold pages_apart in A5.
  destruct (vo_dma _ _ Hok) as (_&_&_&HM). pose proof (vo_avail_dma _ _ Hok) as A2.
  destruct (vo_avail _ _ Hok) as (_&_&_&HA). unfold pages_apart in A2.
  assert (Hsec : ∀ n, 1 ≤ n ≤ 512 → (n +w 511) / 512 = 1).
  { intros n Hn. rewrite wrap_small by lia. symmetry. apply Z.div_unique with (n - 1); lia. }
  split.
  - intros Hl. destruct (first_request (E:=BlockError) true lba m w Hlba Hcap Hi Hm Havail Hused) as (k&w'&Hrun&Hi'&Hread&Hm').
    exists k, w'. split; [|split; [done|]].
    + intros fuel Hf. specialize (Hrun fuel Hf). unfold virtio_read_sectors. rewrite Hsec by lia. change (1 *w 512) with 512.
      rewrite bind_mstore. rewrite Z.min_l by lia.
      apply st_bind_Ok_inv in Hrun as (w1&[]&Hc&Hn). cbn [proj1_sig] in *.
      rewrite (st_bind_Ok _ _ _ _ _ Hc), (st_bind_Ok _ _ _ _ _ Hn), (st_bind_Ok _ _ _ _ _ (mload_run _ _ _)).
      rewrite upd_whole by (rewrite length_mem_at; lia). do 2 f_equal.
      unfold mem_at in Hread. unfold mem_at.
      rewrite <- (sub_fmap_seqZ _ _ 512), (Hread eq_refl), sub_fmap_seqZ by lia. done.
    + intros x. rewrite Hm'. by rewrite decide_False by by intros [[=] _].
  - intros Hl.
    destruct (idle_store m 0 w (db_virt (dma_buf self) + 512) buf (conj Hi Hm) Hb) as [Hi0 Hm0].
    destruct (first_request (E:=BlockError) false lba m (store (db_virt (dma_buf self) + 512) buf w) Hlba Hcap Hi0 Hm0)
      as (k&w'&Hrun&Hi'&_&Hm'); [rewrite mem_le_out by (done || lia); done|unfold used_idx; by rewrite mem_le_out by (done || lia)|].
    exists k, w'. split; [|split; [done|]].
    + intros fuel Hf. specialize (Hrun fuel Hf). unfold virtio_write_sectors. rewrite Hsec by lia. change (1 *w 512) with 512.
      rewrite !bind_mstore. exact Hrun.
    + intros x. rewrite Hm'. destruct (decide (512 * lba ≤ x < 512 * lba + 512)) as [Hx|Hx].
      * rewrite decide_True by done. rewrite byte_store by done. rewrite decide_True by lia. f_equal. lia.
      * rewrite decide_False by by intros [_ ?]. done.
Qed.
End first.

(** ** Initialisation *)

Section init.
Context {W : Type} {mmio : Mmio W} {ram : Ram W} {dma : DmaAllocator W}.

(** The register writes of a log, in the order they were made. *)
Definition writes (l : Logged W) : list (Z * Z * Z) :=
  reverse (omap (λ x, match x with Acc_write n a v => Some (n, a, v) | _ => None end) (log l)).

Definition no_write (x : access) : Prop := match x with Acc_write _ _ _ => False | _ => True end.

Lemma quiet_writes {E A} (m : st (Logged W) E A) l l' r : stays no_write m → m l = (l', r) → writes l' = writes l.
Proof.
  intros Hm Hrun. destruct (Hm l) as (new&Hlog&Hall). rewrite Hrun in Hlog. cbn in Hlog.
  unfold writes. rewrite Hlog, omap_app.
  replace (omap _ new) with (@nil (Z * Z * Z)); [done|]. symmetry. clear Hlog. induction Hall as [|x new Hx _ IH]; [done|].
  by destruct x.
Qed.

Lemma write_writes {E} n a v (l l' : Logged W) r : mwrite (E:=E) n a v l = (l', r) → writes l' = writes l ++ [(n, a, v)].
Proof. intros [= <- _]. unfold writes. cbn [log write_volatile Logged_Mmio omap list_omap]. by rewrite reverse_cons. Qed.

Lemma read_quiet {E} n a : stays (W:=W) no_write (mread (E:=E) n a).
Proof. by apply stays_read. Qed.
Lemma zero_quiet {E} n a : stays (W:=W) no_write (mzero (E:=E) n a).
Proof. by apply stays_store. Qed.
Lemma alloc_quiet held : stays (W:=W) no_write (virtio_alloc held).
Proof. unfold virtio_alloc. repeat stays_step. Qed.

(** The registers of the common configuration, as the initialisation writes
    them: reset, the first status bits, the low half of the features offered,
    queue 0 with its size and its three areas, its enable bit, and only then
    DRIVER_OK. *)
Definition init_writes (cfg features qmax : Z) (s : VirtioBlkState) : list (Z * Z * Z) :=
  let status v := (1, cfg +w COMMON_DEVICE_STATUS, v) in
  let low b := low_u32 (db_phys b) in
  let high b := high_u32 (db_phys b) in
  [status 0; status 3; (4, cfg +w COMMON_DEVICE_FEATURE_SELECT, 0); (4, cfg +w COMMON_DRIVER_FEATURE_SELECT, 0);
   (4, cfg +w COMMON_DRIVER_FEATURE, features); status 11; (2, cfg +w COMMON_QUEUE_SELECT, 0);
   (2, cfg +w COMMON_QUEUE_SIZE, Z.min 64 qmax);
   (4, cfg +w COMMON_QUEUE_DESC_LOW, low (desc_buf s)); (4, cfg +w COMMON_QUEUE_DESC_HIGH, high (desc_buf s));
   (4, cfg +w COMMON_QUEUE_AVAIL_LOW, low (avail_buf s)); (4, cfg +w COMMON_QUEUE_AVAIL_HIGH, high (avail_buf s));
   (4, cfg +w COMMON_QUEUE_USED_LOW, low (used_buf s)); (4, cfg +w COMMON_QUEUE_USED_HIGH, high (used_buf s));
   (2, cfg +w COMMON_QUEUE_ENABLE, 1); status 15].

Lemma init_ok_writes cfg notify devcfg mult l l' s :
  init_device (W:=Logged W) cfg notify devcfg mult l = (l', Ok s) →
  ∃ features qmax, ¬ qmax = 0 ∧ queue_size (vs_queue s) = Z.min 64 qmax ∧
    writes l' = writes l ++ init_writes cfg features qmax s.
Proof.
  unfold init_device. intros H.
  repeat lazymatch type of H with
  | (mwrite _ _ _ ≫= _) _ = _ =>
      let l1 := fresh "l" in let Hw := fresh "Hw" in
      apply st_bind_Ok_inv in H as (l1&?&Hw%write_writes&H); cbv beta in H
  | (mread _ _ ≫= _) _ = _ =>
      let l1 := fresh "l" in let Hw := fresh "Hw" in let v := fresh "v" in
      apply st_bind_Ok_inv in H as (l1&v&Hw%(quiet_writes _ _ _ _ (read_quiet _ _))&H); cbv beta in H
  | (mzero _ _ ≫= _) _ = _ =>
      let l1 := fresh "l" in let Hw := fresh "Hw" in
      apply st_bind_Ok_inv in H as (l1&?&Hw%(quiet_writes _ _ _ _ (zero_quiet _ _))&H); cbv beta in H
  | (virtio_alloc _ ≫= _) _ = _ =>
      let l1 := fresh "l" in let Hw := fresh "Hw" in let b := fresh "b" in
      apply st_bind_Ok_inv in H as (l1&b&Hw%(quiet_writes _ _ _ _ (alloc_quiet _))&H); cbv beta in H
  | (if ?b then fail _ else _) _ = _ => let Hb := fresh "Hb" in destruct b eqn:Hb; [discriminate H|]
  end.
  injection H as <- <-. eexists _, _. split; [by apply Z.eqb_neq|]. split; [done|].
  repeat match goal with Hw : writes _ = _ |- _ => rewrite Hw; clear Hw end.
  rewrite <- !app_assoc. done.
Qed.

Lemma mread_no_err {E} n a (l l' : Logged W) (e : E) : mread n a l = (l', Err e) → False.
Proof. unfold mread. by destruct (read_volatile n a l). Qed.

Local Ltac finish :=
  eexists; split;
  [ repeat match goal with Hw : writes _ = _ |- _ => rewrite Hw; clear Hw end; rewrite <- ?app_assoc; reflexivity |];
  rewrite ?not_elem_of_app, ?not_elem_of_cons; repeat split; try apply not_elem_of_nil; congruence.

Lemma init_err_writes cfg notify devcfg mult l l' e :
  init_device (W:=Logged W) cfg notify devcfg mult l = (l', Err e) →
  ∃ new, writes l' = writes l ++ new ∧ (1, cfg +w COMMON_DEVICE_STATUS, 15) ∉ new.
Proof.
  unfold init_device. change (Z.lor (Z.lor VIRTIO_STATUS_ACKNOWLEDGE VIRTIO_STATUS_DRIVER) VIRTIO_STATUS_FEATURES_OK) with 11.
  change (Z.lor VIRTIO_STATUS_ACKNOWLEDGE VIRTIO_STATUS_DRIVER) with 3. intros H.
  repeat lazymatch type of H with
  | (mwrite _ _ _ ≫= _) _ = _ =>
      let l1 := fresh "l" in let Hw := fresh "Hw" in
      apply st_bind_Err_inv in H as [H|(l1&?&Hw%write_writes&H)]; [discriminate H|]; cbv beta in H
  | (mread _ _ ≫= _) _ = _ =>
      let l1 := fresh "l" in let Hw := fresh "Hw" in let v := fresh "v" in
      apply st_bind_Err_inv in H as [H|(l1&v&Hw%(quiet_writes _ _ _ _ (read_quiet _ _))&H)];
        [by apply mread_no_err in H|]; cbv beta in H
  | (mzero _ _ ≫= _) _ = _ =>
      let l1 := fresh "l" in let Hw := fresh "Hw" in
      apply st_bind_Err_inv in H as [H|(l1&?&Hw%(quiet_writes _ _ _ _ (zero_quiet _ _))&H)]; [discriminate H|]; cbv beta in H
  | (virtio_alloc _ ≫= _) _ = _ =>
      let l1 := fresh "l" in let Hw := fresh "Hw" in let b := fresh "b" in
      apply st_bind_Err_inv in H as [Hw%(quiet_writes _ _ _ _ (alloc_quiet _))|(l1&b&Hw%(quiet_writes _ _ _ _ (alloc_quiet _))&H)];
        [finish|]; cbv beta in H
  | (if ?b then fail _ else _) _ = _ => destruct b; [injection H as <- _; finish|]
  end.
  discriminate H.
Qed.

(** Whatever the device answers, an initialisation that succeeds has made
    exactly the register writes of [init_writes], in this order, with a queue of
    at most 64 entries; one that fails has never set DRIVER_OK. *)
Theorem virtio_init_order cfg notify devcfg mult l l' r :
  init_device (W:=Logged W) cfg notify devcfg mult l = (l', r) →
  match r with
  | Ok s => ∃ features qmax, ¬ qmax = 0 ∧ queue_size (vs_queue s) = Z.min 64 qmax ∧
      writes l' = writes l ++ init_writes cfg features qmax s
  | Err _ => ∃ new, writes l' = writes l ++ new ∧ (1, cfg +w COMMON_DEVICE_STATUS, 15) ∉ new
  | _ => True
  end.
Proof. intros H. destruct r; [by apply init_ok_writes in H|by apply init_err_writes in H|done..]. Qed.
End init.
