(* ===== verification/VirtioDemo.v ===== *)
(** * A small virtio block device

    An executable device with one queue and a disk in memory, that completes a
    request two looks after it is notified. It meets the contract of
    [VirtioBlkDev]; the driver initialises it, and its first, its second and a
    two-sector request are evaluated. *)

From S2P Require Import Prelude Bytes Text BlockDev Mmio Frames Dma AhciHba AhciFacts AhciDemo Virtio VirtioDev VirtioFacts.

Record SimVirtio := {
  sv_ram : gmap Z Z; sv_disk : gmap Z Z;
  sv_status : Z; sv_size : Z;
  sv_pending : option BlkRequest; sv_wait : nat; sv_done : Z;
  sv_next : Z;
}.

Definition sim_cfg : Z := 2 ^ 41.
Definition sim_notify : Z := 2 ^ 41 + 0x1000.
Definition sim_devcfg : Z := 2 ^ 41 + 0x2000.

(** Where the allocator below puts the rings. *)
Definition sim_queue : QueueAreas := {| qa_desc := 0x2000000; qa_avail := 0x2001000; qa_used := 0x2002000; qa_size := 64 |}.

Definition sv_mem (h : SimVirtio) (p : Z) : Z := default 0 (sv_ram h !! (p + sim_off)) mod 256.

Definition sv_with_ram (r : gmap Z Z) (h : SimVirtio) : SimVirtio := {|
  sv_ram := r; sv_disk := sv_disk h; sv_status := sv_status h; sv_size := sv_size h; sv_pending := sv_pending h;
  sv_wait := sv_wait h; sv_done := sv_done h; sv_next := sv_next h |}.
Definition sv_with_regs (status size : Z) (h : SimVirtio) : SimVirtio := {|
  sv_ram := sv_ram h; sv_disk := sv_disk h; sv_status := status; sv_size := size; sv_pending := sv_pending h;
  sv_wait := sv_wait h; sv_done := sv_done h; sv_next := sv_next h |}.
Definition sv_running (r : option BlkRequest) (n : nat) (h : SimVirtio) : SimVirtio := {|
  sv_ram := sv_ram h; sv_disk := sv_disk h; sv_status := sv_status h; sv_size := sv_size h; sv_pending := r;
  sv_wait := n; sv_done := sv_done h; sv_next := sv_next h |}.
Definition sv_finished (ram disk : gmap Z Z) (h : SimVirtio) : SimVirtio := {|
  sv_ram := ram; sv_disk := disk; sv_status := sv_status h; sv_size := sv_size h; sv_pending := None;
  sv_wait := 0; sv_done := sv_done h + 1; sv_next := sv_next h |}.
Definition sv_with_next (n : Z) (h : SimVirtio) : SimVirtio := {|
  sv_ram := sv_ram h; sv_disk := sv_disk h; sv_status := sv_status h; sv_size := sv_size h; sv_pending := sv_pending h;
  sv_wait := sv_wait h; sv_done := sv_done h; sv_next := n |}.

(** The data, then the status byte, then the used index. *)
Definition transfer (h : SimVirtio) (r : BlkRequest) : SimVirtio :=
  let fits := 512 * bq_sector r + bq_len r <=? 512 * sim_sectors in
  let ram1 := if fits && bq_in r
              then sim_put (bq_addr r + sim_off) (bytes_of (sv_disk h) (512 * bq_sector r) (bq_len r)) (sv_ram h)
              else sv_ram h in
  let disk := if fits && negb (bq_in r)
              then sim_put (512 * bq_sector r) (bytes_of (sv_ram h) (bq_addr r + sim_off) (bq_len r)) (sv_disk h)
              else sv_disk h in
  let ram2 := sim_put (bq_status r + sim_off) [if fits then 0 else 1] ram1 in
  let ram3 := sim_put (qa_used sim_queue + 2 + sim_off) (to_le 2 (sv_done h + 1)) ram2 in
  sv_finished ram3 disk h.

#[export] Instance sv_mmio : Mmio SimVirtio := {|
  read_volatile n a h := (h,
    if a =? sim_cfg + COMMON_DEVICE_STATUS then sv_status h else
    if a =? sim_cfg + COMMON_DEVICE_FEATURE then 0x30000006 else
    if a =? sim_cfg + COMMON_QUEUE_SIZE then sv_size h else
    if a =? sim_devcfg then sim_sectors else 0);
  write_volatile n a v h :=
    if a =? sim_cfg + COMMON_DEVICE_STATUS then sv_with_regs v (sv_size h) h else
    if a =? sim_cfg + COMMON_QUEUE_SIZE then sv_with_regs (sv_status h) v h else
    if a =? sim_notify then sv_running (fetch_request (sv_mem h) sim_queue (sv_done h)) 2 h else h;
|}.

#[export] Instance sv_ram_ : Ram SimVirtio := {|
  load a n h := (h, bytes_of (sv_ram h) a n);
  store a b h := sv_with_ram (sim_put a b (sv_ram h)) h;
  elapse h :=
    match sv_wait h, sv_pending h with
    | 1%nat, Some r => transfer h r
    | S n, p => sv_running p n h
    | O, _ => h
    end;
|}.

#[export] Instance sv_dma : DmaAllocator SimVirtio := {|
  alloc E size align h :=
    (sv_with_next (sv_next h + 4096) h, Ok (Some {| db_phys := sv_next h; db_virt := sv_next h + sim_off; db_size := 4096 |}));
  free E b h := (h, Ok ());
|}.

#[export, refine] Instance sv_ram_ok : RamOk SimVirtio := {|
  byte h x := default 0 (sv_ram h !! x) mod 256;
|}.
Proof.
  - intros. apply Z.mod_pos_bound. lia.
  - done.
  - intros a b h x Hb. cbn [sv_ram store sv_ram_ sv_with_ram]. rewrite sim_put_eq. apply (stored_byte (sv_ram h) a b x Hb).
Defined.

(** ** The contract *)

Definition sv_idle (n : Z) (h : SimVirtio) : Prop := sv_done h = n ∧ sv_wait h = 0%nat.
Definition sv_medium (h : SimVirtio) (x : Z) : Z := default 0 (sv_disk h !! x) mod 256.

Lemma transfer_ok h r (n : Z) :
  sv_done h = n → 512 * bq_sector r + bq_len r ≤ 512 * sim_sectors → 0 ≤ bq_len r →
  ¬ (bq_addr r ≤ bq_status r < bq_addr r + bq_len r) →
  bq_addr r + bq_len r ≤ qa_used sim_queue ∨ qa_used sim_queue + 6 + 8 * qa_size sim_queue ≤ bq_addr r →
  let h' := transfer h r in
  phys_le (λ p, byte h' (p + sim_off)) 2 (qa_used sim_queue + 2) = (n + 1) mod 2 ^ 16 ∧ sv_idle (n + 1) h' ∧
  (bq_in r = true → mem_at h' (bq_addr r + sim_off) (bq_len r) = sv_medium h <$> seqZ (512 * bq_sector r) (bq_len r)) ∧
  ∀ x, sv_medium h' x =
    if decide (bq_in r = false ∧ 512 * bq_sector r ≤ x < 512 * bq_sector r + bq_len r)
    then byte h (bq_addr r + sim_off + (x - 512 * bq_sector r)) else sv_medium h x.
Proof.
  intros <- Hcap Hlen Hst Hus h'. unfold h', transfer. rewrite (proj2 (Z.leb_le _ _)) by done. cbn [andb].
  rewrite !sim_put_eq. cbn [qa_used qa_size sim_queue] in *. split; [|split; [done|split]].
  - rewrite phys_le_mem. unfold mem_le. change (mem_at ?h ?a ?n) with (bytes_of (sv_ram h) a n). cbn [sv_ram sv_finished].
    rewrite bytes_of_store by (apply to_le_bytes || by rewrite length_to_le). apply from_to_le.
  - intros ->. change (mem_at ?h ?a ?n) with (bytes_of (sv_ram h) a n). cbn [sv_ram sv_finished].
    rewrite bytes_of_out by (apply to_le_bytes || (rewrite length_to_le; lia)).
    assert (Hdata : bytes_of (ram_store (bq_addr r + sim_off) (bytes_of (sv_disk h) (512 * bq_sector r) (bq_len r)) (sv_ram h))
      (bq_addr r + sim_off) (bq_len r) = sv_medium h <$> seqZ (512 * bq_sector r) (bq_len r)).
    { rewrite bytes_of_store by (apply bytes_of_ok || (rewrite length_bytes_of; lia)). done. }
    rewrite bytes_of_out; [done|by repeat constructor|]. change (len [0]) with 1. lia.
  - intros x. unfold sv_medium at 1. cbn [sv_disk sv_finished]. destruct (bq_in r); cbn [negb].
    + rewrite decide_False by by intros [[=] _]. done.
    + rewrite stored_byte by apply bytes_of_ok. rewrite length_bytes_of, Z2Nat.id by lia.
      destruct (decide (512 * bq_sector r ≤ x < 512 * bq_sector r + bq_len r)) as [Hx|Hx].
      * rewrite decide_True by done. apply list_lookup_total_correct. rewrite lookup_bytes_of, decide_True by lia.
        cbn. do 4 f_equal. lia.
      * rewrite decide_False by by intros [_ ?]. done.
Qed.

#[export, refine] Instance sv_dev : VirtioBlkDev SimVirtio sim_off sim_notify sim_queue := {|
  vb_idle := sv_idle;
  vb_sectors := sim_sectors;
  vb_medium := sv_medium;
|}.
Proof.
  - intros. apply Z.mod_pos_bound. lia.
  - intros n h a b Hi Hb. by split.
  - intros n h r [Hn Hw] _ Hf Hmod Hsec Hcap Hst Hus.
    change (λ p, byte h (p + sim_off)) with (sv_mem h) in Hf. rewrite <- Hn in Hf.
    change (write_volatile 2 sim_notify 0 h) with (sv_running (fetch_request (sv_mem h) sim_queue (sv_done h)) 2 h).
    rewrite Hf. exists 2%nat.
    change (elapse_n 2 (sv_running (Some r) 2 h)) with (transfer (sv_running (Some r) 1 h) r).
    split.
    + intros j Hj. destruct j as [|[|j]]; [done|done|lia].
    + apply (transfer_ok (sv_running (Some r) 1 h) r n); try done.
      assert (Hlen : ∃ p, bq_len r = phys_le (sv_mem h) 4 p).
      { unfold fetch_request in Hf. destruct (_ && _); [|done]. injection Hf as <-. by eexists. }
      destruct Hlen as [p ->]. change (sv_mem h) with (λ p, byte h (p + sim_off)). rewrite phys_le_mem. unfold mem_le.
      apply from_le_range, bytes_ok_mem_at.
Defined.

(** ** The driver on it *)

Definition demo_disk : gmap Z Z := ram_store 512 (replicate 512 5 ++ replicate 512 7) ∅.
Definition demo_device : SimVirtio := {|
  sv_ram := ∅; sv_disk := demo_disk; sv_status := 0; sv_size := 128; sv_pending := None; sv_wait := 0; sv_done := 0;
  sv_next := 0x2000000 |}.
Definition demo_virtio : VirtioBlkState := {|
  common_cfg := sim_cfg; notify_base := sim_notify; notify_off_multiplier := 4; vs_sector_count := sim_sectors;
  vs_queue := {| vq_desc := 0x2000000 + sim_off; vq_avail := 0x2001000 + sim_off; vq_used := 0x2002000 + sim_off;
                 queue_size := 64; last_used_idx := 0 |};
  desc_buf := demo_page 0x2000000; avail_buf := demo_page 0x2001000; used_buf := demo_page 0x2002000;
  dma_buf := demo_page 0x2003000 |}.

Lemma demo_virtio_init :
  (let '(h, r) := init_device sim_cfg sim_notify sim_devcfg 4 demo_device in (r, sv_status h, sv_done h)) =
    (Ok demo_virtio, 15, 0).
Proof. vm_compute. reflexivity. Qed.

Lemma demo_virtio_ok : virtio_ok sim_off demo_virtio.
Proof. split; unfold page_ok, pages_apart, queue_ok; cbn; try lia; try (split_and!; done || lia). by exists 1024. Qed.

(** The first request is answered, the second is not waited for: it returns
    what the page still holds. A request of two sectors is cut by its status
    byte. *)
Definition demo_reads : SimVirtio * outcome BlockError (list Z * list Z) :=
  (a ← virtio_read_sectors 10 demo_virtio 1 (zeros 512);
   b ← virtio_read_sectors 10 demo_virtio 2 (zeros 512); mret (a, b)) demo_device.

Lemma second_read_stale : demo_reads.2 = Ok (replicate 512 5, replicate 512 5).
Proof. vm_compute. reflexivity. Qed.

Lemma two_sectors_cut :
  (virtio_read_sectors 10 demo_virtio 1 (zeros 1024) demo_device).2 = Ok (replicate 512 5 ++ [0] ++ replicate 511 7).
Proof. vm_compute. reflexivity. Qed.

(** A sector the device does not have: the error is not noticed. *)
Lemma error_unnoticed :
  is_ok (virtio_read_sectors 10 demo_virtio 100000 (zeros 512) demo_device).2 = true.
Proof. vm_compute. reflexivity. Qed.

Lemma demo_buf_ok : bytes_ok (replicate 512 9).
Proof. apply bytes_ok_check. vm_compute. reflexivity. Qed.

Lemma virtio_accesses_witness :
  bytes_ok (replicate 512 9) ∧ stays (W:=SimVirtio) (virtio_access demo_virtio) (virtio_read_sectors 10 demo_virtio 1 (replicate 512 9)).
Proof.
  split; [exact demo_buf_ok|].
  refine (proj1 (virtio_accesses (W:=SimVirtio) 10 demo_virtio 1 (replicate 512 9) demo_buf_ok _ _));
    [rewrite length_replicate; lia|split; cbn; lia].
Defined.

Lemma demo_medium : medium_is (W:=SimVirtio) sim_off demo_virtio (dev := sv_dev) (sv_medium demo_device) demo_device.
Proof. done. Qed.

Lemma demo_idle : sv_idle 0 demo_device.
Proof. done. Qed.

Lemma virtio_first_request_witness :
  ∃ k w', (∀ fuel, (k < fuel)%nat →
    virtio_read_sectors fuel demo_virtio 1 (replicate 512 9) demo_device =
      (w', Ok (sv_medium demo_device <$> seqZ 512 512))) ∧ sv_idle 1 w' ∧ ∀ x, sv_medium w' x = sv_medium demo_device x.
Proof.
  refine (proj1 (virtio_first_request (dev := sv_dev) sim_off demo_virtio demo_virtio_ok (sv_medium demo_device) demo_device
    1 (replicate 512 9) _ _ demo_idle demo_medium _ _ demo_buf_ok) _); try done.
Defined.

Lemma demo_first_sector : sv_medium demo_device <$> seqZ 512 512 = replicate 512 5.
Proof. vm_compute. reflexivity. Qed.

Definition demo_log : Logged SimVirtio := {| log := []; machine := demo_device |}.
Lemma demo_log_run : ∃ l, init_device sim_cfg sim_notify sim_devcfg 4 demo_log = (l, Ok demo_virtio).
Proof.
  assert (H : (init_device sim_cfg sim_notify sim_devcfg 4 demo_log).2 = Ok demo_virtio) by (vm_compute; reflexivity).
  revert H. generalize (init_device sim_cfg sim_notify sim_devcfg 4 demo_log). intros [l r] H. exists l. by rewrite <- H.
Qed.

Lemma virtio_init_order_witness :
  ∃ l', init_device sim_cfg sim_notify sim_devcfg 4 demo_log = (l', Ok demo_virtio) ∧
    ∃ features qmax, ¬ qmax = 0 ∧ queue_size (vs_queue demo_virtio) = Z.min 64 qmax ∧
      writes l' = writes demo_log ++ init_writes sim_cfg features qmax demo_virtio.
Proof.
  destruct demo_log_run as [l Hl]. exists l. split; [exact Hl|].
  exact (virtio_init_order sim_cfg sim_notify sim_devcfg 4 demo_log l (Ok demo_virtio) Hl).
Defined.
