(* ===== verification/KernelDma.v ===== *)
(** * The drivers on the kernel's DMA allocator

    [KernelDmaAllocator] of [kernel/src/memory/dma_alloc.rs] as the allocator the
    block drivers run with: the machine of the drivers is the hardware together
    with the frame allocator. The pages the drivers are given are pages of
    usable memory, no two the same, which is what their theorems ask for. *)

From S2P Require Import Prelude Bytes Text BlockDev Mmio Frames FramesFacts Dma Ahci AhciHba AhciFacts AhciDemo Virtio VirtioDev VirtioFacts.

(** [kernel_free]: nothing is given back. *)
Definition kernel_free {S E} (b : DmaBuffer) : st S E () := mret ().

(** The machine with something else beside it. *)
Definition Snd_Mmio {C W} {mmio : Mmio W} : Mmio (C * W) := {|
  read_volatile n a s := let '(w, v) := read_volatile n a s.2 in ((s.1, w), v);
  write_volatile n a v s := (s.1, write_volatile n a v s.2);
|}.
Definition Snd_Ram {C W} {ram : Ram W} : Ram (C * W) := {|
  load a n s := let '(w, b) := load a n s.2 in ((s.1, w), b);
  store a b s := (s.1, store a b s.2);
  elapse s := (s.1, elapse s.2);
|}.

Section kernel.
Context {W : Type} {mmio : Mmio W} {ram : Ram W}.
Variable frame_of : Z → option Z.
Variable self : KernelDmaAllocator.

Definition on_fst {S C E A} (m : st S E A) : st (S * C) E A :=
  λ s, let '(s1, r) := m s.1 in ((s1, s.2), r).

#[local] Existing Instance Snd_Mmio.
#[local] Existing Instance Snd_Ram.
#[local] Instance Kernel_Dma : DmaAllocator (DmaState * W) := {|
  alloc E size align := on_fst (dma_alloc frame_of self size align);
  free E b := kernel_free b;
|}.

(** ** What leaves the allocator alone *)

Definition no_alloc {E A} (m : st (DmaState * W) E A) : Prop := ∀ s, (m s).1.1 = s.1.

Lemma no_alloc_bind {E A B} (m : st (DmaState * W) E A) (k : A → st (DmaState * W) E B) :
  no_alloc m → (∀ a, no_alloc (k a)) → no_alloc (m ≫= k).
Proof.
  intros Hm Hk s. rewrite st_bind_unfold. specialize (Hm s). destruct (m s) as [s' [a|e| |]]; try done.
  cbn in Hm. by rewrite Hk.
Qed.
Lemma no_alloc_read {E} n a : no_alloc (mread (E:=E) n a).
Proof. intros s. unfold mread. cbn. by destruct (read_volatile n a s.2). Qed.
Lemma no_alloc_write {E} n a v : no_alloc (mwrite (E:=E) n a v).
Proof. by intros s. Qed.
Lemma no_alloc_zero {E} a n : no_alloc (mzero (E:=E) a n).
Proof. by intros s. Qed.
Lemma no_alloc_for {E A} (xs : list A) (body : A → st (DmaState * W) E ()) :
  (∀ x, no_alloc (body x)) → no_alloc (for_ xs body).
Proof. intros Hb. induction xs as [|x xs IH]; cbn [for_]; [by intros s|]. by apply no_alloc_bind. Qed.
Lemma no_alloc_until {E} n a test : no_alloc (until (E:=E) n (poll a test)).
Proof.
  intros s. rewrite until_eq. revert s. induction (Z.to_nat n) as [|k IH]; cbn [until_nat]; [by intros s|].
  apply no_alloc_bind; [|by intros []; [intros s|]].
  apply no_alloc_bind; [apply no_alloc_read|]. intros v. by destruct (test v).
Qed.
Lemma no_alloc_stop {E} a test n reg v (e : E) :
  no_alloc (mwrite 4 reg v;; idle ← until n (poll a test); if (idle : bool) then mret () else fail e).
Proof.
  apply no_alloc_bind; [apply no_alloc_write|]. intros []. apply no_alloc_bind; [apply no_alloc_until|].
  intros []; by intros s.
Qed.

(** ** One page *)

Hypothesis frame_of_spec : ∀ a, 0 ≤ a < 2 ^ 52 → frame_of a = Some (a / 4096 * 4096).

(** The allocator after [n] frames of [map]. *)
Definition taken (map : list MemoryRegion) (n : Z) (s : DmaState) : Prop :=
  FRAME_ALLOC s = Some {| memory_map := map; fa_next := n |}.

(** A page made of the [n]-th usable frame. *)
Definition nth_page (map : list MemoryRegion) (n : Z) (b : DmaBuffer) : Prop :=
  usable_addrs map !! Z.to_nat n = Some (db_phys b) ∧ db_virt b = db_phys b +w phys_mem_offset self.

Lemma alloc_one {E} map n s s' b :
  map_ok map → 0 ≤ n < 2 ^ 63 → taken map n s.1 →
  alloc (E:=E) 4096 4096 s = (s', Ok (Some b)) → nth_page map n b ∧ taken map (n + 1) s'.1.
Proof using frame_of_spec.
  intros Hok Hn Ht. destruct s as [[fa tracker] w]. unfold taken in Ht. cbn in Ht. subst fa.
  cbn [alloc Kernel_Dma]. unfold on_fst, dma_alloc. cbn [fst snd FRAME_ALLOC].
  change (Z.to_nat ((4096 +w 4095) / 4096)) with 1%nat. cbn [take_frames].
  rewrite st_bind_unfold, (allocate_frame_ok frame_of frame_of_spec map n Hok) by (unfold is_u; lia).
  destruct (usable_addrs map !! Z.to_nat n) as [f|] eqn:Hf; [|done]. cbn. rewrite wrap_small by lia.
  intros [= <- <-]. split; [by split|done].
Qed.

Lemma page_alloc_one held map n s s' b :
  map_ok map → 0 ≤ n < 2 ^ 63 → taken map n s.1 →
  alloc_page held s = (s', Ok b) → nth_page map n b ∧ taken map (n + 1) s'.1.
Proof using frame_of_spec.
  intros Hok Hn Ht. unfold alloc_page. intros (s1&o&Ha&H)%st_bind_Ok_inv. destruct o as [b'|].
  - injection H as <- <-. exact (alloc_one map n s s1 b' Hok Hn Ht Ha).
  - apply st_bind_Ok_inv in H as (?&?&_&H). discriminate H.
Qed.
Lemma virtio_alloc_one held map n s s' b :
  map_ok map → 0 ≤ n < 2 ^ 63 → taken map n s.1 →
  virtio_alloc held s = (s', Ok b) → nth_page map n b ∧ taken map (n + 1) s'.1.
Proof using frame_of_spec.
  intros Hok Hn Ht. unfold virtio_alloc. intros (s1&o&Ha&H)%st_bind_Ok_inv. destruct o as [b'|].
  - injection H as <- <-. exact (alloc_one map n s s1 b' Hok Hn Ht Ha).
  - apply st_bind_Ok_inv in H as (?&?&_&H). discriminate H.
Qed.

(** ** Pages are fit for the drivers *)

Lemma nth_page_frame map n b :
  map_ok map → nth_page map n b →
  0 ≤ db_phys b ∧ db_phys b mod 4096 = 0 ∧ db_phys b + 4096 ≤ 2 ^ 52 ∧ usable_page map (db_phys b).
Proof.
  intros Hok [Hl _]. apply list_elem_of_lookup_2 in Hl.
  pose proof (usable_addrs_page map (db_phys b) Hok Hl) as Hup. pose proof Hup as (Hal&_&r&Hr&Hk&Hlo&Hhi).
  destruct Hok as [Hok _]. rewrite Forall_forall in Hok.
  destruct (Hok r) as (?&_&_&?); [by apply list_elem_of_filter|]. split_and!; [lia|done|lia|done].
Qed.

Lemma nth_page_ok map n b :
  map_ok map → 0 ≤ phys_mem_offset self ≤ 2 ^ 63 → nth_page map n b → page_ok (phys_mem_offset self) b.
Proof.
  intros Hok Hoff Hb. destruct (nth_page_frame map n b Hok Hb) as (?&?&?&_). destruct Hb as [_ Hv].
  rewrite wrap_small in Hv by lia. unfold page_ok. split_and!; [lia|done|lia|done].
Qed.

Lemma nth_page_apart map n k b c :
  map_ok map → 0 ≤ n < k → nth_page map n b → nth_page map k c → pages_apart b c.
Proof.
  intros Hok Hn Hb Hc. destruct (nth_page_frame map n b Hok Hb) as (?&?&_). destruct (nth_page_frame map k c Hok Hc) as (?&?&_).
  assert (Hne : db_phys b ≠ db_phys c).
  { intros He. destruct Hb as [Hb _], Hc as [Hc _]. rewrite He in Hb.
    pose proof (NoDup_lookup _ _ _ _ (usable_addrs_NoDup map Hok) Hb Hc). lia. }
  unfold pages_apart. dlia.
Qed.

Lemma no_alloc_taken {E A} (m : st (DmaState * W) E A) map n s s1 r :
  no_alloc m → m s = (s1, r) → taken map n s.1 → taken map n s1.1.
Proof. intros Hm Hr. specialize (Hm s). rewrite Hr in Hm. cbn in Hm. by rewrite Hm. Qed.

(** One step of an initialisation, with the frames taken so far. *)
Local Ltac quiet_step H HT :=
  let s1 := fresh "s" in let a := fresh "a" in let Hm := fresh "Hm" in
  apply st_bind_Ok_inv in H as (s1&a&Hm&H); cbv beta in H;
  let m := match type of Hm with ?m _ = _ => m end in
  let Hq := fresh "Hq" in
  assert (Hq : no_alloc m) by first
    [ apply no_alloc_read | apply no_alloc_write | apply no_alloc_zero | apply no_alloc_until
    | apply no_alloc_for; intros ?; apply no_alloc_zero
    | match goal with |- no_alloc (if ?b then _ else _) => destruct b; [apply no_alloc_stop|by intros ?] end ];
  apply (no_alloc_taken _ _ _ _ _ _ Hq Hm) in HT; clear Hm Hq.
Local Ltac page_step lemma H HT :=
  let s1 := fresh "s" in let b := fresh "b" in let Hm := fresh "Hm" in let Hb := fresh "Hb" in
  apply st_bind_Ok_inv in H as (s1&b&Hm&H); cbv beta in H;
  lazymatch type of HT with taken ?map ?k _ => apply (lemma _ map k) in Hm as [Hb Hm]; [|done|lia|exact HT] end;
  clear HT; rename Hm into HT.

Lemma port_init_pages map n mmio_base i s s' p :
  map_ok map → 0 ≤ n < 2 ^ 62 → taken map n s.1 →
  PortState_init mmio_base i s = (s', Ok p) →
  nth_page map n (cmd_list_buf p) ∧ nth_page map (n + 1) (cmd_table_buf p) ∧
  nth_page map (n + 1 + 1) (rfis_buf p) ∧ nth_page map (n + 1 + 1 + 1) (data_buf p) ∧ taken map (n + 1 + 1 + 1 + 1) s'.1.
Proof using frame_of_spec.
  intros Hok Hn HT H. unfold PortState_init in H. cbv zeta in H.
  repeat lazymatch type of H with
  | (alloc_page _ ≫= _) _ = _ => page_step page_alloc_one H HT
  | (mbind _ _) _ = _ => quiet_step H HT
  | (if negb ?b then _ else _) _ = _ => destruct b; cbn [negb] in H
  end; try (apply st_bind_Ok_inv in H as (?&?&_&H); discriminate H).
  injection H as <- <-. done.
Qed.

Lemma virtio_init_pages map n cfg notify devcfg mult s s' v :
  map_ok map → 0 ≤ n < 2 ^ 62 → taken map n s.1 →
  init_device cfg notify devcfg mult s = (s', Ok v) →
  nth_page map n (desc_buf v) ∧ nth_page map (n + 1) (avail_buf v) ∧
  nth_page map (n + 1 + 1) (used_buf v) ∧ nth_page map (n + 1 + 1 + 1) (dma_buf v) ∧ taken map (n + 1 + 1 + 1 + 1) s'.1.
Proof using frame_of_spec.
  intros Hok Hn HT H. unfold init_device in H. cbv zeta in H.
  repeat lazymatch type of H with
  | (virtio_alloc _ ≫= _) _ = _ => page_step virtio_alloc_one H HT
  | (mbind _ _) _ = _ => quiet_step H HT
  | (if ?b then fail _ else _) _ = _ => destruct b; [discriminate H|]
  end.
  injection H as <- <-. done.
Qed.

(** C18: on the kernel's allocator, with a page-aligned memory map, a port or a
    virtio device that comes up has been given four pages of usable memory, page
    aligned, disjoint, mapped at the offset the driver computes with: exactly
    what the drivers' theorems ask of their buffers. Four frames are gone. *)
Theorem kernel_pages_fit map n s :
  map_ok map → 0 ≤ n < 2 ^ 62 → 0 ≤ phys_mem_offset self ≤ 2 ^ 63 → taken map n s.1 →
  (∀ mmio_base i s' p, PortState_init mmio_base i s = (s', Ok p) →
     port_ok (phys_mem_offset self) p ∧ taken map (n + 4) s'.1 ∧
     Forall (λ b, usable_page map (db_phys b)) [cmd_list_buf p; cmd_table_buf p; rfis_buf p; data_buf p]) ∧
  (∀ cfg notify devcfg mult s' v, init_device cfg notify devcfg mult s = (s', Ok v) →
     (queue_ok (vs_queue v) → (queue_size (vs_queue v) | 2 ^ 16) → virtio_ok (phys_mem_offset self) v) ∧
     taken map (n + 4) s'.1 ∧
     Forall (λ b, usable_page map (db_phys b)) [desc_buf v; avail_buf v; used_buf v; dma_buf v]).
Proof using frame_of_spec.
  intros Hok Hn Hoff HT.
  assert (Hp : ∀ k b, nth_page map k b → page_ok (phys_mem_offset self) b) by (intros k b; by apply nth_page_ok).
  assert (Hu : ∀ k b, nth_page map k b → usable_page map (db_phys b)).
  { intros k b Hb. by destruct (nth_page_frame map k b Hok Hb) as (_&_&_&?). }
  assert (Ha : ∀ k j b c, 0 ≤ k < j → nth_page map k b → nth_page map j c → pages_apart b c)
    by (intros k j b c; by apply nth_page_apart).
  replace (n + 4) with (n + 1 + 1 + 1 + 1) by lia. split.
  - intros mmio_base i s' p H. destruct (port_init_pages map n mmio_base i s s' p Hok Hn HT H) as (H1&H2&H3&H4&HT').
    split; [split; first [by eapply Hp|eapply Ha; [|eassumption..]; lia]|]. split; [done|]. repeat (constructor; [by eapply Hu|]). constructor.
  - intros cfg notify devcfg mult s' v H.
    destruct (virtio_init_pages map n cfg notify devcfg mult s s' v Hok Hn HT H) as (H1&H2&H3&H4&HT').
    split; [intros Hq Hdiv; split; first [done|by eapply Hp|eapply Ha; [|eassumption..]; lia]|].
    split; [done|]. repeat (constructor; [by eapply Hu|]). constructor.
Qed.
End kernel.

(** ** The demonstration controller on a kernel with sixteen pages *)

Definition sixteen_pages : list MemoryRegion :=
  [{| mr_start := 0; mr_end := 0x2010000; mr_kind := Mrk_Usable |}].
Definition kernel_dma : KernelDmaAllocator := {| phys_mem_offset := sim_off |}.
Definition kernel_start : DmaState * SimHba :=
  ({| FRAME_ALLOC := Some {| memory_map := sixteen_pages; fa_next := 0 |}; ALLOC_TRACKER := ∅ |}, fresh_hba).

Local Abbreviation kernel_port_init :=
  (PortState_init (mmio := Snd_Mmio) (ram := Snd_Ram) (dma := Kernel_Dma demo_frame_of kernel_dma) sim_abar 0 kernel_start).

Lemma kernel_port_init_result : kernel_port_init.2 = Ok demo_port.
Proof. vm_compute. reflexivity. Qed.
Lemma kernel_port_init_run : ∃ s, kernel_port_init = (s, Ok demo_port).
Proof.
  pose proof kernel_port_init_result as H. revert H. generalize kernel_port_init. intros [s r] H. exists s. by rewrite <- H.
Qed.

Lemma sixteen_pages_ok : map_ok sixteen_pages.
Proof. split; [repeat constructor; by vm_compute|repeat constructor]. Qed.

Lemma kernel_pages_fit_witness :
  port_ok sim_off demo_port ∧
  Forall (λ b, usable_page sixteen_pages (db_phys b)) [cmd_list_buf demo_port; cmd_table_buf demo_port; rfis_buf demo_port; data_buf demo_port].
Proof.
  destruct kernel_port_init_run as [s Hs].
  destruct (proj1 (kernel_pages_fit demo_frame_of kernel_dma demo_frame_of_spec sixteen_pages 0 kernel_start
    sixteen_pages_ok ltac:(lia) ltac:(cbn; unfold sim_off; lia) eq_refl) sim_abar 0 s demo_port Hs) as (H1&_&H2).
  split; [exact H1|exact H2].
Defined.
