(* ===== verification/BlockDrivers.v ===== *)
(** * The block drivers behind the registry's interfaces

    [lib/driver/src/block/mod.rs] and the [Driver] and [DriverState]
    implementations of the AHCI and virtio drivers: what the driver registry of
    [Drivers] binds, stops and takes block devices out of. *)

From S2P Require Import Prelude Bytes Text BlockDev Mmio Pci Devices PciBus Drivers DriversFacts Frames Dma Ahci Virtio.

Inductive BlockDeviceEnum := Bde_Virtio (v : VirtioBlkState) | Bde_Ahci (a : AhciPortWrapper).

Definition from_virtio (state : VirtioBlkState) : BlockDeviceEnum := Bde_Virtio state.
Definition from_ahci_port (port_idx : Z) (state : PortState) (sector_count : Z) : BlockDeviceEnum :=
  Bde_Ahci {| port_idx := port_idx; ap_state := state; ap_sector_count := sector_count |}.

(** [Box<dyn DriverState>] *)
Inductive BlockDriverState := Bds_Virtio (v : VirtioBlkState) | Bds_Ahci (a : AhciState).

Section block.
Context {W : Type} {mmio : Mmio W} {ram : Ram W} {dma : DmaAllocator W}.

(** The polls of the used ring that are modelled, see [Virtio]. *)
Variable fuel : nat.

Definition BlockDeviceEnum_BlockDevice : BlockDevice (BlockDeviceEnum * W) := {|
  read_blocks lba buf :=
    s ← get_st;
    match s.1 with
    | Bde_Virtio v => on_snd (virtio_read_sectors fuel v lba buf)
    | Bde_Ahci a => st_map_err (λ _, Blk_ReadError) (on_snd (ahci_read_sectors (ap_state a) lba buf))
    end;
  write_blocks lba buf :=
    s ← get_st;
    match s.1 with
    | Bde_Virtio v => on_snd (virtio_write_sectors fuel v lba buf)
    | Bde_Ahci a => st_map_err (λ _, Blk_WriteError) (on_snd (ahci_write_sectors (ap_state a) lba buf))
    end;
  block_size _ := 512;
  block_count s := match s.1 with Bde_Virtio v => vs_sector_count v | Bde_Ahci a => ap_sector_count a end;
|}.

(** [DriverState for AhciState], [DriverState for VirtioBlkState]. A controller
    lends its first port. *)
Definition ahci_into_block_devices (a : AhciState) : list BlockDeviceEnum := Bde_Ahci <$> as_ports a.
Definition ahci_first_mut (a : AhciState) : option (BlockDeviceEnum * (BlockDeviceEnum → BlockDriverState)) :=
  match as_ports a with
  | p :: ports => Some (Bde_Ahci p, λ b,
      match b with
      | Bde_Ahci p => Bds_Ahci {| as_mmio_base := as_mmio_base a; as_ports := p :: ports |}
      | Bde_Virtio _ => Bds_Ahci a
      end)
  | [] => None
  end.
Definition virtio_as_block_device (v : VirtioBlkState) : option BlockDeviceEnum := Some (from_virtio v).
Definition virtio_self_mut (v : VirtioBlkState) : option (BlockDeviceEnum * (BlockDeviceEnum → BlockDriverState)) :=
  Some (Bde_Virtio v, λ b, match b with Bde_Virtio v => Bds_Virtio v | Bde_Ahci _ => Bds_Virtio v end).

#[export] Instance BlockDriverState_DriverState : DriverState (Ecam W) BlockDriverState BlockDeviceEnum := {|
  stop s := match s with Bds_Virtio v => on_hw (virtio_stop v) | Bds_Ahci a => on_hw (AhciState_stop a) end;
  as_block_device s := match s with Bds_Virtio v => virtio_as_block_device v | Bds_Ahci a => None end;
  into_block_devices s :=
    match s with
    | Bds_Virtio v => option_list (virtio_as_block_device v)
    | Bds_Ahci a => ahci_into_block_devices a
    end;
  as_block_device_ptr s := match s with Bds_Virtio v => virtio_self_mut v | Bds_Ahci a => ahci_first_mut a end;
|}.

Context {D : Type} {downcast : DowncastPci D}.
Variable driver_phys_offset : option Z.

Definition VirtioBlkDriver : Driver (Ecam W) D BlockDriverState := {|
  drv_name := lit "virtio-blk"; rules := virtio_rules; priority := 0;
  bind id d := v ← virtio_bind driver_phys_offset id d; mret (Bds_Virtio v) |}.
Definition AhciDriver : Driver (Ecam W) D BlockDriverState := {|
  drv_name := lit "ahci"; rules := ahci_rules; priority := 0;
  bind id d := a ← ahci_bind driver_phys_offset id d; mret (Bds_Ahci a) |}.
End block.
