(* ===== verification/Installer.v ===== *)
(** * The installer's pass over the disks

    [installer/src/lib.rs]: what the installer does with each block device it
    finds. It leaves a device with a boot signature alone, lists the partitions
    of one with a GPT, and partitions any other. *)

From S2P Require Import Prelude Bytes Text BlockDev Gpt GptFacts GptIo GptManager.

Inductive Scan :=
| Scan_ReadFailed (e : BlockError)
| Scan_Boot
| Scan_Gpt (info : GptInfo)
| Scan_Formatted (layout : Z * Z * Z * Z)
| Scan_FormatFailed (e : GptError).

Section scan.
Context {D : Type} `{!BlockDevice D}.

(** The closure given to [for_each_block]; the state is the GUID counter and
    the device. *)
Definition scan_disk : st (Z * D) Empty_set Scan :=
  s ← get_st;
  buf ← lift (vec_zeroed (block_size s.2));
  r ← st_try (on_snd (read_blocks 0 buf));
  match r with
  | inr e => mret (Scan_ReadFailed e)
  | inl buf =>
      b510 ← lift (idx buf 510);
      boot ← (if b510 =? 0x55 then b511 ← lift (idx buf 511); mret (b511 =? 0xAA) else mret false);
      if (boot : bool) then mret Scan_Boot else
      g ← st_try (on_snd read_disk);
      match g with
      | inl info => mret (Scan_Gpt info)
      | inr _ =>
          f ← st_try (format_disk 0);
          mret (match f with inl layout => Scan_Formatted layout | inr e => Scan_FormatFailed e end)
      end
  end.
End scan.

Section facts.
Context {D : Type} `{!BlockDevice D, !ByteDisk D}.
Implicit Types d : D.

Definition boot_signature d : Prop := byte_at d 510 = 0x55 ∧ byte_at d 511 = 0xAA.

#[global] Instance boot_signature_proper : Proper ((≡) ==> (↔)) boot_signature.
Proof. intros d d' (_&_&H). unfold boot_signature. by rewrite !H. Qed.

Lemma formattable_equiv d d' : d ≡ d' → formattable d → formattable d'.
Proof.
  intros (Hok&[Hs Hc]&_) (H1&H2&H3&H4). unfold formattable, capacity in *. rewrite Hs, Hc.
  destruct H2. split_and!; try done. by apply Hok.
Qed.

Lemma set_idx_Ok_inv {E A} (l l' : list A) i v :
  set_idx (E:=E) l i v = Ok l' → 0 ≤ i < len l ∧ l' = upd i [v] l.
Proof.
  unfold set_idx. destruct (Z.leb_spec 0 i), (Z.ltb_spec i (len l)); cbn; intros [=]; subst; auto with lia.
Qed.

(** The protective MBR ends with the boot signature. *)
Lemma mbr_signature s last m :
  protective_mbr s last = Ok m → m !! 510%nat = Some 0x55 ∧ m !! 511%nat = Some 0xAA.
Proof.
  unfold protective_mbr. intros H.
  repeat lazymatch type of H with
  | (set_idx _ _ _ ≫= _) = _ => let Hm := fresh "Hm" in apply bind_Ok_inv in H as (?&Hm&H); cbv beta in H
  | (_ ≫= _) = _ => apply bind_Ok_inv in H as (?&_&H); cbv beta in H
  end.
  apply set_idx_Ok_inv in H as [H ->]. match goal with Hm : set_idx _ 510 _ = _ |- _ => apply set_idx_Ok_inv in Hm as [Hm ->] end.
  rewrite len_upd in H by (cbn; lia). rewrite !lookup_upd by (rewrite ?len_upd by (cbn; lia); cbn; lia). done.
Qed.

Lemma read_disk_reads d : disk_ok d → reads read_disk d (λ _, True).
Proof.
  intros Hd. unfold read_disk. eapply reads_bind; [by apply read_gpt_reads|]. intros p d1 _ He.
  eapply reads_bind; [by apply (reads_get d1 (λ _, True))|]. intros ????. by apply reads_mret.
Qed.

(** Up to the test of the signature. *)
Lemma scan_reads (n : Z) d :
  formattable d →
  ∃ d1, d ≡ d1 ∧ scan_disk (n, d) =
    (if bool_decide (boot_signature d) then mret Scan_Boot else
     g ← st_try (on_snd read_disk);
     match g with
     | inl info => mret (Scan_Gpt info)
     | inr _ =>
         f ← st_try (format_disk 0);
         mret (match f with inl layout => Scan_Formatted layout | inr e => Scan_FormatFailed e end)
     end) (n, d1).
Proof.
  intros (Hd&Hs&Hcap&Hc). unfold ESP_SIZE_SECTORS in Hc.
  destruct (dev_read 0 (block_size d) d) as (d1&Hr&He); [done|lia|lia|unfold capacity; nia|].
  exists d1. split; [done|]. unfold scan_disk. srun. cbn [snd]. rewrite vec_zeroed_ok, bind_lift_Ok by lia.
  rewrite (st_bind_Ok _ _ _ _ _ (st_try_run _ _ _ _ (on_snd_run _ n _ _ _ Hr))). cbv beta iota.
  rewrite (idx_ok _ 510 (byte_at d 510)) by (lia || (rewrite lookup_rd, decide_True by lia; do 2 f_equal; lia)).
  rewrite bind_lift_Ok. unfold boot_signature.
  destruct (Z.eqb_spec (byte_at d 510) 0x55) as [H1|H1].
  - rewrite (idx_ok _ 511 (byte_at d 511)) by (lia || (rewrite lookup_rd, decide_True by lia; do 2 f_equal; lia)).
    rewrite st_bind_assoc, bind_lift_Ok, bind_mret_st. by destruct (Z.eqb_spec (byte_at d 511) 0xAA);
      [rewrite bool_decide_true by done|rewrite bool_decide_false by by intros []].
  - rewrite bind_mret_st, bool_decide_false by by intros []. done.
Qed.

Lemma scan_boot (n : Z) d : formattable d → boot_signature d → ∃ d', scan_disk (n, d) = ((n, d'), Ok Scan_Boot) ∧ d ≡ d'.
Proof.
  intros Hf Hb. destruct (scan_reads n d Hf) as (d1&He&->). exists d1. by rewrite bool_decide_true.
Qed.

(** A formatted disk. *)
Lemma format_disk_signs (n : Z) d :
  formattable d →
  ∃ n' d', format_disk 0 (n, d) = ((n', d'), Ok (34, ESP_SIZE_SECTORS, 34 + ESP_SIZE_SECTORS, ntfs_size_of 0 d)) ∧
    formattable d' ∧ boot_signature d'.
Proof.
  intros Hf. pose proof Hf as (Hd&Hs&Hcap&Hc). assert (H0 : is_u64 0) by by unfold is_u.
  pose proof (layout_fits n 0 d Hf ltac:(lia)) as Hfit.
  destruct (write_gpt_layout _ (n +w 1 +w 1) d Hfit) as (d'&Hw&Hok&[Hg1 Hg2]&_&_&Hmbr&_).
  pose proof (format_disk_run n _ 0 d d' Hf H0 Hw) as Hfmt. eexists _, d'. split; [exact Hfmt|]. split.
  - unfold formattable, capacity in *. rewrite Hg1, Hg2. done.
  - destruct (mbr_signature _ _ _ Hmbr) as [H1 H2]. rewrite lookup_rd, decide_True in H1 by lia.
    rewrite lookup_rd, decide_True in H2 by lia.
    by injection H1 as H1; injection H2 as H2.
Qed.

End facts.

