(* ===== verification/Display.v ===== *)
(** * Display interfaces

    [lib/hal/src/display]: colours and their packing into pixels, and the display
    traits with their provided methods. Methods on [&mut self] that return
    nothing map the display to the display after the call. *)

From S2P Require Import Prelude Bytes Text.

Record Color := { r : Z; g : Z; b : Z }.

#[global] Instance Color_eq_dec : EqDecision Color.
Proof. solve_decision. Defined.

Definition Color_new (r g b : Z) : Color := {| r := r; g := g; b := b |}.

(** The named colours. *)
Module Colors.
Definition BLACK : Color := Color_new 0 0 0.
Definition WHITE : Color := Color_new 255 255 255.
Definition RED : Color := Color_new 255 0 0.
Definition GREEN : Color := Color_new 0 255 0.
Definition BLUE : Color := Color_new 0 0 255.
Definition YELLOW : Color := Color_new 255 255 0.
Definition CYAN : Color := Color_new 0 255 255.
Definition MAGENTA : Color := Color_new 255 0 255.
Definition GRAY : Color := Color_new 128 128 128.
Definition LIGHT_GRAY : Color := Color_new 192 192 192.
Definition DARK_GRAY : Color := Color_new 64 64 64.
Definition DARK_RED : Color := Color_new 139 0 0.
Definition DARK_GREEN : Color := Color_new 0 139 0.
Definition DARK_BLUE : Color := Color_new 0 0 139.
Definition LIGHT_RED : Color := Color_new 255 102 102.
Definition LIGHT_GREEN : Color := Color_new 102 255 102.
Definition LIGHT_BLUE : Color := Color_new 102 102 255.
Definition ORANGE : Color := Color_new 255 165 0.
Definition DARK_ORANGE : Color := Color_new 255 140 0.
Definition BROWN : Color := Color_new 139 69 19.
Definition TAN : Color := Color_new 210 180 140.
Definition PINK : Color := Color_new 255 182 193.
Definition HOT_PINK : Color := Color_new 255 105 180.
Definition PURPLE : Color := Color_new 128 0 128.
Definition VIOLET : Color := Color_new 238 130 238.
Definition INDIGO : Color := Color_new 75 0 130.
Definition BRIGHT_BLACK : Color := Color_new 85 85 85.
Definition BRIGHT_RED : Color := Color_new 255 85 85.
Definition BRIGHT_GREEN : Color := Color_new 85 255 85.
Definition BRIGHT_YELLOW : Color := Color_new 255 255 85.
Definition BRIGHT_BLUE : Color := Color_new 85 85 255.
Definition BRIGHT_MAGENTA : Color := Color_new 255 85 255.
Definition BRIGHT_CYAN : Color := Color_new 85 255 255.
Definition BRIGHT_WHITE : Color := Color_new 255 255 255.
Definition TRANSPARENT_BLACK : Color := Color_new 0 0 0.
Definition CORNFLOWER_BLUE : Color := Color_new 100 149 237.
Definition TEAL : Color := Color_new 0 128 128.
Definition OLIVE : Color := Color_new 128 128 0.
Definition MAROON : Color := Color_new 128 0 0.
Definition NAVY : Color := Color_new 0 0 128.
Definition LIME : Color := Color_new 0 255 0.
Definition AQUA : Color := Color_new 0 255 255.
Definition FUCHSIA : Color := Color_new 255 0 255.
Definition SILVER : Color := Color_new 192 192 192.
Definition GOLD : Color := Color_new 255 215 0.
Definition SALMON : Color := Color_new 250 128 114.
Definition CORAL : Color := Color_new 255 127 80.
Definition TURQUOISE : Color := Color_new 64 224 208.
Definition MINT : Color := Color_new 189 252 201.
Definition LAVENDER : Color := Color_new 230 230 250.
Definition BEIGE : Color := Color_new 245 245 220.
Definition IVORY : Color := Color_new 255 255 240.
Definition CRIMSON : Color := Color_new 220 20 60.
Definition SCARLET : Color := Color_new 255 36 0.
End Colors.

Definition to_rgb32 (c : Color) : Z := Z.lor (Z.lor (Z.shiftl (r c) 16) (Z.shiftl (g c) 8)) (b c).
Definition to_bgr32 (c : Color) : Z := Z.lor (Z.lor (Z.shiftl (b c) 16) (Z.shiftl (g c) 8)) (r c).
Definition from_rgb32 (val : Z) : Color := Color_new (u8 (Z.shiftr val 16)) (u8 (Z.shiftr val 8)) (u8 val).

Record Rect := { rect_x : Z; rect_y : Z; rect_width : Z; rect_height : Z }.

Class Display (D : Type) := {
  disp_width : D → Z;
  disp_height : D → Z;
  draw_pixel : Z → Z → Color → D → D;
  fill_rect : Rect → Color → D → D;
  flush : D → D;
}.

Class TextDisplay (D : Type) `{!Display D} := draw_char : Z → Z → Z → Color → D → D.

Section display.
Context {D : Type} `{!Display D}.

Definition clear (color : Color) (d : D) : D :=
  fill_rect {| rect_x := 0; rect_y := 0; rect_width := disp_width d; rect_height := disp_height d |} color d.

Context `{!TextDisplay D}.

(** The loop over the characters, with its position. *)
Fixpoint draw_loop (cx y : Z) (s : rstring) (color : Color) (d : D) : D :=
  match s with
  | [] => d
  | c :: s => draw_loop (u32 (cx + 8)) y s color (draw_char cx y c color d)
  end.
Definition draw_str (x y : Z) (s : rstring) (color : Color) (d : D) : D := draw_loop x y s color d.

(** Text is drawn character by character, eight pixels apart; the position
    wraps at 2^32. *)
Theorem draw_str_positions x y s color d :
  is_u 32 x →
  draw_str x y s color d =
  foldl (λ d '(i, c), draw_char (u32 (x + 8 * i)) y c color d) d (zip (seqZ 0 (len s)) s).
Proof.
  intros Hx. unfold draw_str. rewrite <- (wrap_small 32 x) at 1 by (unfold is_u in Hx; lia).
  rewrite <- (Z.add_0_r x) at 1. rewrite <- (Z.mul_0_r 8) at 1. generalize 0 as n. revert d.
  induction s as [|c s IH]; intros d n; [done|]. rewrite seqZ_cons by (cbn [length]; lia). cbn [draw_loop zip zip_with foldl].
  replace (Z.pred (len (c :: s))) with (len s) by (cbn [length]; lia). rewrite <- IH. f_equal.
  unfold wrap. rewrite Zplus_mod_idemp_l. f_equal. lia.
Qed.
End display.

(** ** Packing *)

Definition color_ok (c : Color) : Prop := is_u 8 (r c) ∧ is_u 8 (g c) ∧ is_u 8 (b c).

Lemma pack_bytes a b c : is_u 8 a → is_u 8 b → is_u 8 c →
  Z.lor (Z.lor (Z.shiftl a 16) (Z.shiftl b 8)) c = c + b * 2 ^ 8 + a * 2 ^ 16.
Proof.
  unfold is_u. intros Ha Hb Hc. rewrite !Z.shiftl_mul_pow2 by lia. rewrite Z.lor_comm, (Z.lor_comm (a * _)), Z.lor_assoc.
  rewrite (lor_shift_add c b 8) by lia. by rewrite lor_shift_add by lia.
Qed.

(** A colour survives packing and unpacking, a 24-bit pixel unpacking and
    packing, and the two byte orders are each other's mirror. *)
Theorem rgb32_roundtrip :
  (∀ c, color_ok c → from_rgb32 (to_rgb32 c) = c ∧ from_rgb32 (to_bgr32 c) = Color_new (b c) (g c) (r c)) ∧
  ∀ v, 0 ≤ v < 2 ^ 24 → color_ok (from_rgb32 v) ∧ to_rgb32 (from_rgb32 v) = v.
Proof.
  assert (Hfrom : ∀ x y z, is_u 8 x → is_u 8 y → is_u 8 z →
    from_rgb32 (z + y * 2 ^ 8 + x * 2 ^ 16) = Color_new x y z).
  { unfold is_u, from_rgb32. intros x y z Hx Hy Hz. rewrite !Z.shiftr_div_pow2 by lia. unfold wrap. f_equal; dlia. }
  split.
  - intros [x y z] (Hx&Hy&Hz). cbn in *. unfold to_rgb32, to_bgr32. cbn. by rewrite !pack_bytes, !Hfrom by done.
  - intros v Hv. assert (Hok : color_ok (from_rgb32 v)) by (split_and!; by apply wrap_range).
    split; [done|]. destruct Hok as (Hx&Hy&Hz). unfold to_rgb32. rewrite pack_bytes by done. unfold from_rgb32. cbn.
    rewrite !Z.shiftr_div_pow2 by lia. unfold wrap. dlia.
Qed.
