(* ===== verification/Screen.v ===== *)
(** * The text screen

    [kernel/src/screen/mod.rs]: characters drawn into the framebuffer, the
    cursor, and scrolling. The glyphs come from [font8x8]: [BASIC_FONTS] is its
    lookup, eight rows of eight bits. *)

From S2P Require Import Prelude Bytes Text.

Record FrameBufferInfo := {
  fbi_addr : Z; fbi_size : Z; width : Z; height : Z; stride : Z; bytes_per_pixel : Z; pixel_format : Z
}.

Record Writer := { framebuffer : list Z; info : FrameBufferInfo; cur_x : Z; cur_y : Z }.

Section screen.
Context (BASIC_FONTS : Z → option (list Z)).

Definition u (z : Z) : Z := wrap 64 z.

Definition set_cursor {E} (x y : Z) : st Writer E () :=
  modify (λ w, {| framebuffer := framebuffer w; info := info w; cur_x := x; cur_y := y |}).

(** [self.framebuffer[i] = v] and reading [self.framebuffer[i]]. *)
Definition fb_set {E} (i v : Z) : st Writer E () := λ w,
  if i <? len (framebuffer w) then
    ({| framebuffer := <[Z.to_nat i := v]> (framebuffer w); info := info w; cur_x := cur_x w; cur_y := cur_y w |}, Ok ())
  else (w, Panic).
Definition fb_get {E} (i : Z) : st Writer E Z := w ← get_st; lift (unwrap (framebuffer w !! Z.to_nat i)).

(** [a..b] *)
Definition range (a b : Z) : list Z := seqZ a (b - a).

Definition Writer_new (buffer : list Z) (i : FrameBufferInfo) : Writer :=
  {| framebuffer := buffer; info := i; cur_x := 0; cur_y := 0 |}.

Definition write_pixel {E} (x y r g b : Z) : st Writer E () :=
  w ← get_st;
  let offset := u (u (u (y * stride (info w)) + x) * bytes_per_pixel (info w)) in
  if pixel_format (info w) =? 0 then fb_set offset r;; fb_set (u (offset + 1)) g;; fb_set (u (offset + 2)) b
  else if pixel_format (info w) =? 1 then fb_set offset b;; fb_set (u (offset + 1)) g;; fb_set (u (offset + 2)) r
  else mret ().

Definition clear {E} (r g b : Z) : st Writer E () :=
  w ← get_st;
  for_ (range 0 (height (info w))) (λ y,
    for_ (range 0 (width (info w))) (λ x, write_pixel x y r g b)).

Definition Writer_init {E} (buffer : list Z) (i : FrameBufferInfo) : outcome E Writer :=
  let '(w, r) := clear 0 0 0 (Writer_new buffer i) in _ ← r; Ok w.

Definition write_char {E} (x y c r g b : Z) : st Writer E () :=
  bitmap ← lift (match BASIC_FONTS c with Some m => Ok m | None => unwrap (BASIC_FONTS 32) end);
  for_ (zip (seqZ 0 (len bitmap)) bitmap) (λ '(row, byte),
    for_ (range 0 8) (λ col,
      if Z.land (Z.shiftr byte col) 1 =? 1 then write_pixel (u (x + col)) (u (y + row)) r g b else mret ())).

Definition write_string {E} (x y : Z) (text : rstring) (r g b : Z) : st Writer E () :=
  for_ (zip (seqZ 0 (len text)) text) (λ '(i, c), write_char (u (x + 8 * i)) y c r g b).

Definition scroll_up {E} : st Writer E () :=
  w ← get_st;
  let row_height := 9 in
  let width := width (info w) in
  let height := height (info w) in
  let bpp := bytes_per_pixel (info w) in
  let stride := stride (info w) in
  for_ (range row_height height) (λ y,
    for_ (range 0 width) (λ x,
      let src := u (u (u (y * stride) + x) * bpp) in
      let dst := u (u (u (u (y - row_height) * stride) + x) * bpp) in
      for_ (range 0 bpp) (λ i, v ← fb_get (u (src + i)); fb_set (u (dst + i)) v)));;
  for_ (range (u (height - row_height)) height) (λ y,
    for_ (range 0 width) (λ x, write_pixel x y 0 0 0)).

(** [self.y += 9], and scrolling when the next row does not fit. *)
Definition next_row {E} : st Writer E () :=
  w ← get_st;
  set_cursor 0 (u (cur_y w + 9));;
  w ← get_st;
  if height (info w) <? u (cur_y w + 9) then
    scroll_up;;
    w ← get_st; set_cursor (cur_x w) (u (cur_y w - 9))
  else mret ().

Definition backspace {E} : st Writer E () :=
  w ← get_st;
  (if 8 <=? cur_x w then set_cursor (cur_x w - 8) (cur_y w)
   else if 9 <=? cur_y w then set_cursor (u (u (width (info w) / 8 * 8) - 8)) (cur_y w - 9)
   else mret ());;
  w ← get_st;
  for_ (range 0 8) (λ row,
    for_ (range 0 8) (λ col, write_pixel (u (cur_x w + col)) (u (cur_y w + row)) 0 0 0)).

Definition put_char {E} (c r g b : Z) : st Writer E () :=
  if c =? 8 then backspace
  else if c =? 10 then next_row
  else
    w ← get_st;
    write_char (cur_x w) (cur_y w) c r g b;;
    set_cursor (u (cur_x w + 8)) (cur_y w);;
    w ← get_st;
    if width (info w) <? u (cur_x w + 8) then next_row else mret ().

Definition write_string_at_cursor {E} (s : rstring) (r g b : Z) : st Writer E () :=
  for_ s (λ c, put_char c r g b).

(** [fmt::Write]: yellow text. *)
Definition write_str {E} (s : rstring) : st Writer E () := write_string_at_cursor s 255 255 0.
End screen.
