(* ===== verification/ScreenFacts.v ===== *)
(** * The text screen: bounds and scrolling

    Writing text stays within the framebuffer and keeps the cursor on the
    screen; scrolling moves every pixel up by one text row. *)

From S2P Require Import Prelude Bytes Text Screen.

(** A loop over a range, with an invariant over the counter. *)
Lemma for_range {S E} (a b : Z) (body : Z → st S E ()) (I : Z → S → Prop) s :
  a ≤ b → (∀ k s, a ≤ k < b → I k s → ∃ s', body k s = (s', Ok ()) ∧ I (k + 1) s') → I a s →
  ∃ s', for_ (range a b) body s = (s', Ok ()) ∧ I b s'.
Proof.
  intros Hab Hstep Ha. unfold range.
  destruct (for_inv (seqZ a (b - a)) body (λ l s, I (a + len l) s) s) as (s'&Hrun&HI).
  - intros l x rest s1 Hl H1. assert (Hx : seqZ a (b - a) !! length l = Some x) by (by rewrite Hl, list_lookup_middle).
    apply lookup_seqZ in Hx as [-> Hlt]. destruct (Hstep (a + len l) s1) as (s2&Hb&H2); [lia|done|].
    exists s2. split; [done|]. rewrite length_app. cbn [length]. by replace (a + Z.of_nat (length l + 1)) with (a + len l + 1) by lia.
  - cbn. by rewrite Z.add_0_r.
  - exists s'. split; [done|]. rewrite length_seqZ in HI. by replace (a + Z.of_nat (Z.to_nat (b - a))) with b in HI by lia.
Qed.

(** The case of an invariant that does not depend on the counter, over any
    list. *)
Lemma for_keeps {S E A} (l : list A) (body : A → st S E ()) (I : S → Prop) s :
  (∀ x s, x ∈ l → I s → ∃ s', body x s = (s', Ok ()) ∧ I s') → I s →
  ∃ s', for_ l body s = (s', Ok ()) ∧ I s'.
Proof.
  intros Hstep HI. apply (for_inv l body (λ _, I)); [|done]. intros dn x rest s1 -> H1. apply Hstep; [set_solver|done].
Qed.

Lemma elem_of_range a b x : x ∈ range a b ↔ a ≤ x < b.
Proof. unfold range. rewrite elem_of_seqZ. lia. Qed.

(** ** Geometry *)

Implicit Types i : FrameBufferInfo.

(** A mode whose visible pixels lie in a buffer of [n] bytes and whose screen
    holds at least one character. *)
Record mode_ok i (n : Z) : Prop := {
  mo_width : 8 ≤ width i;
  mo_height : 9 ≤ height i;
  mo_stride : width i ≤ stride i;
  mo_bpp : 3 ≤ bytes_per_pixel i;
  mo_size : height i * stride i * bytes_per_pixel i ≤ n;
  mo_max : n < 2 ^ 63;
}.

(** Byte [k] of the pixel at [x], [y]. *)
Definition pixel_addr i (x y k : Z) : Z := (y * stride i + x) * bytes_per_pixel i + k.

Lemma mode_small i n : mode_ok i n → height i < 2 ^ 60 ∧ width i < 2 ^ 60.
Proof.
  intros []. assert (H1 : 24 ≤ stride i * bytes_per_pixel i) by nia.
  assert (H2 : height i * 24 ≤ height i * (stride i * bytes_per_pixel i)) by (apply Z.mul_le_mono_nonneg_l; lia).
  assert (H3 : 27 ≤ height i * bytes_per_pixel i) by nia.
  assert (H4 : stride i * 27 ≤ stride i * (height i * bytes_per_pixel i)) by (apply Z.mul_le_mono_nonneg_l; lia).
  replace (height i * stride i * bytes_per_pixel i) with (height i * (stride i * bytes_per_pixel i)) in * by ring.
  replace (stride i * (height i * bytes_per_pixel i)) with (height i * (stride i * bytes_per_pixel i)) in H4 by ring. lia.
Qed.

Lemma pixel_row i n y : mode_ok i n → 0 ≤ y < height i →
  0 ≤ y * stride i ∧ (y * stride i + stride i) * bytes_per_pixel i ≤ n.
Proof.
  intros [] Hy. split; [nia|]. transitivity (height i * stride i * bytes_per_pixel i); [|done].
  apply Z.mul_le_mono_nonneg_r; nia.
Qed.

Lemma pixel_bounds i n x y k : mode_ok i n → 0 ≤ x < width i → 0 ≤ y < height i → 0 ≤ k < bytes_per_pixel i →
  0 ≤ y * stride i + x ∧ y * stride i + x < n ∧ 0 ≤ (y * stride i + x) * bytes_per_pixel i ∧ pixel_addr i x y k < n ∧
  0 ≤ pixel_addr i x y k.
Proof.
  intros Hm Hx Hy Hk. pose proof (pixel_row _ _ _ Hm Hy) as [H1 H2]. pose proof Hm as [].
  unfold pixel_addr. set (q := y * stride i) in *.
  assert (Hq : 0 ≤ q + x) by lia.
  assert (Hle : (q + x) * bytes_per_pixel i + bytes_per_pixel i ≤ (q + stride i) * bytes_per_pixel i) by nia.
  assert (H0 : 0 ≤ (q + x) * bytes_per_pixel i) by (apply Z.mul_nonneg_nonneg; lia).
  split_and!; [done|nia|done|lia|lia].
Qed.

Lemma pixel_offset i n x y : mode_ok i n → 0 ≤ x < width i → 0 ≤ y < height i →
  u (u (u (y * stride i) + x) * bytes_per_pixel i) = pixel_addr i x y 0.
Proof.
  intros Hm Hx Hy. pose proof (pixel_bounds i n x y 0 Hm Hx Hy) as (H1&H2&H3&H4&_); [destruct Hm; lia|].
  pose proof (pixel_row _ _ _ Hm Hy) as [H5 H6]. destruct Hm. unfold u, pixel_addr in *. rewrite Z.add_0_r in *.
  rewrite (wrap_small 64 (y * stride i)), (wrap_small 64 (y * stride i + x)) by lia. apply wrap_small. lia.
Qed.

(** Which pixel a byte belongs to. *)
Lemma pixel_addr_lt i x y k x' y' k' : 0 ≤ x < stride i → 0 ≤ x' < stride i → 0 ≤ k < bytes_per_pixel i →
  0 ≤ k' < bytes_per_pixel i → 3 ≤ bytes_per_pixel i →
  (pixel_addr i x y k < pixel_addr i x' y' k' ↔ y < y' ∨ y = y' ∧ (x < x' ∨ x = x' ∧ k < k')).
Proof.
  intros Hx Hx' Hk Hk' Hb. unfold pixel_addr.
  assert (Hlt : ∀ p q a b, 0 ≤ a < bytes_per_pixel i → 0 ≤ b → p < q → p * bytes_per_pixel i + a < q * bytes_per_pixel i + b) by nia.
  assert (Hltq : ∀ p q a b, 0 ≤ a < stride i → 0 ≤ b → p < q → p * stride i + a < q * stride i + b) by nia.
  destruct (Z.lt_trichotomy y y') as [H|[->|H]].
  - split; [by left|]. intros _. apply Hlt; [lia..|]. apply Hltq; lia.
  - destruct (Z.lt_trichotomy x x') as [H|[->|H]].
    + split; [auto|]. intros _. apply Hlt; lia.
    + split; [|intros [|[_ [|[_ ?]]]]; lia]. intros ?. right. split; [done|]. right. split; [done|lia].
    + split; [|intros [|[_ [|[? _]]]]; lia]. intros Hl. pose proof (Hlt (y' * stride i + x') (y' * stride i + x) k' k). lia.
  - split; [|intros [|[? _]]; lia]. intros Hl. pose proof (Hltq y' y x' x ltac:(lia) ltac:(lia) H).
    pose proof (Hlt (y' * stride i + x') (y * stride i + x) k' k). lia.
Qed.

(** ** Writing stays in bounds *)

Section screen.
Context (BASIC_FONTS : Z → option (list Z)).

(** The screen is set up and the cursor leaves room for a character. *)
Definition screen_ok i n (w : Writer) : Prop := info w = i ∧ len (framebuffer w) = n.
Definition cursor_ok (w : Writer) : Prop :=
  0 ≤ cur_x w ∧ cur_x w + 8 ≤ width (info w) ∧ 0 ≤ cur_y w ∧ cur_y w + 9 ≤ height (info w).

(** [w'] differs in the framebuffer's content only. *)
Definition same_cursor (w w' : Writer) : Prop :=
  info w' = info w ∧ length (framebuffer w') = length (framebuffer w) ∧ cur_x w' = cur_x w ∧ cur_y w' = cur_y w.
#[export] Instance same_cursor_preorder : PreOrder same_cursor.
Proof. split; [by intros w|]. intros w1 w2 w3 (?&?&?&?) (?&?&?&?). unfold same_cursor. by split_and!; etransitivity. Qed.

Definition put_byte (a v : Z) (w : Writer) : Writer :=
  {| framebuffer := <[Z.to_nat a := v]> (framebuffer w); info := info w; cur_x := cur_x w; cur_y := cur_y w |}.

Lemma fb_set_run {E} a v w : 0 ≤ a < len (framebuffer w) → fb_set (E:=E) a v w = (put_byte a v w, Ok ()).
Proof. intros Ha. unfold fb_set. by rewrite (proj2 (Z.ltb_lt _ _)) by lia. Qed.

Lemma put_byte_same a v w : same_cursor w (put_byte a v w).
Proof. split_and!; try done. apply length_insert. Qed.

(** A pixel's colour bytes, in the order of the format. *)
Definition pixel_bytes (fmt r g b : Z) : list Z := if fmt =? 0 then [r; g; b] else if fmt =? 1 then [b; g; r] else [].

Lemma write_pixel_run {E} i n x y r g b w : mode_ok i n → screen_ok i n w → 0 ≤ x < width i → 0 ≤ y < height i →
  write_pixel (E:=E) x y r g b w =
    (match pixel_bytes (pixel_format i) r g b with
     | [c0; c1; c2] => put_byte (pixel_addr i x y 2) c2 (put_byte (pixel_addr i x y 1) c1 (put_byte (pixel_addr i x y 0) c0 w))
     | _ => w
     end, Ok ()).
Proof.
  intros Hm [Hi Hn] Hx Hy. unfold write_pixel. rewrite bind_get_st, Hi. rewrite (pixel_offset i n) by done.
  assert (Hb : ∀ k, 0 ≤ k < 3 → 0 ≤ pixel_addr i x y k < n ∧ u (pixel_addr i x y 0 + k) = pixel_addr i x y k).
  { intros k Hk. destruct (pixel_bounds i n x y k Hm Hx Hy) as (_&_&_&H1&H2); [destruct Hm; lia|]. split; [done|].
    unfold u, pixel_addr in *. rewrite Z.add_0_r. apply wrap_small. destruct Hm. lia. }
  destruct (Hb 0 ltac:(lia)) as [B0 _], (Hb 1 ltac:(lia)) as [B1 ->], (Hb 2 ltac:(lia)) as [B2 ->]. unfold pixel_bytes.
  assert (Hrun : ∀ c0 c1 c2 : Z, (fb_set (E:=E) (pixel_addr i x y 0) c0;; fb_set (pixel_addr i x y 1) c1;; fb_set (pixel_addr i x y 2) c2) w =
    (put_byte (pixel_addr i x y 2) c2 (put_byte (pixel_addr i x y 1) c1 (put_byte (pixel_addr i x y 0) c0 w)), Ok ())).
  { intros c0 c1 c2. rewrite (st_bind_Ok _ _ _ _ _ (fb_set_run (pixel_addr i x y 0) c0 w ltac:(lia))).
    rewrite (st_bind_Ok _ _ _ _ _ (fb_set_run (pixel_addr i x y 1) c1 (put_byte (pixel_addr i x y 0) c0 w) ltac:(cbn; rewrite length_insert; lia))).
    apply fb_set_run. cbn. rewrite !length_insert. lia. }
  destruct (pixel_format i =? 0); [apply Hrun|]. destruct (pixel_format i =? 1); [apply Hrun|done].
Qed.

Lemma write_pixel_ok {E} i n x y r g b w : mode_ok i n → screen_ok i n w → 0 ≤ x < width i → 0 ≤ y < height i →
  ∃ w', write_pixel (E:=E) x y r g b w = (w', Ok ()) ∧ same_cursor w w'.
Proof.
  intros Hm Hs Hx Hy. rewrite (write_pixel_run i n) by done. eexists. split; [done|].
  repeat case_match; try done; by rewrite <- !put_byte_same.
Qed.

Lemma screen_ok_same i n w w' : screen_ok i n w → same_cursor w w' → screen_ok i n w'.
Proof. intros [Hi Hn] (H1&H2&_). split; congruence. Qed.

(** A block of pixels. *)
Lemma for_pixels {E A} (l : list A) (body : A → st Writer E ()) i n w :
  screen_ok i n w →
  (∀ a w', a ∈ l → screen_ok i n w' → same_cursor w w' → ∃ w'', body a w' = (w'', Ok ()) ∧ same_cursor w' w'') →
  ∃ w', for_ l body w = (w', Ok ()) ∧ same_cursor w w'.
Proof.
  intros Hs Hb. apply (for_keeps l body (same_cursor w)); [|done]. intros a w1 Ha H1.
  destruct (Hb a w1 Ha (screen_ok_same _ _ _ _ Hs H1) H1) as (w2&H2&H3). exists w2. split; [done|]. by etransitivity.
Qed.

(** The font: every glyph has eight rows, and there is one for the blank. *)
Definition font_ok : Prop := (∀ c m, BASIC_FONTS c = Some m → length m = 8%nat) ∧ is_Some (BASIC_FONTS 32).

Lemma small_u z : 0 ≤ z < 2 ^ 63 → u z = z.
Proof. intros Hz. apply wrap_small. lia. Qed.

(** Every drawing operation at a place that fits. *)
Lemma write_char_ok {E} i n x y c r g b w : mode_ok i n → font_ok → screen_ok i n w →
  0 ≤ x → x + 8 ≤ width i → 0 ≤ y → y + 8 ≤ height i →
  ∃ w', write_char BASIC_FONTS (E:=E) x y c r g b w = (w', Ok ()) ∧ same_cursor w w'.
Proof.
  intros Hm [Hf [sp Hsp]] Hs Hx Hx8 Hy Hy8. unfold write_char.
  pose proof (mode_small i n Hm) as [Hh Hw].
  assert (Hbm : ∃ m, (match BASIC_FONTS c with Some m => Ok m | None => unwrap (E:=E) (BASIC_FONTS 32) end) = Ok m ∧ length m = 8%nat).
  { destruct (BASIC_FONTS c) as [m|] eqn:Hc; [exists m; by split; [|eapply Hf]|]. exists sp. rewrite Hsp. by split; [|eapply Hf]. }
  destruct Hbm as (m&->&Hlen). rewrite bind_lift_Ok. apply (for_pixels _ _ i n); [done|].
  intros [row byte] w1 Hin Hs1 _. apply elem_of_zip_l in Hin. rewrite elem_of_seqZ, Hlen in Hin.
  apply (for_pixels _ _ i n); [done|]. intros col w2 Hcol%elem_of_range Hs2 _.
  destruct (_ =? 1); [|by exists w2]. rewrite !small_u by lia. apply (write_pixel_ok i n); done || lia.
Qed.

Lemma backspace_ok {E} i n w : mode_ok i n → screen_ok i n w → cursor_ok w →
  ∃ w', backspace (E:=E) w = (w', Ok ()) ∧ screen_ok i n w' ∧ cursor_ok w'.
Proof.
  intros Hm Hs Hc. pose proof (mode_small i n Hm) as [Hh Hw]. pose proof Hs as [Hi Hn]. unfold cursor_ok in *. rewrite Hi in *. destruct Hm as [M1 M2 M3 M4 M5 M6] eqn:HM.
  unfold backspace. rewrite bind_get_st.
  assert (Hmove : ∃ w1, (if 8 <=? cur_x w then set_cursor (cur_x w - 8) (cur_y w)
    else if 9 <=? cur_y w then set_cursor (u (u (width (info w) / 8 * 8) - 8)) (cur_y w - 9) else mret () : st Writer E ()) w = (w1, Ok ()) ∧
    screen_ok i n w1 ∧ 0 ≤ cur_x w1 ∧ cur_x w1 + 8 ≤ width i ∧ 0 ≤ cur_y w1 ∧ cur_y w1 + 9 ≤ height i).
  { destruct (Z.leb_spec 8 (cur_x w)) as [|Hx]; [eexists; split; [reflexivity|]; split; [done|]; cbn; lia|].
    destruct (Z.leb_spec 9 (cur_y w)) as [|Hy]; [|by exists w].
    eexists. split; [reflexivity|]. split; [done|]. rewrite Hi. cbn [cur_x cur_y].
    assert (8 ≤ width i / 8 * 8 ≤ width i) by (pose proof (Z.div_mod (width i) 8); pose proof (Z.mod_pos_bound (width i) 8); lia).
    rewrite (small_u (width i / 8 * 8)), small_u by lia. lia. }
  destruct Hmove as (w1&Hmove&Hs1&Hc1). rewrite (st_bind_Ok _ _ _ _ _ Hmove), bind_get_st.
  destruct (for_pixels (E:=E) (range 0 8) (λ row, for_ (range 0 8) (λ col, write_pixel (u (cur_x w1 + col)) (u (cur_y w1 + row)) 0 0 0)) i n w1 Hs1)
    as (w2&Hrun&H2).
  - intros row w2 Hrow%elem_of_range Hs2 _. apply (for_pixels _ _ i n); [done|]. intros col w3 Hcol%elem_of_range Hs3 _.
    rewrite !small_u by lia. apply (write_pixel_ok i n); done || lia.
  - exists w2. split; [exact Hrun|]. split; [by eapply screen_ok_same|]. destruct H2 as (H1&_&->&->). rewrite H1.
    destruct Hs1 as [-> _]. lia.
Qed.

(** ** Scrolling *)

(** The state of the copy when the next byte to read is at [t]: what was read
    has arrived one text row further up, the rest is untouched. *)
Definition copied i (fb : list Z) (t : Z) (w : Writer) : Prop :=
  let d := 9 * stride i * bytes_per_pixel i in
  (∀ x y k, 0 ≤ x < width i → 9 ≤ y < height i → 0 ≤ k < bytes_per_pixel i → pixel_addr i x y k < t →
    framebuffer w !! Z.to_nat (pixel_addr i x y k - d) = fb !! Z.to_nat (pixel_addr i x y k)) ∧
  (∀ a, 0 ≤ a → t - d ≤ a → framebuffer w !! Z.to_nat a = fb !! Z.to_nat a).

Lemma copy_byte {E} i n fb x y k w0 w :
  mode_ok i n → screen_ok i n w0 → same_cursor w0 w → len fb = n →
  0 ≤ x < width i → 9 ≤ y < height i → 0 ≤ k < bytes_per_pixel i → copied i fb (pixel_addr i x y k) w →
  ∃ w', (v ← fb_get (E:=E) (pixel_addr i x y k); fb_set (pixel_addr i x (y - 9) k) v) w = (w', Ok ()) ∧
    same_cursor w0 w' ∧ copied i fb (pixel_addr i x y (k + 1)) w'.
Proof.
  intros Hm Hs0 Hw Hfb Hx Hy Hk [Hc1 Hc2]. pose proof (screen_ok_same _ _ _ _ Hs0 Hw) as [Hi Hn].
  destruct (pixel_bounds i n x y k Hm Hx ltac:(lia) Hk) as (_&_&_&Ha&Ha0).
  destruct (pixel_bounds i n x (y - 9) k Hm Hx ltac:(lia) Hk) as (_&_&_&Hd&Hd0).
  set (d := 9 * stride i * bytes_per_pixel i) in *.
  assert (Hdpos : 0 < d) by (unfold d; destruct Hm; nia).
  assert (Hsub : pixel_addr i x (y - 9) k = pixel_addr i x y k - d) by (unfold pixel_addr, d; ring).
  destruct (lookup_lt_is_Some_2 (framebuffer w) (Z.to_nat (pixel_addr i x y k))) as [v Hv]; [lia|].
  unfold fb_get. rewrite st_bind_assoc, bind_get_st, Hv. cbn [unwrap]. rewrite bind_lift_Ok, fb_set_run by lia.
  eexists. split; [reflexivity|]. split; [etransitivity; [exact Hw|apply put_byte_same]|].
  assert (Hs' : pixel_addr i x y (k + 1) = pixel_addr i x y k + 1) by (unfold pixel_addr; ring). rewrite Hs', Hsub in *.
  unfold copied. fold d. cbn [put_byte framebuffer]. split.
  - intros x' y' k' Hx' Hy' Hk' Hlt. destruct (decide (pixel_addr i x' y' k' = pixel_addr i x y k)) as [He|Hne].
    + rewrite He, list_lookup_insert_eq by lia. rewrite <- Hc2, Hv by lia. done.
    + destruct (pixel_bounds i n x' (y' - 9) k' Hm Hx' ltac:(lia) Hk') as (_&_&_&_&Hp').
      assert (Hsub' : pixel_addr i x' (y' - 9) k' = pixel_addr i x' y' k' - d) by (unfold pixel_addr, d; ring).
      rewrite list_lookup_insert_ne by lia. apply Hc1; done || lia.
  - intros a Ha' Hge. rewrite list_lookup_insert_ne by lia. apply Hc2; lia.
Qed.

Lemma scroll_copy {E} i n w : mode_ok i n → screen_ok i n w →
  ∃ w', for_ (range 9 (height i)) (λ y, for_ (range 0 (width i)) (λ x,
      for_ (range 0 (bytes_per_pixel i)) (λ k,
        v ← fb_get (E:=E) (u (u (u (u (y * stride i) + x) * bytes_per_pixel i) + k));
        fb_set (u (u (u (u (u (y - 9) * stride i) + x) * bytes_per_pixel i) + k)) v))) w = (w', Ok ()) ∧
    same_cursor w w' ∧ copied i (framebuffer w) (pixel_addr i 0 (height i) 0) w'.
Proof.
  intros Hm Hs. pose proof Hs as [Hi Hn]. pose proof Hm as [M1 M2 M3 M4 M5 M6].
  pose proof (mode_small i n Hm) as [Hbig _].
  apply (for_range 9 (height i) _ (λ y w', same_cursor w w' ∧ copied i (framebuffer w) (pixel_addr i 0 y 0) w')); [lia| |].
  - intros y w1 Hy [Hw1 Hc1].
    destruct (for_range (E:=E) 0 (width i) (λ x, for_ (range 0 (bytes_per_pixel i)) (λ k,
        v ← fb_get (E:=E) (u (u (u (u (y * stride i) + x) * bytes_per_pixel i) + k));
        fb_set (u (u (u (u (u (y - 9) * stride i) + x) * bytes_per_pixel i) + k)) v))
      (λ x w', same_cursor w w' ∧ copied i (framebuffer w) (pixel_addr i x y 0) w') w1) as (w2&Hrun&Hw2&Hc2); [lia| |done|].
    + intros x w2 Hx [Hw2 Hc2].
      destruct (for_range (E:=E) 0 (bytes_per_pixel i) (λ k,
          v ← fb_get (E:=E) (u (u (u (u (y * stride i) + x) * bytes_per_pixel i) + k));
          fb_set (u (u (u (u (u (y - 9) * stride i) + x) * bytes_per_pixel i) + k)) v)
        (λ k w', same_cursor w w' ∧ copied i (framebuffer w) (pixel_addr i x y k) w') w2) as (w3&Hrun3&Hw3&Hc3); [lia| |done|].
      * intros k w3 Hk [Hw3 Hc3].
        destruct (pixel_bounds i n x y k Hm Hx ltac:(lia) Hk) as (_&_&_&Ha&Ha0).
        destruct (pixel_bounds i n x (y - 9) k Hm Hx ltac:(lia) Hk) as (_&_&_&Hd&Hd0).
        assert (Hstep : ∀ z, u (pixel_addr i x z 0 + k) = wrap 64 (pixel_addr i x z k)) by (intros z; unfold u, pixel_addr; f_equal; ring).
        rewrite (small_u (y - 9)) by lia. rewrite !(pixel_offset i n) by (done || lia). rewrite !Hstep.
        rewrite (wrap_small 64 (pixel_addr i x y k)), (wrap_small 64 (pixel_addr i x (y - 9) k)) by lia.
        apply (copy_byte i n _ x y k w w3); try done.
      * exists w3. split; [done|]. split; [done|]. by replace (pixel_addr i (x + 1) y 0) with (pixel_addr i x y (bytes_per_pixel i)) by (unfold pixel_addr; ring).
    + exists w2. split; [done|]. split; [done|]. destruct Hc2 as [H1 H2]. split.
      * intros x' y' k' Hx' Hy' Hk' Hlt. apply H1; try done.
        apply (pixel_addr_lt i x' y' k' 0 (y + 1) 0) in Hlt; [|lia..].
        enough (pixel_addr i x' y' k' < pixel_addr i (width i - 1) y (bytes_per_pixel i - 1) + 1) by (unfold pixel_addr in *; lia).
        destruct (decide (x' = width i - 1 ∧ y' = y ∧ k' = bytes_per_pixel i - 1)) as [(->&->&->)|Hne]; [lia|].
        apply Z.lt_lt_succ_r, (pixel_addr_lt i x' y' k' (width i - 1) y (bytes_per_pixel i - 1)); lia.
      * intros a Ha Hge. apply H2; [done|]. assert (pixel_addr i (width i) y 0 ≤ pixel_addr i 0 (y + 1) 0) by (unfold pixel_addr; nia). lia.
  - split; [done|]. split; [|done]. intros x y k Hx Hy Hk Hlt. apply (pixel_addr_lt i x y k 0 9 0) in Hlt; lia.
Qed.

(** Byte [k] of a pixel on the screen. *)
Definition pixel (w : Writer) (x y k : Z) : option Z := framebuffer w !! Z.to_nat (pixel_addr (info w) x y k).

(** The pixels that [w'] has kept. *)
Definition keeps i (P : Z → Z → Prop) (w w' : Writer) : Prop :=
  ∀ x y k, 0 ≤ x < width i → 0 ≤ y < height i → 0 ≤ k < bytes_per_pixel i → P x y → pixel w' x y k = pixel w x y k.

Lemma write_pixel_spec {E} i n x y r g b w : mode_ok i n → screen_ok i n w → 0 ≤ x < width i → 0 ≤ y < height i →
  ∃ w', write_pixel (E:=E) x y r g b w = (w', Ok ()) ∧ same_cursor w w' ∧ keeps i (λ x' y', ¬ (x' = x ∧ y' = y)) w w' ∧
    ∀ k c, pixel_bytes (pixel_format i) r g b !! k = Some c → pixel w' x y (Z.of_nat k) = Some c.
Proof.
  intros Hm Hs Hx Hy. rewrite (write_pixel_run i n) by done. eexists. split; [reflexivity|].
  pose proof Hs as [Hi Hn]. pose proof Hm as [M1 M2 M3 M4 M5 M6].
  assert (Hput : ∀ k x' y' k' v w1, 0 ≤ k < 3 → info w1 = i → 0 ≤ x' < width i → 0 ≤ y' < height i → 0 ≤ k' < bytes_per_pixel i →
    (x', y', k') ≠ (x, y, k) → pixel (put_byte (pixel_addr i x y k) v w1) x' y' k' = pixel w1 x' y' k').
  { intros k x' y' k' v w1 Hk H1 Hx' Hy' Hk' Hne. unfold pixel. cbn [put_byte framebuffer info]. rewrite H1.
    destruct (pixel_bounds i n x y k Hm Hx Hy) as (_&_&_&_&Ha); [lia|].
    destruct (pixel_bounds i n x' y' k' Hm Hx' Hy' Hk') as (_&_&_&_&Ha').
    apply list_lookup_insert_ne. intros He. apply Hne.
    pose proof (pixel_addr_lt i x y k x' y' k' ltac:(lia) ltac:(lia) ltac:(lia) Hk' ltac:(lia)).
    pose proof (pixel_addr_lt i x' y' k' x y k ltac:(lia) ltac:(lia) Hk' ltac:(lia) ltac:(lia)).
    assert (x' = x ∧ y' = y ∧ k' = k) as (->&->&->) by lia. done. }
  assert (Hset : ∀ k v w1, 0 ≤ k < 3 → screen_ok i n w1 → pixel (put_byte (pixel_addr i x y k) v w1) x y k = Some v).
  { intros k v w1 Hk [H1 H2]. unfold pixel. cbn [put_byte framebuffer info]. rewrite H1.
    destruct (pixel_bounds i n x y k Hm Hx Hy) as (_&_&_&Hb&Ha); [lia|]. apply list_lookup_insert_eq. lia. }
  assert (Hsame : ∀ a v w1, screen_ok i n w1 → screen_ok i n (put_byte a v w1)).
  { intros a v w1 H1. eapply screen_ok_same; [exact H1|apply put_byte_same]. }
  destruct (pixel_bytes (pixel_format i) r g b) as [|c0 [|c1 [|c2 [|]]]] eqn:Hp;
    try (unfold pixel_bytes in Hp; repeat case_match; discriminate Hp || (split; [done|]; split; [done|]; intros [|k] c; done)).
  split; [by rewrite <- !put_byte_same|]. split.
  - intros x' y' k' Hx' Hy' Hk' Hne. rewrite !Hput; try done; try lia; intros [= -> -> ->]; by apply Hne.
  - intros k c Hk. assert (Hk3 : 0 ≤ 0 < bytes_per_pixel i ∧ 1 < bytes_per_pixel i) by lia.
    destruct k as [|[|[|k]]]; cbn in Hk; [injection Hk as <-..|done]; cbn [Z.of_nat Pos.of_succ_nat Pos.succ].
    + rewrite (Hput 2), (Hput 1) by (done || lia). apply Hset; [lia|done].
    + rewrite (Hput 2) by (done || lia). apply Hset; [lia|by apply Hsame].
    + apply Hset; [lia|by repeat apply Hsame].
Qed.

Lemma keeps_trans i P w1 w2 w3 : keeps i P w1 w2 → keeps i P w2 w3 → keeps i P w1 w3.
Proof. intros H1 H2 x y k Hx Hy Hk HP. by rewrite (H2 x y k), (H1 x y k). Qed.
Lemma keeps_weaken i (P Q : Z → Z → Prop) w w' : keeps i P w w' → (∀ x y, Q x y → P x y) → keeps i Q w w'.
Proof. intros H HPQ x y k Hx Hy Hk HQ. by apply H, HPQ. Qed.

(** Blacking out the rows from [y0] on. *)
Definition black i (w : Writer) (x y : Z) : Prop :=
  ∀ k c, pixel_bytes (pixel_format i) 0 0 0 !! k = Some c → pixel w x y (Z.of_nat k) = Some c.

Lemma pixel_bytes_lookup fmt r g b k c : pixel_bytes fmt r g b !! k = Some c → (k < 3)%nat.
Proof. intros H%lookup_lt_Some. unfold pixel_bytes in H. repeat case_match; cbn in H; lia. Qed.

Lemma black_kept i n w w' (P : Z → Z → Prop) x y : mode_ok i n → 0 ≤ x < width i → 0 ≤ y < height i →
  keeps i P w w' → P x y → black i w x y → black i w' x y.
Proof.
  intros Hm Hx Hy Hk HP Hb k c Hc. pose proof (pixel_bytes_lookup _ _ _ _ _ _ Hc).
  rewrite (Hk x y (Z.of_nat k)); [by apply Hb|done|done|destruct Hm; lia|done].
Qed.

Lemma blacken {E} i n y0 w : mode_ok i n → screen_ok i n w → 0 ≤ y0 ≤ height i →
  ∃ w', for_ (range y0 (height i)) (λ y, for_ (range 0 (width i)) (λ x, write_pixel (E:=E) x y 0 0 0)) w = (w', Ok ()) ∧
    same_cursor w w' ∧ keeps i (λ _ y, y < y0) w w' ∧ ∀ x y, 0 ≤ x < width i → y0 ≤ y < height i → black i w' x y.
Proof.
  intros Hm Hs Hy0. pose proof Hm as [M1 M2 M3 M4 M5 M6].
  destruct (for_range (E:=E) y0 (height i) (λ y, for_ (range 0 (width i)) (λ x, write_pixel x y 0 0 0))
    (λ y w', same_cursor w w' ∧ keeps i (λ _ y, y < y0) w w' ∧ ∀ x y', 0 ≤ x < width i → y0 ≤ y' < y → black i w' x y') w)
    as (w'&Hrun&Hsame&Hk&Hb); [lia| |split; [done|split; [done|lia]]|by exists w'].
  intros y w1 Hy (Hs1&Hk1&Hb1). pose proof (screen_ok_same _ _ _ _ Hs Hs1) as Hw1.
  destruct (for_range (E:=E) 0 (width i) (λ x, write_pixel x y 0 0 0)
    (λ x w', same_cursor w1 w' ∧ keeps i (λ _ y', y' ≠ y) w1 w' ∧ ∀ x', 0 ≤ x' < x → black i w' x' y) w1)
    as (w2&Hrun&Hs2&Hk2&Hb2); [lia| |split; [done|split; [done|lia]]|].
  - intros x w2 Hx (Hs2&Hk2&Hb2). pose proof (screen_ok_same _ _ _ _ Hw1 Hs2) as Hw2.
    destruct (write_pixel_spec (E:=E) i n x y 0 0 0 w2 Hm Hw2 Hx ltac:(lia)) as (w3&Hrun&Hs3&Hk3&Hb3).
    exists w3. split; [done|]. split; [by etransitivity|]. split.
    + eapply keeps_trans; [exact Hk2|]. eapply keeps_weaken; [exact Hk3|]. cbn. intros x' y' Hne [_ ?]. done.
    + intros x' Hx'. destruct (decide (x' = x)) as [->|Hne]; [exact Hb3|].
      eapply (black_kept i n w2 w3); [done|lia|lia|exact Hk3|cbn; naive_solver|]. apply Hb2. lia.
  - exists w2. split; [done|]. split; [by etransitivity|]. split.
    + eapply keeps_trans; [exact Hk1|]. eapply keeps_weaken; [exact Hk2|]. cbn. lia.
    + intros x' y' Hx' Hy'. destruct (decide (y' = y)) as [->|Hne]; [by apply Hb2|].
      eapply (black_kept i n w1 w2); [done|lia|lia|exact Hk2|done|]. apply Hb1; lia.
Qed.

(** A screen that has just been set up is black, its cursor at the origin. *)
Lemma Writer_init_ok {E} i n buffer : mode_ok i n → len buffer = n →
  ∃ w, Writer_init (E:=E) buffer i = Ok w ∧ screen_ok i n w ∧ cursor_ok w ∧
    ∀ x y, 0 ≤ x < width i → 0 ≤ y < height i → black i w x y.
Proof.
  intros Hm Hn. pose proof Hm as [M1 M2 _ _ _ _]. assert (Hs : screen_ok i n (Writer_new buffer i)) by by split.
  destruct (blacken (E:=E) i n 0 _ Hm Hs) as (w&Hrun&Hsame&_&Hb); [lia|].
  exists w. unfold Writer_init, clear. rewrite bind_get_st. cbn [info Writer_new]. rewrite Hrun.
  split; [done|]. split; [by eapply screen_ok_same|]. split; [|done].
  destruct Hsame as (Hi&_&Hx&Hy). unfold cursor_ok. rewrite Hi, Hx, Hy. cbn. lia.
Qed.

Lemma scroll_up_spec {E} i n w : mode_ok i n → screen_ok i n w →
  ∃ w', scroll_up (E:=E) w = (w', Ok ()) ∧ same_cursor w w' ∧
    (∀ x y k, 0 ≤ x < width i → 0 ≤ y < height i - 9 → 0 ≤ k < bytes_per_pixel i → pixel w' x y k = pixel w x (y + 9) k) ∧
    ∀ x y, 0 ≤ x < width i → height i - 9 ≤ y < height i → black i w' x y.
Proof.
  intros Hm Hs. pose proof Hs as [Hi Hn]. pose proof (mode_small i n Hm) as [Hbig _]. pose proof Hm as [M1 M2 M3 M4 M5 M6].
  destruct (scroll_copy (E:=E) i n w Hm Hs) as (w1&Hcopy&Hs1&Hc&_). pose proof (screen_ok_same _ _ _ _ Hs Hs1) as [Hi1 Hn1].
  destruct (blacken (E:=E) i n (height i - 9) w1 Hm (conj Hi1 Hn1) ltac:(lia)) as (w2&Hblack&Hs2&Hk&Hb).
  exists w2. split; [|split; [by etransitivity|split; [|exact Hb]]].
  - unfold scroll_up. rewrite bind_get_st, Hi. cbv zeta. rewrite (st_bind_Ok _ _ _ _ _ Hcopy), (small_u (height i - 9)) by lia. exact Hblack.
  - intros x y k Hx Hy Hk'. rewrite (Hk x y k) by lia. unfold pixel. rewrite Hi, Hi1.
    specialize (Hc x (y + 9) k Hx ltac:(lia) Hk'). rewrite <- Hc.
    + do 2 f_equal. unfold pixel_addr. ring.
    + apply (pixel_addr_lt i x (y + 9) k 0 (height i) 0); lia.
Qed.

(** Scrolling moves the picture up by one text row: every visible pixel is
    afterwards what was nine pixel rows below it, the last nine rows are black,
    the cursor and the mode stay, and no access leaves the framebuffer. *)
Theorem scroll_up_moves_rows i n w :
  mode_ok i n → info w = i → len (framebuffer w) = n →
  ∃ w', scroll_up (E:=Empty_set) w = (w', Ok ()) ∧ cur_x w' = cur_x w ∧ cur_y w' = cur_y w ∧ info w' = i ∧
    (∀ x y k, 0 ≤ x < width i → 0 ≤ y < height i - 9 → 0 ≤ k < bytes_per_pixel i → pixel w' x y k = pixel w x (y + 9) k) ∧
    ∀ x y k, 0 ≤ x < width i → height i - 9 ≤ y < height i → 0 ≤ k < 3 → pixel_format i = 0 ∨ pixel_format i = 1 →
      pixel w' x y k = Some 0.
Proof.
  intros Hm Hi Hn. destruct (scroll_up_spec (E:=Empty_set) i n w Hm (conj Hi Hn)) as (w'&Hrun&(Hi'&_&Hx&Hy)&Hmove&Hb).
  exists w'. split; [done|]. split; [done|]. split; [done|]. split; [congruence|]. split; [done|].
  intros x y k Hx' Hy' Hk Hf. specialize (Hb x y Hx' Hy' (Z.to_nat k) 0). rewrite Z2Nat.id in Hb by lia. apply Hb.
  unfold pixel_bytes. assert (k = 0 ∨ k = 1 ∨ k = 2) as Hk3 by lia.
  destruct Hk3 as [-> | [-> | ->]], Hf as [-> | ->]; done.
Qed.

(** ** Text *)

Lemma bind_set_cursor {E B} x y (k : () → st Writer E B) w :
  (set_cursor x y ≫= k) w = k () {| framebuffer := framebuffer w; info := info w; cur_x := x; cur_y := y |}.
Proof. reflexivity. Qed.

Lemma next_row_ok {E} i n w : mode_ok i n → screen_ok i n w → 0 ≤ cur_y w → cur_y w + 9 ≤ height i →
  ∃ w', next_row (E:=E) w = (w', Ok ()) ∧ screen_ok i n w' ∧ cursor_ok w'.
Proof.
  intros Hm Hs H0 H9. pose proof Hs as [Hi Hn]. pose proof (mode_small i n Hm) as [Hbig _]. pose proof Hm as [M1 M2 M3 M4 M5 M6].
  unfold next_row. rewrite bind_get_st. rewrite bind_set_cursor, bind_get_st. cbn [info cur_y]. rewrite Hi.
  rewrite (small_u (cur_y w + 9)), small_u by lia. set (w1 := {| framebuffer := _ |}).
  destruct (Z.ltb_spec (height i) (cur_y w + 9 + 9)) as [Hlt|Hge].
  - destruct (scroll_up_spec (E:=E) i n w1 Hm (conj eq_refl Hn)) as (w2&Hrun&(Hi2&Hl2&Hx2&Hy2)&_).
    rewrite (st_bind_Ok _ _ _ _ _ Hrun), bind_get_st. eexists. split; [reflexivity|].
    unfold screen_ok, cursor_ok. cbn [info framebuffer cur_x cur_y]. rewrite Hi2, Hx2, Hy2. cbn [w1 info cur_x cur_y]. rewrite small_u by lia.
    split; [split; [done|by rewrite Hl2]|]. lia.
  - exists w1. split; [done|]. split; [done|]. unfold cursor_ok. cbn [w1 info cur_x cur_y]. lia.
Qed.

Lemma put_char_ok {E} i n c r g b w : mode_ok i n → font_ok → screen_ok i n w → cursor_ok w →
  ∃ w', put_char BASIC_FONTS (E:=E) c r g b w = (w', Ok ()) ∧ screen_ok i n w' ∧ cursor_ok w'.
Proof.
  intros Hm Hf Hs Hc. unfold put_char. destruct (c =? 8); [by apply backspace_ok|].
  pose proof Hs as [Hi Hn]. pose proof (mode_small i n Hm) as [Hh Hw]. pose proof Hc as (C1&C2&C3&C4). rewrite Hi in C2, C4.
  destruct (c =? 10); [by apply next_row_ok|]. rewrite bind_get_st.
  destruct (write_char_ok (E:=E) i n (cur_x w) (cur_y w) c r g b w) as (w1&Hrun&H1); [done..|lia|].
  rewrite (st_bind_Ok _ _ _ _ _ Hrun). rewrite bind_set_cursor, bind_get_st. cbn [info cur_x].
  pose proof (screen_ok_same _ _ _ _ Hs H1) as [Hi1 Hn1]. destruct H1 as (_&_&Hx1&Hy1). rewrite Hi1.
  rewrite (small_u (cur_x w + 8)), small_u by lia.
  destruct (Z.ltb_spec (width i) (cur_x w + 8 + 8)) as [Hlt|Hge].
  - apply (next_row_ok i n); [done|by split|cbn [cur_y]; lia..].
  - eexists. split; [reflexivity|]. split; [by split|]. unfold cursor_ok. cbn [info cur_x cur_y]. rewrite ?Hi1; lia.
Qed.

Lemma write_str_ok {E} i n s w : mode_ok i n → font_ok → screen_ok i n w → cursor_ok w →
  ∃ w', write_str BASIC_FONTS (E:=E) s w = (w', Ok ()) ∧ screen_ok i n w' ∧ cursor_ok w'.
Proof.
  intros Hm Hf Hs Hc. unfold write_str, write_string_at_cursor.
  apply (for_keeps s (λ c, put_char BASIC_FONTS (E:=E) c 255 255 0) (λ w, screen_ok i n w ∧ cursor_ok w)); [|done].
  intros c w1 _ [Hs1 Hc1]. by apply put_char_ok.
Qed.

(** C35: Printing never leaves the framebuffer: in a mode whose visible pixels
    fit into the buffer, with room for one character, text of any length and
    content (line feeds, backspaces, characters without a glyph) is written
    without panic, with wrapping and scrolling, and leaves the cursor on the
    screen. *)
Theorem text_stays_on_screen i n s w :
  mode_ok i n → font_ok → info w = i → len (framebuffer w) = n → cursor_ok w →
  ∃ w', write_str BASIC_FONTS (E:=Empty_set) s w = (w', Ok ()) ∧ info w' = i ∧ len (framebuffer w') = n ∧ cursor_ok w'.
Proof.
  intros Hm Hf Hi Hn Hc. destruct (write_str_ok (E:=Empty_set) i n s w Hm Hf (conj Hi Hn) Hc) as (w'&Hrun&[Hi' Hn']&Hc').
  by exists w'.
Qed.
End screen.

(** ** A screen of two by two characters *)

Definition demo_mode : FrameBufferInfo :=
  {| fbi_addr := 0; fbi_size := 1152; width := 16; height := 18; stride := 16; bytes_per_pixel := 4; pixel_format := 1 |}.
Definition demo_font (c : Z) : option (list Z) := if 128 <=? c then None else Some (replicate 8 c).
Definition demo_writer : Writer := Writer_new ((λ k, k mod 256) <$> seqZ 0 1152) demo_mode.

Lemma demo_mode_ok : mode_ok demo_mode 1152.
Proof. split; cbn; lia. Qed.
Lemma demo_font_ok : font_ok demo_font.
Proof.
  split; [|by exists (replicate 8 32)]. intros c m. unfold demo_font. case_match; [done|]. by intros [= <-].
Qed.
Lemma demo_size : len (framebuffer demo_writer) = 1152.
Proof. vm_compute. reflexivity. Qed.

Lemma scroll_up_moves_rows_witness :
  ∃ w', scroll_up (E:=Empty_set) demo_writer = (w', Ok ()) ∧ pixel w' 3 4 1 = Some 77 ∧ pixel w' 15 17 0 = Some 0.
Proof.
  destruct (scroll_up_moves_rows demo_mode 1152 demo_writer demo_mode_ok eq_refl demo_size) as (w'&Hrun&_&_&_&Hmove&Hb).
  exists w'. split; [exact Hrun|]. split.
  - rewrite (Hmove 3 4 1) by (cbn; lia). vm_compute. reflexivity.
  - apply Hb; [cbn; lia..|by right].
Defined.

Lemma text_stays_on_screen_witness :
  ∃ w', write_str demo_font (E:=Empty_set) (lit "ab" ++ [10] ++ lit "cde" ++ [8; 8; 8; 8; 300]) demo_writer = (w', Ok ()) ∧
    cursor_ok w' ∧ len (framebuffer w') = 1152.
Proof.
  destruct (text_stays_on_screen demo_font demo_mode 1152 (lit "ab" ++ [10] ++ lit "cde" ++ [8; 8; 8; 8; 300]) demo_writer
    demo_mode_ok demo_font_ok eq_refl demo_size) as (w'&Hrun&_&Hn&Hc).
  - unfold cursor_ok. cbn. lia.
  - exists w'. split; [exact Hrun|]. split; [exact Hc|exact Hn].
Defined.
