(* ===== verification/Console.v ===== *)
(** * Printing

    [_print], [_print_serial], [_print_raw] and [buffer_from_interrupt] of
    [kernel/src/macros.rs], on the statics they share: the screen behind its
    lock, the log of the interrupt handlers, the serial port. An argument list
    of [format_args!] is the list of its pieces, in the order they are written.

    Tasks print with interrupts on, handlers with interrupts off, at any point of
    a task's print. The second part runs the accesses of [_print] one by one. *)

From S2P Require Import Prelude Bytes Text Shell ShellDemo Screen ScreenFacts.

Record Console := {
  con_if : bool;                  (* interrupts are enabled *)
  SCREEN_WRITER : option Writer;
  screen_locked : bool;
  INTERRUPT_LOG_BUFFER : rstring;
  log_locked : bool;
  SERIAL1 : rstring;              (* what has been sent *)
  serial_locked : bool;
}.

Definition set_if (b : bool) (c : Console) : Console := {|
  con_if := b; SCREEN_WRITER := SCREEN_WRITER c; screen_locked := screen_locked c;
  INTERRUPT_LOG_BUFFER := INTERRUPT_LOG_BUFFER c; log_locked := log_locked c;
  SERIAL1 := SERIAL1 c; serial_locked := serial_locked c |}.
Definition set_screen (w : option Writer) (l : bool) (c : Console) : Console := {|
  con_if := con_if c; SCREEN_WRITER := w; screen_locked := l;
  INTERRUPT_LOG_BUFFER := INTERRUPT_LOG_BUFFER c; log_locked := log_locked c;
  SERIAL1 := SERIAL1 c; serial_locked := serial_locked c |}.
Definition set_log (t : rstring) (c : Console) : Console := {|
  con_if := con_if c; SCREEN_WRITER := SCREEN_WRITER c; screen_locked := screen_locked c;
  INTERRUPT_LOG_BUFFER := t; log_locked := log_locked c;
  SERIAL1 := SERIAL1 c; serial_locked := serial_locked c |}.
Definition set_serial (t : rstring) (c : Console) : Console := {|
  con_if := con_if c; SCREEN_WRITER := SCREEN_WRITER c; screen_locked := screen_locked c;
  INTERRUPT_LOG_BUFFER := INTERRUPT_LOG_BUFFER c; log_locked := log_locked c;
  SERIAL1 := t; serial_locked := serial_locked c |}.

Section console.
Context {heapless : Heapless}.
Context (BASIC_FONTS : Z → option (list Z)).

(** [without_interrupts]: off, the closure, on again if they were on. *)
Definition without_interrupts {E A} (f : st Console E A) : st Console E A :=
  c ← get_st;
  modify (set_if false);;
  a ← f;
  modify (set_if (con_if c));;
  mret a.

(** [write_fmt] into a [heapless::String<n>]: the pieces up to the first one
    that does not fit; [false] is its error. *)
Fixpoint write_fmt_string (n : Z) (buf : rstring) (args : list rstring) : rstring * bool :=
  match args with
  | [] => (buf, true)
  | s :: args =>
      match hs_push_str n buf s with
      | Some buf => write_fmt_string n buf args
      | None => (buf, false)
      end
  end.

(** [lock()] on a lock that is held spins for ever: on one processor nobody
    releases it. *)
Definition buffer_from_interrupt {E} (args : list rstring) : st Console E () :=
  c ← get_st;
  if log_locked c then lift Diverge else
  modify (set_log (write_fmt_string 1024 (INTERRUPT_LOG_BUFFER c) args).1).

(** [write_fmt] on the screen. *)
Definition draw {E} (args : list rstring) : st Writer E () := for_ args (write_str BASIC_FONTS).
Definition draw_on_screen {E} (args : list rstring) : st Console E () := λ c,
  match SCREEN_WRITER c with
  | Some w => let '(w, r) := draw args w in (set_screen (Some w) (screen_locked c) c, r)
  | None => (c, Ok ())
  end.

Definition _print {E} (args : list rstring) : st Console E () :=
  c ← get_st;
  if negb (con_if c) then buffer_from_interrupt args else
  without_interrupts (
    c ← get_st;
    if screen_locked c then mret () else draw_on_screen args).

Definition _print_raw {E} (s : rstring) : st Console E () :=
  without_interrupts (
    c ← get_st;
    if screen_locked c then lift Diverge else draw_on_screen [s]).

Definition _print_serial {E} (args : list rstring) : st Console E () :=
  without_interrupts (
    match write_fmt_string 256 [] (lit "[kernel] " :: args) with
    | (buf, true) =>
        c ← get_st;
        if serial_locked c then lift Diverge else modify (set_serial (SERIAL1 c ++ buf))
    | (_, false) => mret ()
    end).

(** ** Interleaved with handlers *)

(** Where a task is in its calls of [_print]: before the call, after
    [are_enabled()] has said yes, with interrupts off, while it holds the
    screen and has [pieces] left to draw, after it has let the screen go. *)
Inductive Phase :=
| Ph_ready
| Ph_enabled (args : list rstring)
| Ph_masked (args : list rstring)
| Ph_drawing (pieces : list rstring)
| Ph_unlocked.

Record Printing := { phase : Phase; todo : list (list rstring); console : Console }.

Inductive task_step : Printing → Printing → Prop :=
| step_enabled args l c : con_if c = true →
    task_step {| phase := Ph_ready; todo := args :: l; console := c |} {| phase := Ph_enabled args; todo := l; console := c |}
| step_buffer args l c c' : con_if c = false → buffer_from_interrupt (E:=Empty_set) args c = (c', Ok ()) →
    task_step {| phase := Ph_ready; todo := args :: l; console := c |} {| phase := Ph_ready; todo := l; console := c' |}
| step_mask args l c :
    task_step {| phase := Ph_enabled args; todo := l; console := c |}
      {| phase := Ph_masked args; todo := l; console := set_if false c |}
| step_lock args l c : screen_locked c = false →
    task_step {| phase := Ph_masked args; todo := l; console := c |}
      {| phase := Ph_drawing args; todo := l; console := set_screen (SCREEN_WRITER c) true c |}
| step_give_up args l c : screen_locked c = true →
    task_step {| phase := Ph_masked args; todo := l; console := c |} {| phase := Ph_unlocked; todo := l; console := c |}
| step_draw s pieces l c c' : draw_on_screen (E:=Empty_set) [s] c = (c', Ok ()) →
    task_step {| phase := Ph_drawing (s :: pieces); todo := l; console := c |}
      {| phase := Ph_drawing pieces; todo := l; console := c' |}
| step_unlock l c :
    task_step {| phase := Ph_drawing []; todo := l; console := c |}
      {| phase := Ph_unlocked; todo := l; console := set_screen (SCREEN_WRITER c) false c |}
| step_unmask l c :
    task_step {| phase := Ph_unlocked; todo := l; console := c |} {| phase := Ph_ready; todo := l; console := set_if true c |}.

(** A handler runs to its end with interrupts off and prints [args]. *)
Inductive handler_step (args : list rstring) : Printing → Printing → Prop :=
| handler_prints p c' : _print (E:=Empty_set) args (set_if false (console p)) = (c', Ok ()) →
    handler_step args p {| phase := phase p; todo := todo p; console := set_if (con_if (console p)) c' |}.

(** Runs, with what the handlers have printed. *)
Inductive runs (p0 : Printing) : list (list rstring) → Printing → Prop :=
| runs_start : runs p0 [] p0
| runs_task hs p q : runs p0 hs p → task_step p q → runs p0 hs q
| runs_handler hs args p q : runs p0 hs p → handler_step args p q → runs p0 (hs ++ [args]) q.

(** ** No text is lost and nobody waits *)

Definition finished (p : Printing) : Prop := phase p = Ph_ready ∧ todo p = [].

(** What the task has still to draw. *)
Definition pending (p : Printing) : list rstring :=
  match phase p with
  | Ph_ready | Ph_unlocked => mjoin (todo p)
  | Ph_enabled args | Ph_masked args | Ph_drawing args => args ++ mjoin (todo p)
  end.

(** The lock is held, and interrupts are off, in the middle of a print only. *)
Definition phase_ok (ph : Phase) (c : Console) : Prop :=
  log_locked c = false ∧
  match ph with
  | Ph_ready | Ph_enabled _ => con_if c = true ∧ screen_locked c = false
  | Ph_masked _ | Ph_unlocked => con_if c = false ∧ screen_locked c = false
  | Ph_drawing _ => con_if c = false ∧ screen_locked c = true
  end.

Definition logged (t : rstring) (hs : list (list rstring)) : rstring :=
  foldl (λ t args, (write_fmt_string 1024 t args).1) t hs.

Section run.
Variable i : FrameBufferInfo.
Variable n : Z.
Hypothesis mode : mode_ok i n.
Hypothesis font : font_ok BASIC_FONTS.

Definition writer_ok (w : Writer) : Prop := screen_ok i n w ∧ cursor_ok w.

(** [w] with all of [args] drawn on it is the screen [goal]. *)
Definition draws_to (args : list rstring) (w goal : Writer) : Prop := draw (E:=Empty_set) args w = (goal, Ok ()).

Lemma draw_one {E} s w : writer_ok w → ∃ w', write_str BASIC_FONTS (E:=E) s w = (w', Ok ()) ∧ writer_ok w'.
Proof using mode font. intros [Hs Hc]. destruct (write_str_ok (E:=E) BASIC_FONTS i n s w mode font Hs Hc) as (w'&?&?&?). by exists w'. Qed.
Lemma draw_total args w : writer_ok w → ∃ w', draws_to args w w' ∧ writer_ok w'.
Proof using mode font.
  intros Hw. unfold draws_to, draw.
  destruct (for_inv args (write_str BASIC_FONTS (E:=Empty_set)) (λ _ w, writer_ok w) w) as (w'&?&?); [|done|by exists w'].
  intros _ s _ w1 _ Hw1. by apply draw_one.
Qed.
Lemma draws_cons s args w w' goal :
  write_str BASIC_FONTS (E:=Empty_set) s w = (w', Ok ()) → draws_to (s :: args) w goal → draws_to args w' goal.
Proof. intros Hs. unfold draws_to, draw. cbn [for_]. by rewrite (st_bind_Ok _ _ _ _ _ Hs). Qed.

Definition printing_inv (t0 : rstring) (goal : Writer) (hs : list (list rstring)) (p : Printing) : Prop :=
  phase_ok (phase p) (console p) ∧ INTERRUPT_LOG_BUFFER (console p) = logged t0 hs ∧
  ∃ w, SCREEN_WRITER (console p) = Some w ∧ writer_ok w ∧ draws_to (pending p) w goal.

Lemma draw_on_screen_run s w c :
  SCREEN_WRITER c = Some w → writer_ok w →
  ∃ w', write_str BASIC_FONTS (E:=Empty_set) s w = (w', Ok ()) ∧ writer_ok w' ∧
    draw_on_screen (E:=Empty_set) [s] c = (set_screen (Some w') (screen_locked c) c, Ok ()).
Proof using mode font.
  intros Hc Hw. destruct (draw_one (E:=Empty_set) s w Hw) as (w'&Hs&Hw'). exists w'. split_and!; [done..|].
  unfold draw_on_screen, draw. rewrite Hc. cbn [for_]. by rewrite (st_bind_Ok _ _ _ _ _ Hs).
Qed.

Lemma task_step_inv t0 goal hs p q : task_step p q → printing_inv t0 goal hs p → printing_inv t0 goal hs q.
Proof using mode font.
  intros Hstep ([Hl Hph]&Hlog&w&Hw&Hok&Hd). destruct Hstep as [args l c Hif|args l c c' Hif _|args l c|args l c Hk|args l c Hk
    |s pieces l c c' Hdraw|l c|l c]; cbn [phase todo console] in *; destruct Hph as [H1 H2]; try congruence.
  1-3, 5-6: by (split; [split|split; [|exists w]]).
  destruct (draw_on_screen_run s w c Hw Hok) as (w'&Hs&Hok'&Hrun). rewrite Hrun in Hdraw. injection Hdraw as <-.
  split; [by split|]. split; [done|]. exists w'. split_and!; [done..|]. by apply (draws_cons s _ w).
Qed.

Lemma task_step_progress t0 goal hs p : printing_inv t0 goal hs p → ¬ finished p → ∃ q, task_step p q.
Proof using mode font.
  intros ([Hl Hph]&_&w&Hw&Hok&_) Hf. destruct p as [ph l c]. cbn [phase todo console] in *.
  destruct ph as [|args|args|[|s pieces]|]; destruct Hph as [H1 H2].
  - destruct l as [|args l]; [by destruct Hf|]. eexists. by apply step_enabled.
  - eexists. apply step_mask.
  - eexists. by apply step_lock.
  - eexists. apply step_unlock.
  - destruct (draw_on_screen_run s w c Hw Hok) as (w'&_&_&Hrun). eexists. by eapply step_draw.
  - eexists. apply step_unmask.
Qed.

(** A handler's text goes to the log, whatever the task is doing. *)
Lemma handler_run args c :
  log_locked c = false →
  _print (E:=Empty_set) args (set_if false c) =
  (set_log (write_fmt_string 1024 (INTERRUPT_LOG_BUFFER c) args).1 (set_if false c), Ok ()).
Proof using.
  intros Hl. unfold _print, buffer_from_interrupt. rewrite bind_get_st. cbn [con_if set_if negb].
  rewrite bind_get_st. cbn [log_locked set_if]. by rewrite Hl.
Qed.

Lemma handler_step_inv t0 goal hs args p q :
  handler_step args p q → printing_inv t0 goal hs p → printing_inv t0 goal (hs ++ [args]) q.
Proof using.
  intros [p1 c' Hrun] ([Hl Hph]&Hlog&Hw). rewrite handler_run in Hrun by done. injection Hrun as <-.
  split; [by destruct (phase p1)|]. split; [|done]. cbn. unfold logged in *. by rewrite foldl_app, <- Hlog.
Qed.

Lemma runs_inv t0 goal p0 hs p : printing_inv t0 goal [] p0 → runs p0 hs p → printing_inv t0 goal hs p.
Proof using mode font.
  intros H0. induction 1 as [|hs p q _ IH Hstep|hs args p q _ IH Hstep]; [done|..].
  - by eapply task_step_inv.
  - by eapply handler_step_inv.
Qed.

(** C23: Wherever handlers that print come in, between any two accesses of a
    task's calls of [_print], the task is never stuck, no handler ever waits for
    a lock, and when the task is through the screen shows exactly its texts, in
    order and complete. What the handlers print goes to the log, in their order,
    as far as its 1024 bytes last. *)
Theorem printing_interleaved prog w c hs p :
  writer_ok w → SCREEN_WRITER c = Some w → con_if c = true → screen_locked c = false → log_locked c = false →
  runs {| phase := Ph_ready; todo := prog; console := c |} hs p →
  (¬ finished p → ∃ q, task_step p q) ∧
  (∀ args, ∃ q, handler_step args p q) ∧
  INTERRUPT_LOG_BUFFER (console p) = logged (INTERRUPT_LOG_BUFFER c) hs ∧
  (finished p → con_if (console p) = true ∧ screen_locked (console p) = false ∧
    ∃ w', SCREEN_WRITER (console p) = Some w' ∧ draw (E:=Empty_set) (mjoin prog) w = (w', Ok ())).
Proof using mode font.
  intros Hok Hw Hif Hs Hl Hrun. destruct (draw_total (mjoin prog) w Hok) as (goal&Hg&_).
  assert (Hinv : printing_inv (INTERRUPT_LOG_BUFFER c) goal hs p).
  { eapply runs_inv; [|exact Hrun]. split; [by split|]. split; [done|]. by exists w. }
  pose proof Hinv as ([Hl' Hph]&Hlog&w'&Hw'&_&Hd). split_and!.
  - by eapply task_step_progress.
  - intros args. eexists. constructor. by apply handler_run.
  - done.
  - intros [Hp Ht]. rewrite Hp in Hph. destruct Hph. split_and!; [done..|]. exists w'. split; [done|].
    unfold pending in Hd. rewrite Hp, Ht in Hd. injection Hd as <-. exact Hg.
Qed.
End run.

(** ** Serial messages *)

Context {heapless_spec : HeaplessSpec}.

Lemma write_fmt_string_spec k buf args :
  write_fmt_string k buf args = (buf ++ mjoin args, true) ∧ str_len buf + str_len (mjoin args) ≤ k ∨
  (write_fmt_string k buf args).2 = false ∧ k < str_len buf + str_len (mjoin args) ∨
  k < str_len buf.
Proof using heapless_spec.
  revert buf. induction args as [|s args IH]; intros buf; cbn [write_fmt_string].
  { change (mjoin (M:=list) (@nil rstring)) with (@nil Z). rewrite app_nil_r. change (str_len []) with 0. destruct (decide (k < str_len buf)); [by right; right|]. left. split; [done|lia]. }
  change (mjoin (s :: args)) with (s ++ mjoin args). rewrite hs_push_str_spec, str_len_app. pose proof (str_len_nonneg (mjoin args)). pose proof (str_len_nonneg s).
  destruct (Z.leb_spec (str_len buf + str_len s) k) as [Hle|Hgt].
  - pose proof (str_len_app buf s). destruct (IH (buf ++ s)) as [[-> ?]|[[? ?]|?]].
    + left. rewrite <- app_assoc. split; [done|lia].
    + right; left. split; [done|lia].
    + lia.
  - right; left. split; [done|]. lia.
Qed.

Lemma print_serial_run {E} args c :
  serial_locked c = false →
  _print_serial (E:=E) args c =
  (if str_len (mjoin args) <=? 247 then set_serial (SERIAL1 c ++ lit "[kernel] " ++ mjoin args) c else c, Ok ()).
Proof using heapless_spec.
  intros Hl. unfold _print_serial, without_interrupts. rewrite bind_get_st, bind_modify.
  assert (Hc : set_if (con_if c) (set_if false c) = c) by by destruct c.
  destruct (write_fmt_string_spec 256 [] (lit "[kernel] " :: args)) as [[-> Hlen]|[[Hf Hlen]|Hlen]].
  3: { change (str_len []) with 0 in Hlen. lia. }
  all: change (mjoin (lit "[kernel] " :: args)) with (lit "[kernel] " ++ mjoin args) in *; rewrite str_len_app in Hlen; change (str_len (lit "[kernel] ")) with 9 in Hlen;
    change (str_len []) with 0 in Hlen.
  - rewrite (proj2 (Z.leb_le _ _)) by lia. rewrite st_bind_assoc, bind_get_st. cbn [serial_locked set_if]. rewrite Hl.
    rewrite !bind_modify. cbn [app]. by destruct c.
  - rewrite (proj2 (Z.leb_gt _ _)) by lia. destruct (write_fmt_string _ _ _) as [buf b]. cbn in Hf. subst b.
    rewrite bind_mret_st, bind_modify, Hc. done.
Qed.

(** A message to the serial port is sent whole, behind its prefix, when it
    takes at most 247 bytes; a longer one is not sent at all. Nothing else
    changes, and interrupts are as they were. *)
Theorem serial_whole_or_nothing {E} args c :
  serial_locked c = false →
  _print_serial (E:=E) args c =
  (if str_len (mjoin args) <=? 247 then set_serial (SERIAL1 c ++ lit "[kernel] " ++ mjoin args) c else c, Ok ()).
Proof using heapless_spec. apply print_serial_run. Qed.
End console.

(** ** Examples *)

Definition demo_console : Console := {|
  con_if := true; SCREEN_WRITER := Some demo_writer; screen_locked := false;
  INTERRUPT_LOG_BUFFER := []; log_locked := false; SERIAL1 := []; serial_locked := false |}.
Definition demo_start : Printing := {| phase := Ph_ready; todo := [[lit "ab"; lit "c"]]; console := demo_console |}.

(** A handler prints while the task holds the screen. *)
Definition demo_holding : Printing := {| phase := Ph_drawing [lit "ab"; lit "c"]; todo := [];
  console := set_screen (Some demo_writer) true (set_if false demo_console) |}.
Definition demo_logged : Printing := {| phase := Ph_drawing [lit "ab"; lit "c"]; todo := [];
  console := set_log (lit "tick") (console demo_holding) |}.

Lemma demo_writer_ok : writer_ok demo_mode 1152 demo_writer.
Proof. split; [by split|]. by vm_compute. Qed.

Lemma demo_run : runs demo_font demo_start [[lit "tick"]] demo_logged.
Proof.
  apply (runs_handler _ _ [] [lit "tick"] demo_holding).
  - eapply runs_task; [|by apply (step_lock _ _ _ (set_if false demo_console))].
    eapply runs_task; [|apply (step_mask _ _ _ demo_console)].
    eapply runs_task; [|by apply step_enabled]. apply runs_start.
  - by apply (handler_prints _ _ demo_holding (set_log (lit "tick") (console demo_holding))).
Qed.

Lemma printing_interleaved_witness :
  INTERRUPT_LOG_BUFFER (console demo_logged) = lit "tick" ∧ (∃ q, task_step demo_font demo_logged q) ∧
  ∃ q, handler_step demo_font [lit "tock"] demo_logged q.
Proof.
  destruct (printing_interleaved demo_font demo_mode 1152 demo_mode_ok demo_font_ok [[lit "ab"; lit "c"]] demo_writer demo_console
    [[lit "tick"]] demo_logged demo_writer_ok eq_refl eq_refl eq_refl eq_refl demo_run) as (Hstep&Hhandler&_&_).
  split; [reflexivity|split; [|apply Hhandler]]. apply Hstep. intros [H _]. discriminate H.
Defined.

Lemma serial_whole_or_nothing_witness :
  SERIAL1 (_print_serial (E:=Empty_set) [lit "up"; [10]] demo_console).1 = lit "[kernel] up" ++ [10] ∧
  SERIAL1 (_print_serial (E:=Empty_set) [replicate 248 65] demo_console).1 = [].
Proof.
  split.
  - rewrite (serial_whole_or_nothing (E:=Empty_set) [lit "up"; [10]] demo_console eq_refl). reflexivity.
  - rewrite (serial_whole_or_nothing (E:=Empty_set) [replicate 248 65] demo_console eq_refl). reflexivity.
Defined.
