(* ===== verification/Cpu.v ===== *)
(** * The processor's tables and the first interrupts

    [kernel/src/interrupts] ([gdt.rs], [hardware_interrupt.rs],
    [interrupt_index.rs], [mod.rs]) and the beginning of [init] in
    [kernel/src/lib.rs]: the segment table, the stack of double faults, the
    interrupt table, the interrupt controllers. The handlers are those of
    [Async], with the acknowledgement [Async] leaves out; that an interrupt
    reaches its handler at all, which [Executor] takes for granted, is shown here.

    Parameters: the [x86_64] crate (its segment table, the vectors behind the
    fields of its interrupt table, [VirtAddr::new]), the [pic8259] crate with the
    controllers behind it, and the address of the static stack. *)

From S2P Require Import Prelude Bytes Text Mmio Devices Async Executor AsyncDemo Shell Screen Console.

(** ** Parameters *)

(** The descriptors the code appends; a task state segment is its interrupt
    stack table. *)
Inductive Descriptor :=
| kernel_code_segment
| kernel_data_segment
| tss_segment (interrupt_stack_table : list Z).

(** [GlobalDescriptorTable]: [append] panics on a full table. *)
Class DescriptorTable (G : Type) := {
  gdt_new : G;
  gdt_append : Descriptor → G → option (G * Z);
  gdt_at : Z → G → option Descriptor;
}.
Definition descriptor_size (d : Descriptor) : Z := match d with tss_segment _ => 2 | _ => 1 end.

Class DescriptorTableSpec (G : Type) {table : DescriptorTable G} := {
  gdt_free : G → Z;
  gdt_new_free : gdt_free gdt_new = 7;
  gdt_append_spec d g : descriptor_size d ≤ gdt_free g →
    ∃ g' s, gdt_append d g = Some (g', s) ∧ gdt_at s g' = Some d ∧ gdt_free g' = gdt_free g - descriptor_size d ∧
      ∀ s' d', gdt_at s' g = Some d' → gdt_at s' g' = Some d';
}.

(** The vectors of the named entries of [InterruptDescriptorTable], and the
    entry [idt\[v\]] is ([None]: it panics). *)
Class IdtLayout := {
  breakpoint_vector : Z;
  double_fault_vector : Z;
  page_fault_vector : Z;
  idt_entry : Z → option Z;
}.
Class IdtLayoutSpec {layout : IdtLayout} := {
  exception_vectors : Forall (λ v, 0 ≤ v < 32) [breakpoint_vector; double_fault_vector; page_fault_vector];
  exceptions_differ : NoDup [breakpoint_vector; double_fault_vector; page_fault_vector];
  idt_entry_interrupt v : 32 ≤ v < 256 → idt_entry v = Some v;
}.

(** [ChainedPics]. [pics_raise] is a device pulling its line: the vector the
    controllers report, if the line is let through; [pics_in_service] are the
    vectors that have been reported and not been acknowledged. *)
Class ChainedPics (P : Type) := {
  pics_initialize : Z → Z → P → P;
  pics_write_masks : Z → Z → P → P;
  pics_notify_end_of_interrupt : Z → P → P;
  pics_raise : Z → P → P * option Z;
  pics_in_service : P → list Z;
}.
(** A state of the controllers at offsets [o1] and [o2] under masks [m1] and [m2]. *)
Class ChainedPicsSpec (P : Type) {pics : ChainedPics P} := {
  pics_at : Z → Z → Z → Z → P → Prop;
  pics_initialize_spec o1 o2 p : ∃ m1 m2, pics_at o1 o2 m1 m2 (pics_initialize o1 o2 p);
  pics_initialize_quiet o1 o2 p : pics_in_service (pics_initialize o1 o2 p) = [];
  pics_write_masks_spec o1 o2 m1 m2 n1 n2 p : pics_at o1 o2 m1 m2 p → pics_at o1 o2 n1 n2 (pics_write_masks n1 n2 p);
  pics_write_masks_quiet n1 n2 p : pics_in_service (pics_write_masks n1 n2 p) = pics_in_service p;
  pics_raise_spec o1 o2 m1 m2 irq p : pics_at o1 o2 m1 m2 p → 0 ≤ irq < 16 → pics_in_service p = [] →
    pics_at o1 o2 m1 m2 (pics_raise irq p).1 ∧
    let line := if irq <? 8 then negb (Z.testbit m1 irq) else negb (Z.testbit m2 (irq - 8)) && negb (Z.testbit m1 2) in
    let v := if irq <? 8 then o1 + irq else o2 + (irq - 8) in
    (pics_raise irq p).2 = (if line then Some v else None) ∧
    pics_in_service (pics_raise irq p).1 = (if line then [v] else []);
  pics_notify_spec o1 o2 m1 m2 v p : pics_at o1 o2 m1 m2 p → pics_in_service p = [v] →
    o1 ≤ v < o1 + 8 ∨ o2 ≤ v < o2 + 8 →
    pics_at o1 o2 m1 m2 (pics_notify_end_of_interrupt v p) ∧ pics_in_service (pics_notify_end_of_interrupt v p) = [];
}.

(** ** Constants and the interrupt numbers *)

Definition DOUBLE_FAULT_IST_INDEX : Z := 0.
Definition STACK_SIZE : Z := 4096 * 5.
Definition PIC_1_OFFSET : Z := 32.
Definition PIC_2_OFFSET : Z := PIC_1_OFFSET + 8.

Inductive InterruptIndex := Timer | Keyboard.
Definition as_irq (i : InterruptIndex) : Z := match i with Timer => PIC_1_OFFSET | Keyboard => PIC_1_OFFSET + 1 end.

Inductive handler :=
| breakpoint_handler
| double_fault_handler
| page_fault_handler
| timer_handler
| keyboard_handler.
Record IdtEntry := { entry_handler : handler; stack_index : option Z }.

Section cpu.
Context {G P : Type} {table : DescriptorTable G} {layout : IdtLayout} {pics : ChainedPics P}.
Variable virt_new : Z → option Z.
Variable STACK : Z.

(** What the processor and the controllers hold, and the lock of [PICS]. *)
Record Cpu := {
  gdtr : option G;
  cs : option Z; ds : option Z; ss : option Z; task_register : option Z;
  idtr : option (gmap Z IdtEntry);
  PICS : P;
  pics_locked : bool;
  interrupts_on : bool;
}.

Definition set_gdt (g : G) (c : Cpu) : Cpu := {|
  gdtr := Some g; cs := cs c; ds := ds c; ss := ss c; task_register := task_register c; idtr := idtr c;
  PICS := PICS c; pics_locked := pics_locked c; interrupts_on := interrupts_on c |}.
Definition set_segments (code data task : Z) (c : Cpu) : Cpu := {|
  gdtr := gdtr c; cs := Some code; ds := Some data; ss := Some data; task_register := Some task; idtr := idtr c;
  PICS := PICS c; pics_locked := pics_locked c; interrupts_on := interrupts_on c |}.
Definition set_idt (t : gmap Z IdtEntry) (c : Cpu) : Cpu := {|
  gdtr := gdtr c; cs := cs c; ds := ds c; ss := ss c; task_register := task_register c; idtr := Some t;
  PICS := PICS c; pics_locked := pics_locked c; interrupts_on := interrupts_on c |}.
Definition set_pics (p : P) (l : bool) (c : Cpu) : Cpu := {|
  gdtr := gdtr c; cs := cs c; ds := ds c; ss := ss c; task_register := task_register c; idtr := idtr c;
  PICS := p; pics_locked := l; interrupts_on := interrupts_on c |}.
Definition set_interrupts (b : bool) (c : Cpu) : Cpu := {|
  gdtr := gdtr c; cs := cs c; ds := ds c; ss := ss c; task_register := task_register c; idtr := idtr c;
  PICS := PICS c; pics_locked := pics_locked c; interrupts_on := b |}.

(** ** [gdt.rs] *)

(** [VirtAddr + n], [align_down]. *)
Definition virt_add {E} (a n : Z) : outcome E Z := unwrap (virt_new (a + n)).
Definition virt_align_down {E} (a align : Z) : outcome E Z := unwrap (virt_new (Z.ldiff a (align - 1))).

(** The static [TSS]; a new one has seven empty interrupt stacks. *)
Definition TSS {E} : outcome E (list Z) :=
  stack_start ← unwrap (virt_new STACK);
  stack_end ← virt_add stack_start STACK_SIZE;
  stack_end ← virt_align_down stack_end 16;
  mret (<[Z.to_nat DOUBLE_FAULT_IST_INDEX := stack_end]> (replicate 7 0)).

Record Selectors := { code_selector : Z; data_selector : Z; tss_selector : Z }.

Definition GDT {E} : outcome E (G * Selectors) :=
  '(gdt, code_selector) ← unwrap (gdt_append kernel_code_segment gdt_new);
  '(gdt, data_selector) ← unwrap (gdt_append kernel_data_segment gdt);
  tss ← TSS;
  '(gdt, tss_selector) ← unwrap (gdt_append (tss_segment tss) gdt);
  mret (gdt, {| code_selector := code_selector; data_selector := data_selector; tss_selector := tss_selector |}).

Definition gdt_init {E} : st Cpu E () :=
  '(gdt, sel) ← lift GDT;
  modify (set_gdt gdt);;
  modify (set_segments (code_selector sel) (data_selector sel) (tss_selector sel)).

(** ** [mod.rs], [hardware_interrupt.rs] *)

Definition idt_set {E} (v : Z) (e : IdtEntry) (t : gmap Z IdtEntry) : outcome E (gmap Z IdtEntry) :=
  v ← unwrap (idt_entry v); mret (<[v := e]> t).

Definition IDT {E} : outcome E (gmap Z IdtEntry) :=
  let idt := <[breakpoint_vector := {| entry_handler := breakpoint_handler; stack_index := None |}]> ∅ in
  let idt := <[double_fault_vector := {| entry_handler := double_fault_handler; stack_index := Some DOUBLE_FAULT_IST_INDEX |}]> idt in
  idt ← idt_set (as_irq Timer) {| entry_handler := timer_handler; stack_index := None |} idt;
  idt ← idt_set (as_irq Keyboard) {| entry_handler := keyboard_handler; stack_index := None |} idt;
  mret (<[page_fault_vector := {| entry_handler := page_fault_handler; stack_index := None |}]> idt).

Definition init_idt {E} : st Cpu E () := idt ← lift IDT; modify (set_idt idt).

(** [PICS.lock()], the operation, the guard dropped. *)
Definition with_pics {E} (f : P → P) : st Cpu E () :=
  c ← get_st;
  if pics_locked c then lift Diverge else
  modify (set_pics (PICS c) true);;
  c ← get_st;
  modify (set_pics (f (PICS c)) true);;
  c ← get_st;
  modify (set_pics (PICS c) false).
(** [if let Some(mut pics) = PICS.try_lock()] *)
Definition try_with_pics {E} (f : P → P) : st Cpu E () :=
  c ← get_st; if pics_locked c then mret () else with_pics f.

Definition initialize_pics {E} : st Cpu E () := with_pics (pics_initialize PIC_1_OFFSET PIC_2_OFFSET).
Definition enable_interrupts {E} : st Cpu E () := with_pics (pics_write_masks 0xFC 0xFF).
Definition interrupts_enable {E} : st Cpu E () := modify (set_interrupts true).

(** [init] of the kernel from the tables to the point where interrupts come. *)
Definition start_cpu_steps {E} : list (st Cpu E ()) :=
  [gdt_init; init_idt; initialize_pics; enable_interrupts; interrupts_enable].
Definition start_cpu {E} : st Cpu E () := for_ start_cpu_steps (λ step, step).

(** ** An interrupt *)

Section dispatch.
Context {TQ SQ AW : Type} {tq : ArrayQueue Z TQ} {sq : ArrayQueue Z SQ} {aw : AtomicWaker AW}.
Local Abbreviation Flags := (Flags TQ SQ AW).

Definition on_cpu {E A} (m : st Cpu E A) : st (Cpu * Flags) E A := λ s, let '(c, r) := m s.1 in ((c, s.2), r).

(** The handlers with their acknowledgement; [scancode] is what port 0x60 holds. *)
Definition timer_interrupt {E} : st (Cpu * Flags) E () :=
  on_snd timer_interrupt_handler;;
  on_cpu (try_with_pics (pics_notify_end_of_interrupt (as_irq Timer))).
Definition keyboard_interrupt {E} (scancode : Z) : st (Cpu * Flags) E () :=
  on_snd (keyboard_interrupt_handler scancode);;
  on_cpu (with_pics (pics_notify_end_of_interrupt (as_irq Keyboard))).

(** A device pulls line [irq] while interrupts are on. The processor looks the
    vector up and runs the handler with interrupts off. A vector without a
    handler, or with one that is no interrupt handler here, is a fault of the
    machine. *)
Definition interrupt_line {E} (scancode irq : Z) : st (Cpu * Flags) E () :=
  s ← get_st;
  let '(p, vector) := pics_raise irq (PICS s.1) in
  on_cpu (modify (set_pics p (pics_locked s.1)));;
  match vector with
  | None => mret ()
  | Some v =>
      on_cpu (modify (set_interrupts false));;
      match idtr s.1 ≫= lookup v with
      | Some {| entry_handler := timer_handler |} => timer_interrupt
      | Some {| entry_handler := keyboard_handler |} => keyboard_interrupt scancode
      | _ => lift Panic
      end;;
      on_cpu (modify (set_interrupts true))
  end.

(** The event of [Executor] a line stands for. *)
Definition event_of (scancode irq : Z) : event :=
  if irq =? 0 then Tick else if irq =? 1 then Key scancode else Run.

(** The kernel on the machine: a step of its loop, or a device pulling a line,
    which wakes a halted processor if it is let through. *)
Context {F : Type} {future : Future Flags F ()}.
Local Abbreviation Kernel := (Kernel TQ SQ AW F).

Inductive hw_step := Hw_run | Hw_line (scancode irq : Z).

Definition on_machine (s : hw_step) (m : Cpu * Kernel) : option (outcome Empty_set (Cpu * Kernel)) :=
  let '(c, k) := m in
  match s with
  | Hw_run => (λ r, k ← r; Ok (c, k)) <$> run_step k
  | Hw_line sc irq =>
      Some (let '((c', f), r) := interrupt_line sc irq (c, flags k) in
            _ ← r;
            Ok (c', match (pics_raise irq (PICS c)).2 with Some _ => interrupted k f | None => k end))
  end.
Inductive hw_run : list hw_step → Cpu * Kernel → Cpu * Kernel → Prop :=
| hw_nil m : hw_run [] m m
| hw_cons s ss m m1 m2 : on_machine s m = Some (Ok m1) → hw_run ss m1 m2 → hw_run (s :: ss) m m2.

Definition hw_event (s : hw_step) : option event :=
  match s with
  | Hw_run => Some Run
  | Hw_line sc irq => if irq =? 0 then Some Tick else if irq =? 1 then Some (Key sc) else None
  end.
Definition line_ok (s : hw_step) : Prop := match s with Hw_run => True | Hw_line _ irq => 0 ≤ irq < 16 end.
End dispatch.
End cpu.
Arguments Cpu : clear implicits.

(** ** Exceptions

    [addr], [code] and [frame] are the pieces of what the [Debug] implementations of
    the processor's types print. *)

Section exceptions.
Context {heapless : Heapless} (BASIC_FONTS : Z → option (list Z)).

Definition breakpoint_exception {E} (frame : list rstring) : st Console E () :=
  _print BASIC_FONTS ((lit "EXCEPTION: BREAKPOINT" ++ [10]) :: frame ++ [[10]]).
(** The handler returns: the access that faulted is tried again. *)
Definition page_fault_exception {E} (addr code frame : list rstring) : st Console E () :=
  _print_serial [lit "EXCEPTION: PAGE FAULT" ++ [10]];;
  _print_serial (lit "Accessed Address: " :: addr ++ [[10]]);;
  _print_serial (lit "Error Code: " :: code ++ [[10]]);;
  _print_serial (frame ++ [[10]]).
(** Bytes to the memory at 0x3F8, then the processor halts for ever. *)
Definition double_fault_exception {W E} {mmio : Mmio W} : st W E () := λ w,
  (foldl (λ w b, write_volatile 1 0x3F8 b w) w (lit "DOUBLE_FAULT" ++ [13; 10]), Diverge).

(** What of a message the serial port gets. *)
Definition serial_text (args : list rstring) : rstring :=
  if str_len (mjoin args) <=? 247 then lit "[kernel] " ++ mjoin args else [].

Context {heapless_spec : HeaplessSpec}.

Lemma serial_run {E} args c :
  serial_locked c = false → _print_serial (E:=E) args c = (set_serial (SERIAL1 c ++ serial_text args) c, Ok ()).
Proof using heapless_spec.
  intros Hl. rewrite print_serial_run by done. unfold serial_text.
  case_match; [done|]. rewrite app_nil_r. by destruct c.
Qed.
Lemma serial_waits {E} args c :
  serial_locked c = true → str_len (mjoin args) ≤ 247 → _print_serial (E:=E) args c = (set_if false c, Diverge).
Proof using heapless_spec.
  intros Hl Hs. unfold _print_serial, without_interrupts. rewrite bind_get_st, bind_modify.
  destruct (write_fmt_string_spec 256 [] (lit "[kernel] " :: args)) as [[-> _]|[[_ H]|H]].
  - by rewrite st_bind_assoc, bind_get_st, st_bind_unfold; cbn; rewrite Hl.
  - change (mjoin (?x :: ?l)) with (x ++ mjoin l) in H. rewrite str_len_app in H. change (str_len (lit "[kernel] ")) with 9 in H. change (str_len []) with 0 in H. lia.
  - by vm_compute in H.
Qed.

(** A page fault is reported on the serial port, each line that fits; one in the
    middle of a serial message waits for ever for the port's lock. *)
Theorem page_fault_reported {E} addr code frame c :
  page_fault_exception (E:=E) addr code frame c =
  if serial_locked c then (set_if false c, Diverge)
  else (set_serial (SERIAL1 c ++ lit "[kernel] EXCEPTION: PAGE FAULT" ++ [10] ++
          serial_text (lit "Accessed Address: " :: addr ++ [[10]]) ++ serial_text (lit "Error Code: " :: code ++ [[10]]) ++
          serial_text (frame ++ [[10]])) c, Ok ()).
Proof using heapless_spec.
  unfold page_fault_exception. destruct (serial_locked c) eqn:Hl.
  - by rewrite st_bind_unfold, serial_waits.
  - do 3 (rewrite st_bind_unfold, serial_run by done). rewrite serial_run by done. cbn. by rewrite <- !app_assoc.
Qed.
End exceptions.

(** ** What a start sets up *)

Section facts.
Context {G P : Type} {table : DescriptorTable G} {table_spec : DescriptorTableSpec G}.
Context {layout : IdtLayout} {layout_spec : IdtLayoutSpec}.
Context {pics : ChainedPics P} {pics_spec : ChainedPicsSpec P}.
Variable virt_new : Z → option Z.
Variable STACK : Z.
(** [VirtAddr::new] takes every address of the lower half; [STACK] is one, at
    its declared alignment. *)
Hypothesis virt_new_low : ∀ a, 0 ≤ a < 2 ^ 47 → virt_new a = Some a.
Hypothesis STACK_range : 0 ≤ STACK ∧ STACK + STACK_SIZE < 2 ^ 47.
Hypothesis STACK_aligned : STACK mod 16 = 0.

Local Abbreviation Cpu := (Cpu G P).

(** The segment registers select what they should, and a double fault finds a
    stack: the whole of [STACK], below its aligned end. *)
Definition segments_ok (c : Cpu) : Prop :=
  ∃ g code data tss ist,
    gdtr c = Some g ∧ cs c = Some code ∧ ds c = Some data ∧ ss c = Some data ∧ task_register c = Some tss ∧
    gdt_at code g = Some kernel_code_segment ∧ gdt_at data g = Some kernel_data_segment ∧
    gdt_at tss g = Some (tss_segment ist) ∧ ist !! Z.to_nat DOUBLE_FAULT_IST_INDEX = Some (STACK + STACK_SIZE).

Definition entry_is (c : Cpu) (v : Z) (h : handler) (i : option Z) : Prop :=
  ∃ idt, idtr c = Some idt ∧ idt !! v = Some {| entry_handler := h; stack_index := i |}.
Definition idt_ok (c : Cpu) : Prop :=
  entry_is c 32 timer_handler None ∧ entry_is c 33 keyboard_handler None ∧
  entry_is c breakpoint_vector breakpoint_handler None ∧ entry_is c page_fault_vector page_fault_handler None ∧
  entry_is c double_fault_vector double_fault_handler (Some DOUBLE_FAULT_IST_INDEX).

(** Interrupts can come: only the timer's and the keyboard's lines are let
    through, both have their handlers, and the controllers are free. *)
Definition ready (c : Cpu) : Prop :=
  idt_ok c ∧ pics_at 32 40 0xFC 0xFF (PICS c) ∧ pics_in_service (PICS c) = [] ∧ pics_locked c = false ∧ interrupts_on c = true.

Lemma TSS_run {E} : TSS (E:=E) virt_new STACK = Ok (<[0%nat := STACK + STACK_SIZE]> (replicate 7 0)).
Proof using virt_new_low STACK_range STACK_aligned.
  unfold TSS, virt_add, virt_align_down, STACK_SIZE in *. rewrite virt_new_low by lia. cbn [unwrap]. rewrite bind_Ok, virt_new_low by lia.
  cbn [unwrap]. rewrite bind_Ok. replace (16 - 1) with (Z.ones 4) by reflexivity. rewrite Z.ldiff_ones_r by lia.
  rewrite Z.shiftr_div_pow2, Z.shiftl_mul_pow2 by lia.
  replace ((STACK + 4096 * 5) / 2 ^ 4 * 2 ^ 4) with (STACK + 4096 * 5) by (Z.div_mod_to_equations; lia).
  by rewrite virt_new_low by lia.
Qed.

Lemma GDT_run {E} : ∃ g sel, GDT (E:=E) virt_new STACK = Ok (g, sel) ∧
  gdt_at (code_selector sel) g = Some kernel_code_segment ∧ gdt_at (data_selector sel) g = Some kernel_data_segment ∧
  gdt_at (tss_selector sel) g = Some (tss_segment (<[0%nat := STACK + STACK_SIZE]> (replicate 7 0))).
Proof using virt_new_low STACK_range STACK_aligned table_spec.
  destruct (gdt_append_spec kernel_code_segment gdt_new) as (g1&code&H1&Hc&Hf1&_); [rewrite gdt_new_free; cbn; lia|].
  destruct (gdt_append_spec kernel_data_segment g1) as (g2&data&H2&Hd&Hf2&Hk2); [rewrite Hf1, gdt_new_free; cbn; lia|].
  destruct (gdt_append_spec (tss_segment (<[0%nat := STACK + STACK_SIZE]> (replicate 7 0))) g2) as (g3&tss&H3&Ht&_&Hk3);
    [rewrite Hf2, Hf1, gdt_new_free; cbn; lia|].
  exists g3, {| code_selector := code; data_selector := data; tss_selector := tss |}. unfold GDT.
  rewrite H1. cbn [unwrap]. rewrite bind_Ok, H2. cbn [unwrap]. rewrite bind_Ok, TSS_run, bind_Ok, H3.
  split_and!; [done|..|done]; cbn; auto.
Qed.

Lemma gdt_init_run {E} (c : Cpu) : ∃ c', gdt_init (E:=E) virt_new STACK c = (c', Ok ()) ∧ segments_ok c' ∧
  PICS c' = PICS c ∧ pics_locked c' = pics_locked c ∧ interrupts_on c' = interrupts_on c.
Proof using virt_new_low STACK_range STACK_aligned table_spec.
  destruct (GDT_run (E:=E)) as (g&sel&Hrun&?&?&?). unfold gdt_init. rewrite Hrun, bind_lift_Ok.
  eexists. split; [done|]. split; [|done]. by eexists _, _, _, _, _.
Qed.

Lemma IDT_run {E} : ∃ t, IDT (E:=E) = Ok t ∧ ∀ c : Cpu, idtr c = Some t → idt_ok c.
Proof using layout_spec.
  pose proof exception_vectors as Hv. pose proof exceptions_differ as Hd.
  rewrite !Forall_cons in Hv. rewrite !NoDup_cons, !not_elem_of_cons in Hd. destruct Hv as (Hv1&Hv2&Hv3&_), Hd as ((Hd1&Hd2&_)&(Hd3&_)&_).
  unfold IDT, idt_set. cbv zeta. change (as_irq Timer) with 32. change (as_irq Keyboard) with 33.
  rewrite !idt_entry_interrupt by lia. cbn [unwrap]. rewrite !bind_Ok. eexists. split; [reflexivity|]. intros c Hc.
  split_and!; eexists; (split; [exact Hc|]); simplify_map_eq; try done.
  all: repeat (rewrite lookup_insert_ne by lia); by simplify_map_eq.
Qed.

Lemma init_idt_run {E} (c : Cpu) : ∃ c', init_idt (E:=E) c = (c', Ok ()) ∧ idt_ok c' ∧ (segments_ok c → segments_ok c') ∧
  PICS c' = PICS c ∧ pics_locked c' = pics_locked c ∧ interrupts_on c' = interrupts_on c.
Proof using layout_spec.
  destruct (IDT_run (E:=E)) as (t&Hrun&Ht). unfold init_idt. rewrite Hrun, bind_lift_Ok.
  eexists. split; [done|]. split; [by apply Ht|done].
Qed.

Lemma with_pics_run {E} f (c : Cpu) : pics_locked c = false →
  with_pics (E:=E) f c = (set_pics (f (PICS c)) false c, Ok ()).
Proof. intros Hl. unfold with_pics. rewrite bind_get_st, Hl. done. Qed.

Lemma set_pics_ok (c : Cpu) p l :
  (segments_ok c → segments_ok (set_pics p l c)) ∧ (idt_ok c → idt_ok (set_pics p l c)).
Proof. done. Qed.

(** The states of a start. *)
Lemma start_states {E} (c : Cpu) :
  pics_locked c = false → interrupts_on c = false →
  ∃ c1 c2 c3 c4, gdt_init (E:=E) virt_new STACK c = (c1, Ok ()) ∧ init_idt (E:=E) c1 = (c2, Ok ()) ∧
    initialize_pics (E:=E) c2 = (c3, Ok ()) ∧ enable_interrupts (E:=E) c3 = (c4, Ok ()) ∧
    Forall (λ c, interrupts_on c = false) [c; c1; c2; c3; c4] ∧
    segments_ok (set_interrupts true c4) ∧ ready (set_interrupts true c4).
Proof using All.
  intros Hl Hi. destruct (gdt_init_run (E:=E) c) as (c1&H1&Hseg&Hp1&Hl1&Hi1).
  destruct (init_idt_run (E:=E) c1) as (c2&H2&Hidt&Hseg2&Hp2&Hl2&Hi2).
  assert (Hlock : pics_locked c2 = false) by congruence.
  eexists c1, c2, _, _. split_and!; [done|done|by apply with_pics_run|by apply with_pics_run|..].
  - repeat constructor; cbn; congruence.
  - by apply Hseg2.
  - split; [done|]. cbn. destruct (pics_initialize_spec PIC_1_OFFSET PIC_2_OFFSET (PICS c2)) as (m1&m2&Hat).
    split_and!; [by eapply pics_write_masks_spec| |done|done]. by rewrite pics_write_masks_quiet, pics_initialize_quiet.
Qed.

(** The start of the processor succeeds and opens no gap: whenever
    interrupts are on, the segment registers select the descriptors they should,
    a double fault has the whole of [STACK] to run on, and the only lines the
    controllers let through, the timer's and the keyboard's, have vectors above
    the exceptions, with their handlers behind them. After the last step they
    are on. *)
Theorem start_opens_no_gap {E} (c : Cpu) (k : nat) :
  pics_locked c = false → interrupts_on c = false →
  ∃ ck, for_ (take k (start_cpu_steps (E:=E) virt_new STACK)) (λ step, step) c = (ck, Ok ()) ∧
    (interrupts_on ck = true → segments_ok ck ∧ ready ck) ∧ ((5 ≤ k)%nat → interrupts_on ck = true).
Proof using All.
  intros Hl Hi. destruct (start_states (E:=E) c Hl Hi) as (c1&c2&c3&c4&H1&H2&H3&H4&Hoff&Hseg&Hready).
  rewrite !Forall_cons in Hoff. destruct Hoff as (_&O1&O2&O3&O4&_). unfold start_cpu_steps.
  destruct k as [|[|[|[|[|k]]]]]; cbn [take for_]; rewrite ?firstn_nil; cbn [for_];
    repeat (erewrite st_bind_Ok by eassumption); unfold interrupts_enable; rewrite ?bind_modify.
  all: eexists; (split; [reflexivity|]); split; [intros Hon; first [congruence|by split]|intros Hk; first [exfalso; lia|done]].
Qed.

(** ** Interrupts after the start *)

Section dispatch_facts.
Context {TQ SQ AW : Type} {tq : ArrayQueue Z TQ} {sq : ArrayQueue Z SQ} {aw : AtomicWaker AW}.
Local Abbreviation Flags := (Flags TQ SQ AW).

Lemma on_cpu_run {E A} (m : st Cpu E A) (c c' : Cpu) (f : Flags) r : m c = (c', r) → on_cpu m (c, f) = ((c', f), r).
Proof. intros H. unfold on_cpu. cbn. by rewrite H. Qed.

(** A handler followed by its acknowledgement, with the vector in service. *)
Lemma acknowledged (m : st Flags Empty_set ()) (ack : st Cpu Empty_set ()) c f v :
  (∀ c : Cpu, pics_locked c = false → ack c = (set_pics (pics_notify_end_of_interrupt v (PICS c)) false c, Ok ())) →
  idt_ok c → pics_at 32 40 0xFC 0xFF (PICS c) → pics_in_service (PICS c) = [v] → v = 32 ∨ v = 33 → pics_locked c = false →
  ∃ c', (on_snd m;; on_cpu ack;; on_cpu (modify (set_interrupts true))) (c, f) = ((c', (m f).1), (m f).2) ∧
    ((m f).2 = Ok () → ready c').
Proof using pics_spec.
  intros Hack Hidt Hat Hserv Hv Hl. rewrite st_bind_unfold. unfold on_snd. cbn [fst snd].
  destruct (m f) as [f' [[]| | |]]; [|by exists c..].
  rewrite (st_bind_Ok _ _ _ _ _ (on_cpu_run ack c _ f' _ (Hack c Hl))). eexists. split; [reflexivity|]. intros _.
  destruct (pics_notify_spec 32 40 0xFC 0xFF v (PICS c) Hat Hserv) as [Hat' Hserv']; [lia|]. by split_and!.
Qed.

(** The lines that are let through. *)
Lemma raise_ready irq (c : Cpu) : ready c → 0 ≤ irq < 16 →
  let vector := if irq =? 0 then Some 32 else if irq =? 1 then Some 33 else None in
  (pics_raise irq (PICS c)).2 = vector ∧ pics_at 32 40 0xFC 0xFF (pics_raise irq (PICS c)).1 ∧
  pics_in_service (pics_raise irq (PICS c)).1 = match vector with Some v => [v] | None => [] end.
Proof using pics_spec.
  intros (_&Hat&Hserv&_) Hirq. cbv zeta.
  destruct (pics_raise_spec 32 40 0xFC 0xFF irq (PICS c) Hat Hirq Hserv) as (Hat'&Hvec&Hserv').
  assert (Hcases : In irq [0; 1; 2; 3; 4; 5; 6; 7; 8; 9; 10; 11; 12; 13; 14; 15]) by (cbn; lia).
  cbn in Hcases. by repeat destruct Hcases as [<-|Hcases].
Qed.

Lemma interrupt_line_run sc irq (c : Cpu) (f : Flags) :
  ready c → 0 ≤ irq < 16 →
  ∃ c', interrupt_line (E:=Empty_set) sc irq (c, f) =
    ((c', (interrupt (event_of sc irq) f).1), (interrupt (event_of sc irq) f).2) ∧
    ((interrupt (event_of sc irq) f).2 = Ok () → ready c').
Proof using pics_spec.
  intros Hr Hirq. destruct (raise_ready irq c Hr Hirq) as (Hvec&Hat&Hserv). destruct Hr as (Hidt&_&_&Hl&Hon).
  unfold interrupt_line. rewrite bind_get_st. cbn [fst snd].
  destruct (pics_raise irq (PICS c)) as [p vec]. cbn [fst snd] in *. subst vec.
  rewrite (st_bind_Ok _ _ _ _ _ (on_cpu_run _ c _ f _ eq_refl)). unfold event_of.
  pose proof Hidt as ((t&Ht&Htimer)&(t'&Ht'&Hkey)&_). rewrite Ht in Ht'. injection Ht' as <-. rewrite Ht.
  destruct (irq =? 0); [|destruct (irq =? 1)].
  - rewrite (st_bind_Ok _ _ _ _ _ (on_cpu_run _ _ _ f _ eq_refl)).
    cbn [mbind option_bind]. rewrite Htimer. unfold timer_interrupt. rewrite st_bind_assoc.
    apply (acknowledged _ _ _ f 32); [|done..|by left|done]. intros c1 H1. unfold try_with_pics. rewrite bind_get_st, H1. by apply with_pics_run.
  - rewrite (st_bind_Ok _ _ _ _ _ (on_cpu_run _ _ _ f _ eq_refl)).
    cbn [mbind option_bind]. rewrite Hkey. unfold keyboard_interrupt. rewrite st_bind_assoc.
    apply (acknowledged _ _ _ f 33); [|done..|by right|done]. intros c1 H2. by apply with_pics_run.
  - eexists. split; [reflexivity|]. intros _. by split_and!.
Qed.

Context {F : Type} {future : Future Flags F ()}.
Local Abbreviation Kernel := (Kernel TQ SQ AW F).

(** One step on the machine is the event it stands for, if it stands for one. *)
Lemma on_machine_event s (c : Cpu) (k : Kernel) : ready c → line_ok s →
  (∀ k', match hw_event s with Some e => kernel_step e k = Some (Ok k') | None => k' = k end →
    ∃ c', on_machine s (c, k) = Some (Ok (c', k')) ∧ ready c') ∧
  (∀ m, on_machine s (c, k) = Some (Ok m) →
    ready m.1 ∧ match hw_event s with Some e => kernel_step e k = Some (Ok m.2) | None => m.2 = k end).
Proof using pics_spec.
  intros Hr Hs. destruct s as [|sc irq]; cbn [hw_event on_machine].
  - cbn [kernel_step]. destruct (run_step k) as [[k1| | |]|]; cbn [fmap option_fmap option_map]; split.
    all: try (intros k' [= ->]; by exists c). all: try (intros m [= <-]; done). all: done.
  - destruct (interrupt_line_run sc irq c (flags k) Hr Hs) as (c'&Hrun&Hready).
    destruct (raise_ready irq c Hr Hs) as (Hvec&_). rewrite Hrun, Hvec. unfold event_of, hw_event in *.
    destruct (irq =? 0); [|destruct (irq =? 1)]; cbn [kernel_step].
    3: { cbn [interrupt] in *. split; [intros k' ->; exists c'; split; [by destruct k|by apply Hready]|].
         intros m [= <-]. split; [by apply Hready|by destruct k]. }
    all: destruct (interrupt _ (flags k)) as [f [[]| | |]]; cbn [fst snd mbind outcome_bind] in *; split.
    all: try (intros k' [= <-]; exists c'; split; [done|by apply Hready]).
    all: try (intros m [= <-]; split; [by apply Hready|done]). all: done.
Qed.

(** C15: The kernel on the machine runs exactly as in the executor's model. After
    the start of the processor, the runs of the loop with devices pulling
    whatever lines between its steps are the runs of the model with a tick for
    line 0, a key for line 1 and nothing for the others: every interrupt that is
    let through reaches its handler, none waits for the lock of the controllers,
    each is acknowledged before the next. *)
Theorem machine_runs_kernel (c0 : Cpu) :
  pics_locked c0 = false → interrupts_on c0 = false →
  ∃ c, start_cpu (E:=Empty_set) virt_new STACK c0 = (c, Ok ()) ∧
    ∀ (steps : list hw_step) (k k' : Kernel), Forall line_ok steps →
      (kernel_run (omap hw_event steps) k k' ↔ ∃ c', hw_run steps (c, k) (c', k')) ∧
      ∀ c', hw_run steps (c, k) (c', k') → ready c'.
Proof using All.
  intros Hl Hi. destruct (start_states (E:=Empty_set) c0 Hl Hi) as (c1&c2&c3&c4&H1&H2&H3&H4&_&_&Hready).
  exists (set_interrupts true c4). split.
  { unfold start_cpu, start_cpu_steps. cbn [for_]. by repeat (erewrite st_bind_Ok by eassumption). }
  intros steps k k' Hok. clear - Hready Hok pics_spec. revert k Hready. generalize (set_interrupts true c4).
  induction Hok as [|s steps Hs _ IH]; intros c k Hready; cbn [omap list_omap].
  { split; [split|]; [inversion 1; subst; exists c; constructor|by intros [c' H]; inversion H; subst; constructor|by inversion 1; subst]. }
  destruct (on_machine_event s c k Hready Hs) as [Hto Hfrom]. split; [split|].
  - intros Hrun. assert (Hstep : ∃ k1, match hw_event s with Some e => kernel_step e k = Some (Ok k1) | None => k1 = k end ∧ kernel_run (omap hw_event steps) k1 k').
    { destruct (hw_event s); [inversion Hrun; subst; by eexists|by exists k]. }
    destruct Hstep as (k1&Hk1&Hrest). destruct (Hto k1 Hk1) as (c1'&Hm&Hr1).
    destruct (proj1 (proj1 (IH c1' k1 Hr1)) Hrest) as [c' Hrest']. exists c'. by econstructor.
  - intros [c' Hrun]. inversion Hrun as [|s' ss m [c1' k1] m2 Hm Hrest]; subst. destruct (Hfrom _ Hm) as [Hr1 Hk1].
    assert (Hk : kernel_run (omap hw_event steps) k1 k') by (apply (IH c1' k1 Hr1); by exists c').
    cbn [snd] in Hk1. destruct (hw_event s); [by econstructor|by subst k1].
  - intros c' Hrun. inversion Hrun as [|s' ss m [c1' k1] m2 Hm Hrest]; subst. destruct (Hfrom _ Hm) as [Hr1 Hk1].
    by apply (IH c1' k1 Hr1).
Qed.
End dispatch_facts.
End facts.

(** ** A processor and controllers that keep the laws *)

(** The segment table of the manual: eight slots of eight bytes, the first one
    empty; the second half of a task state descriptor is a slot of its own. *)
Local Abbreviation Slots := (list (option Descriptor)).
#[export] Instance Slots_DescriptorTable : DescriptorTable Slots := {|
  gdt_new := [None];
  gdt_append d g :=
    if len g + descriptor_size d <=? 8
    then Some (g ++ Some d :: replicate (Z.to_nat (descriptor_size d - 1)) None, len g * 8) else None;
  gdt_at s g := mjoin (g !! Z.to_nat (s / 8));
|}.
#[export] Program Instance Slots_Spec : DescriptorTableSpec Slots := {| gdt_free g := 8 - len g |}.
Next Obligation. done. Qed.
Next Obligation.
  intros d g Hd. cbn in *. destruct (Z.leb_spec (len g + descriptor_size d) 8); [|lia]. eexists _, _. split; [done|].
  rewrite Z.div_mul, Nat2Z.id, list_lookup_middle by done. split_and!; [done| |].
  - rewrite length_app. cbn [length]. rewrite length_replicate. destruct d; cbn [descriptor_size]; lia.
  - intros s' d' Hs. destruct (g !! Z.to_nat (s' / 8)) eqn:Hg; [|done]. rewrite (lookup_app_l_Some _ _ _ _ Hg). exact Hs.
Qed.

(** The vectors of the architecture. *)
#[export] Instance x86_layout : IdtLayout := {|
  breakpoint_vector := 3; double_fault_vector := 8; page_fault_vector := 14;
  idt_entry v := if v <? 32 then None else Some v;
|}.
#[export] Instance x86_layout_spec : IdtLayoutSpec.
Proof.
  split; [repeat (constructor; [cbn; lia|]); constructor|by apply (bool_decide_unpack _)|]. intros v Hv. cbn. by destruct (Z.ltb_spec v 32); [lia|].
Qed.

Record TwoPics := { tp_offsets : Z * Z; tp_masks : Z * Z; tp_service : list Z }.
Definition tp_line (p : TwoPics) (irq : Z) : bool :=
  if irq <? 8 then negb (Z.testbit (tp_masks p).1 irq)
  else negb (Z.testbit (tp_masks p).2 (irq - 8)) && negb (Z.testbit (tp_masks p).1 2).
Definition tp_vector (p : TwoPics) (irq : Z) : Z :=
  if irq <? 8 then (tp_offsets p).1 + irq else (tp_offsets p).2 + (irq - 8).
#[export] Instance TwoPics_ChainedPics : ChainedPics TwoPics := {|
  pics_initialize o1 o2 p := {| tp_offsets := (o1, o2); tp_masks := tp_masks p; tp_service := [] |};
  pics_write_masks m1 m2 p := {| tp_offsets := tp_offsets p; tp_masks := (m1, m2); tp_service := tp_service p |};
  pics_notify_end_of_interrupt v p :=
    let '(o1, o2) := tp_offsets p in
    if ((o1 <=? v) && (v <? o1 + 8)) || ((o2 <=? v) && (v <? o2 + 8))
    then {| tp_offsets := tp_offsets p; tp_masks := tp_masks p; tp_service := tail (tp_service p) |} else p;
  pics_raise irq p :=
    if tp_line p irq
    then ({| tp_offsets := tp_offsets p; tp_masks := tp_masks p; tp_service := tp_vector p irq :: tp_service p |},
          Some (tp_vector p irq))
    else (p, None);
  pics_in_service := tp_service;
|}.
#[export] Program Instance TwoPics_Spec : ChainedPicsSpec TwoPics := {|
  pics_at o1 o2 m1 m2 p := tp_offsets p = (o1, o2) ∧ tp_masks p = (m1, m2);
|}.
Next Obligation. intros o1 o2 [o [m1 m2] l]. by exists m1, m2. Qed.
Next Obligation. done. Qed.
Next Obligation. intros o1 o2 m1 m2 n1 n2 p [Ho _]. split; [exact Ho|done]. Qed.
Next Obligation. done. Qed.
Next Obligation.
  intros o1 o2 m1 m2 irq [o m l] [Ho Hm] _ Hl. cbn in *. subst o m l. unfold tp_line, tp_vector. cbn [tp_masks tp_offsets fst snd].
  by destruct (if irq <? 8 then _ else _).
Qed.
Next Obligation.
  intros o1 o2 m1 m2 v [o m l] [Ho Hm] Hl Hv. cbn in *. subst o m l.
  assert (Hb : ((o1 <=? v) && (v <? o1 + 8) || (o2 <=? v) && (v <? o2 + 8))%bool = true).
  { apply orb_true_iff. rewrite !andb_true_iff, !Z.leb_le, !Z.ltb_lt. lia. }
  by rewrite Hb.
Qed.

Definition low_half (a : Z) : option Z := if decide (0 ≤ a < 2 ^ 47) then Some a else None.
Lemma low_half_spec a : 0 ≤ a < 2 ^ 47 → low_half a = Some a.
Proof. intros H. unfold low_half. by rewrite decide_True. Qed.

(** Controllers as the firmware leaves them, every line open on vector 8. *)
Definition demo_cpu : Cpu Slots TwoPics := {|
  gdtr := None; cs := None; ds := None; ss := None; task_register := None; idtr := None;
  PICS := {| tp_offsets := (8, 112); tp_masks := (0, 0); tp_service := [] |}; pics_locked := false; interrupts_on := false |}.

Lemma start_opens_no_gap_witness :
  ∃ ck, for_ (start_cpu_steps (E:=Empty_set) low_half 0x200000) (λ step, step) demo_cpu = (ck, Ok ()) ∧
    interrupts_on ck = true ∧ segments_ok 0x200000 ck ∧ ready ck.
Proof.
  destruct (start_opens_no_gap (E:=Empty_set) low_half 0x200000 low_half_spec ltac:(by vm_compute) eq_refl demo_cpu 5 eq_refl eq_refl)
    as (ck&Hrun&Hon&Hk).
  exists ck. specialize (Hk ltac:(lia)). split; [exact Hrun|]. split; [exact Hk|exact (Hon Hk)].
Defined.

(** A tick, a key, the disk's line (which is masked), a tick. *)
Lemma machine_runs_kernel_witness :
  ∃ c c', start_cpu (E:=Empty_set) low_half 0x200000 demo_cpu = (c, Ok ()) ∧
    hw_run [Hw_run; Hw_line 0 0; Hw_line 0x1E 1; Hw_line 0 14; Hw_line 0 0; Hw_run] (c, demo_at [])
      (c', demo_at [Run; Tick; Key 0x1E; Tick; Run]) ∧ ready c' ∧ TIMER_TICKS (flags (demo_at [Run; Tick; Key 0x1E; Tick; Run])) = 2.
Proof.
  destruct (machine_runs_kernel (TQ:=ListQueue) (SQ:=ListQueue) (AW:=option Z) (F:=CmdSleep) low_half 0x200000 low_half_spec
    ltac:(by vm_compute) eq_refl demo_cpu eq_refl eq_refl) as (c&Hstart&Hruns).
  destruct (Hruns [Hw_run; Hw_line 0 0; Hw_line 0x1E 1; Hw_line 0 14; Hw_line 0 0; Hw_run] (demo_at [])
    (demo_at [Run; Tick; Key 0x1E; Tick; Run]) ltac:(repeat (constructor; [cbn; lia|]); constructor)) as [[Hto _] Hready].
  destruct Hto as [c' Hrun]; [apply run_events_run; vm_compute; reflexivity|].
  exists c, c'. split; [exact Hstart|]. split; [exact Hrun|]. split; [exact (Hready c' Hrun)|]. vm_compute. reflexivity.
Defined.
