(* ===== verification/Startup.v ===== *)
(** * Bringing the system up

    [init] of the kernel ([kernel/src/lib.rs]) and of the installer
    ([installer/src/lib.rs]), composed of the parts modelled elsewhere, and the
    way the ECAM base is found ([lib/hal/src/acpi/mod.rs]). [kernel_init] and
    [installer_init] are the parts that touch memory, devices and drivers, without
    their serial messages; [init] is the whole of the kernel's, with the screen,
    the processor and the messages.

    Parameters: the [acpi] crate ([from_rsdp], [PciConfigRegions_new],
    [physical_address]), the [x86_64] crate ([virt_new], [frame_of], [map_to]),
    [memory_init] (the active page table), [mem] and [slice_at] (memory as the
    boot loader left it). *)

From S2P Require Import Prelude Bytes Text BlockDev Mmio Pci Devices PciBus Drivers Frames Heap HeapInit Dma Ahci Virtio KernelDma BlockDrivers Installer Shell Screen Console Cpu.

(** [lib/boot/src/lib.rs] *)
Record BootInfo := {
  physical_memory_offset : Z; bi_memory_map : Z; memory_map_len : Z; bi_framebuffer : FrameBufferInfo; rsdp_addr : Z;
  fat32_partition_lba : Z; boot_disk : Z
}.

(** ** [acpi/mod.rs] *)

Inductive AcpiError := ParseFailed | NoMcfg | NoEcamRegion.

(** [AcpiError::as_str] *)
Definition AcpiError_as_str (e : AcpiError) : rstring :=
  match e with
  | ParseFailed => lit "failed to parse ACPI tables from RSDP"
  | NoMcfg => lit "no MCFG table found " ++ [0x2014] ++ lit " not a Q35/PCIe machine?"
  | NoEcamRegion => lit "no ECAM region for segment 0 bus 0 in MCFG"
  end.
Record AcpiInfo := { ecam_base : Z; acpi_phys_offset : Z }.

Section acpi.
Context {Tables Regions : Type}.
Variable from_rsdp : Z → Z → option Tables.
Variable PciConfigRegions_new : Tables → option Regions.
Variable physical_address : Regions → Z → Z → Z → Z → option Z.

Definition init_from_rsdp (rsdp_phys phys_offset : Z) : outcome AcpiError AcpiInfo :=
  tables ← ok_or (from_rsdp phys_offset rsdp_phys) ParseFailed;
  pci_regions ← ok_or (PciConfigRegions_new tables) NoMcfg;
  ecam_base ← ok_or (physical_address pci_regions 0 0 0 0) NoEcamRegion;
  mret {| ecam_base := ecam_base; acpi_phys_offset := phys_offset |}.
End acpi.

(** ** What the ACPI parser calls back

    [KernelAcpiHandler]: physical memory, ports, configuration space and time, as
    the [acpi] crate's interpreter asks for them. [Ports] is the processor's port
    space. The handler has no locks to offer: its mutexes are stubs. *)

Class Ports (W : Type) := {
  port_in : Z → Z → W → W * Z;
  port_out : Z → Z → Z → W → W;
}.

Record KernelAcpiHandler := { handler_offset : Z }.
Record PhysicalMapping := { physical_start : Z; virtual_start : Z; region_length : Z; mapped_length : Z }.

Section handler.
Context {W : Type} {mmio : Mmio W} {ram : Ram W} {ports : Ports W}.
Variable self : KernelAcpiHandler.

(** [NonNull::new(virt).expect(..)] *)
Definition map_physical_region {E} (physical_address size : Z) : outcome E PhysicalMapping :=
  let virt := physical_address +w handler_offset self in
  assert_ (negb (virt =? 0)) ;;
  mret {| physical_start := physical_address; virtual_start := virt; region_length := size; mapped_length := size |}.
Definition unmap_physical_region {E} (region : PhysicalMapping) : st (Ecam W) E () := mret ().

Definition read_u8 {E} (address : Z) : st (Ecam W) E Z := on_hw (mread 1 (address +w handler_offset self)).
Definition read_u16 {E} (address : Z) : st (Ecam W) E Z := on_hw (mread 2 (address +w handler_offset self)).
Definition read_u32 {E} (address : Z) : st (Ecam W) E Z := on_hw (mread 4 (address +w handler_offset self)).
Definition read_u64 {E} (address : Z) : st (Ecam W) E Z := on_hw (mread 8 (address +w handler_offset self)).
Definition write_u8 {E} (address value : Z) : st (Ecam W) E () := on_hw (mwrite 1 (address +w handler_offset self) value).
Definition write_u16 {E} (address value : Z) : st (Ecam W) E () := on_hw (mwrite 2 (address +w handler_offset self) value).
Definition write_u32 {E} (address value : Z) : st (Ecam W) E () := on_hw (mwrite 4 (address +w handler_offset self) value).
Definition write_u64 {E} (address value : Z) : st (Ecam W) E () := on_hw (mwrite 8 (address +w handler_offset self) value).

Definition read_io {E} (n port : Z) : st (Ecam W) E Z := on_hw (λ w, let '(w, v) := port_in n port w in (w, Ok v)).
Definition write_io {E} (n port value : Z) : st (Ecam W) E () := on_hw (λ w, (port_out n port value w, Ok ())).
Definition read_io_u8 {E} (port : Z) : st (Ecam W) E Z := read_io 1 port.
Definition read_io_u16 {E} (port : Z) : st (Ecam W) E Z := read_io 2 port.
Definition read_io_u32 {E} (port : Z) : st (Ecam W) E Z := read_io 4 port.
Definition write_io_u8 {E} (port value : Z) : st (Ecam W) E () := write_io 1 port value.
Definition write_io_u16 {E} (port value : Z) : st (Ecam W) E () := write_io 2 port value.
Definition write_io_u32 {E} (port value : Z) : st (Ecam W) E () := write_io 4 port value.

(** [hal::pci::config_read*]; writes are not carried out. *)
Definition config_read8 {E} (bus dev func off : Z) : st (Ecam W) E Z := read8 bus dev func off.
Definition config_read16 {E} (bus dev func off : Z) : st (Ecam W) E Z := read16 bus dev func off.
Definition config_read32 {E} (bus dev func off : Z) : st (Ecam W) E Z := read32 bus dev func off.
Definition read_pci_u8 {E} (a : PciAddress) (offset : Z) : st (Ecam W) E Z :=
  config_read8 (pa_bus a) (pa_device a) (pa_function a) offset.
Definition read_pci_u16 {E} (a : PciAddress) (offset : Z) : st (Ecam W) E Z :=
  config_read16 (pa_bus a) (pa_device a) (pa_function a) offset.
Definition read_pci_u32 {E} (a : PciAddress) (offset : Z) : st (Ecam W) E Z :=
  config_read32 (pa_bus a) (pa_device a) (pa_function a) offset.
Definition write_pci {E} (a : PciAddress) (offset value : Z) : st (Ecam W) E () := mret ().

Definition nanos_since_boot {E} : st (Ecam W) E Z := mret 0.
Definition stall {E} (microseconds : Z) : st (Ecam W) E () :=
  let cycles := microseconds *w 3000 in
  on_hw (modify (Nat.iter (Z.to_nat cycles) elapse)).
Definition acpi_sleep {E} (milliseconds : Z) : st (Ecam W) E () := stall (milliseconds *w 1000).

Definition create_mutex {E} : st (Ecam W) E Z := mret 0.
Definition acquire {E} (mutex timeout : Z) : st (Ecam W) E () := mret ().
Definition release {E} (mutex : Z) : st (Ecam W) E () := mret ().

(** A region that is mapped is read at the same addresses as single registers
    are: byte [i] of the mapping is the register at its physical address. *)
Theorem mapping_agrees_with_reads {E} (p size i : Z) (m : PhysicalMapping) e :
  map_physical_region (E:=E) p size = Ok m →
  on_hw (mread (E:=E) 1 (virtual_start m +w i)) e = read_u8 (E:=E) (p +w i) e ∧ virtual_start m ≠ 0 ∧
  mapped_length m = size.
Proof.
  unfold map_physical_region. destruct (p +w handler_offset self =? 0) eqn:Hz; [done|]. cbn. intros [= <-].
  apply Z.eqb_neq in Hz. split_and!; [|done..]. unfold read_u8. cbn [virtual_start].
  replace (p +w handler_offset self +w i) with (p +w i +w handler_offset self); [done|].
  unfold wrap. rewrite !Zplus_mod_idemp_l. f_equal. lia.
Qed.

(** A stall of more than 2^64 / 3000 microseconds is cut short. *)
Theorem stall_wraps {E} us e : 0 ≤ us → stall (E:=E) (us + 2 ^ 61) e = stall (E:=E) us e.
Proof.
  intros Hus. unfold stall. replace ((us + 2 ^ 61) *w 3000) with (us *w 3000); [done|].
  unfold wrap. replace ((us + 2 ^ 61) * 3000) with (us * 3000 + 375 * 2 ^ 64) by lia. by rewrite Z.mod_add by lia.
Qed.
End handler.

(** ** Entry and exit *)

(** Clearing [.bss], which holds the statics: [main.rs] of the kernel and of the
    installer, on memory as a map from addresses. *)
Definition clear_bss (bss_start bss_end : Z) (memory : Z → Z) : Z → Z := λ a,
  let size := bss_end -w bss_start in
  if (bss_start <=? a) && (a <? bss_start + size) then 0 else memory a.

Inductive QemuExitCode := Exit_Success | Exit_Failed.
Definition exit_code_u32 (c : QemuExitCode) : Z := match c with Exit_Success => 0x10 | Exit_Failed => 0x11 end.
(** The port of the emulator, then nothing more. *)
Definition exit_qemu {W E} {ports : Ports W} (exit_code : QemuExitCode) : st W E () := λ w,
  (port_out 4 0xF4 (exit_code_u32 exit_code) w, Diverge).
(** The kernel's panic handler. *)
Definition panic_handler {W E} {ports : Ports W} {heapless : Heapless} (info : list rstring) : st (Console * W) E () :=
  (λ s, let '(c, r) := _print_serial (lit "panic! " :: info ++ [[10; 10]]) s.1 in ((c, s.2), r));;
  on_snd (exit_qemu Exit_Failed).

(** ** The steps of a start *)

(** [Result::expect] *)
Definition expect {S E F A} (m : st S E A) : st S F A := λ s,
  match m s with
  | (s, Ok a) => (s, Ok a)
  | (s, Err _) => (s, Panic)
  | (s, Panic) => (s, Panic)
  | (s, Diverge) => (s, Diverge)
  end.

(** A computation on a part of the state. *)
Definition zoom {S T E A} (get : S → T) (put : T → S → S) (m : st T E A) : st S E A := λ s,
  let '(t, r) := m (get s) in (put t s, r).

Section startup.
Context {M F MapToError H W Tables Regions : Type} {heap_first_fit : FirstFit H} {mmio : Mmio W} {ram : Ram W}.
Variable frame_of : Z → option Z.
Variable virt_new : Z → option Z.
Variable FrameAllocationFailed : MapToError.
Variable present_writable present_writable_no_cache : F.
Variable map_to : Z → Z → F → st (M * BootInfoFrameAllocator) MapToError ().
Variable memory_init : Z → M.
Variable mem : Z → Z.
Variable from_rsdp : Z → Z → option Tables.
Variable PciConfigRegions_new : Tables → option Regions.
Variable physical_address : Regions → Z → Z → Z → Z → option Z.
Variable fuel : nat.

(** The machine the drivers run on: the GUID counter, the allocator's statics
    and the hardware. *)
Abbreviation HW := (Z * (DmaState * W))%type.
#[local] Existing Instance Snd_Mmio.
#[local] Existing Instance Snd_Ram.

Definition HW_Dma (self : KernelDmaAllocator) : DmaAllocator HW := {|
  alloc E size align := on_snd (alloc (DmaAllocator := Kernel_Dma frame_of self) size align);
  free E b := kernel_free b;
|}.

Abbreviation Drivers_ := (DriverRegistry (Ecam HW) PciBusDevice BlockDriverState).

(** The statics of the kernel and of the crates, and the page table. *)
Record System := {
  sys_mapper : option M;
  sys_heap : FixedSize.FixedSizeBlockAllocator H;
  sys_devices : DeviceRegistry PciBusDevice;
  sys_drivers : Drivers_;
  sys_driver_offset : option Z;
  sys_ecam : Ecam HW;
}.

Definition set_memory (m : M) (g : FixedSize.FixedSizeBlockAllocator H) (s : System) : System := {|
  sys_mapper := Some m; sys_heap := g; sys_devices := sys_devices s; sys_drivers := sys_drivers s;
  sys_driver_offset := sys_driver_offset s; sys_ecam := sys_ecam s |}.
Definition set_devices (p : DeviceRegistry PciBusDevice * Ecam HW) (s : System) : System := {|
  sys_mapper := sys_mapper s; sys_heap := sys_heap s; sys_devices := p.1; sys_drivers := sys_drivers s;
  sys_driver_offset := sys_driver_offset s; sys_ecam := p.2 |}.
Definition set_drivers (p : Drivers_ * Ecam HW) (s : System) : System := {|
  sys_mapper := sys_mapper s; sys_heap := sys_heap s; sys_devices := sys_devices s; sys_drivers := p.1;
  sys_driver_offset := sys_driver_offset s; sys_ecam := p.2 |}.

Definition on_devices {E A} : st (DeviceRegistry PciBusDevice * Ecam HW) E A → st System E A :=
  zoom (λ s, (sys_devices s, sys_ecam s)) set_devices.
Definition on_drivers {E A} : st (Drivers_ * Ecam HW) E A → st System E A :=
  zoom (λ s, (sys_drivers s, sys_ecam s)) set_drivers.

(** Page table, frame allocator, heap. *)
Definition start_memory {E} (boot : BootInfo) : st System E (Z * M * BootInfoFrameAllocator) := λ s,
  match virt_new (physical_memory_offset boot) with
  | None => (s, Panic)
  | Some phys_mem_offset =>
      let mapper := memory_init phys_mem_offset in
      let frame_allocator := init_from_raw mem (bi_memory_map boot) (memory_map_len boot) in
      let '((mf, g), r) := expect (init_heap frame_of FrameAllocationFailed present_writable map_to)
                             ((mapper, frame_allocator), sys_heap s) in
      (set_memory mf.1 g s, (λ _, (phys_mem_offset, mf.1, mf.2)) <$> r)
  end.

(** [dma_alloc::init_frame_allocator], [driver::init]: a [Once] is set once. *)
Definition start_dma {E} (frame_allocator : BootInfoFrameAllocator) (phys_mem_offset : Z) : st System E () :=
  modify (λ s, {|
    sys_mapper := sys_mapper s; sys_heap := sys_heap s; sys_devices := sys_devices s; sys_drivers := sys_drivers s;
    sys_driver_offset := Some (default phys_mem_offset (sys_driver_offset s));
    sys_ecam := {| ECAM_PHYS_BASE := ECAM_PHYS_BASE (sys_ecam s); PHYS_OFFSET := PHYS_OFFSET (sys_ecam s);
                   hw := let '(g, (d, w)) := hw (sys_ecam s) in
                         (g, ((init_frame_allocator (E:=E) frame_allocator d).1, w)) |} |}).

(** ACPI, configuration space, enumeration. *)
Definition start_pci {E} (boot : BootInfo) (phys_mem_offset : Z) : st System E () :=
  acpi ← expect (lift (init_from_rsdp from_rsdp PciConfigRegions_new physical_address (rsdp_addr boot) phys_mem_offset));
  on_devices (on_snd (init_ecam (ecam_base acpi) (acpi_phys_offset acpi)));;
  expect (on_devices PciBus_enumerate).

(** [kernel::init] *)
Definition kernel_init {E} (boot : BootInfo) : st System E () :=
  '(phys_mem_offset, _, frame_allocator) ← start_memory boot;
  start_dma frame_allocator phys_mem_offset;;
  start_pci boot phys_mem_offset.

(** ** The whole start of the kernel *)

Section machine.
Context {G P : Type} {table : DescriptorTable G} {layout : IdtLayout} {pics : ChainedPics P} {heapless : Heapless}.
Variable STACK : Z.
Variable slice_at : Z → Z → list Z.

Record Machine := { m_cpu : Cpu G P; m_console : Console; m_sys : System }.

Definition on_processor {E A} : st (Cpu G P) E A → st Machine E A :=
  zoom m_cpu (λ c m, {| m_cpu := c; m_console := m_console m; m_sys := m_sys m |}).
Definition on_system {E A} : st System E A → st Machine E A :=
  zoom m_sys (λ s m, {| m_cpu := m_cpu m; m_console := m_console m; m_sys := s |}).
(** Printing sees and sets the processor's interrupt flag. *)
Definition on_console {E A} : st Console E A → st Machine E A :=
  zoom (λ m, set_if (interrupts_on (m_cpu m)) (m_console m))
       (λ c m, {| m_cpu := set_interrupts (con_if c) (m_cpu m); m_console := c; m_sys := m_sys m |}).

(** [serial_println!] *)
Definition say {E} (args : list rstring) : st Machine E () := on_console (_print_serial (args ++ [[10]])).

(** [screen::Writer::init] *)
Definition screen_init {E} (fb : FrameBufferInfo) : st Console E () :=
  w ← lift (Writer_init (slice_at (fbi_addr fb) (fbi_size fb)) fb);
  c ← get_st;
  if screen_locked c then lift Diverge else modify (set_screen (Some w) false).

Definition init {E} (boot : BootInfo) : st Machine E () :=
  on_console (screen_init (bi_framebuffer boot));;
  say [lit "1. Screen initialized"];;
  on_processor (gdt_init virt_new STACK);;
  say [lit "2. GDT initialized"];;
  on_processor init_idt;;
  say [lit "3. IDT initialized"];;
  on_processor initialize_pics;;
  on_processor enable_interrupts;;
  say [lit "4. PICS initialized"];;
  on_processor interrupts_enable;;
  say [lit "5. Interrupts enabled"];;
  '(phys_mem_offset, _, frame_allocator) ← on_system (start_memory boot);
  on_system (start_dma frame_allocator phys_mem_offset);;
  say [lit "6. Driver subsystem initialized"];;
  acpi ← on_system (expect (lift (init_from_rsdp from_rsdp PciConfigRegions_new physical_address (rsdp_addr boot) phys_mem_offset)));
  on_system (on_devices (on_snd (init_ecam (ecam_base acpi) (acpi_phys_offset acpi))));;
  say [lit "7. ACPI initialized"];;
  on_system (expect (on_devices PciBus_enumerate));;
  m ← get_st;
  say [lit "8. PCI enumerated: "; dec (registry_len (sys_devices (m_sys m))); lit " Devices"].

(** [_start] of [kernel/src/main.rs] up to the executor, which is [Executor.boot]. *)
Definition start {E} (boot : BootInfo) : st Machine E () :=
  init boot;;
  say [lit "Starting up..."].
End machine.

(** ** The installer *)

(** [Page::range] excludes the page of the end address. *)
Definition map_bar5 {E} (bar5_phys : Z) : st (M * BootInfoFrameAllocator) E () :=
  start_addr ← lift (unwrap (virt_new bar5_phys));
  end_addr ← lift (unwrap (virt_new (bar5_phys +w 0x4000)));
  for_ (seqZ (start_addr / 4096) (end_addr / 4096 - start_addr / 4096)) (λ page,
    frame ← lift (unwrap (frame_of (page * 4096)));
    expect (map_to page frame present_writable_no_cache)).

Definition map_ahci_bars {E} (devs : list (Z * PciBusDevice)) : st (M * BootInfoFrameAllocator) E () :=
  for_ devs (λ '(_, pci),
    let '(vendor, device) := id_pair pci in
    if (vendor =? 0x8086) && (device =? 0x2922) then
      match bar_mmio (pbd_info pci) 5 with
      | Some bar5_phys => map_bar5 bar5_phys
      | None => mret ()
      end
    else mret ()).

(** The closure for one block device. *)
Definition installer_visit {E} (id : Z) (driver_name : rstring) (dev : BlockDeviceEnum) : st (Ecam HW) E BlockDeviceEnum :=
  λ e, let '(g, w) := hw e in
  let '((g, (dev, w)), r) := infallible (scan_disk (BlockDevice0 := BlockDeviceEnum_BlockDevice fuel)) (g, (dev, w)) in
  ({| ECAM_PHYS_BASE := ECAM_PHYS_BASE e; PHYS_OFFSET := PHYS_OFFSET e; hw := (g, w) |}, (λ _, dev) <$> r).

(** What [_start] of [installer/src/main.rs] sends to the serial port first:
    the address it was given, nibble by nibble. *)
Definition start_banner (ptr : Z) : list Z :=
  lit "ptr=" ++
  ((λ i, let nibble := Z.land (Z.shiftr ptr (i * 4)) 0xF in
         if nibble <? 10 then 48 + nibble else 97 + nibble - 10) <$> reverse (seqZ 0 16)) ++ [10] ++
  lit "[kernel] Starting up " ++ [10].

(** [installer::init], up to the exit. *)
Definition installer_init {E} (boot : BootInfo) : st System E () :=
  '(phys_mem_offset, mapper, frame_allocator) ← start_memory boot;
  s ← get_st;
  let '((mapper, frame_allocator), r) :=
    map_ahci_bars (E:=E) (by_type (W:=Ecam HW) (sys_devices s) Dt_Bus) (mapper, frame_allocator) in
  modify (set_memory mapper (sys_heap s));;
  lift r;;
  start_dma frame_allocator phys_mem_offset;;
  start_pci boot phys_mem_offset;;
  s ← get_st;
  let dma := HW_Dma {| phys_mem_offset := phys_mem_offset |} in
  on_drivers (register_driver (VirtioBlkDriver (dma := dma) (sys_driver_offset s)));;
  on_drivers (register_driver (AhciDriver (dma := dma) (sys_driver_offset s)));;
  on_drivers (bind_all (driver_state := BlockDriverState_DriverState) (sys_devices s));;
  on_drivers (for_each_block (driver_state := BlockDriverState_DriverState) installer_visit).
End startup.
