(* ===== verification/StartupFacts.v ===== *)
(** * What a start of the system leaves behind

    Enumerating the bus only reads and writes registers, so the memory the
    kernel set aside before stays as it was: the heap is mapped, and no page the
    drivers are given later lies under it. The installer's start is the kernel's
    followed by its drivers. The whole of [init], with the screen, the tables, the
    interrupts and the messages, does to memory and devices what [kernel_init] does. *)

From S2P Require Import Prelude Bytes Text BlockDev Mmio Pci Devices PciBus Drivers Frames FramesFacts Heap HeapFacts HeapLinked HeapBlocks HeapInit Dma Ahci Virtio KernelDma BlockDrivers Installer Shell ShellDemo Screen ScreenFacts Console Cpu Startup.

(** ** Configuration space only goes through registers *)

Section keeps.
Context {W : Type} {mmio : Mmio W}.
Variable I : W → Prop.
Hypothesis I_read : ∀ n a w, I w → I (read_volatile n a w).1.
Hypothesis I_write : ∀ n a v w, I w → I (write_volatile n a v w).

Local Abbreviation Ie := (λ e : Ecam W, I (hw e)).

Lemma keeps_read32 {E} b d f o : preserves Ie (read32 (E:=E) b d f o).
Proof.
  intros e He. unfold read32. rewrite st_bind_unfold. cbn. unfold on_hw, mread.
  pose proof (I_read 4 (ecam_ptr e b d f o) (hw e) He). by destruct (read_volatile _ _ _).
Qed.
Lemma keeps_write32 {E} b d f o v : preserves Ie (write32 (E:=E) b d f o v).
Proof. intros e He. unfold write32. rewrite st_bind_unfold. cbn. by apply I_write. Qed.

(** One step of a computation on configuration space. *)
Ltac keeps_step :=
  lazymatch goal with
  | |- preserves _ (read32 _ _ _ _) => apply keeps_read32
  | |- preserves _ (write32 _ _ _ _ _) => apply keeps_write32
  | |- preserves _ (on_snd _) => apply (preserves_on_snd Ie)
  | _ => preserves_base
  end.

Lemma keeps_read8 {E} b d f o : preserves Ie (read8 (E:=E) b d f o).
Proof. unfold read8. repeat keeps_step. Qed.
Lemma keeps_read16 {E} b d f o : preserves Ie (read16 (E:=E) b d f o).
Proof. unfold read16. repeat keeps_step. Qed.
Lemma keeps_probe {E} b d f i : preserves Ie (probe (E:=E) b d f i).
Proof. unfold probe. cbv zeta. repeat keeps_step. Qed.
Lemma keeps_parse_loop {E} n b d f i bars : preserves Ie (parse_loop (E:=E) n b d f i bars).
Proof.
  revert i bars. induction n as [|n IH]; intros i bars; cbn [parse_loop]; keeps_step; try (by keeps_step).
  keeps_step; [apply keeps_probe|]. keeps_step. apply IH.
Qed.
Lemma keeps_probe_function {E} b d f : preserves Ie (probe_function (E:=E) b d f).
Proof.
  unfold probe_function, parse_all. cbv zeta.
  repeat first [apply keeps_read8|apply keeps_parse_loop|keeps_step].
Qed.
Lemma keeps_caps_loop {E} n i o cs : preserves Ie (caps_loop (E:=E) n i o cs).
Proof.
  revert o cs. induction n as [|n IH]; intros o cs; cbn [caps_loop]; [by apply preserves_quiet|].
  unfold info_read8. cbv zeta. repeat first [apply IH|apply keeps_read8|keeps_step].
Qed.
Lemma keeps_register_function i : preserves (λ s, Ie s.2) (register_function i).
Proof.
  unfold register_function, PciBusDevice_new, parse_capabilities, info_read16, info_read8, register, reg_check,
    register_rest, reg_probe, allocate. cbv zeta.
  repeat first [apply keeps_read8|apply keeps_read16|apply keeps_caps_loop|keeps_step].
  all: first [by intros s Hs|cbn; unfold pci_probe; repeat keeps_step].
Qed.
Lemma keeps_enumerate : preserves (λ s, Ie s.2) PciBus_enumerate.
Proof.
  unfold PciBus_enumerate, enumerate, walk_device, walk_function. cbv zeta.
  repeat first [apply keeps_register_function|apply keeps_probe_function|apply keeps_read8|keeps_step].
Qed.
End keeps.

(** ** Starting *)

Lemma keeps_expect {S E F A} (J : S → Prop) (m : st S E A) : preserves J m → preserves J (expect (F:=F) m).
Proof. intros Hm s Hs. unfold expect. specialize (Hm s Hs). by destruct (m s) as [s' []]. Qed.
Lemma expect_Ok {S E F A} (m : st S E A) s s' a : expect (F:=F) m s = (s', Ok a) → m s = (s', Ok a).
Proof. unfold expect. destruct (m s) as [s1 []]; intros H; by simplify_eq. Qed.

Section startup.
Context {M F MapToError H W Tables Regions : Type} {heap_first_fit : FirstFit H} {mmio : Mmio W} {ram : Ram W}.
Variable frame_of : Z → option Z.
Variable virt_new : Z → option Z.
Variable FrameAllocationFailed : MapToError.
Variable present_writable present_writable_no_cache : F.
Variable map_to : Z → Z → F → st (M * BootInfoFrameAllocator) MapToError ().
Variable memory_init : Z → M.
Variable mem : Z → Z.
Variable from_rsdp : Z → Z → option Tables.
Variable PciConfigRegions_new : Tables → option Regions.
Variable physical_address : Regions → Z → Z → Z → Z → option Z.
Variable fuel : nat.
#[local] Existing Instance Snd_Mmio.
#[local] Existing Instance Snd_Ram.

Local Abbreviation HW := (Z * (DmaState * W))%type.
Local Abbreviation Sys := (System (M:=M) (H:=H) (W:=W)).
Local Abbreviation start_memory' := (start_memory (H:=H) (W:=W) frame_of virt_new FrameAllocationFailed present_writable map_to memory_init mem).
Local Abbreviation start_pci' := (start_pci (M:=M) (H:=H) (W:=W) from_rsdp PciConfigRegions_new physical_address).
Local Abbreviation kernel_init' := (kernel_init (H:=H) (W:=W) frame_of virt_new FrameAllocationFailed present_writable map_to memory_init mem
  from_rsdp PciConfigRegions_new physical_address).

(** What is left of the memory's start once the bus is enumerated. *)
Definition kept (d : DmaState) (m : option M) (g : FixedSize.FixedSizeBlockAllocator H) (o : option Z) (s : Sys) : Prop :=
  (hw (sys_ecam s)).2.1 = d ∧ sys_mapper s = m ∧ sys_heap s = g ∧ sys_driver_offset s = o.

Lemma keeps_on_devices {E A} d m g o (c : st (DeviceRegistry PciBusDevice * Ecam HW) E A) :
  preserves (λ s, (hw s.2).2.1 = d) c → preserves (kept d m g o) (on_devices c).
Proof.
  intros Hc s (Hd&Hm&Hg&Ho). unfold on_devices, zoom. specialize (Hc (sys_devices s, sys_ecam s) Hd).
  destruct (c _) as [t r]. by split_and!.
Qed.

Lemma start_pci_keeps {E} boot off d m g o : preserves (E:=E) (kept d m g o) (start_pci' boot off).
Proof.
  unfold start_pci. apply preserves_bind; [by apply keeps_expect, preserves_quiet|]. intros a.
  apply preserves_bind; [by apply keeps_on_devices; intros s Hs|]. intros [].
  apply keeps_expect, keeps_on_devices.
  apply (keeps_enumerate (λ w : HW, w.2.1 = d)); intros; cbn; [|done].
  by destruct (read_volatile _ _ _).
Qed.

Section memory.
Hypothesis frame_of_spec : ∀ a, 0 ≤ a < 2 ^ 52 → frame_of a = Some (a / 4096 * 4096).
Variable translate : M → Z → option (Z * F).
Hypothesis map_to_spec : ∀ page frame m fa m' fa', is_u64 (fa_next fa) →
  map_to page frame present_writable (m, fa) = ((m', fa'), Ok ()) →
  translate m' page = Some (frame, present_writable) ∧
  (∀ q, q ≠ page → translate m' q = translate m q) ∧
  memory_map fa' = memory_map fa ∧ fa_next fa ≤ fa_next fa' < 2 ^ 64.

(** C16: when [kernel_init] returns on a page-aligned memory map, the whole heap is
    mapped, each page to a usable frame of its own, the global allocator has
    been started over it, the DMA allocator holds the rest of the frames, and
    every page it gives to a driver from then on is usable memory that no
    address of the heap is mapped to. *)
Theorem kernel_init_memory {E} map boot (s s' : Sys) :
  map_ok map → len (usable_addrs map) < 2 ^ 62 →
  memory_map (init_from_raw mem (bi_memory_map boot) (memory_map_len boot)) = map →
  kernel_init' boot s = (s', Ok (E:=E) ()) →
  ∃ m n off (frame : Z → Z), sys_mapper s' = Some m ∧ virt_new (physical_memory_offset boot) = Some off ∧
    sys_driver_offset s' = Some (default off (sys_driver_offset s)) ∧
    FixedSize.fs_init HEAP_START HEAP_SIZE (sys_heap s) = (sys_heap s', Ok ()) ∧
    taken map n (hw (sys_ecam s')).2.1 ∧
    (∀ a, HEAP_START ≤ a < HEAP_START + HEAP_SIZE →
      translate m (a / 4096) = Some (frame (a / 4096), present_writable) ∧ usable_page map (frame (a / 4096)) ∧
      ∀ b, HEAP_START ≤ b < HEAP_START + HEAP_SIZE → frame (a / 4096) = frame (b / 4096) → a / 4096 = b / 4096) ∧
    ∀ self k (t t' : DmaState * W) b, n ≤ k < 2 ^ 63 → taken map k t.1 →
      alloc (DmaAllocator := Kernel_Dma frame_of self) (E:=E) 4096 4096 t = (t', Ok (Some b)) →
      usable_page map (db_phys b) ∧ taken map (k + 1) t'.1 ∧
      ∀ a, HEAP_START ≤ a < HEAP_START + HEAP_SIZE → frame (a / 4096) ≠ db_phys b.
Proof using frame_of_spec map_to_spec.
  intros Hok Hlen Hmap Hrun. unfold kernel_init in Hrun.
  apply st_bind_Ok_inv in Hrun as (s1&[[off m] fa]&Hm&Hrun). cbv beta iota in Hrun.
  unfold start_memory in Hm. destruct (virt_new _) as [off'|] eqn:Hv; [|discriminate Hm].
  destruct (expect _ _) as [[mf g] [[]| | |]] eqn:Hi; try discriminate Hm.
  injection Hm as <- -> <- <-. apply expect_Ok in Hi. destruct mf as [m fa]. cbn [fst snd] in *.
  destruct (init_heap_pages frame_of FrameAllocationFailed present_writable map_to frame_of_spec translate map_to_spec
    map _ _ _ _ _ _ Hok ltac:(lia) Hmap ltac:(by split) Hi) as ([frame Hf]&_&Hmap'&Hn&Hfs).
  apply st_bind_Ok_inv in Hrun as (s2&[]&Hd&Hrun). injection Hd as <-.
  match type of Hrun with _ ?s2 = _ => pose proof (start_pci_keeps (E:=E) boot off
    (hw (sys_ecam s2)).2.1 (sys_mapper s2) (sys_heap s2) (sys_driver_offset s2) s2 ltac:(done)) as Hk end.
  rewrite Hrun in Hk. destruct Hk as (Hkd&Hkm&Hkg&Hko). cbn in Hkd, Hkm, Hkg, Hko.
  assert (HT : taken map (fa_next fa) (hw (sys_ecam s')).2.1).
  { unfold taken. rewrite Hkd. destruct (hw (sys_ecam s)) as [? [? ?]]. cbn. by destruct fa; cbn in *; subst. }
  assert (Hn0 : 0 ≤ fa_next fa) by (cbn in Hn; lia).
  exists m, (fa_next fa), off, frame. split_and!; try done; try congruence.
  - intros a Ha. destruct (Hf a Ha) as (Ht&Hu&_&Hinj). split_and!; [done|by apply usable_addrs_page|done].
  - intros self k t t' b Hk HTt Ha.
    destruct (alloc_one frame_of self frame_of_spec map k t t' b Hok ltac:(lia) HTt Ha) as [Hb HT'].
    destruct (nth_page_frame self map k b Hok Hb) as (_&_&_&Hu). split_and!; [done..|]. intros a Hin He.
    destruct (Hf a Hin) as (_&_&Haway&_). apply Haway. rewrite He. destruct Hb as [Hb _].
    apply list_elem_of_lookup. exists (Z.to_nat k - Z.to_nat (fa_next fa))%nat. rewrite lookup_drop.
    by replace (_ + _)%nat with (Z.to_nat k) by lia.
Qed.
End memory.

(** [installer::init] past the kernel's part. *)
Definition start_drivers {E} (boot : BootInfo) : st Sys E () :=
  off ← lift (unwrap (virt_new (physical_memory_offset boot)));
  s ← get_st;
  let dma := HW_Dma frame_of {| phys_mem_offset := off |} in
  on_drivers (register_driver (VirtioBlkDriver (dma := dma) (sys_driver_offset s)));;
  on_drivers (register_driver (AhciDriver (dma := dma) (sys_driver_offset s)));;
  on_drivers (bind_all (driver_state := BlockDriverState_DriverState) (sys_devices s));;
  on_drivers (for_each_block (driver_state := BlockDriverState_DriverState) (installer_visit fuel)).

Lemma start_memory_run {E} boot (s : Sys) off m fa g :
  virt_new (physical_memory_offset boot) = Some off →
  init_heap frame_of FrameAllocationFailed present_writable map_to
    ((memory_init off, init_from_raw mem (bi_memory_map boot) (memory_map_len boot)), sys_heap s) = (((m, fa), g), Ok ()) →
  start_memory' boot s = (set_memory m g s, Ok (E:=E) (off, m, fa)).
Proof. intros Hv Hi. unfold start_memory. rewrite Hv. unfold expect. by rewrite Hi. Qed.
Lemma kernel_init_run {E} boot (s : Sys) off m fa g :
  virt_new (physical_memory_offset boot) = Some off →
  init_heap frame_of FrameAllocationFailed present_writable map_to
    ((memory_init off, init_from_raw mem (bi_memory_map boot) (memory_map_len boot)), sys_heap s) = (((m, fa), g), Ok ()) →
  kernel_init' boot s = (start_pci' boot off : st Sys E ()) (start_dma (E:=E) fa off (set_memory m g s)).1.
Proof.
  intros Hv Hi. unfold kernel_init. by rewrite (st_bind_Ok _ _ _ _ _ (start_memory_run boot s off m fa g Hv Hi)).
Qed.
Lemma start_memory_result {E} boot (s s1 : Sys) off m fa :
  start_memory' boot s = (s1, Ok (E:=E) (off, m, fa)) →
  virt_new (physical_memory_offset boot) = Some off ∧ sys_mapper s1 = Some m ∧ sys_devices s1 = sys_devices s.
Proof.
  unfold start_memory. destruct (virt_new _) as [off'|]; [|discriminate].
  destruct (expect _ _) as [[mf g] [[]| | |]]; try discriminate. intros [= <- <- <- <-]. done.
Qed.

(** The installer's start is the kernel's followed by registering and binding
    the drivers and visiting the disks. The loop that is to map the registers of
    AHCI controllers in between looks through a registry that enumeration has not
    filled yet: on an empty registry it maps nothing. *)
Theorem installer_maps_no_bar {E} boot (s : Sys) :
  devices (sys_devices s) = ∅ →
  installer_init frame_of virt_new FrameAllocationFailed present_writable present_writable_no_cache map_to memory_init mem
    from_rsdp PciConfigRegions_new physical_address fuel boot s =
  (kernel_init' boot;; start_drivers (E:=E) boot) s.
Proof.
  intros Hd. unfold installer_init, kernel_init. rewrite (st_bind_unfold (start_memory' boot)), (st_bind_unfold (_ ≫= _)).
  rewrite (st_bind_unfold (start_memory' boot)).
  destruct (start_memory' boot s) as [s1 [[[off m] fa]| | |]] eqn:Hm; [|done..].
  destruct (start_memory_result boot s s1 off m fa Hm) as (Hv&Hs1&Hdev).
  rewrite (st_bind_Ok get_st _ s1 s1 s1 eq_refl). unfold by_type, bt_iter. rewrite Hdev, Hd.
  rewrite map_to_list_empty. change (merge_sort _ []) with (@nil (Z * Entry PciBusDevice)).
  cbn [fmap list_fmap filter list_filter]. unfold map_ahci_bars at 1. cbn [for_].
  cbn [mret st_ret]. cbv beta iota.
  assert (Hsame : set_memory m (sys_heap s1) s1 = s1) by (unfold set_memory; rewrite <- Hs1; by destruct s1).
  rewrite (st_bind_unfold (modify _)). cbn [modify]. rewrite Hsame, bind_lift_Ok, (st_bind_unfold (start_dma fa off)).
  rewrite (st_bind_unfold (start_dma fa off)).
  destruct (start_dma fa off s1) as [s2 [[]| | |]]; [|done..].
  rewrite (st_bind_unfold (start_pci' boot off)). destruct (start_pci' boot off s2) as [s3 [[]| | |]]; [|done..].
  unfold start_drivers. by rewrite Hv.
Qed.
End startup.

(** ** The installer's first line *)

Lemma hex_nibbles n z : 0 ≤ z → hex n z = (λ i, hex_digit (Z.land (Z.shiftr z (i * 4)) 0xF)) <$> reverse (seqZ 0 (Z.of_nat n)).
Proof.
  revert z. induction n as [|n IH]; intros z Hz; [done|]. cbn [hex]. rewrite IH by by apply Z.div_pos.
  rewrite (seqZ_cons 0 (Z.of_nat (S n))) by lia. rewrite reverse_cons, fmap_app. f_equal.
  - replace (Z.succ 0) with (0 + 1) by lia. replace (Z.pred (Z.of_nat (S n))) with (Z.of_nat n) by lia.
    rewrite <- (fmap_add_seqZ 1 0), <- fmap_reverse, <- list_fmap_compose. apply list_fmap_ext. intros k i Hi. cbn.
    apply list_elem_of_lookup_2 in Hi. rewrite elem_of_reverse, elem_of_seqZ in Hi.
    do 2 f_equal. replace ((1 + i) * 4) with (4 + i * 4) by lia. rewrite <- Z.shiftr_shiftr by lia. f_equal. by rewrite Z.shiftr_div_pow2.
  - cbn. change 15 with (Z.ones 4). by rewrite Z.shiftr_0_r, Z.land_ones.
Qed.

(** The first line on the serial port is [ptr=] and the address in sixteen
    hexadecimal digits. *)
Theorem start_banner_hex ptr : 0 ≤ ptr →
  start_banner ptr = lit "ptr=" ++ hex 16 ptr ++ [10] ++ lit "[kernel] Starting up " ++ [10].
Proof.
  intros Hp. unfold start_banner. rewrite (hex_nibbles 16) by done. do 2 f_equal. apply list_fmap_ext. intros k i _.
  unfold hex_digit. cbv zeta. by destruct (_ <? _); [|lia].
Qed.
Lemma start_banner_hex_witness : start_banner 0xFFFF8000001BEEF0 = lit "ptr=ffff8000001beef0" ++ [10] ++ lit "[kernel] Starting up " ++ [10].
Proof. rewrite (start_banner_hex 0xFFFF8000001BEEF0 ltac:(lia)). reflexivity. Defined.

(** ** The whole start *)

Section machine.
Context {M F MapToError H W Tables Regions : Type} {heap_first_fit : FirstFit H} {mmio : Mmio W} {ram : Ram W}.
Context {G P : Type} {table : DescriptorTable G} {table_spec : DescriptorTableSpec G}.
Context {layout : IdtLayout} {layout_spec : IdtLayoutSpec} {pics : ChainedPics P} {pics_spec : ChainedPicsSpec P}.
Context {heapless : Heapless} {heapless_spec : HeaplessSpec}.
Variable frame_of : Z → option Z.
Variable virt_new : Z → option Z.
Variable FrameAllocationFailed : MapToError.
Variable present_writable : F.
Variable map_to : Z → Z → F → st (M * BootInfoFrameAllocator) MapToError ().
Variable memory_init : Z → M.
Variable mem : Z → Z.
Variable from_rsdp : Z → Z → option Tables.
Variable PciConfigRegions_new : Tables → option Regions.
Variable physical_address : Regions → Z → Z → Z → Z → option Z.
Variable STACK : Z.
Variable slice_at : Z → Z → list Z.
#[local] Existing Instance Snd_Mmio.
#[local] Existing Instance Snd_Ram.

Local Abbreviation HW := (Z * (DmaState * W))%type.
Local Abbreviation Sys := (System (M:=M) (H:=H) (W:=W)).
Local Abbreviation Machine' := (Machine (M:=M) (H:=H) (W:=W) (G:=G) (P:=P)).
Local Abbreviation start_memory' := (start_memory (H:=H) (W:=W) frame_of virt_new FrameAllocationFailed present_writable map_to memory_init mem).
Local Abbreviation start_pci' := (start_pci (M:=M) (H:=H) (W:=W) from_rsdp PciConfigRegions_new physical_address).
Local Abbreviation kernel_init' := (kernel_init (H:=H) (W:=W) frame_of virt_new FrameAllocationFailed present_writable map_to memory_init mem
  from_rsdp PciConfigRegions_new physical_address).
Local Abbreviation init' := (init (H:=H) (W:=W) (G:=G) (P:=P) frame_of virt_new FrameAllocationFailed present_writable map_to memory_init mem
  from_rsdp PciConfigRegions_new physical_address STACK slice_at).

(** A serial line, as it leaves the port. *)
Definition line (args : list rstring) : rstring := lit "[kernel] " ++ mjoin (args ++ [[10]]).
Definition said (args : list rstring) (m : Machine') : Machine' := {|
  m_cpu := m_cpu m;
  m_console := set_serial (SERIAL1 (m_console m) ++ line args) (set_if (interrupts_on (m_cpu m)) (m_console m));
  m_sys := m_sys m |}.

Lemma say_run {E} args (m : Machine') :
  serial_locked (m_console m) = false → str_len (mjoin (args ++ [[10]])) ≤ 247 → say (E:=E) args m = (said args m, Ok ()).
Proof using heapless_spec.
  intros Hl Hlen. unfold say, on_console, zoom.
  rewrite print_serial_run by done. rewrite (proj2 (Z.leb_le _ _)) by done. unfold said. by destruct (m_cpu m).
Qed.
Lemma say_then {E B} args (k : () → st Machine' E B) m :
  serial_locked (m_console m) = false → str_len (mjoin (args ++ [[10]])) ≤ 247 →
  (say args ≫= k) m = k () (said args m).
Proof using heapless_spec. intros Hl Hlen. by apply st_bind_Ok, say_run. Qed.
Lemma on_processor_then {E B} (step : st (Cpu G P) E ()) (k : () → st Machine' E B) m c :
  step (m_cpu m) = (c, Ok ()) →
  (on_processor step ≫= k) m = k () {| m_cpu := c; m_console := m_console m; m_sys := m_sys m |}.
Proof. intros Hs. apply st_bind_Ok. unfold on_processor, zoom. by rewrite Hs. Qed.
Lemma on_system_run {E A} (step : st Sys E A) m :
  on_system step m =
  ({| m_cpu := m_cpu m; m_console := m_console m; m_sys := (step (m_sys m)).1 |} : Machine', (step (m_sys m)).2).
Proof. unfold on_system, zoom. by destruct (step (m_sys m)). Qed.

(** What [init] does once interrupts are on. *)
Definition init_rest {E} (boot : BootInfo) : st Machine' E () :=
  '(phys_mem_offset, _, frame_allocator) ← on_system (start_memory' boot);
  on_system (start_dma frame_allocator phys_mem_offset);;
  say [lit "6. Driver subsystem initialized"];;
  acpi ← on_system (expect (lift (init_from_rsdp from_rsdp PciConfigRegions_new physical_address (rsdp_addr boot) phys_mem_offset)));
  on_system (on_devices (on_snd (init_ecam (ecam_base acpi) (acpi_phys_offset acpi))));;
  say [lit "7. ACPI initialized"];;
  on_system (expect (on_devices PciBus_enumerate));;
  m ← get_st;
  say [lit "8. PCI enumerated: "; dec (registry_len (sys_devices (m_sys m))); lit " Devices"].

Lemma dec_digits_len n z : 0 ≤ z → str_len (dec_digits n z) ≤ Z.of_nat n.
Proof.
  revert z. induction n as [|n IH]; intros z Hz; cbn [dec_digits]; [done|]. rewrite str_len_app.
  assert (Hd : str_len [48 + z mod 10] = 1).
  { pose proof (Z.mod_pos_bound z 10 ltac:(lia)). cbn [str_len foldr]. unfold utf8_len. rewrite (proj2 (Z.ltb_lt _ _)) by lia. lia. }
  assert (Hr : str_len (if z <? 10 then [] else dec_digits n (z / 10)) ≤ Z.of_nat n).
  { destruct (z <? 10); [cbn; lia|]. apply IH. by apply Z.div_pos. }
  lia.
Qed.

(** [final_line s]: the last message, with the number of devices. *)
Definition final_line (s : Sys) : list rstring :=
  [lit "8. PCI enumerated: "; dec (registry_len (sys_devices s)); lit " Devices"].
Lemma final_line_len s : str_len (mjoin (final_line s ++ [[10]])) ≤ 247.
Proof.
  pose proof (dec_digits_len 20 (registry_len (sys_devices s)) ltac:(unfold registry_len; lia)) as Hd. fold (dec (registry_len (sys_devices s))) in Hd.
  unfold final_line. cbn [app].
  change (mjoin [?a; ?b; ?c; ?d]) with (a ++ b ++ c ++ d ++ []). rewrite !str_len_app.
  change (str_len (lit "8. PCI enumerated: ")) with 19. change (str_len (lit " Devices")) with 8. change (str_len [10]) with 1. change (str_len []) with 0. lia.
Qed.

Lemma start_pci_unfold {E} boot off (s : Sys) :
  start_pci' boot off s = ((
   acpi ← expect (lift (init_from_rsdp from_rsdp PciConfigRegions_new physical_address (rsdp_addr boot) off));
   on_devices (on_snd (init_ecam (ecam_base acpi) (acpi_phys_offset acpi)));;
   expect (on_devices PciBus_enumerate)) s : Sys * outcome E ()).
Proof. done. Qed.

Lemma init_rest_run {E} boot (m : Machine') :
  serial_locked (m_console m) = false →
  let '(s, r) := kernel_init' boot (m_sys m) in
  ∃ m', init_rest (E:=E) boot m = (m', r) ∧ m_sys m' = s ∧ m_cpu m' = m_cpu m ∧
    SCREEN_WRITER (m_console m') = SCREEN_WRITER (m_console m) ∧
    (r = Ok () → SERIAL1 (m_console m') = SERIAL1 (m_console m) ++
      line [lit "6. Driver subsystem initialized"] ++ line [lit "7. ACPI initialized"] ++ line (final_line s)).
Proof using heapless_spec.
  intros Hl. destruct (kernel_init' boot (m_sys m)) as [s r] eqn:Hk. unfold kernel_init in Hk. unfold init_rest.
  rewrite st_bind_unfold, on_system_run. rewrite st_bind_unfold in Hk.
  destruct (start_memory' boot (m_sys m)) as [s1 [[[off mp] fa]| | |]]; cbn [fst snd] in *; try (injection Hk as <- <-; by eexists).
  rewrite (st_bind_unfold (on_system _)), on_system_run. rewrite (st_bind_unfold (start_dma _ _)) in Hk. cbn [m_sys] in *.
  change (start_dma fa off s1) with ((start_dma (E:=E) fa off s1).1, Ok (E:=E) ()) in *. cbn [fst snd] in *. cbv iota in Hk |- *.
  generalize dependent (start_dma (E:=E) fa off s1).1. intros s2 Hk.
  rewrite say_then by done. rewrite start_pci_unfold in Hk. rewrite (st_bind_unfold (on_system _)), on_system_run.
  rewrite st_bind_unfold in Hk. cbn [m_sys said m_cpu m_console] in *.
  destruct (expect _ s2) as [s3 [acpi| | |]]; cbn [fst snd] in *; try (injection Hk as <- <-; by eexists).
  rewrite (st_bind_unfold (on_system _)), on_system_run. rewrite st_bind_unfold in Hk. cbn [m_sys] in *.
  destruct (on_devices (on_snd (init_ecam (ecam_base acpi) (acpi_phys_offset acpi))) s3) as [s4 [[]| | |]]; cbn [fst snd] in *; try (injection Hk as <- <-; by eexists).
  rewrite say_then by done. rewrite (st_bind_unfold (on_system _)), on_system_run. cbn [m_sys said m_cpu m_console] in *.
  rewrite Hk. cbn [fst snd]. destruct r as [[]| | |]; [|by eexists..].
  rewrite bind_get_st. cbn [m_sys]. fold (final_line s).
  rewrite say_run; [|done|apply final_line_len]. eexists. split; [reflexivity|]. split_and!; [done|done|done|]. intros _.
  cbn. by rewrite <- !app_assoc.
Qed.

Hypothesis virt_new_low : ∀ a, 0 ≤ a < 2 ^ 47 → virt_new a = Some a.
Hypothesis STACK_range : 0 ≤ STACK ∧ STACK + STACK_SIZE < 2 ^ 47.
Hypothesis STACK_aligned : STACK mod 16 = 0.

(** C14: [init] with its screen, its tables, its interrupts and its messages does to
    memory, devices and drivers what [kernel_init] does, and ends the same way.
    Before that the screen is up and black, the processor's tables are in place and
    interrupts can come; when it returns, the serial port has shown its eight lines,
    the last with the number of devices. *)
Theorem init_is_kernel_init {E} boot n (m : Machine') :
  let fb := bi_framebuffer boot in
  mode_ok fb n → len (slice_at (fbi_addr fb) (fbi_size fb)) = n →
  pics_locked (m_cpu m) = false → interrupts_on (m_cpu m) = false →
  screen_locked (m_console m) = false → serial_locked (m_console m) = false →
  let '(s, r) := kernel_init' boot (m_sys m) in
  ∃ m' w, init' boot m = (m', r) ∧ m_sys m' = s ∧ segments_ok STACK (m_cpu m') ∧ ready (m_cpu m') ∧
    SCREEN_WRITER (m_console m') = Some w ∧ screen_ok fb n w ∧ cursor_ok w ∧
    (∀ x y, 0 ≤ x < width fb → 0 ≤ y < height fb → black fb w x y) ∧
    (r = Ok (E:=E) () → SERIAL1 (m_console m') = SERIAL1 (m_console m) ++
      mjoin (line <$> [[lit "1. Screen initialized"]; [lit "2. GDT initialized"]; [lit "3. IDT initialized"];
                       [lit "4. PICS initialized"]; [lit "5. Interrupts enabled"]; [lit "6. Driver subsystem initialized"];
                       [lit "7. ACPI initialized"]; final_line s])).
Proof using All.
  cbv zeta. intros Hmode Hlen Hpl Hoff Hscr Hser.
  destruct (start_states virt_new STACK virt_new_low STACK_range STACK_aligned (E:=E) (m_cpu m) Hpl Hoff)
    as (c1&c2&c3&c4&H1&H2&H3&H4&_&Hseg&Hready).
  destruct (Writer_init_ok (E:=E) _ n _ Hmode Hlen) as (w&Hw&Hs&Hc&Hb).
  unfold init. erewrite st_bind_Ok; cycle 1.
  { unfold on_console, zoom, screen_init. rewrite Hw, bind_lift_Ok, bind_get_st. cbn [screen_locked set_if]. rewrite Hscr. reflexivity. }
  rewrite say_then by done.
  erewrite on_processor_then; cycle 1. { cbn. destruct (m_cpu m). cbn in *. subst. exact H1. }
  rewrite say_then by done. erewrite on_processor_then by exact H2.
  rewrite say_then by done. erewrite on_processor_then by exact H3. erewrite on_processor_then by exact H4.
  rewrite say_then by done. erewrite on_processor_then by reflexivity.
  rewrite say_then by done. fold (init_rest (E:=E) boot).
  match goal with |- context[init_rest boot ?m1] => pose proof (init_rest_run (E:=E) boot m1 ltac:(done)) as Hrest end.
  cbn [m_sys said] in Hrest. destruct (kernel_init' boot (m_sys m)) as [s r].
  destruct Hrest as (m'&Hrun&Hsys&Hcpu&Hwr&Hserial). exists m', w. split; [exact Hrun|]. cbn [m_cpu said] in Hcpu.
  split_and!; [done|by rewrite Hcpu|by rewrite Hcpu|by rewrite Hwr|done|done..|].
  intros Hr. rewrite (Hserial Hr). cbn [m_console m_cpu m_sys said set_serial set_if set_screen SERIAL1 fmap list_fmap mjoin list_join].
  by rewrite app_nil_r, <- !app_assoc.
Qed.
End machine.

(** ** A machine without devices *)

Definition no_devices_mmio : Mmio () := {|
  read_volatile n a w := (w, 0xFFFFFFFF); write_volatile n a v w := w |}.
Definition no_ram : Ram () := {| load a n w := (w, zeros n); store a b w := w; elapse w := w |}.

(** One entry of the firmware's memory map: the memory of [demo_memory]. *)
Definition demo_entry_bytes : list Z := to_le 8 0x100000 ++ to_le 8 0x3F00000 ++ to_le 4 1.
Definition demo_physical (a : Z) : Z := default 0 (demo_entry_bytes !! Z.to_nat a).
Definition demo_boot : BootInfo :=
  {| physical_memory_offset := 0; bi_memory_map := 0; memory_map_len := 1; bi_framebuffer := demo_mode; rsdp_addr := 0;
     fat32_partition_lba := 0; boot_disk := 0 |}.

Local Abbreviation DemoHW := (Z * (DmaState * ()))%type.
Definition demo_system : System (M:=demo_tables) (H:=LinkedList.LinkedListAllocator) (W:=()) := {|
  sys_mapper := None; sys_heap := FixedSize.fs_new; sys_devices := DeviceRegistry_new 1;
  sys_drivers := DriverRegistry_new; sys_driver_offset := None;
  sys_ecam := {| ECAM_PHYS_BASE := 0; PHYS_OFFSET := 0;
                 hw := (0, ({| FRAME_ALLOC := None; ALLOC_TRACKER := ∅ |}, ())) |} |}.

#[local] Existing Instances no_devices_mmio no_ram Snd_Mmio Snd_Ram.

Lemma absent_read {E} b d f o (e : Ecam DemoHW) : read32 (E:=E) b d f o e = (e, Ok 0xFFFFFFFF).
Proof. by destruct e as [? ? [? [? ?]]]. Qed.
Lemma quiet_for {S E A} (xs : list A) (body : A → st S E ()) s : (∀ x, body x s = (s, Ok ())) → for_ xs body s = (s, Ok ()).
Proof. intros Hb. induction xs as [|x xs IH]; cbn [for_]; [done|]. by rewrite (st_bind_Ok _ _ _ _ _ (Hb x)). Qed.
Lemma absent_enumerate (r : DeviceRegistry PciBusDevice) (e : Ecam DemoHW) :
  ECAM_PHYS_BASE e ≠ 0 → PciBus_enumerate (r, e) = ((r, e), Ok ()).
Proof.
  intros Hb. unfold PciBus_enumerate, enumerate. rewrite !(st_bind_Ok get_st _ _ _ _ eq_refl).
  assert (Hr : is_ready e = true) by (unfold is_ready; by rewrite (proj2 (Z.eqb_neq _ _))). cbn [snd]. rewrite Hr.
  cbn [negb]. rewrite (st_bind_Ok get_st _ _ _ _ eq_refl). cbn [snd]. rewrite Hr. cbn [assert_]. rewrite bind_lift_Ok.
  apply quiet_for. intros b. apply quiet_for. intros d. unfold walk_device.
  by rewrite (st_bind_Ok _ _ _ _ _ (on_snd_run _ r _ _ _ (absent_read b d 0 0 e))).
Qed.

Local Abbreviation demo_kernel_init :=
  (kernel_init (H:=LinkedList.LinkedListAllocator) (W:=()) demo_frame_of (λ a, Some a) () 3 demo_map_to (λ _, ∅) demo_physical
    (λ _ _, Some ()) (λ _, Some ()) (λ _ _ _ _ _, Some 0xE0000000) demo_boot).

Lemma demo_boot_memory : init_from_raw demo_physical 0 1 = {| memory_map := demo_memory; fa_next := 0 |}.
Proof. vm_compute. reflexivity. Qed.
Lemma demo_kernel_starts : ∃ s', demo_kernel_init demo_system = (s', Ok (E:=()) ()).
Proof.
  destruct demo_init_heap as ([m fa]&g&Hi).
  rewrite <- demo_boot_memory in Hi.
  pose proof (kernel_init_run (E:=()) demo_frame_of (λ a, Some a) () 3 demo_map_to (λ _, ∅) demo_physical
    (λ _ _, Some ()) (λ _, Some ()) (λ _ _ _ _ _, Some 0xE0000000) demo_boot demo_system 0 m fa g eq_refl Hi) as ->.
  generalize (start_dma (E:=()) fa 0 (set_memory m g demo_system)).1. intros s.
  eexists. unfold start_pci.
  do 2 (erewrite st_bind_Ok by reflexivity).
  unfold expect, on_devices, zoom. by rewrite absent_enumerate.
Qed.
Lemma kernel_init_memory_witness :
  ∃ s' (m : demo_tables) f, demo_kernel_init demo_system = (s', Ok (E:=()) ()) ∧ sys_mapper s' = Some m ∧
    m !! (0x2001000 / 4096) = Some (f, 3) ∧ usable_page demo_memory f ∧ sys_driver_offset s' = Some 0 ∧
    is_Some (FRAME_ALLOC (hw (sys_ecam s')).2.1).
Proof.
  destruct demo_kernel_starts as [s' Hs]. destruct demo_memory_ok as [Hok Hlen].
  destruct (kernel_init_memory (H:=LinkedList.LinkedListAllocator) demo_frame_of (λ a, Some a) () 3 demo_map_to (λ _, ∅) demo_physical
    (λ _ _, Some ()) (λ _, Some ()) (λ _ _ _ _ _, Some 0xE0000000) demo_frame_of_spec (λ m p, (m : demo_tables) !! p)
    demo_map_to_spec demo_memory demo_boot demo_system s' Hok ltac:(rewrite Hlen; lia)
    (f_equal memory_map demo_boot_memory) Hs) as (m&n&off&frame&Hm&Hv&Ho&_&HT&Hf&_).
  injection Hv as <-. destruct (Hf 0x2001000 ltac:(clear; by vm_compute)) as (Ht&Hu&_).
  exists s', m, (frame (0x2001000 / 4096)). split; [exact Hs|]. split; [exact Hm|]. split; [exact Ht|].
  split; [exact Hu|]. split; [exact Ho|]. eexists. exact HT.
Defined.
Lemma installer_maps_no_bar_witness :
  installer_init (E:=()) (H:=LinkedList.LinkedListAllocator) (W:=()) demo_frame_of (λ a, Some a) () 3 4 demo_map_to (λ _, ∅)
    demo_physical (λ _ _, Some ()) (λ _, Some ()) (λ _ _ _ _ _, Some 0xE0000000) 1 demo_boot demo_system =
  (demo_kernel_init;; start_drivers demo_frame_of (λ a, Some a) 1 demo_boot) demo_system.
Proof. refine (installer_maps_no_bar demo_frame_of (λ a, Some a) () 3 4 demo_map_to (λ _, ∅) demo_physical
  (λ _ _, Some ()) (λ _, Some ()) (λ _ _ _ _ _, Some 0xE0000000) 1 demo_boot demo_system _). reflexivity. Defined.

Definition demo_machine : Machine (M:=demo_tables) (H:=LinkedList.LinkedListAllocator) (W:=()) (G:=list (option Descriptor)) (P:=TwoPics) := {|
  m_cpu := demo_cpu;
  m_console := {| con_if := false; SCREEN_WRITER := None; screen_locked := false; INTERRUPT_LOG_BUFFER := []; log_locked := false;
                  SERIAL1 := []; serial_locked := false |};
  m_sys := demo_system |}.

Lemma init_is_kernel_init_witness :
  ∃ m', init (H:=LinkedList.LinkedListAllocator) (W:=()) demo_frame_of (λ a, Some a) () 3 demo_map_to (λ _, ∅) demo_physical
      (λ _ _, Some ()) (λ _, Some ()) (λ _ _ _ _ _, Some 0xE0000000) 0x200000 (λ _ _, replicate 1152 7) demo_boot demo_machine
      = (m', Ok (E:=()) ()) ∧
    ready (m_cpu m') ∧ lit "[kernel] 1. Screen initialized" `prefix_of` SERIAL1 (m_console m').
Proof.
  pose proof (init_is_kernel_init (H:=LinkedList.LinkedListAllocator) (W:=()) demo_frame_of (λ a, Some a) () 3 demo_map_to (λ _, ∅)
    demo_physical (λ _ _, Some ()) (λ _, Some ()) (λ _ _ _ _ _, Some 0xE0000000) 0x200000 (λ _ _, replicate 1152 7)
    (λ a _, eq_refl) ltac:(by vm_compute) eq_refl (E:=()) demo_boot 1152 demo_machine demo_mode_ok eq_refl eq_refl eq_refl eq_refl eq_refl) as Hinit.
  destruct demo_kernel_starts as [s' Hs].
  change (m_sys demo_machine) with demo_system in Hinit. rewrite Hs in Hinit. destruct Hinit as (m'&w&Hrun&_&_&Hready&_&_&_&_&Hserial).
  exists m'. split; [exact Hrun|]. split; [exact Hready|]. rewrite (Hserial eq_refl). eexists. reflexivity.
Defined.
