(* ===== verification/BuildTool.v ===== *)
(** * The build tool

    [xtask]: the cache of hashes, the search for source files, the stages of the
    boot loader, the image, formatting, and the commands. Messages are left out.

    The host is a parameter: [Host] has the operations of [std::fs] and
    [std::process] the tool uses, [HostSpec] what is documented of them. Further
    parameters: SHA-256 in hexadecimal ([sha256]), the JSON of the cache ([to_json],
    [from_json], with the UTF-8 of [read_to_string]), and the order [rayon] takes
    ([schedule]). File names are taken to be UTF-8. *)

From S2P Require Import Prelude Bytes Text.

(** ** The host *)

Record DirEntry := { entry_name : rstring; entry_is_dir : bool }.

Class Host (W : Type) := {
  fs_read : rstring → W → option (list Z);
  fs_len : rstring → W → option Z;
  fs_write : rstring → list Z → W → W * bool;
  fs_create_dir_all : rstring → W → W * bool;
  fs_copy : rstring → rstring → W → W * bool;
  fs_read_dir : rstring → W → option (list DirEntry);
  (** [None]: the program cannot be started; otherwise whether it succeeded *)
  command : list rstring → W → W * option bool;
}.

Definition CACHE_PATH : rstring := lit ".build/cache.json".
Definition BUILD_DIR : rstring := lit ".build".
Definition STAGE1_SRC : rstring := lit "bootloader/stage1".
Definition STAGE2_SRC : rstring := lit "bootloader/stage2".
Definition STAGE3_SRC : rstring := lit "bootloader/stage3/src".
Definition WORKSPACE_CRATES : list rstring :=
  [lit "installer"; lit "kernel"; lit "lib/driver"; lit "lib/macros"; lit "lib/hal"; lit "lib/boot"; lit "lib/device";
   lit "lib/vfs"; lit "lib/sync"; lit "lib/bus"].

Record BuildCache := { files : gmap rstring rstring }.
Definition BuildCache_default : BuildCache := {| files := ∅ |}.

Section xtask.
Context {W : Type} {host : Host W}.
Variable sha256 : list Z → rstring.
Variable to_json : BuildCache → list Z.
Variable from_json : list Z → option BuildCache.
Variable schedule : list rstring → list rstring.

(** ** [cache.rs], [hash.rs] *)

Definition load (w : W) : BuildCache := default BuildCache_default (fs_read CACHE_PATH w ≫= from_json).
Definition save {E} (cache : BuildCache) : st W E () := λ w,
  let w := (fs_create_dir_all (lit ".build") w).1 in
  let '(w, ok) := fs_write CACHE_PATH (to_json cache) w in (w, if ok : bool then Ok () else Panic).
Definition is_dirty (file hash : rstring) (cache : BuildCache) : bool :=
  match files cache !! file with Some old => negb (bool_decide (old = hash)) | None => true end.
Definition update (file hash : rstring) (cache : BuildCache) : BuildCache := {| files := <[file := hash]> (files cache) |}.

Definition hash_file {E} (path : rstring) : st W E rstring :=
  w ← get_st; data ← lift (unwrap (fs_read path w)); mret (sha256 data).

(** ** [discover.rs] *)

(** The last [c] of [s]: what is before and after it. *)
Fixpoint rsplit_at (c : Z) (s : rstring) : option (rstring * rstring) :=
  match s with
  | [] => None
  | x :: s =>
      match rsplit_at c s with
      | Some (before, after) => Some (x :: before, after)
      | None => if x =? c then Some ([], s) else None
      end
  end.
(** [Path::extension] *)
Definition extension (name : rstring) : option rstring :=
  if bool_decide (name = lit "..") then None else
  match rsplit_at 46 name with
  | Some (before, after) => if is_empty before then None else Some after
  | None => None
  end.

Definition skipped (name : rstring) : bool :=
  starts_with name (lit ".") || bool_decide (name = lit "target") || bool_decide (name = lit ".build").

(** [for entry in entries]: what each one adds to the list. *)
Fixpoint for_entries {E} (visit : DirEntry → outcome E (list rstring)) (entries : list DirEntry) : outcome E (list rstring) :=
  match entries with
  | [] => mret []
  | e :: entries => out ← visit e; rest ← for_entries visit entries; mret (out ++ rest)
  end.
(** The directories below [dir] nest at most [fuel] deep. *)
Fixpoint collect_recursive {E} (fuel : nat) (dir ext : rstring) (w : W) : outcome E (list rstring) :=
  match fuel with
  | O => Diverge
  | S fuel =>
      match fs_read_dir dir w with
      | None => mret []
      | Some entries => for_entries (λ e,
          let path := dir ++ lit "/" ++ entry_name e in
          if entry_is_dir e then
            if skipped (entry_name e) then mret [] else collect_recursive fuel path ext w
          else if bool_decide (extension (entry_name e) = Some ext) then mret [path] else mret []) entries
      end
  end.

Definition find_files {E} (fuel : nat) (dir ext : rstring) : st W E (list rstring) :=
  w ← get_st; found ← lift (collect_recursive fuel dir ext w); mret (merge_sort str_le found).
Definition find_c_files {E} (fuel : nat) (dir : rstring) : st W E (list rstring) := find_files fuel dir (lit "c").
Definition find_asm_files {E} (fuel : nat) (dir : rstring) : st W E (list rstring) := find_files fuel dir (lit "asm").
Definition find_rust_files {E} (fuel : nat) (dir : rstring) : st W E (list rstring) :=
  find_files fuel (dir ++ lit "/src") (lit "rs").

(** ** Commands *)

(** [Command::output] or [Command::status], unwrapped. *)
Definition start_command {E} (args : list rstring) : st W E bool := λ w,
  let '(w, status) := command args w in (w, unwrap status).
(** [run] of [main.rs] *)
Definition run {E} (args : list rstring) : st W E () :=
  success ← start_command args; lift (assert_ success).
Definition bash_ {E} (script : rstring) : st W E () := run [lit "bash"; lit "-c"; script].

Definition create_dir_all {E} (path : rstring) : st W E () := λ w,
  let '(w, ok) := fs_create_dir_all path w in (w, if ok : bool then Ok () else Panic).
Definition copy {E} (from to : rstring) : st W E () := λ w,
  let '(w, ok) := fs_copy from to w in (w, if ok : bool then Ok () else Panic).

(** ** [build/] *)

Local Abbreviation building := (W * BuildCache)%type.
Definition on_host {E A} (m : st W E A) : st building E A := λ s, let '(w, r) := m s.1 in ((w, s.2), r).
Definition update_cache {E} (key hash : rstring) : st building E () := modify (λ s, (s.1, update key hash s.2)).

Definition build_flat {E} (key src out : rstring) : st building E () :=
  hash ← on_host (hash_file src);
  s ← get_st;
  if is_dirty key hash s.2 then
    on_host (run [lit "nasm"; lit "-f"; lit "bin"; src; lit "-o"; out]);;
    update_cache key hash
  else mret ().
Definition stage1_build {E} : st building E () :=
  build_flat (lit "stage1_build") (STAGE1_SRC ++ lit "/main.asm") (BUILD_DIR ++ lit "/stage1.bin").
Definition stage2_build {E} : st building E () :=
  build_flat (lit "stage2_main.asm") (STAGE2_SRC ++ lit "/main.asm") (BUILD_DIR ++ lit "/stage2.bin").

Definition OUT : rstring := lit ".build/stage3".
Definition object_of (src : rstring) : rstring :=
  OUT ++ lit "/" ++ ((λ c, if c =? 47 then 95 else c) <$> src) ++ lit ".o".

Fixpoint hash_all {E} (srcs : list rstring) : st W E rstring :=
  match srcs with
  | [] => mret []
  | f :: srcs => h ← hash_file f; rest ← hash_all srcs; mret (h ++ rest)
  end.

(** [str::ends_with] *)
Definition ends_with (s suffix : rstring) : bool := bool_decide (drop (length s - length suffix) s = suffix).

Definition stage3_compile {E} (c_files asm_files : list rstring) : st W E () :=
  create_dir_all OUT;;
  for_ c_files (λ src, run [lit "x86_64-elf-gcc"; lit "-ffreestanding"; lit "-nostdlib"; lit "-m64"; lit "-O2"; lit "-c"; src;
                            lit "-o"; object_of src]);;
  for_ asm_files (λ src, run [lit "nasm"; lit "-f"; lit "elf64"; src; lit "-o"; object_of src]);;
  w ← get_st;
  entries ← lift (unwrap (fs_read_dir OUT w));
  let objs := filter (λ p, ends_with p (lit ".o")) ((λ e, OUT ++ lit "/" ++ entry_name e) <$> entries) in
  run ([lit "x86_64-elf-ld"] ++ objs ++ [lit "-T"; lit "bootloader/stage3/linker.ld"; lit "-nostdlib"; lit "--build-id=none";
        lit "-o"; BUILD_DIR ++ lit "/stage3.elf"]);;
  run [lit "x86_64-elf-objcopy"; lit "-O"; lit "binary"; BUILD_DIR ++ lit "/stage3.elf"; BUILD_DIR ++ lit "/stage3.bin"].

Definition stage3_build {E} (fuel : nat) : st building E () :=
  c_files ← on_host (find_c_files fuel STAGE3_SRC);
  asm_files ← on_host (find_asm_files fuel STAGE3_SRC);
  combined_hash ← on_host (hash_all (c_files ++ asm_files));
  s ← get_st;
  if negb (is_dirty (lit "stage3_build") combined_hash s.2) then mret () else
  on_host (stage3_compile c_files asm_files);;
  update_cache (lit "stage3_build") combined_hash.

(** The cache is a local variable. *)
Definition with_cache {E} (m : st building E ()) : st W E () := λ w, let '(s, r) := m (w, load w) in (s.1, r).
Definition build_bootloader {E} (fuel : nat) : st W E () :=
  with_cache (stage1_build;; stage2_build;; stage3_build fuel).

Definition build_package {E} (package elf : rstring) : st W E () :=
  run [lit "cargo"; lit "build"; lit "--package"; package; lit "--release"; lit "--target"; lit "x86_64-unknown-none"];;
  create_dir_all (lit ".build");;
  copy (lit "target/x86_64-unknown-none/release/" ++ package) elf.
Definition build_installer {E} : st W E () := build_package (lit "installer") (lit ".build/installer.elf").
Definition build_kernel {E} : st W E () := build_package (lit "kernel") (lit ".build/kernel.elf").

(** ** [setup.rs], [run.rs] *)

Definition toolchain {E} : st W E () := bash_ (lit "tr -d '\r' < scripts/toolchain.sh | bash").

Definition stage3_sectors (size : Z) : Z := wrap 16 ((size +w 511) / 512).
(** Steps 3 and 4 of [image]: the number of sectors of stage 3, into stage 1. *)
Definition patch_stage1 {E} : st W E () := λ w,
  match fs_len (lit ".build/stage3.bin") w, fs_read (lit ".build/stage1.bin") w with
  | Some size, Some stage1 =>
      let n := stage3_sectors size in
      if len stage1 <=? 0x1A1 then (w, Panic) else
      let stage1 := <[0x1A0%nat := Z.land n 0xFF]> stage1 in
      let stage1 := <[0x1A1%nat := wrap 8 (Z.shiftr n 8)]> stage1 in
      let '(w, ok) := fs_write (lit ".build/stage1.bin") stage1 w in (w, if ok : bool then Ok () else Panic)
  | _, _ => (w, Panic)
  end.

Definition dd (file seek : rstring) : rstring :=
  lit "dd if=.build/" ++ file ++ lit " of=.build/boot.img bs=512 seek=" ++ seek ++ lit " conv=notrunc status=none".
Definition mcopy (file name : rstring) : rstring :=
  lit "mcopy -i .build/boot.img@@1048576 .build/" ++ file ++ lit " ::" ++ name.

Definition image {E} : st W E () :=
  bash_ (lit "dd if=/dev/zero of=.build/boot.img bs=1M count=64 status=none");;
  bash_ (lit "mkfs.fat -F 32 -n BOOTFS --offset 2048 .build/boot.img");;
  patch_stage1;;
  bash_ (dd (lit "stage1.bin") (lit "0"));;
  bash_ (dd (lit "stage2.bin") (lit "1"));;
  bash_ (dd (lit "stage3.bin") (lit "32"));;
  bash_ (mcopy (lit "kernel.elf") (lit "KERNEL.ELF"));;
  bash_ (mcopy (lit "installer.elf") (lit "INSTALL.ELF"));;
  bash_ (mcopy (lit "stage1.bin") (lit "STAGE1.BIN"));;
  bash_ (mcopy (lit "stage2.bin") (lit "STAGE2.BIN"));;
  bash_ (mcopy (lit "stage3.bin") (lit "STAGE3.BIN"));;
  bash_ (lit "dd if=/dev/zero of=.build/disk.img bs=1M count=512 status=none").

Definition clean {E} : st W E () := run [lit "rm"; lit "-rf"; lit ".build"].

Definition run_qemu {E} : st W E () :=
  run [lit "qemu-system-x86_64"; lit "-machine"; lit "q35"; lit "-m"; lit "4G"; lit "-serial"; lit "stdio"; lit "-serial";
       lit "file:.build/serial.log"; lit "-device"; lit "isa-debug-exit,iobase=0xf4,iosize=0x04"; lit "-d";
       lit "int,cpu_reset,guest_errors"; lit "-D"; lit "qemu.log"; lit "-drive";
       lit "id=boot,format=raw,if=none,file=.build/boot.img"; lit "-device"; lit "virtio-blk-pci,drive=boot"; lit "-drive";
       lit "id=disk,format=raw,if=none,file=.build/disk.img"; lit "-device"; lit "virtio-blk-pci,drive=disk";
       lit "-no-reboot"; lit "-no-shutdown"].
Definition debug {E} : st W E () :=
  run [lit "qemu-system-x86_64"; lit "-machine"; lit "q35"; lit "-m"; lit "4G"; lit "-serial"; lit "mon:stdio"; lit "-device";
       lit "isa-debug-exit,iobase=0xf4,iosize=0x04"; lit "-drive"; lit "file=.build/boot.img,format=raw,if=ide,index=0"; lit "-drive";
       lit "id=disk,format=raw,if=none,file=.build/disk.img"; lit "-device"; lit "virtio-blk-pci,drive=disk"; lit "-no-reboot";
       lit "-s"; lit "-S"].

(** ** [format.rs] *)

Definition format_key (key_prefix src : rstring) : rstring := key_prefix ++ lit ":" ++ src.

(** Phase 1: hash every file, keep those that changed. *)
Fixpoint dirty_files {E} (srcs : list rstring) (key_prefix : rstring) : st building E (list rstring) :=
  match srcs with
  | [] => mret []
  | src :: srcs =>
      hash ← on_host (hash_file src);
      s ← get_st;
      rest ← dirty_files srcs key_prefix;
      mret (if is_dirty (format_key key_prefix src) hash s.2 then src :: rest else rest)
  end.

(** A tool that fails is reported and passed over. *)
Definition format_files {E} (srcs : list rstring) (tool : rstring) (args : list rstring) (key_prefix : rstring) : st building E () :=
  dirty ← dirty_files srcs key_prefix;
  on_host (for_ (schedule dirty) (λ src, start_command (tool :: args ++ [src]);; mret ()));;
  for_ dirty (λ src,
    hash ← on_host (hash_file src);
    update_cache (format_key key_prefix src) hash).

Definition format_c {E} (srcs : list rstring) : st building E () :=
  format_files srcs (lit "clang-format") [lit "-i"] (lit "fmt:c").
Definition format_asm {E} (srcs : list rstring) : st building E () := format_files srcs (lit "asmfmt") [] (lit "fmt:asm").
Definition format_rust {E} (srcs : list rstring) : st building E () := format_files srcs (lit "rustfmt") [] (lit "fmt:rust").

Definition format_all {E} (fuel : nat) : st W E () := with_cache (
  stage1_asm ← on_host (find_asm_files fuel STAGE1_SRC);
  format_asm stage1_asm;;
  stage2_asm ← on_host (find_asm_files fuel STAGE2_SRC);
  format_asm stage2_asm;;
  stage3_asm ← on_host (find_asm_files fuel STAGE3_SRC);
  stage3_c ← on_host (find_c_files fuel STAGE3_SRC);
  format_asm stage3_asm;;
  format_c stage3_c;;
  for_ WORKSPACE_CRATES (λ krate,
    rust_files ← on_host (find_rust_files fuel krate);
    format_rust rust_files);;
  s ← get_st;
  on_host (save s.2)).

(** ** [main.rs] *)

Inductive Cmd := Cmd_Toolchain | Cmd_Build | Cmd_Run | Cmd_Debug | Cmd_Clean | Cmd_Fmt | Cmd_Check.

Definition build {E} (fuel : nat) : st W E () :=
  create_dir_all BUILD_DIR;;
  build_bootloader fuel;;
  build_kernel;;
  build_installer;;
  image.
Definition fmt {E} (fuel : nat) : st W E () := format_all fuel.

Definition main {E} (fuel : nat) (cmd : Cmd) : st W E () :=
  match cmd with
  | Cmd_Toolchain => toolchain
  | Cmd_Fmt => fmt fuel
  | Cmd_Build => build fuel
  | Cmd_Check => fmt fuel;; build fuel
  | Cmd_Run => build fuel;; run_qemu
  | Cmd_Debug => build fuel;; debug
  | Cmd_Clean => clean
  end.
End xtask.

(** ** What the host promises *)

Class HostSpec (W : Type) {host : Host W} := {
  read_written p d w w' : fs_write p d w = (w', true) → fs_read p w' = Some d;
  read_others p q d w : q ≠ p → fs_read q (fs_write p d w).1 = fs_read q w;
  read_created p q w : fs_read q (fs_create_dir_all p w).1 = fs_read q w;
  read_copied p q r w : r ≠ q → fs_read r (fs_copy p q w).1 = fs_read r w;
}.

(** A computation that keeps [I] whenever it returns. *)
Definition keeps_ok {S E A} (I : S → Prop) (m : st S E A) : Prop := ∀ s s' a, I s → m s = (s', Ok a) → I s'.
Lemma keeps_ok_bind {S E A B} (I : S → Prop) (m : st S E A) (k : A → st S E B) :
  keeps_ok I m → (∀ a, keeps_ok I (k a)) → keeps_ok I (m ≫= k).
Proof. intros Hm Hk s s' b Hs (s1&a&H1&H2)%st_bind_Ok_inv. eapply Hk; [|exact H2]. by eapply Hm. Qed.
Lemma keeps_ok_for {S E A} (I : S → Prop) (l : list A) (body : A → st S E ()) :
  (∀ x, keeps_ok I (body x)) → keeps_ok I (for_ l body).
Proof.
  intros Hb. induction l as [|x l IH]; cbn [for_]; [intros s s' [] Hs H; by injection H as <- |]. by apply keeps_ok_bind; [|intros []].
Qed.
Lemma keeps_ok_pure {S E A} (I : S → Prop) (m : st S E A) : (∀ s, (m s).1 = s) → keeps_ok I m.
Proof. intros Hm s s' a Hs Hr. specialize (Hm s). rewrite Hr in Hm. cbn in Hm. by subst. Qed.

Section facts.
Context {W : Type} {host : Host W} {host_spec : HostSpec W}.
Variable sha256 : list Z → rstring.
Variable to_json : BuildCache → list Z.
Variable from_json : list Z → option BuildCache.
Variable schedule : list rstring → list rstring.
Local Abbreviation building := (W * BuildCache)%type.

Lemma on_host_run {E A} (m : st W E A) w (c : BuildCache) : on_host m (w, c) = (((m w).1, c), (m w).2).
Proof. unfold on_host. cbn. by destruct (m w). Qed.

(** ** The cache of the boot loader *)

Section cache.
(** A cache that is written is read back; the programs the tool starts leave the
    cache alone or, as [rm] does, remove it. *)
Hypothesis json_roundtrip : ∀ c, from_json (to_json c) = Some c.
Hypothesis tools_spare_cache : ∀ args w,
  fs_read CACHE_PATH (command args w).1 = fs_read CACHE_PATH w ∨ fs_read CACHE_PATH (command args w).1 = None.

(** Keys of formatted files only. *)
Definition fmt_keys (c : BuildCache) : Prop := ∀ k h, files c !! k = Some h → starts_with k (lit "fmt:") = true.
Local Abbreviation stored := (load from_json).
Definition fmt_only (w : W) : Prop := fmt_keys (stored w).

Lemma fmt_only_read w w' : fs_read CACHE_PATH w' = fs_read CACHE_PATH w ∨ fs_read CACHE_PATH w' = None → fmt_only w → fmt_only w'.
Proof.
  unfold fmt_only, load. intros [ -> | -> ] Hw; [done|]. intros k h Hk. cbn in Hk. by rewrite lookup_empty in Hk.
Qed.

Lemma start_command_keeps {E} args : keeps_ok (E:=E) fmt_only (start_command args).
Proof using tools_spare_cache.
  intros w w' b Hw Hr. unfold start_command in Hr. destruct (command args w) as [w1 o] eqn:Hc. injection Hr as <- _.
  eapply fmt_only_read; [|done]. pose proof (tools_spare_cache args w) as H. by rewrite Hc in H.
Qed.
Lemma run_keeps {E} args : keeps_ok (E:=E) fmt_only (run args).
Proof using tools_spare_cache. apply keeps_ok_bind; [apply start_command_keeps|]. intros b. by apply keeps_ok_pure. Qed.
Lemma create_dir_all_keeps {E} p : keeps_ok (E:=E) fmt_only (create_dir_all p).
Proof using host_spec.
  intros w w' [] Hw Hr. unfold create_dir_all in Hr. destruct (fs_create_dir_all p w) as [w1 [|]] eqn:Hc; [|done]. injection Hr as <-.
  eapply fmt_only_read; [|done]. left. pose proof (read_created p CACHE_PATH w) as H. by rewrite Hc in H.
Qed.
Lemma copy_keeps {E} p q : q ≠ CACHE_PATH → keeps_ok (E:=E) fmt_only (copy p q).
Proof using host_spec.
  intros Hq w w' [] Hw Hr. unfold copy in Hr. destruct (fs_copy p q w) as [w1 [|]] eqn:Hc; [|done]. injection Hr as <-.
  eapply fmt_only_read; [|done]. left. pose proof (read_copied p q CACHE_PATH w ltac:(done)) as H. by rewrite Hc in H.
Qed.
Lemma patch_keeps {E} : keeps_ok (E:=E) fmt_only patch_stage1.
Proof using host_spec.
  intros w w' [] Hw Hr. unfold patch_stage1 in Hr. destruct (fs_len _ w) as [n|]; [|done]. destruct (fs_read _ w) as [d|]; [|done].
  case_match; [done|]. cbv zeta in Hr. match type of Hr with context[fs_write ?p ?d w] => destruct (fs_write p d w) as [w1 [|]] eqn:Hc; [|done];
    pose proof (read_others p CACHE_PATH d w ltac:(done)) as H1 end.
  injection Hr as <-. eapply fmt_only_read; [|done]. left. by rewrite Hc in H1.
Qed.
Lemma hash_file_pure {E} p w : (hash_file (E:=E) sha256 p w).1 = w.
Proof. unfold hash_file. rewrite bind_get_st, st_bind_unfold. cbn. by destruct (unwrap _). Qed.
Lemma find_files_pure {E} fuel d e w : (find_files (E:=E) fuel d e w).1 = w.
Proof. unfold find_files. rewrite bind_get_st, st_bind_unfold. cbn. by destruct (collect_recursive _ _ _ _). Qed.

(** The state of a stage: the host, and a cache in memory. *)
Definition kept_with (I : BuildCache → Prop) (s : building) : Prop := fmt_only s.1 ∧ I s.2.
Lemma on_host_keeps {E A} (I : BuildCache → Prop) (m : st W E A) :
  keeps_ok fmt_only m → keeps_ok (kept_with I) (on_host m).
Proof.
  intros Hm [w c] s' a [Hw Hc] Hr. rewrite on_host_run in Hr. destruct (m w) as [w1 r] eqn:H1. cbn in Hr. injection Hr as <- ->.
  split; [|done]. by eapply Hm.
Qed.
Lemma update_cache_keeps {E} (I : BuildCache → Prop) key hash :
  (∀ c, I c → I (update key hash c)) → keeps_ok (E:=E) (kept_with I) (update_cache key hash).
Proof. intros HI s s' [] [Hw Hc] Hr. injection Hr as <-. split; [done|by apply HI]. Qed.

Ltac keeps_step :=
  lazymatch goal with
  | |- keeps_ok _ (mbind _ _) => apply keeps_ok_bind; [|intros ?]
  | |- keeps_ok _ (for_ _ _) => apply keeps_ok_for; intros ?
  | |- keeps_ok _ (run _) => apply run_keeps
  | |- keeps_ok _ (start_command _) => apply start_command_keeps
  | |- keeps_ok _ (bash_ _) => apply run_keeps
  | |- keeps_ok _ (create_dir_all _) => apply create_dir_all_keeps
  | |- keeps_ok _ (copy _ _) => by apply copy_keeps
  | |- keeps_ok _ patch_stage1 => apply patch_keeps
  | |- keeps_ok _ (hash_file _ _) => by apply keeps_ok_pure; intros ?; rewrite hash_file_pure
  | |- keeps_ok _ (find_files _ _ _) => by apply keeps_ok_pure; intros ?; rewrite find_files_pure
  | |- keeps_ok _ (on_host _) => apply on_host_keeps
  | |- keeps_ok _ (if ?b then _ else _) => destruct b
  | |- keeps_ok _ (update_cache _ _) => apply update_cache_keeps; intros ? ?
  | |- keeps_ok _ _ => by apply keeps_ok_pure
  end.

Lemma with_cache_keeps {E} (I : BuildCache → Prop) (m : st building E ()) :
  (∀ w, fmt_only w → I (stored w)) → keeps_ok (kept_with I) m →
  keeps_ok fmt_only (with_cache from_json m).
Proof.
  intros HI Hm w w' [] Hw Hr. unfold with_cache in Hr. destruct (m (w, stored w)) as [s r] eqn:H1. injection Hr as <- ->.
  apply (Hm (w, stored w) s ()); [|done]. by split; [|apply HI].
Qed.

Lemma build_bootloader_keeps {E} fuel : keeps_ok (E:=E) fmt_only (build_bootloader sha256 from_json fuel).
Proof using tools_spare_cache host_spec.
  apply (with_cache_keeps (λ _, True)); [done|].
  unfold stage1_build, stage2_build, stage3_build, build_flat, stage3_compile, find_c_files, find_asm_files. cbv zeta.
  assert (Hh : ∀ srcs, keeps_ok (E:=E) fmt_only (hash_all sha256 srcs)).
  { intros srcs. induction srcs; cbn [hash_all]; repeat first [apply IHsrcs|keeps_step]. }
  repeat first [apply Hh|keeps_step|done].
Qed.

(** Formatting adds keys of formatted files only. *)
Lemma fmt_keys_update key_prefix src h c :
  In key_prefix [lit "fmt:c"; lit "fmt:asm"; lit "fmt:rust"] → fmt_keys c → fmt_keys (update (format_key key_prefix src) h c).
Proof.
  intros Hp Hc k h' Hk. cbn [files update] in Hk. apply lookup_insert_Some in Hk as [[<- <-]|[_ Hk]]; [|by eapply Hc].
  by destruct Hp as [<-|[<-|[<-|[]]]].
Qed.
Lemma format_files_keeps {E} srcs tool args key_prefix :
  In key_prefix [lit "fmt:c"; lit "fmt:asm"; lit "fmt:rust"] →
  keeps_ok (E:=E) (kept_with fmt_keys) (format_files sha256 schedule srcs tool args key_prefix).
Proof using tools_spare_cache.
  intros Hp. unfold format_files. apply keeps_ok_bind.
  { induction srcs as [|src srcs IH]; cbn [dirty_files]; repeat first [apply IH|keeps_step]. }
  intros dirty. repeat keeps_step. by apply fmt_keys_update.
Qed.

Lemma save_keeps {E} : keeps_ok (E:=E) (kept_with fmt_keys) (s ← get_st; on_host (save to_json s.2)).
Proof using json_roundtrip host_spec.
  intros [w c] s' [] [Hw Hc] Hr. rewrite bind_get_st, on_host_run in Hr. unfold save in Hr. cbn [snd] in Hr.
  destruct (fs_write _ _ _) as [w1 [|]] eqn:Hs; [|done]. injection Hr as <-. split; [|done]. cbn [fst].
  unfold fmt_only, load. rewrite (read_written _ _ _ _ Hs). cbn. by rewrite json_roundtrip.
Qed.

Lemma format_all_keeps {E} fuel : keeps_ok (E:=E) fmt_only (format_all sha256 to_json from_json schedule fuel).
Proof using All.
  apply (with_cache_keeps fmt_keys); [done|]. unfold format_asm, format_c, format_rust, find_asm_files, find_c_files, find_rust_files.
  repeat first [apply save_keeps|apply format_files_keeps; cbn; tauto|keeps_step].
Qed.

Lemma main_keeps {E} fuel cmd : keeps_ok (E:=E) fmt_only (main sha256 to_json from_json schedule fuel cmd).
Proof using All.
  destruct cmd; cbn [main]; unfold fmt, build, toolchain, clean, run_qemu, debug, build_kernel, build_installer, build_package, image;
    repeat first [apply format_all_keeps|apply build_bootloader_keeps|keeps_step].
Qed.

(** The boot loader built without a cache. *)
Definition rebuild_bootloader {E} (fuel : nat) : st W E () :=
  hash_file sha256 (STAGE1_SRC ++ lit "/main.asm");;
  run [lit "nasm"; lit "-f"; lit "bin"; STAGE1_SRC ++ lit "/main.asm"; lit "-o"; BUILD_DIR ++ lit "/stage1.bin"];;
  hash_file sha256 (STAGE2_SRC ++ lit "/main.asm");;
  run [lit "nasm"; lit "-f"; lit "bin"; STAGE2_SRC ++ lit "/main.asm"; lit "-o"; BUILD_DIR ++ lit "/stage2.bin"];;
  c_files ← find_c_files fuel STAGE3_SRC;
  asm_files ← find_asm_files fuel STAGE3_SRC;
  hash_all sha256 (c_files ++ asm_files);;
  stage3_compile c_files asm_files.

(** A run over a cache in memory, without that cache. *)
Definition forget {E} (c : BuildCache) (m : st building E ()) : st W E () := λ w, let '(s, r) := m (w, c) in (s.1, r).

Lemma forget_host {E A} c (m : st W E A) (k : A → st building E ()) w :
  forget c (on_host m ≫= k) w = (a ← m; forget c (k a)) w.
Proof. unfold forget. rewrite !st_bind_unfold, on_host_run. by destruct (m w) as [w1 [a| | |]]. Qed.
(** A stage whose key the cache does not have. *)
Lemma forget_flat {E} c key src out (k : () → st building E ()) w :
  files c !! key = None →
  forget c (build_flat sha256 key src out ≫= k) w =
  (h ← hash_file sha256 src; run [lit "nasm"; lit "-f"; lit "bin"; src; lit "-o"; out];; forget (update key h c) (k ())) w.
Proof.
  intros Hc. unfold forget, build_flat. rewrite st_bind_assoc, !st_bind_unfold, on_host_run.
  destruct (hash_file sha256 src w) as [w1 [h| | |]]; [|done..].
  cbn [fst snd]. rewrite st_bind_assoc, bind_get_st. unfold is_dirty. cbn [snd]. rewrite Hc, st_bind_assoc, !st_bind_unfold, on_host_run.
  by destruct (run _ w1) as [w2 [[]| | |]].
Qed.
Lemma bind_ext_run {E A B} (m : st W E A) (k k' : A → st W E B) w :
  (∀ a w', m w = (w', Ok a) → k a w' = k' a w') → (m ≫= k) w = (m ≫= k') w.
Proof. intros Hk. rewrite !st_bind_unfold. destruct (m w) as [w1 [a| | |]]; [|done..]. by apply Hk. Qed.

Lemma build_bootloader_uncached {E} fuel w : fmt_only w → build_bootloader (E:=E) sha256 from_json fuel w = rebuild_bootloader fuel w.
Proof.
  intros Hw. unfold build_bootloader, with_cache, rebuild_bootloader.
  assert (Hno : ∀ key, starts_with key (lit "fmt:") = false → files (stored w) !! key = None).
  { intros key Hk. destruct (files (stored w) !! key) as [h|] eqn:Hh; [|done]. apply Hw in Hh. congruence. }
  generalize dependent (stored w). intros c Hno.
  match goal with |- (let '(_, _) := ?m (w, c) in _) = _ => change (forget c m w = rebuild_bootloader fuel w) end.
  unfold stage1_build, stage2_build. rewrite forget_flat by (by apply Hno).
  apply bind_ext_run. intros h1 w1 _. apply bind_ext_run. intros [] w2 _.
  rewrite forget_flat by (cbn [files update]; rewrite lookup_insert_ne by done; by apply Hno).
  apply bind_ext_run. intros h2 w3 _. apply bind_ext_run. intros [] w4 _.
  unfold stage3_build. rewrite forget_host. apply bind_ext_run. intros cs w5 _.
  rewrite forget_host. apply bind_ext_run. intros asms w6 _.
  rewrite forget_host. apply bind_ext_run. intros h3 w7 _.
  unfold forget. rewrite bind_get_st. unfold is_dirty. cbn [snd]. cbn [files update].
  rewrite !lookup_insert_ne by done. rewrite Hno by done. cbn [negb]. rewrite st_bind_unfold, on_host_run.
  by destruct (stage3_compile _ _ w7) as [w8 [[]| | |]].
Qed.

(** C37: Every build of the boot loader does everything again, whatever commands
    ran before it: the hashes of its stages are never written to the cache file,
    so that checking them is equivalent to not checking. *)
Theorem build_never_cached {E} fuel cmds w w' :
  fmt_only w → for_ cmds (main (E:=E) sha256 to_json from_json schedule fuel) w = (w', Ok ()) →
  fmt_only w' ∧ build_bootloader (E:=E) sha256 from_json fuel w' = rebuild_bootloader fuel w'.
Proof using All.
  intros Hw Hrun. assert (Hw' : fmt_only w').
  { eapply keeps_ok_for; [|exact Hw|exact Hrun]. intros cmd. apply main_keeps. }
  split; [done|]. by apply build_bootloader_uncached.
Qed.
End cache.
End facts.

(** ** Formatting *)

Section format.
Context {W : Type} {host : Host W}.
Variable sha256 : list Z → rstring.
Variable schedule : list rstring → list rstring.
Hypothesis schedule_perm : ∀ l, schedule l ≡ₚ l.
Variables (tool : rstring) (args : list rstring) (key_prefix : rstring).
(** The tool changes the file it is given and no other. *)
Hypothesis tool_formats_one : ∀ src q w, q ≠ src → fs_read q (command (tool :: args ++ [src]) w).1 = fs_read q w.

Local Abbreviation key := (format_key key_prefix).
(** The cache has the hash of what the file holds. *)
Definition up_to_date (w : W) (c : BuildCache) (src : rstring) : Prop :=
  ∃ data, fs_read src w = Some data ∧ files c !! key src = Some (sha256 data).

Lemma hash_file_Ok {E} p w w' h : hash_file (E:=E) sha256 p w = (w', Ok h) → w' = w ∧ ∃ data, fs_read p w = Some data ∧ h = sha256 data.
Proof.
  unfold hash_file. rewrite bind_get_st. destruct (fs_read p w) as [data|]; [|done]. cbn. intros [= <- <-]. split; [done|]. by exists data.
Qed.

Lemma dirty_files_Ok {E} srcs w c s d : dirty_files (E:=E) sha256 srcs key_prefix (w, c) = (s, Ok d) →
  s = (w, c) ∧ ∀ src, src ∈ srcs → src ∈ d ∨ up_to_date w c src.
Proof.
  revert d s. induction srcs as [|src srcs IH]; intros d s Hr; cbn [dirty_files] in Hr.
  { injection Hr as <- <-. split; [done|]. by intros src ?%elem_of_nil. }
  apply st_bind_Ok_inv in Hr as (s1&h&Hh&Hr). rewrite on_host_run in Hh.
  destruct (hash_file sha256 src w) as [w1 [h'| | |]] eqn:Hf; try discriminate Hh. injection Hh as <- <-.
  apply hash_file_Ok in Hf as (->&data&Hdata&->). cbn [fst snd] in Hr. rewrite bind_get_st in Hr. cbn [snd] in Hr.
  apply st_bind_Ok_inv in Hr as (s2&rest&Hrest&Hr). apply IH in Hrest as (->&Hrest). cbn beta in Hr.
  injection Hr as <- <-. split; [done|]. unfold is_dirty.
  intros q [->|Hq]%elem_of_cons.
  - destruct (files c !! key src) as [old|] eqn:Hold; [|left; set_solver].
    case_bool_decide; [right; subst; by exists data|left; set_solver].
  - destruct (Hrest q Hq); [left|by right]. case_match; set_solver.
Qed.
Lemma dirty_files_clean {E} srcs w c : (∀ src, src ∈ srcs → up_to_date w c src) →
  dirty_files (E:=E) sha256 srcs key_prefix (w, c) = ((w, c), Ok []).
Proof.
  induction srcs as [|src srcs IH]; intros Hs; cbn [dirty_files]; [done|].
  destruct (Hs src) as (data&Hd&Hk); [set_solver|]. rewrite st_bind_unfold, on_host_run. unfold hash_file at 1 2. rewrite bind_get_st, Hd.
  cbn [unwrap]. rewrite bind_lift_Ok. cbn [fst snd mret st_ret]. rewrite bind_get_st. cbn [snd].
  rewrite (st_bind_Ok _ _ _ _ _ (IH ltac:(set_solver))). unfold is_dirty. rewrite Hk. by rewrite bool_decide_true.
Qed.

Lemma format_loop_reads {E} l w w' q : q ∉ l →
  for_ l (λ src, start_command (E:=E) (tool :: args ++ [src]);; mret ()) w = (w', Ok ()) → fs_read q w' = fs_read q w.
Proof using tool_formats_one.
  revert w. induction l as [|src l IH]; intros w Hq Hr; cbn [for_] in Hr; [by injection Hr as <-|].
  apply not_elem_of_cons in Hq as [Hne Hq].
  apply st_bind_Ok_inv in Hr as (w1&[]&H1&Hr). apply IH in Hr; [|done]. rewrite Hr.
  apply st_bind_Ok_inv in H1 as (w2&b&H1&H2). injection H2 as <-. unfold start_command in H1.
  pose proof (tool_formats_one src q w Hne) as Hread. destruct (command _ w) as [w3 o]. injection H1 as <- _. exact Hread.
Qed.

Lemma update_loop {E} l w c s :
  for_ l (λ src, hash ← on_host (hash_file sha256 src); update_cache (key src) hash) (w, c) = (s, Ok (E:=E) ()) →
  s.1 = w ∧ ∀ src, src ∈ l ∨ up_to_date w c src → up_to_date w s.2 src.
Proof.
  revert c. induction l as [|src l IH]; intros c Hr; cbn [for_] in Hr.
  { injection Hr as <-. split; [done|]. by intros src [?%elem_of_nil|?]. }
  apply st_bind_Ok_inv in Hr as (s1&[]&H1&Hr). apply st_bind_Ok_inv in H1 as (s2&h&Hh&H2).
  rewrite on_host_run in Hh. destruct (hash_file sha256 src w) as [w1 [h'| | |]] eqn:Hf; try discriminate Hh. injection Hh as <- <-.
  apply hash_file_Ok in Hf as (->&data&Hdata&->). injection H2 as <-. cbn [fst snd] in Hr.
  apply IH in Hr as [Hs Hl]. split; [done|]. intros q Hq. apply Hl.
  destruct (decide (q = src)) as [->|Hne].
  - right. exists data. split; [done|]. cbn. by rewrite lookup_insert_eq.
  - destruct Hq as [[?|?]%elem_of_cons|(dq&?&?)]; [done|by left|]. right. exists dq. split; [done|]. cbn.
    rewrite lookup_insert_ne; [done|]. unfold format_key. intros Heq. by apply app_inv_head, app_inv_head in Heq.
Qed.

(** Formatting is idempotent: right after a run that returned, a second run
    starts no program and changes neither the files nor the cache, even where the
    tool failed on a file the first time. *)
Theorem format_idempotent {E} srcs w c s :
  format_files (E:=E) sha256 schedule srcs tool args key_prefix (w, c) = (s, Ok ()) →
  (∀ src, src ∈ srcs → up_to_date s.1 s.2 src) ∧
  dirty_files (E:=E) sha256 srcs key_prefix s = (s, Ok []) ∧
  format_files (E:=E) sha256 schedule srcs tool args key_prefix s = (s, Ok ()).
Proof using tool_formats_one schedule_perm.
  intros Hr. apply st_bind_Ok_inv in Hr as (s1&d&Hd&Hr). apply dirty_files_Ok in Hd as [-> Hd].
  apply st_bind_Ok_inv in Hr as (s2&[]&Hc&Hr). rewrite on_host_run in Hc.
  destruct (for_ (schedule d) _ w) as [w1 [[]| | |]] eqn:Hf; try discriminate Hc. injection Hc as <-. cbn [fst] in Hr.
  apply update_loop in Hr as [Hs Hup].
  assert (Hall : ∀ src, src ∈ srcs → up_to_date s.1 s.2 src).
  { intros src Hsrc. rewrite Hs. apply Hup. destruct (decide (src ∈ d)) as [?|Hnd]; [by left|]. right.
    destruct (Hd src Hsrc) as [?|(data&Hdata&Hk)]; [done|]. exists data. split; [|done].
    rewrite (format_loop_reads (E:=E) (schedule d) w w1 src); [done| |exact Hf]. by rewrite schedule_perm. }
  assert (Hclean : dirty_files (E:=E) sha256 srcs key_prefix s = (s, Ok [])).
  { destruct s as [w2 c2]. by apply dirty_files_clean. }
  split; [done|]. split; [done|]. unfold format_files. rewrite (st_bind_Ok _ _ _ _ _ Hclean).
  assert (Hnil : schedule [] = []) by (apply Permutation_nil; symmetry; apply schedule_perm). rewrite Hnil.
  destruct s as [w2 c2]. by rewrite st_bind_unfold, on_host_run.
Qed.
End format.

(** ** Finding files *)

Section find.
Context {W : Type} {host : Host W}.
Variable w : W.

Definition below (dir : rstring) (e : DirEntry) : rstring := dir ++ lit "/" ++ entry_name e.
(** The directory itself, entered. *)
Definition enters (dir : rstring) (e : DirEntry) : Prop :=
  (∃ entries, fs_read_dir dir w = Some entries ∧ e ∈ entries) ∧ entry_is_dir e = true ∧ skipped (entry_name e) = false.

(** The files with the extension, in the directory or under a directory that is
    not passed over. *)
Inductive found (ext : rstring) : rstring → rstring → Prop :=
| found_here dir entries e : fs_read_dir dir w = Some entries → e ∈ entries → entry_is_dir e = false →
    extension (entry_name e) = Some ext → found ext dir (below dir e)
| found_below dir e p : enters dir e → found ext (below dir e) p → found ext dir p.

(** Directories nest less than [n] deep. *)
Fixpoint shallow (n : nat) (dir : rstring) : Prop :=
  match n with O => False | S n => ∀ e, enters dir e → shallow n (below dir e) end.

Lemma for_entries_spec {E} visit (P : DirEntry → rstring → Prop) entries :
  (∀ e, e ∈ entries → ∃ out, visit e = Ok (E:=E) out ∧ ∀ p, p ∈ out ↔ P e p) →
  ∃ l, for_entries visit entries = Ok l ∧ ∀ p, p ∈ l ↔ ∃ e, e ∈ entries ∧ P e p.
Proof.
  induction entries as [|e entries IH]; intros Hv; cbn [for_entries].
  { exists []. split; [done|]. intros p. split; [by intros ?%elem_of_nil|by intros (e&?%elem_of_nil&_)]. }
  destruct (Hv e ltac:(left)) as (out&Hout&Ho). destruct IH as (rest&Hrest&Hp); [intros e' He'; apply Hv; by right|].
  exists (out ++ rest). rewrite Hout, bind_Ok, Hrest, bind_Ok. split; [done|].
  intros p. rewrite elem_of_app, Ho, Hp. split.
  - intros [?|(e'&?&?)]; [exists e; split; [left|done]|exists e'; split; [by right|done]].
  - intros (e'&[->|?]%elem_of_cons&?); [by left|right; by exists e'].
Qed.

(** What an entry of [dir] adds. *)
Definition adds (ext dir : rstring) (e : DirEntry) (p : rstring) : Prop :=
  if entry_is_dir e then skipped (entry_name e) = false ∧ found ext (below dir e) p
  else extension (entry_name e) = Some ext ∧ p = below dir e.
Lemma found_adds ext dir p entries : fs_read_dir dir w = Some entries →
  found ext dir p ↔ ∃ e, e ∈ entries ∧ adds ext dir e p.
Proof.
  intros Hdir. split.
  - destruct 1 as [dir entries' e H1 H2 H3 H4|dir e p [(entries'&H1&H2) [H3 H4]] H5];
      exists e; unfold adds; rewrite H3; split; by try congruence.
  - intros (e&He&Ha). unfold adds in Ha. destruct (entry_is_dir e) eqn:Hd; destruct Ha as [H1 H2].
    + apply (found_below _ _ e); [|done]. split; [by exists entries|done].
    + subst. by econstructor.
Qed.

Lemma collect_spec {E} n dir ext : shallow n dir →
  ∃ l, collect_recursive (E:=E) n dir ext w = Ok l ∧ ∀ p, p ∈ l ↔ found ext dir p.
Proof.
  revert dir. induction n as [|n IH]; intros dir Hn; [done|]. cbn [collect_recursive].
  destruct (fs_read_dir dir w) as [entries|] eqn:Hdir.
  2: { exists []. split; [done|]. intros p. split; [by intros ?%elem_of_nil|].
       destruct 1 as [? ? ? ?|dir e p [(?&?&?) _] _]; congruence. }
  destruct (for_entries_spec (E:=E) (λ e,
      let path := dir ++ lit "/" ++ entry_name e in
      if entry_is_dir e then
        if skipped (entry_name e) then mret [] else collect_recursive n path ext w
      else if bool_decide (extension (entry_name e) = Some ext) then mret [path] else mret [])
    (adds ext dir) entries) as (l&Hl&Hp).
  - intros e He. unfold adds. cbv zeta. fold (below dir e). destruct (entry_is_dir e) eqn:Hd.
    + destruct (skipped (entry_name e)) eqn:Hs; [exists []; split; [done|]; intros p; rewrite elem_of_nil; by split; [|intros [? _]]|].
      destruct (IH (below dir e)) as (l&Hl&Hf); [apply Hn; split; [by exists entries|done]|].
      exists l. split; [done|]. intros p. rewrite Hf. by split; [|intros [_ ?]].
    + case_bool_decide as Hx; eexists; (split; [done|]); intros p.
      * rewrite list_elem_of_singleton. by split; [|intros [_ ?]].
      * rewrite elem_of_nil. by split; [|intros [? _]].
  - exists l. split; [exact Hl|]. intros p. by rewrite Hp, (found_adds ext dir p entries).
Qed.

(** C38: On a tree that is less than [fuel] deep the search ends, with exactly the
    files that have the extension and are not below a directory that is passed
    over, in the order of their paths. *)
Theorem find_files_complete {E} fuel dir ext : shallow fuel dir →
  ∃ l, find_files (E:=E) fuel dir ext w = (w, Ok l) ∧ StronglySorted str_le l ∧ ∀ p, p ∈ l ↔ found ext dir p.
Proof.
  intros Hs. destruct (collect_spec (E:=E) fuel dir ext Hs) as (l&Hl&Hp).
  exists (merge_sort str_le l). unfold find_files. rewrite bind_get_st, Hl, bind_lift_Ok. split; [done|].
  split; [apply StronglySorted_merge_sort; apply _|]. intros p. by rewrite merge_sort_Permutation.
Qed.
End find.

(** ** The number of sectors in stage 1 *)

Section patch.
Context {W : Type} {host : Host W} {host_spec : HostSpec W}.

(** [image] changes stage 1 in two bytes, which then hold the number of
    sectors stage 3 takes, as long as those fit in sixteen bits; a stage 1 that is
    too short for them stops the build with everything as it was. *)
Theorem patch_two_bytes {E} w size d :
  fs_len (lit ".build/stage3.bin") w = Some size → fs_read (lit ".build/stage1.bin") w = Some d → 0 ≤ size < 2 ^ 63 →
  if len d <=? 0x1A1 then patch_stage1 (E:=E) w = (w, Panic) else
  ∀ w', patch_stage1 (E:=E) w = (w', Ok ()) →
    ∃ d' lo hi, fs_read (lit ".build/stage1.bin") w' = Some d' ∧ length d' = length d ∧
      d' !! 0x1A0%nat = Some lo ∧ d' !! 0x1A1%nat = Some hi ∧ 0 ≤ lo < 256 ∧ 0 ≤ hi < 256 ∧
      (size ≤ 65535 * 512 → (lo + 256 * hi - 1) * 512 < size ≤ (lo + 256 * hi) * 512) ∧
      (∀ k, k ≠ 0x1A0%nat → k ≠ 0x1A1%nat → d' !! k = d !! k) ∧
      ∀ q, q ≠ lit ".build/stage1.bin" → fs_read q w' = fs_read q w.
Proof using host_spec.
  intros Hl Hd Hsize. unfold patch_stage1. rewrite Hl, Hd. destruct (Z.leb_spec (len d) 0x1A1) as [_|Hlong]; [done|].
  intros w' Hr. cbv zeta in Hr. match type of Hr with context[fs_write ?p ?d' w] => pose proof (λ q, read_others p q d' w) as Hother; destruct (fs_write p d' w) as [w1 [|]] eqn:Hw; [|done];
    exists d', (Z.land (stage3_sectors size) 0xFF), (wrap 8 (Z.shiftr (stage3_sectors size) 8)) end.
  injection Hr as <-.
  assert (Hn : 0 ≤ stage3_sectors size < 65536) by (unfold stage3_sectors; apply Z.mod_pos_bound; lia).
  assert (Hlo : Z.land (stage3_sectors size) 0xFF = stage3_sectors size mod 256) by (change 0xFF with (Z.ones 8); by rewrite Z.land_ones).
  assert (Hhi : wrap 8 (Z.shiftr (stage3_sectors size) 8) = stage3_sectors size / 256).
  { rewrite Z.shiftr_div_pow2 by lia. apply wrap_small. split; [by apply Z.div_pos; lia|]. apply Z.div_lt_upper_bound; lia. }
  rewrite Hlo, Hhi in *. pose proof (Z.div_mod (stage3_sectors size) 256 ltac:(lia)) as Hdm.
  pose proof (Z.mod_pos_bound (stage3_sectors size) 256 ltac:(lia)) as Hmod.
  split; [by eapply read_written|]. rewrite !length_insert. split; [done|].
  split; [rewrite list_lookup_insert_ne by done; apply list_lookup_insert_eq; lia|].
  split; [apply list_lookup_insert_eq; rewrite length_insert; lia|].
  split; [done|]. split; [split; [by apply Z.div_pos; lia|apply Z.div_lt_upper_bound; lia]|]. split; [|split].
  - intros Hfit. replace (_ mod 256 + 256 * _) with (stage3_sectors size) by lia. unfold stage3_sectors.
    rewrite (wrap_small 64) by lia. rewrite wrap_small; [Z.div_mod_to_equations; lia|].
    split; [by apply Z.div_pos; lia|apply Z.div_lt_upper_bound; lia].
  - intros k H0 H1. by rewrite !list_lookup_insert_ne.
  - exact Hother.
Qed.
End patch.

(** ** A host *)

(** Files under their paths, and a fixed tree of sources. *)
Local Abbreviation Disk := (gmap rstring (list Z)).
Definition demo_entry (d : bool) (n : string) : DirEntry := {| entry_name := lit n; entry_is_dir := d |}.
Definition demo_dir (dir : rstring) : option (list DirEntry) :=
  if bool_decide (dir = STAGE1_SRC) then Some [demo_entry false "main.asm"; demo_entry true ".git"; demo_entry true "io"; demo_entry false "x.c"]
  else if bool_decide (dir = STAGE1_SRC ++ lit "/io") then Some [demo_entry false "bad.asm"]
  else if bool_decide (dir = STAGE1_SRC ++ lit "/.git") then Some [demo_entry false "h.asm"]
  else if bool_decide (dir = STAGE2_SRC) then Some [demo_entry false "main.asm"]
  else if bool_decide (dir = OUT) then Some [demo_entry false "a.o"]
  else None.

(** A program writes the file named last, or removes what [rm] is to remove; it
    fails on [bad.asm]. *)
Definition demo_command (args : list rstring) (w : Disk) : Disk * option bool :=
  let target := default [] (last args) in
  (if bool_decide (head args = Some (lit "rm")) then delete CACHE_PATH w
   else if bool_decide (target = CACHE_PATH) then w else <[target := replicate 512 9]> w,
   Some (negb (bool_decide (target = STAGE1_SRC ++ lit "/io/bad.asm")))).

#[local] Instance Disk_Host : Host Disk := {|
  fs_read p w := w !! p;
  fs_len p w := (λ d, len d) <$> w !! p;
  fs_write p d w := (<[p := d]> w, true);
  fs_create_dir_all p w := (w, true);
  fs_copy p q w := (<[q := default [] (w !! p)]> w, true);
  fs_read_dir p w := demo_dir p;
  command := demo_command;
|}.
#[local] Instance Disk_HostSpec : HostSpec Disk.
Proof.
  split; cbn.
  - intros p d w w' [= <-]. by rewrite lookup_insert_eq.
  - intros p q d w Hne. by rewrite lookup_insert_ne.
  - done.
  - intros p q r w Hne. by rewrite lookup_insert_ne.
Qed.

Definition demo_json (c : BuildCache) : list Z := [Zpos (encode (files c))].
Definition demo_parse (d : list Z) : option BuildCache :=
  match d with [Zpos p] => (λ m, {| files := m |}) <$> decode p | _ => None end.
Lemma demo_json_roundtrip c : demo_parse (demo_json c) = Some c.
Proof. unfold demo_parse, demo_json. rewrite decode_encode. by destruct c. Qed.
Lemma demo_tools_spare_cache (args : list rstring) (w : Disk) :
  fs_read CACHE_PATH (command args w).1 = fs_read CACHE_PATH w ∨ fs_read CACHE_PATH (command args w).1 = None.
Proof.
  cbn. unfold demo_command. cbn [fst]. case_bool_decide; [right; apply lookup_delete_eq|]. left.
  case_bool_decide; [done|]. by rewrite lookup_insert_ne.
Qed.
Lemma demo_formats_one (tool src q : rstring) (w : Disk) :
  tool ≠ lit "rm" → q ≠ src → fs_read q (command (tool :: [] ++ [src]) w).1 = fs_read q w.
Proof.
  intros Ht Hne. cbn. unfold demo_command. cbn [fst last default head app]. rewrite bool_decide_false by (intros Heq; injection Heq; exact Ht).
  case_bool_decide; [done|]. by rewrite lookup_insert_ne.
Qed.

Definition demo_disk : Disk :=
  <[STAGE1_SRC ++ lit "/main.asm" := [1]]> (<[STAGE1_SRC ++ lit "/io/bad.asm" := [2]]> (<[STAGE2_SRC ++ lit "/main.asm" := [3]]> ∅)).

(** Building, formatting, building again. *)
Lemma build_never_cached_witness :
  ∃ w', for_ [Cmd_Build; Cmd_Fmt; Cmd_Build] (main (E:=Empty_set) id demo_json demo_parse id 5) demo_disk = (w', Ok ()) ∧
    build_bootloader (E:=Empty_set) id demo_parse 5 w' = rebuild_bootloader id 5 w'.
Proof.
  assert (Hrun : (for_ [Cmd_Build; Cmd_Fmt; Cmd_Build] (main (E:=Empty_set) id demo_json demo_parse id 5) demo_disk).2 = Ok ())
    by (vm_compute; reflexivity).
  destruct (for_ _ _ demo_disk) as [w' r] eqn:Hw. cbn in Hrun. subst r. exists w'. split; [reflexivity|].
  refine (proj2 (build_never_cached id demo_json demo_parse id demo_json_roundtrip demo_tools_spare_cache 5
    [Cmd_Build; Cmd_Fmt; Cmd_Build] demo_disk w' _ Hw)).
  intros k h Hk. vm_compute in Hk. discriminate Hk.
Defined.

Lemma format_idempotent_witness :
  ∃ s, format_files (E:=Empty_set) id id [STAGE1_SRC ++ lit "/main.asm"; STAGE1_SRC ++ lit "/io/bad.asm"] (lit "asmfmt") []
      (lit "fmt:asm") (demo_disk, BuildCache_default) = (s, Ok ()) ∧
    dirty_files (E:=Empty_set) id [STAGE1_SRC ++ lit "/main.asm"; STAGE1_SRC ++ lit "/io/bad.asm"] (lit "fmt:asm") s = (s, Ok []).
Proof.
  assert (Hrun : (format_files (E:=Empty_set) id id [STAGE1_SRC ++ lit "/main.asm"; STAGE1_SRC ++ lit "/io/bad.asm"] (lit "asmfmt") []
      (lit "fmt:asm") (demo_disk, BuildCache_default)).2 = Ok ()) by (vm_compute; reflexivity).
  destruct (format_files _ _ _ _ _ _ _) as [s r] eqn:Hs. cbn in Hrun. subst r. exists s. split; [reflexivity|].
  refine (proj1 (proj2 (format_idempotent id id (λ l, reflexivity l) (lit "asmfmt") [] (lit "fmt:asm")
    (λ src q w, demo_formats_one (lit "asmfmt") src q w _) _ _ _ s Hs))). discriminate.
Defined.

Lemma demo_enters dir e : enters demo_disk dir e →
  e ∈ filter (λ e, entry_is_dir e = true ∧ skipped (entry_name e) = false) (default [] (demo_dir dir)).
Proof. intros [(es&Hes&Hin) Hd]. cbn in Hes. rewrite Hes. cbn. by apply list_elem_of_filter. Qed.
Lemma demo_shallow : shallow demo_disk 5 STAGE1_SRC.
Proof.
  intros e He%demo_enters. vm_compute in He. apply list_elem_of_singleton in He as ->.
  intros e He%demo_enters. vm_compute in He. by apply elem_of_nil in He.
Qed.
Lemma find_files_complete_witness :
  ∃ l, find_files (E:=Empty_set) 5 STAGE1_SRC (lit "asm") demo_disk = (demo_disk, Ok l) ∧
    STAGE1_SRC ++ lit "/io/bad.asm" ∈ l ∧ ¬ (STAGE1_SRC ++ lit "/x.c" ∈ l).
Proof.
  destruct (find_files_complete demo_disk (E:=Empty_set) 5 STAGE1_SRC (lit "asm") demo_shallow) as (l&Hl&_&Hp).
  exists l. split; [exact Hl|]. rewrite !Hp. split.
  - apply (found_below _ _ _ (demo_entry true "io")).
    + split; [eexists; split; [reflexivity|right; right; left]|by split].
    + exact (found_here demo_disk (lit "asm") (below STAGE1_SRC (demo_entry true "io")) [demo_entry false "bad.asm"]
        (demo_entry false "bad.asm") eq_refl (list_elem_of_here _ _) eq_refl eq_refl).
  - intros Hx. apply Hp in Hx. revert Hx.
    assert (Hc : (find_files (E:=Empty_set) 5 STAGE1_SRC (lit "asm") demo_disk).2 =
      Ok [STAGE1_SRC ++ lit "/io/bad.asm"; STAGE1_SRC ++ lit "/main.asm"]) by (vm_compute; reflexivity).
    rewrite Hl in Hc. injection Hc as ->. apply (bool_decide_unpack _). vm_compute. exact I.
Defined.

Definition demo_image : Disk :=
  <[lit ".build/stage3.bin" := replicate 1000 7]> (<[lit ".build/stage1.bin" := replicate 512 9]> demo_disk).
Lemma patch_two_bytes_witness :
  ∃ w' d' hi lo, patch_stage1 (E:=Empty_set) demo_image = (w', Ok ()) ∧ fs_read (lit ".build/stage1.bin") w' = Some d' ∧
    d' !! 0x1A0%nat = Some lo ∧ d' !! 0x1A1%nat = Some hi ∧ (lo + 256 * hi - 1) * 512 < 1000 ≤ (lo + 256 * hi) * 512.
Proof.
  pose proof (patch_two_bytes (E:=Empty_set) demo_image 1000 (replicate 512 9) eq_refl eq_refl ltac:(lia)) as Hpatch.
  destruct (patch_stage1 (E:=Empty_set) demo_image) as [w' r] eqn:Hw.
  assert (Hr : r = Ok ()) by (change r with (w', r).2; rewrite <- Hw; vm_compute; reflexivity). subst r.
  change (len (replicate 512 9) <=? 0x1A1) with false in Hpatch. cbv iota in Hpatch.
  destruct (Hpatch w' eq_refl) as (d'&lo&hi&Hd&_&Hlo&Hhi&_&_&Hn&_).
  exists w', d', hi, lo. split_and!; [reflexivity|exact Hd|exact Hlo|exact Hhi|apply Hn; lia|apply Hn; lia].
Defined.
